(* ===== verification/_CoqProject ===== *)
-Q . S2P
Prelude.v
GoStrings.v
Errors.v
GoMonad.v
Authz.v
ErrorTransport.v
Money.v
InventoryModel.v
InventoryStore.v
InventoryService.v
InventoryStock.v
InventoryProtocol.v
InventoryServer.v
InventoryLedger.v
InventoryProperties.v
Tables.v
OrderModel.v
OrderStore.v
CartStore.v
PaymentStore.v
OrderService.v
OrderServer.v
OrderTrace.v
OrderHandlers.v
OrderGateway.v
OrderHistory.v
OrderProperties.v
OrderRetry.v
PaymentProperties.v
RefundProperties.v
Reconciliation.v
OrderLimits.v
GatewayLaws.v
GatewayProperties.v
UserModel.v
AccountDeletion.v
UserStore.v
SessionStore.v
UserSessions.v
SessionProperties.v
BreakGlass.v
UserValidation.v
UserAccounts.v
UserIdentity.v
DeletionOutbox.v
DeletionProperties.v
GoodsModel.v
GoodsStore.v
GoodsSearch.v
GoodsService.v
GoodsServer.v
GoodsCalls.v
GoodsSync.v
GoodsSweeps.v
GoodsProperties.v
Redis.v
RedisStores.v
RedisProperties.v
UserGateway.v
UserGatewayLaws.v
UserGatewayProperties.v
PasswordGuesses.v
PaymentCallback.v
ReviewModel.v
ReviewProperties.v
