(* ===== verification/Prelude.v ===== *)
(** * GoShop: a verification development

    GoShop is a shop built from Go services behind an API gateway: inventory, orders
    with carts and payments, users with sessions and staff roles, goods and reviews.
    Each service has the same layers: a gRPC server ([controller]), a service
    ([service/v1]) and a store ([data/v1/db]) that issues SQL through GORM.  Orders
    and stock are tied together by a saga: submitting an order asks the inventory
    service to reserve stock and the order service to create the order, and each of
    the two steps has a compensation.  Payments arrive as provider events, refunds
    leave through an outbox, and a worker closes orders that were not paid.  The
    gateway holds the logins, the payment callbacks and the order of the calls to the
    services; what it counts and remembers is in Redis.

    The development translates these layers into Rocq functions, one for each Go
    function, and proves what makes them correct.  It is a shallow embedding: a Go
    function that reads or writes the database is a program of the monad [GoMonad.M],
    a state-passing function from the tables and a schedule of faults to a value, an
    error or a panic, and the tables after it.

    ** Files

    Shared:
    - [Prelude]: notation scope, tactics, hint databases, lemmas on lists and
      machine integers (wrap-around at 32 and 64 bits), Go's insertion sort.
    - [GoStrings]: what the code uses of [strings], [strconv] and [fmt]: trimming,
      case, splitting, decimal digits, with the round-trip lemmas.
    - [Errors]: [pkg/errors], [pkg/errcode], [app/pkg/bizcode],
      [app/pkg/errorcatalog], [app/pkg/errorcontract]: the registry of error
      contracts, error values, the bounded search through an error tree, texts.
    - [GoMonad]: the monad, transactions, and the rules to reason about programs:
      [steps] (a relation every run respects, whatever fails), [atomic] (a run that
      does not return changes nothing), [keeps]/[always] (invariants).
    - [Tables]: the SQL statements over a database of lists, transactions opened by
      hand, and the class [Ignores] of relations that do not see a table.
    - [Authz]: [app/pkg/authz]: permissions, built-in roles, who manages whom,
      resource scopes and their encoding in tokens.
    - [ErrorTransport]: [app/pkg/grpcerror] and [pkg/transport/httperror]: errors as
      gRPC statuses and as HTTP responses.  The gRPC status package is the class
      [grpc_status] with the laws its documentation promises.
    - [Money]: [pkg/money]: amounts in 64-bit fen.

    Inventory ([app/inventory/srv]):
    - [InventoryModel], [InventoryStore], [InventoryService], [InventoryServer]:
      rows, store, service and server.
    - [InventoryStock], [InventoryProtocol]: the effect of each statement on the
      stock, and the abstract specification of Sell, Reback and Confirm that the
      service refines.
    - [InventoryLedger]: the reachable states and their ledger invariant.
    - [InventoryProperties]: what follows for sequences of calls.

    Orders ([app/order/srv]):
    - [OrderModel], [OrderStore], [CartStore], [PaymentStore], [OrderService],
      [OrderServer]: rows, stores, service (creation, compensation, status updates,
      carts), server, submission saga and lifecycle sweep; [OrderTrace] the listings
      of payments, refunds and reconciliation runs, [OrderHandlers] the other handlers
      of the server and its messages.
    - [OrderHistory]: the transition relation of order states, the reachable states,
      and the invariant that ties a state to its log.
    - [OrderProperties], [OrderRetry]: amounts, the audit trail, redelivery and
      compensation of a creation.
    - [PaymentProperties], [RefundProperties], [Reconciliation]: payment events, the
      refund outbox, reconciliation with a provider's statement.
    - [OrderLimits]: three behaviours the code should not have, as theorems.
    - [AccountDeletion]: the order service's review of a request to delete an account.

    Users ([app/user/srv]):
    - [UserModel], [UserStore], [SessionStore], [UserSessions]: rows, the store of
      accounts, roles, scopes and audit logs, the store of sessions, blocked devices
      and break-glass approvals, and their service and handlers.
    - [SessionProperties], [BreakGlass]: the transition systems every call follows,
      and the theorems about sessions, devices and approvals.
    - [UserValidation]: names, mobile numbers, email addresses and passwords, with the
      regular expressions of the code matched by derivatives; [UserAccounts]: the
      service [service/v1/user.go], the paged list of users, and every handler of the
      gRPC server that is not about sessions.
    - [UserIdentity]: the calls of the user service as one type, the states they reach,
      the generic rule [steps_acall] for relations every handler respects, and the
      theorems about identifiers.
    - [DeletionOutbox], [DeletionProperties]: the outbox of account deletions with the
      sweep of its worker, and the theorems about handlers and sweeps together.

    Goods ([app/goods/srv]):
    - [GoodsModel], [GoodsStore], [GoodsSearch], [GoodsService], [GoodsServer]: rows,
      store, search store, service (goods, categories, brands, banners, relations,
      recovery, the outbox worker) and server.
    - [GoodsCalls]: the handlers that write as one type, the relation [others] of what
      other requests do meanwhile, and the class [search_laws] the search store
      implements for its clients.
    - [GoodsSync]: how every call moves the goods and the outbox, and the invariant
      that ties the search index to them; [GoodsSweeps]: sweeps of a worker left alone;
      [GoodsProperties]: the reachable states and the theorems.

    Reviews ([app/review/srv]):
    - [ReviewModel]: rows, store, service, purchase checks, gRPC server and one round
      of the rating worker; [ReviewProperties]: histories, the invariant of ratings,
      and the theorems.

    The API gateway ([app/goshop/api]) and Redis:
    - [Redis], [RedisStores]: the commands of [pkg/storage] on keys with expiry, and
      the stores on them: failed logins, failed codes, the limit of SMS, SMS and email
      codes, token versions, revoked tokens and callback nonces; [RedisProperties]:
      what sequences of calls of a store come to.
    - [OrderGateway]: the gateway's orders and payments, and [world], the order and
      the inventory service behind its clients; [GatewayLaws], [GatewayProperties]:
      how a call of a client moves the tables of both services, and the theorems about
      the composition.
    - [UserGateway]: the gateway's accounts, its client of the user service, the check
      of a request's token, and [gate], the user service and Redis behind them;
      [UserGatewayLaws], [UserGatewayProperties], [PasswordGuesses]: the class of
      clients that leave the keys alone, what every call keeps, and the theorems.
    - [PaymentCallback]: the signed callbacks of the payment provider.

    ** What the theorems show

    - Stock: as long as operators create and adjust rows in step with the reservations
      ([InventoryLedger.admissible]), one live row per goods, nothing negative, and the
      locked and sold quantities are exactly what the reservation records say; each
      call implements its abstract specification under every fault schedule; retries
      and late or repeated calls change nothing; releasing undoes selling; a reserved
      order can be settled.
    - Orders: as long as status messages name their order by number, or with its own id
      ([OrderHistory.by_number]), a state is explained by its log; nothing is refunded or
      finished without having been paid; a new order stores the exact sum of its lines;
      a redelivered creation is recognised or refused and changes nothing until the
      order is compensated; the compensation restores orders, lines and cart.
    - Payments and refunds: an accepted event is not handed out again unless its
      processing is reported as failed, and is final when completed; a refund has one
      outbox entry, a claimed one is not claimed again within the lock timeout unless
      it is completed, and a successful one never; a reconciliation run reports a
      mismatch exactly when there is one.
    - Errors: an error that is no gRPC status and no context error keeps its status,
      code and message through gRPC, and no other text reaches a client.
    - Users: an ended session stays ended, a refresh token is exchanged once, a
      blocked device id has no live session, emergency access takes two people and works
      once; one identifier leads to one account, and whoever registered can log in,
      mobile numbers of the shape [15@] and eight digits aside; a request to delete an
      account always has its event, a sweep delivers a batch of what is due exactly once
      and repeated sweeps drain the backlog; managing roles never hands out more than one
      holds; scopes without the separator decide the same after a trip through a token;
      an account deletion is decided once.
    - Goods: the search index follows the goods, whatever fails and while handlers other
      than reindexing run between the steps of the one worker; late enough sweeps settle
      every event, and restore the index when the search service accepts and no dead
      event was left; a write that was overtaken stays.
    - Money: arithmetic is exact or an error; printing and parsing round-trip.
    - Reviews: when requests do not overlap, a rating is that of the approved reviews or
      an event is waiting that will make it so, and the sweeps of a database that answers
      make it so; a rebuild that was overtaken leaves a wrong one.
    - The gateway and the services together: a payment callback settles the stock of
      the order's own lines before it moves the order, whatever is lost on the way,
      and redelivering it completes it while the stock is reserved; a callback of the
      provider is handed on once; wrong passwords for an identifier and SMS of a kind to
      a number are limited; a code logs in once; logging out everywhere ends every token.
      With the order server as it is no provider callback is accepted and no review
      created, and an order whose cancellation got half way can be paid without stock.
    - A few theorems state a limit of the code (ten order lines do not fit a column,
      a status message with a foreign id, a second refund, a refund that blocks its
      batch); each is also listed as a finding.

    ** How the code is modelled

    - The clock, [uuid.NewString()] and the answers of other services (the goods
      catalogue, the inventory release of the lifecycle worker, the saga coordinator)
      are arguments.  Integers are [Z] with wrap-around written where the code can
      overflow.
    - Every database statement, [Begin] and [Commit] included, takes one entry of the
      fault schedule and fails when the schedule says so; theorems quantify over all
      schedules.  A transaction restores the tables when it does not commit.
    - Calls of a service run one after another, and the theorems about reachable states
      are about such sequences.  The code enforces that only in part: the inventory
      service holds a Redis lock (whether it was obtained is an argument), and the claims
      of refunds, the approvals and several updates lock their rows with
      [SELECT .. FOR UPDATE]; but [orderService.Create] and [Update], the review service's
      [RebuildRating] and [CreateSession] check and write with neither a lock nor a
      transaction around both, so that overlapping calls can do what no sequence does
      (each is a finding).  Interleaved calls are modelled in one place: handlers of
      the goods service run while its worker waits for the search service
      ([GoodsCalls.others]).
    - A table is the list of its rows; the schema's keys are the checks of the insert
      and update statements; ids the database assigns are one more than the largest.
      [RowsAffected] counts matched rows on tables with an update time and changed
      rows on the others.  Strings are compared exactly (no collation), case mapping
      is that of ASCII.  Column widths are enforced on accounts and on the reservation's
      detail; on other columns, and for dates outside MySQL's range and text that is not
      UTF-8, the database's refusal is covered only as a fault, any statement being
      allowed to fail.  MySQL's order among rows that [ORDER BY] leaves equal is a
      parameter.
    - JSON columns hold the value they encode; for the reservation's detail the text
      is written out, because its length matters.
    - The Unicode tables above U+00FF, the syntax of IP addresses, bcrypt and PBKDF2 are
      the fields of the class [UserValidation.account_libs], with what their
      documentation promises in [account_laws]; [UserIdentity.demo_libs] is an instance.
      The event bus is a function from an event to its answer.
    - The Elasticsearch client is the class [GoodsSearch.elastic_client] with its laws;
      the order of rows under an [ORDER BY] is the class [GoodsModel.sql_order].  The
      index is a map beside the tables.  [BatchGet] runs its reads concurrently: the
      order they finish in is an argument.
    - A call of a service by the gateway runs that service's handler behind its
      interceptors.  It takes two entries of the fault schedule: the request may be
      lost before the handler runs and the answer after it.  A Redis command can fail
      without effect and can lose its answer too; a key is present until its expiry
      has passed.  An operation of the gateway reads the clock once.  What is drawn at
      random (refresh tokens, device ids, codes) is an argument.  Signing and parsing
      of JWTs (class [UserGateway.jwt], its laws in [UserGatewayProperties.jwt_laws]),
      HMAC, JSON decoding and digests are parameters.
    - Log output, metrics and tracing are left out.

    ** Bounds and fuel

    Functions are structurally recursive or carry a bound of the code itself: the
    search through an error tree visits at most 1000 nodes ([maxErrorTreeNodes], the
    code's own limit; [Errors.IsCode_any_node] shows that a smaller tree is searched
    completely), and decimal printing has 20 digits, enough for 64 bits
    ([GoStrings.uint_digits_value]).  Reindexing all goods
    reads pages until one is empty; its fuel bounds their number, and without fuel the
    run is the loop still going.  Go's [sort.Sort] is the insertion sort it runs
    on slices of up to twelve elements; the theorems use only that the result is a
    sorted permutation.

    ** Not modelled

    Of the gateway: the HTTP controllers, which bind a gin request to an operation,
    the refund worker's loop and the provider's HTTP client.  The admin gateway, whose
    handlers check a permission of [Authz] and forward to the services.  The gRPC,
    HTTP and Consul wiring of [gmicro], the rest of the Redis client, the logging and
    Kubernetes helpers under [pkg], generated code and command line tools, which hold
    no logic of the shop. *)

From Stdlib Require Export Ascii ZArith Lia Sorted Permutation.
From stdpp Require Export base list gmap strings sorting.

Declare Scope go_scope.
Delimit Scope go_scope with go.

#[global] Open Scope Z_scope.

(** ** Proof automation shared by every file *)

(** Hint databases: [go] holds the lemmas that close routine side goals by
    [eauto], [gobool] the rewrites that turn boolean tests into propositions. *)
Create HintDb go discriminated.
Create Rewrite HintDb gobool.
Create Rewrite HintDb gostr.

#[export] Hint Rewrite andb_true_iff orb_true_iff negb_true_iff andb_false_iff
  orb_false_iff negb_false_iff Z.eqb_eq Z.eqb_neq Z.ltb_lt Z.ltb_ge Z.leb_le
  Z.leb_gt bool_decide_eq_true bool_decide_eq_false : gobool.

(** Turn every boolean hypothesis and goal into arithmetic or propositions. *)
Ltac bprop := autorewrite with gobool in *.

(** Close an arithmetic goal whose facts are still boolean tests. *)
Ltac blia := bprop; lia.

(** Split the conjunctions and existentials of the context. *)
Ltac splits :=
  repeat match goal with
         | H : _ /\ _ |- _ => destruct H
         | H : exists _, _ |- _ => destruct H
         end.

(** Case analysis on every [match]/[if] scrutinee of the goal, closing the
    branches that contradict the context. *)
Ltac cases :=
  repeat (case_match; simplify_eq/=; try done).

(** ** Machine integers *)

(** Go's fixed-width integers are [Z]; the width shows in the wrap-around. *)
Definition int32_min : Z := - 2 ^ 31.
Definition int32_max : Z := 2 ^ 31 - 1.
Definition int64_min : Z := - 2 ^ 63.
Definition int64_max : Z := 2 ^ 63 - 1.
Definition uint64_max : Z := 2 ^ 64 - 1.

(** Conversion to a two's complement type of [w] bits. *)
Definition wrap_signed (w z : Z) : Z := (z + 2 ^ (w - 1)) mod 2 ^ w - 2 ^ (w - 1).
Definition wrap32 (z : Z) : Z := wrap_signed 32 z.
Definition wrap64 (z : Z) : Z := wrap_signed 64 z.
Definition wrapu64 (z : Z) : Z := z mod 2 ^ 64.

Definition is_int32 (z : Z) : Prop := int32_min <= z <= int32_max.
Definition is_int64 (z : Z) : Prop := int64_min <= z <= int64_max.
Definition is_uint64 (z : Z) : Prop := 0 <= z <= uint64_max.

#[export] Instance is_int32_dec z : Decision (is_int32 z) := _.
#[export] Instance is_int64_dec z : Decision (is_int64 z) := _.
#[export] Instance is_uint64_dec z : Decision (is_uint64 z) := _.

Ltac unfold_int :=
  unfold is_int32, is_int64, is_uint64, int32_min, int32_max, int64_min,
    int64_max, uint64_max in *.

Lemma wrap_signed_id w z :
  0 < w -> - 2 ^ (w - 1) <= z < 2 ^ (w - 1) -> wrap_signed w z = z.
Proof.
  intros Hw Hz. unfold wrap_signed.
  assert (2 ^ w = 2 * 2 ^ (w - 1)) as E.
  { rewrite <- Z.pow_succ_r by lia. f_equal; lia. }
  rewrite Z.mod_small by lia. lia.
Qed.

Lemma wrap32_id z : is_int32 z -> wrap32 z = z.
Proof. intros H. apply wrap_signed_id; [lia|]. unfold_int. simpl in *. lia. Qed.

Lemma wrap64_id z : is_int64 z -> wrap64 z = z.
Proof. intros H. apply wrap_signed_id; [lia|]. unfold_int. simpl in *. lia. Qed.

Lemma wrapu64_id z : is_uint64 z -> wrapu64 z = z.
Proof. intros H. unfold wrapu64. apply Z.mod_small. unfold_int. lia. Qed.

Lemma wrap_signed_range w z : 0 < w -> - 2 ^ (w - 1) <= wrap_signed w z < 2 ^ (w - 1).
Proof.
  intros Hw. unfold wrap_signed.
  assert (2 ^ w = 2 * 2 ^ (w - 1)) as E.
  { rewrite <- Z.pow_succ_r by lia. f_equal; lia. }
  pose proof (Z.mod_pos_bound (z + 2 ^ (w - 1)) (2 ^ w)).
  assert (0 < 2 ^ (w - 1)) by (apply Z.pow_pos_nonneg; lia). lia.
Qed.

Lemma wrap32_range z : is_int32 (wrap32 z).
Proof. pose proof (wrap_signed_range 32 z). unfold_int. unfold wrap32. simpl in *. lia. Qed.

#[export] Hint Resolve wrap32_id wrap64_id wrapu64_id wrap32_range : go.
#[global] Opaque wrap_signed.

(** ** Lists *)

(** The sum of [f] over a list: the totals every ledger property is about. *)
Fixpoint sumZ {A} (f : A -> Z) (l : list A) : Z :=
  match l with
  | [] => 0
  | x :: l => f x + sumZ f l
  end.

Section Sums.
Context {A : Type}.
Implicit Types (f g : A -> Z) (l : list A).

Lemma sumZ_app f l1 l2 : sumZ f (l1 ++ l2) = sumZ f l1 + sumZ f l2.
Proof. induction l1; simpl; lia. Qed.

Lemma sumZ_perm f l1 l2 : l1 ≡ₚ l2 -> sumZ f l1 = sumZ f l2.
Proof. induction 1; simpl; lia. Qed.

Lemma sumZ_nonneg f l : Forall (fun x => 0 <= f x) l -> 0 <= sumZ f l.
Proof. induction 1; simpl; lia. Qed.

Lemma sumZ_ext f g l : (forall x, x ∈ l -> f x = g x) -> sumZ f l = sumZ g l.
Proof.
  induction l as [|x l IH]; intros H; simpl; [done|].
  rewrite (H x), IH; [done| |left]. intros y Hy. apply H. by right.
Qed.

Lemma sumZ_add f g l : sumZ (fun x => f x + g x) l = sumZ f l + sumZ g l.
Proof. induction l; simpl; lia. Qed.

Lemma sumZ_zero l : sumZ (fun _ => 0) l = 0.
Proof. induction l; simpl; lia. Qed.
End Sums.

Lemma NoDup_fmap_filter {A B} (f : A -> B) (p : A -> bool) l : NoDup (f <$> l) -> NoDup (f <$> List.filter p l).
Proof.
  induction l as [|x l IH]; [done|]. cbn. intros [Hx Hl]%NoDup_cons. destruct (p x); [|by apply IH]. cbn.
  apply NoDup_cons. split; [|by apply IH]. intros (y & E & [Hy _]%list_elem_of_In%filter_In)%list_elem_of_fmap.
  apply Hx. rewrite E. apply list_elem_of_fmap_2. by apply list_elem_of_In.
Qed.
Lemma filter_fmap_length {A B} (p : B -> bool) (f : A -> B) l :
  length (List.filter p (f <$> l)) = length (List.filter (fun a => p (f a)) l).
Proof. induction l as [|x l IH]; [done|]. rewrite fmap_cons. cbn [List.filter]. destruct (p (f x)); cbn [length]; by rewrite IH. Qed.

(** ** [sort.Sort]

    Go's insertion sort, the routine [sort.Sort] runs on slices of at most
    twelve elements: element [i] moves left while it is less than its left
    neighbour.  The sorted prefix is kept reversed. *)
Section GoSort.
Context {A : Type} (less : A -> A -> bool).

Fixpoint sift (x : A) (rprefix : list A) : list A :=
  match rprefix with
  | [] => [x]
  | y :: ys => if less x y then y :: sift x ys else x :: y :: ys
  end.

Definition go_sort (l : list A) : list A :=
  rev (fold_left (fun rprefix x => sift x rprefix) l []).

Lemma sift_perm x l : sift x l ≡ₚ x :: l.
Proof.
  induction l as [|y ys IH]; simpl; [done|].
  destruct (less x y); [|done]. rewrite IH. apply Permutation_swap.
Qed.

Lemma fold_sift_perm l acc : fold_left (fun rp x => sift x rp) l acc ≡ₚ l ++ acc.
Proof.
  revert acc. induction l as [|x l IH]; intros acc; simpl; [done|].
  rewrite IH, sift_perm. symmetry. apply Permutation_middle.
Qed.

Lemma go_sort_perm l : go_sort l ≡ₚ l.
Proof. unfold go_sort. by rewrite <- Permutation_rev, fold_sift_perm, app_nil_r. Qed.

Context (R : A -> A -> Prop) `{!Transitive R}
  (less_R : forall x y, less x y = true -> R x y)
  (nless_R : forall x y, less x y = false -> R y x).

Lemma sift_sorted x l : StronglySorted (flip R) l -> StronglySorted (flip R) (sift x l).
Proof.
  induction 1 as [|y ys Hs IH Hy]; simpl; [repeat constructor|].
  destruct (less x y) eqn:E.
  - constructor; [done|]. rewrite sift_perm. constructor; [by apply less_R|done].
  - apply nless_R in E. repeat constructor; [done..|].
    eapply Forall_impl; [exact Hy|]. unfold flip. intros z Hz. by etrans.
Qed.

Lemma go_sort_sorted l : StronglySorted R (go_sort l).
Proof.
  unfold go_sort.
  assert (forall l acc, StronglySorted (flip R) acc ->
            StronglySorted (flip R) (fold_left (fun rp x => sift x rp) l acc)) as H.
  { clear l. induction l as [|x l IH]; intros acc Hacc; simpl; [done|].
    apply IH. by apply sift_sorted. }
  specialize (H l [] ltac:(constructor)).
  induction H as [|y ys Hs IH Hy]; simpl; [constructor|].
  apply StronglySorted_app_2; [|done|repeat constructor].
  intros a b Ha Hb. apply list_elem_of_singleton in Hb as ->.
  rewrite Forall_forall in Hy. apply Hy.
  apply list_elem_of_In, in_rev, list_elem_of_In. done.
Qed.
End GoSort.

(** ** Searching and counting in lists *)

Lemma NoDup_snoc {A} (l : list A) y : NoDup l -> y ∉ l -> NoDup (l ++ [y]).
Proof.
  intros Hl Hy. apply NoDup_app. split; [done|]. split; [|apply NoDup_singleton].
  intros z Hz ->%list_elem_of_singleton. done.
Qed.

(** What a key names is unique. *)
Lemma NoDup_fmap_eq {A B} (f : A -> B) (l : list A) x y : NoDup (f <$> l) -> x ∈ l -> y ∈ l -> f x = f y -> x = y.
Proof.
  intros Hn Hx Hy E. apply list_elem_of_lookup in Hx as [i Hi]. apply list_elem_of_lookup in Hy as [j Hj].
  assert (i = j) as ->; [|congruence].
  eapply (NoDup_lookup _ i j (f x)); [exact Hn| |]; rewrite list_lookup_fmap; [by rewrite Hi|by rewrite Hj, E].
Qed.

(** Ids the database assigns are one more than the largest. *)
Lemma fresh_above {A} (id : A -> Z) (l : list A) n : n = 1 + fold_right Z.max 0 (id <$> l) -> 0 < n /\ n ∉ id <$> l.
Proof.
  intros ->.
  assert (0 <= fold_right Z.max 0 (id <$> l)) by (induction (id <$> l); simpl; lia).
  assert (forall x, x ∈ id <$> l -> x <= fold_right Z.max 0 (id <$> l)) as Hle.
  { clear H. induction (id <$> l) as [|y k IH]; intros x; [by intros ?%elem_of_nil|].
    intros [->|Hx]%elem_of_cons; simpl; [lia|]. specialize (IH x Hx). lia. }
  split; [lia|]. intros Hin%Hle. lia.
Qed.
Lemma max_id_fresh {A} (id : A -> Z) (l : list A) : 1 + fold_right Z.max 0 (id <$> l) ∉ id <$> l.
Proof. by apply fresh_above. Qed.

Lemma existsb_false_elem {A} (p : A -> bool) l x : existsb p l = false -> x ∈ l -> p x = false.
Proof.
  intros H Hx. destruct (p x) eqn:E; [|done].
  assert (existsb p l = true) as Ht by (apply existsb_exists; exists x; split; [by apply list_elem_of_In|done]). congruence.
Qed.

Lemma count_zero_existsb {A} (p : A -> bool) l : (0 <? Z.of_nat (length (List.filter p l))) = false -> existsb p l = false.
Proof.
  intros H. destruct (existsb p l) eqn:E; [|done]. apply existsb_exists in E as (x & Hx & Hp).
  assert (In x (List.filter p l)) as Hin by (by apply filter_In).
  destruct (List.filter p l); [done|]. cbn [length] in H. blia.
Qed.

#[export] Instance list_filter_Permutation {A} (p : A -> bool) : Proper (Permutation ==> Permutation) (List.filter p).
Proof.
  intros l l' H. induction H as [|x l l' _ IH|x y l|l1 l2 l3 _ IH1 _ IH2]; [done| | |by etrans].
  - cbn. destruct (p x); [by f_equiv|done].
  - cbn. destruct (p x), (p y); try done. apply Permutation_swap.
Qed.
Lemma filter_all {A} (p : A -> bool) l : (forall x, x ∈ l -> p x = true) -> List.filter p l = l.
Proof.
  intros H. induction l as [|x l IH]; [done|]. cbn. rewrite (H x) by left. f_equal. apply IH. intros y Hy. apply H. by right.
Qed.
Lemma filter_nil {A} (p : A -> bool) l : (forall x, x ∈ l -> p x = false) -> List.filter p l = [].
Proof.
  induction l as [|x l IH]; intros H; [done|]. simpl. rewrite (H x) by set_solver. apply IH. set_solver.
Qed.
