(* ===== verification/GoStrings.v ===== *)
(** * Go's [strings], [strconv] and [fmt] routines the program calls

    Strings are byte sequences, as in Go.  [TrimSpace] strips every Unicode
    white space character in its UTF-8 encoding; [ToLower] and [ToUpper] act on
    the ASCII letters and leave every other byte as it is. *)
From S2P Require Import Prelude.

Abbreviation explode := Stdlib.Strings.String.list_ascii_of_string.
Abbreviation implode := Stdlib.Strings.String.string_of_list_ascii.
Abbreviation slength := Stdlib.Strings.String.length.

Lemma implode_explode s : implode (explode s) = s.
Proof. apply Stdlib.Strings.String.string_of_list_ascii_of_string. Qed.

Lemma explode_implode l : explode (implode l) = l.
Proof. apply Stdlib.Strings.String.list_ascii_of_string_of_list_ascii. Qed.

Lemma explode_app s1 s2 : explode (s1 +:+ s2) = explode s1 ++ explode s2.
Proof.
  induction s1 as [|c s1 IH]; [done|].
  change (c :: explode (s1 +:+ s2) = c :: explode s1 ++ explode s2). by f_equal.
Qed.

#[export] Hint Rewrite implode_explode explode_implode explode_app : gostr.

(** The byte value of a character. *)
Definition code (c : Ascii.ascii) : Z := Z.of_N (Ascii.N_of_ascii c).

(** ** [strings.TrimSpace] *)

(** One-, two- and three-byte encodings of the characters [unicode.IsSpace]
    accepts: U+0009-U+000D, U+0020; U+0085, U+00A0; U+1680, U+2000-U+200A,
    U+2028, U+2029, U+202F, U+205F, U+3000. *)
Definition space1 (a : Ascii.ascii) : bool :=
  ((9 <=? code a) && (code a <=? 13)) || (code a =? 32).
Definition space2 (a b : Ascii.ascii) : bool :=
  (code a =? 0xC2) && ((code b =? 0x85) || (code b =? 0xA0)).
Definition space3 (a b c : Ascii.ascii) : bool :=
  ((code a =? 0xE1) && (code b =? 0x9A) && (code c =? 0x80)) ||
  ((code a =? 0xE2) && (code b =? 0x80) &&
     (((0x80 <=? code c) && (code c <=? 0x8A)) || (code c =? 0xA8) ||
      (code c =? 0xA9) || (code c =? 0xAF))) ||
  ((code a =? 0xE2) && (code b =? 0x81) && (code c =? 0x9F)) ||
  ((code a =? 0xE3) && (code b =? 0x80) && (code c =? 0x80)).

Section Strip.
Context (p1 : Ascii.ascii -> bool) (p2 : Ascii.ascii -> Ascii.ascii -> bool)
  (p3 : Ascii.ascii -> Ascii.ascii -> Ascii.ascii -> bool).

(** Drop the white space characters a byte sequence starts with. *)
Fixpoint strip (l : list Ascii.ascii) : list Ascii.ascii :=
  match l with
  | [] => []
  | a :: l1 =>
    if p1 a then strip l1 else
    match l1 with
    | [] => l
    | b :: l2 =>
      if p2 a b then strip l2 else
      match l2 with
      | [] => l
      | c :: l3 => if p3 a b c then strip l3 else l
      end
    end
  end.

Lemma strip_ind (P : list Ascii.ascii -> list Ascii.ascii -> Prop) :
  (forall l, strip l = l -> P l l) ->
  (forall a l, P l (strip l) -> P (a :: l) (strip l)) ->
  (forall a b l, P l (strip l) -> P (a :: b :: l) (strip l)) ->
  (forall a b c l, P l (strip l) -> P (a :: b :: c :: l) (strip l)) ->
  forall l, P l (strip l).
Proof.
  intros H0 H1 H2 H3 l. induction l as [l IH] using (induction_ltof1 _ length).
  unfold ltof in IH. destruct l as [|a l1]; [by apply H0|].
  assert (P l1 (strip l1)) as Hl1 by (apply IH; simpl; lia).
  cbn [strip]. destruct (p1 a) eqn:E1; [by apply H1|].
  destruct l1 as [|b l2]; [apply H0; simpl; by rewrite E1|].
  destruct (p2 a b) eqn:E2; [apply H2, IH; simpl; lia|].
  destruct l2 as [|c l3]; [apply H0; simpl; by rewrite E1, E2|].
  destruct (p3 a b c) eqn:E3; [apply H3, IH; simpl; lia|].
  apply H0. simpl. by rewrite E1, E2, E3.
Qed.

Lemma strip_idem l : strip (strip l) = strip l.
Proof. apply (strip_ind (fun _ r => strip r = r)); auto. Qed.

Lemma strip_suffix l : exists pre, l = pre ++ strip l.
Proof.
  apply (strip_ind (fun l r => exists pre, l = pre ++ r)); clear l.
  - intros l _. by exists [].
  - intros a l [pre E]. exists (a :: pre). by rewrite E at 1.
  - intros a b l [pre E]. exists (a :: b :: pre). by rewrite E at 1.
  - intros a b c l [pre E]. exists (a :: b :: c :: pre). by rewrite E at 1.
Qed.

Lemma strip_length l : (length (strip l) <= length l)%nat.
Proof. destruct (strip_suffix l) as [pre E]. rewrite E at 2. rewrite length_app. lia. Qed.

(** A prefix of a sequence with no leading space has none either. *)
Lemma strip_prefix l1 l2 : strip (l1 ++ l2) = l1 ++ l2 -> strip l1 = l1.
Proof.
  assert (forall l m, strip l = m -> (length m <= length l)%nat) as Hlen.
  { intros l m <-. apply strip_length. }
  destruct l1 as [|a l1]; [done|]. cbn [strip app].
  destruct (p1 a); [intros H; apply Hlen in H; simpl in H; lia|].
  destruct l1 as [|b l1]; [done|]. cbn [app].
  destruct (p2 a b); [intros H; apply Hlen in H; simpl in H; lia|].
  destruct l1 as [|c l1]; [done|]. cbn [app].
  destruct (p3 a b c); [intros H; apply Hlen in H; simpl in H; lia|done].
Qed.

(** A byte mapping the tests cannot see commutes with dropping. *)
Lemma strip_map f l :
  (forall a, p1 (f a) = p1 a) -> (forall a b, p2 (f a) (f b) = p2 a b) ->
  (forall a b c, p3 (f a) (f b) (f c) = p3 a b c) -> strip (f <$> l) = f <$> strip l.
Proof.
  intros H1 H2 H3. induction l as [l IH] using (induction_ltof1 _ length). unfold ltof in IH.
  destruct l as [|a l1]; [done|]. rewrite fmap_cons. cbn [strip]. rewrite H1. destruct (p1 a); [apply IH; simpl; lia|].
  destruct l1 as [|b l2]; [done|]. rewrite fmap_cons. cbn iota. rewrite H2. destruct (p2 a b); [apply IH; simpl; lia|].
  destruct l2 as [|c l3]; [done|]. rewrite fmap_cons. cbn iota. rewrite H3. destruct (p3 a b c); [apply IH; simpl; lia|done].
Qed.
End Strip.

Definition trim_left (l : list Ascii.ascii) : list Ascii.ascii :=
  strip space1 space2 space3 l.
Definition trim_right (l : list Ascii.ascii) : list Ascii.ascii :=
  rev (strip space1 (fun b a => space2 a b) (fun c b a => space3 a b c) (rev l)).

Definition TrimSpace (s : string) : string := implode (trim_right (trim_left (explode s))).

Lemma trim_right_prefix l : exists suf, l = trim_right l ++ suf.
Proof.
  unfold trim_right.
  destruct (strip_suffix space1 (fun b a => space2 a b) (fun c b a => space3 a b c) (rev l))
    as [pre E].
  exists (rev pre). rewrite <- (rev_involutive l) at 1. rewrite E at 1. by rewrite rev_app_distr.
Qed.

Lemma trim_right_idem l : trim_right (trim_right l) = trim_right l.
Proof. unfold trim_right. by rewrite rev_involutive, strip_idem. Qed.

(** Trimming twice is trimming once: services and stores both trim. *)
Lemma TrimSpace_idem s : TrimSpace (TrimSpace s) = TrimSpace s.
Proof.
  unfold TrimSpace. rewrite explode_implode. f_equal.
  destruct (trim_right_prefix (trim_left (explode s))) as [suf E].
  assert (trim_left (trim_right (trim_left (explode s))) = trim_right (trim_left (explode s))) as ->.
  { apply (strip_prefix _ _ _ _ suf). rewrite <- E. apply strip_idem. }
  apply trim_right_idem.
Qed.

Lemma TrimSpace_empty : TrimSpace "" = "".
Proof. done. Qed.

#[export] Hint Rewrite TrimSpace_idem TrimSpace_empty : gostr.

(** ** Case mapping on ASCII letters *)
Definition lower_char (c : Ascii.ascii) : Ascii.ascii :=
  if (65 <=? code c) && (code c <=? 90)
  then Ascii.ascii_of_N (Z.to_N (code c + 32)) else c.
Definition upper_char (c : Ascii.ascii) : Ascii.ascii :=
  if (97 <=? code c) && (code c <=? 122)
  then Ascii.ascii_of_N (Z.to_N (code c - 32)) else c.

Definition ToLower (s : string) : string := implode (lower_char <$> explode s).
Definition ToUpper (s : string) : string := implode (upper_char <$> explode s).
(** [a == b] on strings. *)
Definition seqb (a b : string) : bool := bool_decide (a = b).
Definition EqualFold (s t : string) : bool := bool_decide (ToLower s = ToLower t).

Lemma lower_char_case c :
  (65 <= code c <= 90 /\ code (lower_char c) = code c + 32) \/ lower_char c = c.
Proof.
  unfold lower_char. destruct (Z.leb_spec 65 (code c)), (Z.leb_spec (code c) 90); [|by right..].
  left. simpl. split; [lia|]. unfold code at 1. rewrite Ascii.N_ascii_embedding; lia.
Qed.

Lemma lower_char_idem c : lower_char (lower_char c) = lower_char c.
Proof.
  destruct (lower_char_case c) as [[H E]|E]; [|by rewrite !E].
  destruct (lower_char_case (lower_char c)) as [[H' _]|E']; [lia|done].
Qed.

(** Decide the comparisons of a letter's code with constants. *)
Ltac letter_code :=
  repeat match goal with
         | |- context [?x =? ?k] => rewrite (proj2 (Z.eqb_neq x k)) by lia
         | |- context [?x <=? ?k] =>
           first [rewrite (proj2 (Z.leb_le x k)) by lia | rewrite (proj2 (Z.leb_gt x k)) by lia]
         end.
Ltac lower_case a :=
  let H := fresh "H" in let E := fresh "E" in
  destruct (lower_char_case a) as [[H E]|E]; rewrite E; [letter_code|].

(** White space has no letters. *)
Lemma space1_lower a : space1 (lower_char a) = space1 a.
Proof. unfold space1. lower_case a; done. Qed.
Lemma space2_lower a b : space2 (lower_char a) (lower_char b) = space2 a b.
Proof. unfold space2. lower_case a; [done|]. lower_case b; done. Qed.
Lemma space3_lower a b c : space3 (lower_char a) (lower_char b) (lower_char c) = space3 a b c.
Proof.
  unfold space3. lower_case a; [done|]. lower_case b; [by rewrite !andb_false_r|].
  lower_case c; [by rewrite !andb_false_r|done].
Qed.

(** Lower case and trimming commute. *)
Lemma ToLower_TrimSpace s : ToLower (TrimSpace s) = TrimSpace (ToLower s).
Proof.
  unfold ToLower, TrimSpace. rewrite !explode_implode. f_equal. unfold trim_right, trim_left.
  rewrite (strip_map space1 space2 space3 lower_char) by auto using space1_lower, space2_lower, space3_lower.
  assert (forall l, lower_char <$> rev l = rev (lower_char <$> l)) as Hrev by (intros l; apply map_rev).
  rewrite Hrev. f_equal. rewrite <- Hrev. symmetry.
  apply strip_map; intros; [apply space1_lower|apply space2_lower|apply space3_lower].
Qed.

Lemma ToLower_idem s : ToLower (ToLower s) = ToLower s.
Proof.
  unfold ToLower. rewrite explode_implode. f_equal. rewrite <- list_fmap_compose.
  apply list_fmap_ext. intros i c _. apply lower_char_idem.
Qed.

(** ** Splitting *)

(** [strings.Split s sep] for a one-byte separator. *)
Fixpoint split_on (sep : Ascii.ascii) (l cur : list Ascii.ascii) : list (list Ascii.ascii) :=
  match l with
  | [] => [rev cur]
  | c :: l => if bool_decide (c = sep) then rev cur :: split_on sep l [] else split_on sep l (c :: cur)
  end.
Definition Split (s : string) (sep : Ascii.ascii) : list string :=
  implode <$> split_on sep (explode s) [].

(** [strings.Fields]: maximal runs of characters that are not white space. *)
Definition flush (cur : list Ascii.ascii) : list (list Ascii.ascii) :=
  match cur with [] => [] | _ => [rev cur] end.
Fixpoint fields_go (l cur : list Ascii.ascii) : list (list Ascii.ascii) :=
  match l with
  | [] => flush cur
  | a :: l1 =>
    if space1 a then flush cur ++ fields_go l1 [] else
    match l1 with
    | [] => fields_go l1 (a :: cur)
    | b :: l2 =>
      if space2 a b then flush cur ++ fields_go l2 [] else
      match l2 with
      | [] => fields_go l1 (a :: cur)
      | c :: l3 =>
        if space3 a b c then flush cur ++ fields_go l3 [] else fields_go l1 (a :: cur)
      end
    end
  end.
Definition Fields (s : string) : list string := implode <$> fields_go (explode s) [].

(** [strings.ReplaceAll s c empty] for a one-byte [c]. *)
Definition RemoveAll (s : string) (c : Ascii.ascii) : string :=
  implode (filter (fun x => x <> c) (explode s)).

Lemma split_on_no_sep sep l cur :
  sep ∉ l -> split_on sep l cur = [rev cur ++ l].
Proof.
  revert cur. induction l as [|c l IH]; intros cur H; simpl; [by rewrite app_nil_r|].
  apply not_elem_of_cons in H as [Hc Hl].
  rewrite bool_decide_eq_false_2 by done. rewrite IH by done. simpl. by rewrite <- app_assoc.
Qed.

Lemma split_on_one sep l1 l2 cur :
  sep ∉ l1 -> split_on sep (l1 ++ sep :: l2) cur = (rev cur ++ l1) :: split_on sep l2 [].
Proof.
  revert cur. induction l1 as [|c l IH]; intros cur H; simpl.
  - by rewrite bool_decide_eq_true_2, app_nil_r.
  - apply not_elem_of_cons in H as [Hc Hl].
    rewrite bool_decide_eq_false_2 by done. rewrite IH by done. simpl. by rewrite <- app_assoc.
Qed.

(** ** Decimal numbers *)

Definition is_digit (c : Ascii.ascii) : bool := (48 <=? code c) && (code c <=? 57).
Definition digit_char (d : Z) : Ascii.ascii := Ascii.ascii_of_N (Z.to_N (48 + d)).

(** The decimal digits of [n], most significant first; [fuel] bounds their
    number, and 20 digits cover every 64-bit value. *)
Fixpoint digits_aux (fuel : nat) (n : Z) (acc : list Ascii.ascii) : list Ascii.ascii :=
  match fuel with
  | O => acc
  | S f => if n <? 10 then digit_char n :: acc
           else digits_aux f (n / 10) (digit_char (n mod 10) :: acc)
  end.
Definition uint_digits (n : Z) : list Ascii.ascii := digits_aux 20 n [].

(** [%d] of a signed 64-bit value. *)
Definition itoa (z : Z) : string :=
  if z <? 0 then "-" +:+ implode (uint_digits (- z)) else implode (uint_digits z).

(** [%0wd] of a nonnegative value: zeros on the left up to width [w]. *)
Definition pad_zero (w : nat) (l : list Ascii.ascii) : list Ascii.ascii :=
  replicate (w - length l) (digit_char 0) ++ l.

(** The number a digit string denotes. *)
Definition digit_value (c : Ascii.ascii) : Z := code c - 48.
Definition digits_from (v : Z) (l : list Ascii.ascii) : Z :=
  fold_left (fun v c => 10 * v + digit_value c) l v.

Lemma code_digit_char d : 0 <= d <= 9 -> code (digit_char d) = 48 + d.
Proof.
  intros H. unfold code, digit_char.
  rewrite Ascii.N_ascii_embedding by lia. lia.
Qed.

Lemma digit_value_char d : 0 <= d <= 9 -> digit_value (digit_char d) = d.
Proof. intros H. unfold digit_value. rewrite code_digit_char by done. lia. Qed.

Lemma is_digit_char d : 0 <= d <= 9 -> is_digit (digit_char d) = true.
Proof. intros H. unfold is_digit. rewrite code_digit_char by done. blia. Qed.

Lemma digit_value_range c : is_digit c = true -> 0 <= digit_value c <= 9.
Proof. unfold is_digit, digit_value. intros. blia. Qed.

#[global] Arguments digits_from : simpl never.

Lemma digits_from_nil v : digits_from v [] = v.
Proof. done. Qed.

Lemma digits_from_cons v c l : digits_from v (c :: l) = digits_from (10 * v + digit_value c) l.
Proof. done. Qed.

Lemma digits_from_split v l : digits_from v l = v * 10 ^ Z.of_nat (length l) + digits_from 0 l.
Proof.
  revert v. induction l as [|c l IH]; intros v; [rewrite !digits_from_nil; simpl; lia|].
  rewrite !digits_from_cons, (IH (10 * v + _)), (IH (10 * 0 + _)).
  cbn [length]. rewrite Nat2Z.inj_succ, Z.pow_succ_r by lia. lia.
Qed.

Lemma digits_from_app l1 l2 :
  digits_from 0 (l1 ++ l2) = digits_from 0 l1 * 10 ^ Z.of_nat (length l2) + digits_from 0 l2.
Proof. unfold digits_from at 1. rewrite fold_left_app. apply digits_from_split. Qed.

Lemma digits_aux_value fuel n acc :
  0 <= n < 10 ^ Z.of_nat fuel ->
  digits_from 0 (digits_aux fuel n acc) = n * 10 ^ Z.of_nat (length acc) + digits_from 0 acc.
Proof.
  revert n acc. induction fuel as [|f IH]; intros n acc Hn; simpl.
  - change (10 ^ Z.of_nat 0) with 1 in Hn. lia.
  - rewrite Nat2Z.inj_succ, Z.pow_succ_r in Hn by lia.
    destruct (Z.ltb_spec n 10).
    + rewrite digits_from_cons, digit_value_char, digits_from_split by lia. lia.
    + rewrite IH by (split; [apply Z.div_pos|apply Z.div_lt_upper_bound]; lia).
      simpl length. rewrite Nat2Z.inj_succ, Z.pow_succ_r by lia.
      rewrite digits_from_cons, digit_value_char by (pose proof (Z.mod_pos_bound n 10); lia).
      rewrite digits_from_split. pose proof (Z.div_mod n 10). nia.
Qed.

Lemma digits_aux_digits fuel n acc :
  0 <= n -> Forall (fun c => is_digit c = true) acc ->
  Forall (fun c => is_digit c = true) (digits_aux fuel n acc).
Proof.
  revert n acc. induction fuel as [|f IH]; intros n acc Hn Hacc; simpl; [done|].
  destruct (Z.ltb_spec n 10).
  - constructor; [apply is_digit_char; lia|done].
  - apply IH; [apply Z.div_pos; lia|]. constructor; [|done].
    apply is_digit_char. pose proof (Z.mod_pos_bound n 10). lia.
Qed.

Lemma digits_aux_nonempty fuel n acc : (0 < fuel)%nat -> digits_aux fuel n acc <> [].
Proof.
  revert n acc. induction fuel as [|f IH]; intros n acc Hf; simpl; [lia|].
  destruct (n <? 10); [done|]. destruct f as [|f]; [done|]. apply IH. lia.
Qed.

Lemma uint_digits_value n : is_uint64 n -> digits_from 0 (uint_digits n) = n.
Proof.
  intros H. unfold uint_digits. rewrite digits_aux_value by (unfold_int; lia).
  rewrite digits_from_nil. simpl. lia.
Qed.

(** ** [strconv.ParseUint s 10 64] *)

(** The loop of [ParseUint]: a digit that would push the value past the 64-bit
    range, or a byte that is no digit, is an error. *)
Fixpoint parse_uint_loop (l : list Ascii.ascii) (n : Z) : option Z :=
  match l with
  | [] => Some n
  | c :: l =>
    if negb (is_digit c) then None else
    if uint64_max / 10 + 1 <=? n then None else
    let n10 := wrapu64 (n * 10) in
    let n1 := wrapu64 (n10 + digit_value c) in
    if n1 <? n10 then None else parse_uint_loop l n1
  end.
Definition ParseUint (l : list Ascii.ascii) : option Z :=
  match l with [] => None | _ => parse_uint_loop l 0 end.

Lemma parse_uint_loop_sound l n m :
  is_uint64 n -> parse_uint_loop l n = Some m -> m = digits_from n l /\ is_uint64 m.
Proof.
  revert n. induction l as [|c l IH]; intros n Hn H; simpl in *; [by simplify_eq|].
  destruct (is_digit c) eqn:Hd; [|done]. simpl in H.
  apply digit_value_range in Hd.
  destruct (Z.leb_spec (uint64_max / 10 + 1) n) as [|Hlt]; [done|].
  assert (uint64_max / 10 = 1844674407370955161) as Hmax by done.
  unfold wrapu64 in H.
  rewrite (Z.mod_small (n * 10)) in H by (unfold_int; lia).
  destruct (decide (n * 10 + digit_value c < 2 ^ 64)) as [Hs|Hs].
  - rewrite Z.mod_small in H by (unfold_int; lia).
    destruct (Z.ltb_spec (n * 10 + digit_value c) (n * 10)); [done|].
    apply IH in H as [-> H2]; [|unfold_int; lia]. split; [|done].
    rewrite digits_from_cons. f_equal. lia.
  - rewrite <- (Z_mod_plus_full _ (-1)) in H. rewrite Z.mod_small in H by (unfold_int; lia).
    destruct (Z.ltb_spec (n * 10 + digit_value c + -1 * 2 ^ 64) (n * 10)); [done|]. lia.
Qed.

Lemma digits_from_mono l v : Forall (fun c => is_digit c = true) l -> 0 <= v -> v <= digits_from v l.
Proof.
  intros Hl. revert v. induction Hl as [|c l Hc Hl IH]; intros v Hv; [by rewrite digits_from_nil|].
  rewrite digits_from_cons.
  apply digit_value_range in Hc. specialize (IH (10 * v + digit_value c)). lia.
Qed.

Lemma parse_uint_loop_complete l n :
  Forall (fun c => is_digit c = true) l -> 0 <= n -> digits_from n l <= uint64_max ->
  parse_uint_loop l n = Some (digits_from n l).
Proof.
  intros Hl. revert n. induction Hl as [|c l Hc Hl IH]; intros n Hn Hle; [done|].
  rewrite digits_from_cons in *. cbn [parse_uint_loop]. rewrite Hc. simpl. pose proof (digit_value_range _ Hc) as Hd.
  pose proof (digits_from_mono l (10 * n + digit_value c) Hl ltac:(lia)) as Hm.
  assert (uint64_max / 10 = 1844674407370955161) as Hmax by done.
  destruct (Z.leb_spec (uint64_max / 10 + 1) n); [unfold_int; lia|].
  unfold wrapu64. rewrite (Z.mod_small (n * 10)) by (unfold_int; lia).
  rewrite Z.mod_small by (unfold_int; lia).
  destruct (Z.ltb_spec (n * 10 + digit_value c) (n * 10)); [lia|].
  replace (n * 10 + digit_value c) with (10 * n + digit_value c) by lia.
  apply IH; [lia|done].
Qed.

(** ** Strings of printable ASCII characters *)

Definition printable (c : Ascii.ascii) : bool := (33 <=? code c) && (code c <=? 126).

Lemma strip_id p1 p2 p3 a l :
  p1 a = false -> (forall b, p2 a b = false) -> (forall b c, p3 a b c = false) ->
  strip p1 p2 p3 (a :: l) = a :: l.
Proof.
  intros H1 H2 H3. cbn [strip]. rewrite H1.
  destruct l as [|b [|c l]]; [done|by rewrite H2|by rewrite H2, H3].
Qed.

Lemma printable_trim l : Forall (fun c => printable c = true) l -> trim_right (trim_left l) = l.
Proof.
  intros H.
  assert (trim_left l = l) as ->.
  { destruct H as [|a l Ha _]; [done|]. unfold printable in Ha. bprop.
    apply strip_id; intros; unfold space1, space2, space3; blia. }
  unfold trim_right. rewrite <- (rev_involutive l) at 2. f_equal.
  assert (Forall (fun c => printable c = true) (rev l)) as Hr by (by apply Forall_rev).
  destruct Hr as [|a r Ha _]; [done|]. unfold printable in Ha. bprop.
  apply strip_id; intros; unfold space1, space2, space3; blia.
Qed.

Lemma TrimSpace_printable s :
  Forall (fun c => printable c = true) (explode s) -> TrimSpace s = s.
Proof. intros H. unfold TrimSpace. by rewrite printable_trim, implode_explode. Qed.

Lemma digit_printable c : is_digit c = true -> printable c = true.
Proof. unfold is_digit, printable. intros. blia. Qed.

Lemma slength_implode l : slength (implode l) = length l.
Proof. induction l; simpl; auto. Qed.

Lemma implode_app l1 l2 : implode (l1 ++ l2) = implode l1 +:+ implode l2.
Proof.
  induction l1 as [|c l1 IH]; [done|].
  change (String c (implode (l1 ++ l2)) = String c (implode l1 +:+ implode l2)). by rewrite IH.
Qed.

Lemma implode_nil_iff l : implode l = "" <-> l = [].
Proof. by destruct l. Qed.

Lemma uint_digits_digits n : 0 <= n -> Forall (fun c => is_digit c = true) (uint_digits n).
Proof. intros. by apply digits_aux_digits. Qed.

Lemma uint_digits_nonempty n : uint_digits n <> [].
Proof. apply digits_aux_nonempty. lia. Qed.

Lemma pad_zero_digits w l :
  Forall (fun c => is_digit c = true) l -> Forall (fun c => is_digit c = true) (pad_zero w l).
Proof. intros H. apply Forall_app. split; [|done]. by apply Forall_replicate. Qed.

Lemma digits_from_zeros n l : digits_from 0 (replicate n (digit_char 0) ++ l) = digits_from 0 l.
Proof. induction n as [|n IH]; [done|]. simpl. by rewrite digits_from_cons. Qed.

(** ** [strconv.Itoa] is injective *)
Lemma uint_digits_inj x y : is_uint64 x -> is_uint64 y -> uint_digits x = uint_digits y -> x = y.
Proof. intros Hx Hy E. rewrite <- (uint_digits_value x), <- (uint_digits_value y) by done. by rewrite E. Qed.

Lemma implode_inj l1 l2 : implode l1 = implode l2 -> l1 = l2.
Proof. intros E. by rewrite <- (explode_implode l1), E, explode_implode. Qed.

Lemma itoa_sign x y : 0 <= x -> "-" +:+ implode (uint_digits y) <> implode (uint_digits x).
Proof.
  intros Hx E. pose proof (uint_digits_digits x Hx) as Hd.
  change ("-" +:+ implode (uint_digits y)) with (implode ("-"%char :: uint_digits y)) in E.
  apply implode_inj in E. rewrite <- E in Hd. by inversion Hd.
Qed.

Lemma itoa_inj x y : is_int64 x -> is_int64 y -> itoa x = itoa y -> x = y.
Proof.
  unfold itoa. intros Hx Hy. destruct (Z.ltb_spec x 0), (Z.ltb_spec y 0); intros E.
  - change (implode ("-"%char :: uint_digits (- x)) = implode ("-"%char :: uint_digits (- y))) in E.
    apply implode_inj in E. injection E as E. apply uint_digits_inj in E; unfold_int; lia.
  - by apply itoa_sign in E.
  - symmetry in E. by apply itoa_sign in E.
  - apply implode_inj, uint_digits_inj in E; unfold_int; lia.
Qed.
