(* ===== verification/Errors.v ===== *)
(** * Application errors: [pkg/errors], [pkg/errcode], [app/pkg/bizcode],
    [app/pkg/errorcatalog] and [app/pkg/errorcontract]

    Error values are trees.  A formatted error keeps its format and arguments
    instead of the rendered text; stack traces are not kept. *)
From S2P Require Import Prelude GoStrings.

#[local] Set Warnings "-register-all".

(** ** [Kind] and [Spec] *)

(** The protocol-independent classification, [type Kind string]. *)
Abbreviation Kind := string (only parsing).
Definition KindInvalidArgument : Kind := "invalid_argument".
Definition KindUnauthenticated : Kind := "unauthenticated".
Definition KindPermissionDenied : Kind := "permission_denied".
Definition KindNotFound : Kind := "not_found".
Definition KindConflict : Kind := "conflict".
Definition KindRateLimited : Kind := "rate_limited".
Definition KindUnavailable : Kind := "unavailable".
Definition KindTimeout : Kind := "timeout".
Definition KindInternal : Kind := "internal".

Record Spec := MkSpec {
  Code : Z;
  SpecKind : Kind;
  Message : string;
  Reference : string
}.

#[export] Instance Spec_eq_dec : EqDecision Spec.
Proof. solve_decision. Defined.

(** [func (kind Kind) valid() bool] *)
Definition kind_valid (k : Kind) : bool :=
  bool_decide (k ∈ [KindInvalidArgument; KindUnauthenticated; KindPermissionDenied;
    KindNotFound; KindConflict; KindRateLimited; KindUnavailable; KindTimeout; KindInternal]).

(** ** Error values *)

(** A detail message of a gRPC status: [errdetails.ErrorInfo], or any other
    message type. *)
Inductive grpc_detail :=
  | ErrorInfo (reason domain : string) (metadata : list (string * string))
  | OtherDetail.

Inductive goerr :=
  | Errorf (fmt : string) (args : list string) (cause : option goerr)
      (** [errors.New], [fmt.Errorf], [errors.Wrap]; [cause] is the [%w] operand *)
  | withSpec (spec : Spec) (internal : string) (cause : option goerr)
      (** [*withSpec], the only [Coded] error *)
  | aggregate (errs : list goerr)
  | Status (grpc : Z) (message : string) (details : list grpc_detail)
      (** the error of a gRPC status *)
  | Driver (message : string)
      (** an error the database driver or another dependency returned *).

(** [func (spec Spec) Validate() error] *)
Definition Validate (spec : Spec) : option goerr :=
  if Code spec <=? 0 then Some (Errorf "error code must be greater than zero" [] None)
  else if negb (kind_valid (SpecKind spec))
       then Some (Errorf "error kind %q is invalid" [SpecKind spec] None)
  else if bool_decide (Message spec = "")
       then Some (Errorf "error message must not be empty" [] None)
  else None.

(** ** The registry *)

(** [unknownCoder] and the process-wide [codes] map. *)
Definition unknownCoder : Spec :=
  MkSpec 1 KindInternal "An internal server error occurred" "http://goshop/pkg/errors/README.md".
Definition codes0 : gmap Z Spec := {[ Code unknownCoder := unknownCoder ]}.

Abbreviation Catalog := (list Spec) (only parsing).

(** [func (catalog Catalog) Validate() error]: [seen] holds the codes met so far. *)
Fixpoint catalog_validate_go (seen : gset Z) (catalog : Catalog) : option goerr :=
  match catalog with
  | [] => None
  | spec :: rest =>
    match Validate spec with
    | Some e => Some e
    | None =>
      if bool_decide (Code spec ∈ seen)
      then Some (Errorf "duplicate error specification for code %d" [itoa (Code spec)] None)
      else catalog_validate_go ({[ Code spec ]} ∪ seen) rest
    end
  end.
Definition catalog_validate (catalog : Catalog) : option goerr := catalog_validate_go ∅ catalog.

(** [MustRegister]: [None] is the panic. *)
Definition MustRegister (spec : Spec) (codes : gmap Z Spec) : option (gmap Z Spec) :=
  match Validate spec with
  | Some _ => None
  | None =>
    match codes !! Code spec with
    | Some existing => if bool_decide (existing = spec) then Some codes else None
    | None => Some (<[Code spec := spec]> codes)
    end
  end.

Fixpoint register_go (catalog : Catalog) (codes : gmap Z Spec) : option (gmap Z Spec) :=
  match catalog with
  | [] => Some codes
  | spec :: rest =>
    match MustRegister spec codes with
    | Some codes => register_go rest codes
    | None => None
    end
  end.

(** [func (catalog Catalog) RegisterAll()]: [None] is the panic. *)
Definition RegisterAll (catalog : Catalog) (codes : gmap Z Spec) : option (gmap Z Spec) :=
  match catalog_validate catalog with
  | Some _ => None
  | None => register_go catalog codes
  end.

(** ** Creating errors against a registry *)
Section Registry.
Context (codes : gmap Z Spec).

Definition lookupCoder (code : Z) : option Spec := codes !! code.
Definition registeredSpecForCode (code : Z) : option Spec := lookupCoder code.

Definition SpecForCode (code : Z) : Spec :=
  match lookupCoder code with
  | Some coder => coder
  | None => unknownCoder
  end.

Definition safeSpec (spec : Spec) : Spec :=
  match Validate spec with
  | None => spec
  | Some _ => SpecForCode (Code unknownCoder)
  end.

Definition catalogSpec (spec : Spec) : Spec :=
  match registeredSpecForCode (Code spec) with
  | Some registered => registered
  | None => SpecForCode (Code unknownCoder)
  end.

Definition NewSpec (spec : Spec) (internal : string) : goerr :=
  withSpec (catalogSpec spec) internal None.

Definition unregistered_text (code : Z) (internal : string) : string :=
  "unregistered error code " +:+ itoa code +:+ ": " +:+ internal.

Definition NewCode (code : Z) (internal : string) : goerr :=
  match registeredSpecForCode code with
  | Some spec => NewSpec spec internal
  | None => NewSpec (SpecForCode (Code unknownCoder)) (unregistered_text code internal)
  end.

(** [wrapSpec] on a non-nil error. *)
Definition wrapSpec (err : goerr) (spec : Spec) (internal : string) : goerr :=
  withSpec (catalogSpec spec) internal (Some err).
Definition WrapSpec (err : goerr) (spec : Spec) (internal : string) : goerr :=
  wrapSpec err spec internal.

Definition WrapCode (err : goerr) (code : Z) (internal : string) : goerr :=
  match registeredSpecForCode code with
  | Some spec => wrapSpec err spec internal
  | None => wrapSpec err (SpecForCode (Code unknownCoder)) (unregistered_text code internal)
  end.

Definition NewPublicSpec (spec : Spec) (internal : string) : goerr :=
  match registeredSpecForCode (Code spec) with
  | Some registered =>
    if bool_decide (SpecKind spec <> SpecKind registered) || bool_decide (Message spec = "")
    then NewCode (Code unknownCoder)
           ("invalid public error contract for code " +:+ itoa (Code spec) +:+ ": " +:+ internal)
    else withSpec (safeSpec (MkSpec (Code spec) (SpecKind spec) (Message spec) (Reference registered)))
           internal None
  | None => NewCode (Code unknownCoder)
              ("invalid public error contract for code " +:+ itoa (Code spec) +:+ ": " +:+ internal)
  end.
End Registry.

(** ** Walking an error tree *)

Definition maxErrorTreeNodes : N := 1000.

Section Walk.
Context (visit : goerr -> bool).

(** [walkErrorTree]: whether [visit] accepts a node, and the budget left.  The
    values are finite trees, so the [seen] map, which guards against visiting a
    shared node twice, cannot change the answer of the search. *)
Fixpoint walkErrorTree (e : goerr) (remaining : N) : bool * N :=
  if (remaining =? 0)%N then (false, remaining) else
  let remaining := (remaining - 1)%N in
  match e with
  | aggregate errs =>
    (fix walkAll (errs : list goerr) (remaining : N) : bool * N :=
       match errs with
       | [] => (false, remaining)
       | nested :: rest =>
         let '(found, remaining) := walkErrorTree nested remaining in
         if found then (true, remaining) else walkAll rest remaining
       end) errs remaining
  | Errorf _ _ cause | withSpec _ _ cause =>
    if visit e then (true, remaining) else
    match cause with
    | Some c => walkErrorTree c remaining
    | None => (false, remaining)
    end
  | _ => (visit e, remaining)
  end.

Definition walkErrors (e : goerr) : bool := (walkErrorTree e maxErrorTreeNodes).1.
End Walk.

(** [IsCode]: some [Coded] error of the tree carries the code. *)
Definition IsCode (e : goerr) (code : Z) : bool :=
  walkErrors (fun e => match e with withSpec spec _ _ => Code spec =? code | _ => false end) e.

(** [SpecOf]: the first specification in the same order; the search of
    [walkErrors] that keeps what it found. *)
Fixpoint spec_walk (e : goerr) (remaining : N) : option Spec * N :=
  if (remaining =? 0)%N then (None, remaining) else
  let remaining := (remaining - 1)%N in
  match e with
  | aggregate errs =>
    (fix walkAll (errs : list goerr) (remaining : N) : option Spec * N :=
       match errs with
       | [] => (None, remaining)
       | nested :: rest =>
         let '(found, remaining) := spec_walk nested remaining in
         match found with
         | Some sp => (Some sp, remaining)
         | None => walkAll rest remaining
         end
       end) errs remaining
  | withSpec spec _ _ => (Some spec, remaining)
  | Errorf _ _ (Some c) => spec_walk c remaining
  | _ => (None, remaining)
  end.
Definition SpecOf (e : goerr) : option Spec := (spec_walk e maxErrorTreeNodes).1.

(** [ParseCoder] on a non-nil error. *)
Definition ParseCoder (codes : gmap Z Spec) (e : goerr) : Spec :=
  match SpecOf e with
  | Some spec =>
    match lookupCoder codes (Code spec) with
    | Some coder => coder
    | None => unknownCoder
    end
  | None => unknownCoder
  end.

(** ** Error codes: [pkg/errcode/base.go] and [app/pkg/bizcode] *)
Definition ErrSuccess : Z := 100001.
Definition ErrUnknown : Z := 100002.
Definition ErrBind : Z := 100003.
Definition ErrValidation : Z := 100004.
Definition ErrTokenInvalid : Z := 100005.
Definition ErrPageNotFound : Z := 100006.
Definition ErrConflict : Z := 100007.
Definition ErrServiceUnavailable : Z := 100008.
Definition ErrTimeout : Z := 100009.
Definition ErrRateLimited : Z := 100010.
Definition ErrDatabase : Z := 100101.
Definition ErrEncrypt : Z := 100201.
Definition ErrSignatureInvalid : Z := 100202.
Definition ErrExpired : Z := 100203.
Definition ErrInvalidAuthHeader : Z := 100204.
Definition ErrMissingHeader : Z := 100205.
Definition ErrPasswordIncorrect : Z := 100206.
Definition ErrPermissionDenied : Z := 100207.
Definition ErrEncodingFailed : Z := 100301.
Definition ErrDecodingFailed : Z := 100302.
Definition ErrInvalidJSON : Z := 100303.
Definition ErrEncodingJSON : Z := 100304.
Definition ErrDecodingJSON : Z := 100305.
Definition ErrInvalidYaml : Z := 100306.
Definition ErrEncodingYaml : Z := 100307.
Definition ErrDecodingYaml : Z := 100308.
Definition ErrConnectDB : Z := 100801.
Definition ErrConnectGRPC : Z := 100802.
Definition ErrGoodsNotFound : Z := 100501.
Definition ErrCategoryNotFound : Z := 100502.
Definition ErrEsUnmarshal : Z := 100503.
Definition ErrGoodsInvalid : Z := 100504.
Definition ErrBrandNotFound : Z := 100505.
Definition ErrBannerNotFound : Z := 100506.
Definition ErrCategoryBrandNotFound : Z := 100507.
Definition ErrInventoryNotFound : Z := 100601.
Definition ErrInvSellDetailNotFound : Z := 100602.
Definition ErrInvNotEnough : Z := 100603.
Definition ErrShopCartItemNotFound : Z := 100701.
Definition ErrSubmitOrder : Z := 100702.
Definition ErrNoGoodsSelect : Z := 100703.
Definition ErrOrderNotFound : Z := 100704.
Definition ErrOrderConflict : Z := 100705.
Definition ErrOrderStatusInvalid : Z := 100706.
Definition ErrUserNotFound : Z := 100401.
Definition ErrUserAlreadyExists : Z := 100402.
Definition ErrUserPasswordIncorrect : Z := 100403.
Definition ErrSmsSend : Z := 100404.
Definition ErrCodeNotExist : Z := 100405.
Definition ErrCodeInCorrect : Z := 100406.
Definition ErrUserLoginLocked : Z := 100407.
Definition ErrSmsRateLimited : Z := 100408.
Definition ErrSmsVerifyLocked : Z := 100409.
Definition ErrUserAccountInactive : Z := 100410.
Definition ErrAccountDeletionBlocked : Z := 100411.
Definition ErrEmailVerificationUnavailable : Z := 100412.
Definition ErrUserMobileAlreadyExists : Z := 100413.
Definition ErrUserEmailAlreadyExists : Z := 100414.
Definition ErrUsernameAlreadyExists : Z := 100415.
Definition ErrPasswordConfirmationMismatch : Z := 100416.
Definition ErrCaptchaVerificationFailed : Z := 100417.
Definition ErrDeviceSessionUnavailable : Z := 100418.

(** ** Catalogs *)
Record Contract := MkContract {
  ContractCode : Z;
  ContractKind : string;
  ContractMessage : string
}.

Definition errcode_Catalog : list Contract := [
  MkContract ErrUnknown "internal" "Internal server error";
  MkContract ErrBind "invalid_argument" "Error occurred while binding the request body to the struct";
  MkContract ErrValidation "invalid_argument" "Validation failed";
  MkContract ErrTokenInvalid "unauthenticated" "Token invalid";
  MkContract ErrPageNotFound "not_found" "Page not found";
  MkContract ErrConflict "conflict" "Request conflicts with the current resource state";
  MkContract ErrServiceUnavailable "unavailable" "Required service is temporarily unavailable";
  MkContract ErrTimeout "timeout" "Required service response timed out";
  MkContract ErrRateLimited "rate_limited" "Too many requests, please try again later";
  MkContract ErrDatabase "unavailable" "Database error";
  MkContract ErrEncrypt "internal" "Error occurred while encrypting the user password";
  MkContract ErrSignatureInvalid "unauthenticated" "Signature is invalid";
  MkContract ErrExpired "unauthenticated" "Token expired";
  MkContract ErrInvalidAuthHeader "unauthenticated" "Invalid authorization header";
  MkContract ErrMissingHeader "unauthenticated" "The `Authorization` header was empty";
  MkContract ErrPasswordIncorrect "unauthenticated" "Password was incorrect";
  MkContract ErrPermissionDenied "permission_denied" "Permission denied";
  MkContract ErrEncodingFailed "internal" "Encoding failed due to an error with the data";
  MkContract ErrDecodingFailed "internal" "Encoding failed due to an error with the data";
  MkContract ErrInvalidJSON "invalid_argument" "Data is not valid JSON";
  MkContract ErrEncodingJSON "internal" "JSON data could not be encoded";
  MkContract ErrDecodingJSON "invalid_argument" "JSON data could not be decoded";
  MkContract ErrInvalidYaml "invalid_argument" "Data is not valid Yaml";
  MkContract ErrEncodingYaml "internal" "Yaml data could not be encoded";
  MkContract ErrDecodingYaml "invalid_argument" "Yaml data could not be decoded"
].

Definition bizcode_Catalog : Catalog := [
  MkSpec ErrConnectDB KindUnavailable "数据库服务暂不可用" "";
  MkSpec ErrConnectGRPC KindUnavailable "远程服务暂不可用" "";
  MkSpec ErrUserNotFound KindNotFound "用户不存在" "";
  MkSpec ErrUserAlreadyExists KindConflict "用户已存在" "";
  MkSpec ErrUserPasswordIncorrect KindUnauthenticated "用户名或密码错误" "";
  MkSpec ErrSmsSend KindUnavailable "短信发送失败" "";
  MkSpec ErrCodeNotExist KindInvalidArgument "短信验证码错误或已过期" "";
  MkSpec ErrCodeInCorrect KindInvalidArgument "短信验证码错误" "";
  MkSpec ErrPasswordConfirmationMismatch KindInvalidArgument "两次输入的密码不一致" "";
  MkSpec ErrCaptchaVerificationFailed KindInvalidArgument "图形验证码错误或已过期" "";
  MkSpec ErrDeviceSessionUnavailable KindUnavailable "设备获取失败，请稍后重试" "";
  MkSpec ErrUserLoginLocked KindRateLimited "用户登录已被暂时锁定" "";
  MkSpec ErrSmsRateLimited KindRateLimited "短信发送过于频繁，请稍后再试" "";
  MkSpec ErrSmsVerifyLocked KindRateLimited "短信验证码校验已被暂时锁定" "";
  MkSpec ErrUserAccountInactive KindPermissionDenied "用户账号未启用" "";
  MkSpec ErrAccountDeletionBlocked KindConflict "账号存在未完成的订单、退款或售后事项，暂时无法注销" "";
  MkSpec ErrEmailVerificationUnavailable KindUnavailable "邮箱验证服务暂不可用" "";
  MkSpec ErrUserMobileAlreadyExists KindConflict "手机号已存在" "";
  MkSpec ErrUserEmailAlreadyExists KindConflict "邮箱已存在" "";
  MkSpec ErrUsernameAlreadyExists KindConflict "用户名已存在" "";
  MkSpec ErrGoodsNotFound KindNotFound "商品不存在" "";
  MkSpec ErrGoodsInvalid KindInvalidArgument "商品请求参数无效" "";
  MkSpec ErrCategoryNotFound KindNotFound "商品分类不存在" "";
  MkSpec ErrBrandNotFound KindNotFound "品牌不存在" "";
  MkSpec ErrBannerNotFound KindNotFound "轮播图不存在" "";
  MkSpec ErrCategoryBrandNotFound KindNotFound "商品分类与品牌关系不存在" "";
  MkSpec ErrEsUnmarshal KindInternal "搜索服务数据解析失败" "";
  MkSpec ErrInventoryNotFound KindNotFound "库存不存在" "";
  MkSpec ErrInvSellDetailNotFound KindInvalidArgument "库存扣减明细不存在" "";
  MkSpec ErrInvNotEnough KindConflict "库存不足" "";
  MkSpec ErrShopCartItemNotFound KindNotFound "购物车商品不存在" "";
  MkSpec ErrSubmitOrder KindConflict "提交订单失败" "";
  MkSpec ErrNoGoodsSelect KindInvalidArgument "未选择商品" "";
  MkSpec ErrOrderNotFound KindNotFound "订单不存在" "";
  MkSpec ErrOrderConflict KindConflict "订单数据冲突" "";
  MkSpec ErrOrderStatusInvalid KindConflict "订单状态无效" ""
].

Definition frameworkCatalog : Catalog :=
  (fun c => MkSpec (ContractCode c) (ContractKind c) (ContractMessage c) "") <$> errcode_Catalog.
Definition errorcatalog_Catalog : Catalog := frameworkCatalog ++ bizcode_Catalog.

(** The registry every service runs with: [errorcatalog.RegisterAll] at startup. *)
Definition app_codes : gmap Z Spec :=
  default codes0 (RegisterAll errorcatalog_Catalog codes0).

(** [errors.NewCode] and [errorcontract.WrapDatabase] in a started service. *)
Definition newCode (code : Z) (internal : string) : goerr := NewCode app_codes code internal.
Definition WrapDatabase (err : goerr) (operation : string) : goerr :=
  WrapCode app_codes err ErrDatabase operation.
Definition NewValidationError (message : string) : goerr :=
  NewPublicSpec app_codes (MkSpec ErrValidation KindInvalidArgument message "") message.

#[global] Arguments newCode : simpl never.
#[global] Arguments WrapDatabase : simpl never.
#[global] Arguments IsCode : simpl never.
#[global] Arguments maxErrorTreeNodes : simpl never.

(** ** The text of an error *)

(** [fmt.Sprintf] over arguments already rendered: [%w] is the cause, [%q] quotes,
    every other verb prints its argument. *)
Definition dquote : Ascii.ascii := Ascii.ascii_of_N 34.
Fixpoint sprintf (f : list Ascii.ascii) (args : list string) (w : string) : list Ascii.ascii :=
  match f with
  | "%"%char :: v :: f =>
    if bool_decide (v = "w"%char) then explode w ++ sprintf f args w
    else match args with
         | a :: args =>
           (if bool_decide (v = "q"%char) then [dquote] ++ explode a ++ [dquote] else explode a)
             ++ sprintf f args w
         | [] => explode "%!" ++ [v] ++ explode "(MISSING)" ++ sprintf f args w
         end
  | c :: f => c :: sprintf f args w
  | [] => []
  end.

(** [aggregate.Error]: the distinct texts in the order they are met, in brackets
    when there is not exactly one. *)
Fixpoint distinct_texts (seen : list string) (l : list string) : list string :=
  match l with
  | [] => []
  | t :: l => if bool_decide (t ∈ seen) then distinct_texts seen l else t :: distinct_texts (t :: seen) l
  end.
Definition join_texts (l : list string) : string :=
  match distinct_texts [] l with
  | [t] => t
  | texts => "[" +:+ String.concat ", " texts +:+ "]"
  end.

(** [Error()] of [e], given the texts of all its nodes, its own first.  An aggregate
    of one error is that error's text; of several, the texts of every node below. *)
Fixpoint text_from (e : goerr) (texts : list string) : string :=
  match e with
  | aggregate [] => ""
  | aggregate [e] => text_from e texts
  | aggregate _ => join_texts texts
  | _ => hd "" texts
  end.

(** The texts of the nodes of [e] in the order [walkErrors] visits them (trees of
    fewer than [maxErrorTreeNodes] nodes).  A coded error shows its public message. *)
Fixpoint node_texts (e : goerr) : list string :=
  match e with
  | Errorf f args None => [implode (sprintf (explode f) args "%!w(<nil>)")]
  | Errorf f args (Some c) =>
    let texts := node_texts c in
    implode (sprintf (explode f) args (text_from c texts)) :: texts
  | withSpec spec _ cause =>
    (if bool_decide (Message spec = "") then Message unknownCoder else Message spec)
      :: match cause with Some c => node_texts c | None => [] end
  | aggregate errs => flat_map node_texts errs
  | Status _ message _ => [message]
  | Driver message => [message]
  end.
Definition error_text (e : goerr) : string := text_from e (node_texts e).

(** ** Properties *)

(** The registered codes, decided by computation. *)
Definition registered (code : Z) : bool := bool_decide (is_Some (app_codes !! code)).

Lemma register_go_grows catalog codes codes' c sp :
  register_go catalog codes = Some codes' -> codes !! c = Some sp -> codes' !! c = Some sp.
Proof.
  revert codes. induction catalog as [|s catalog IH]; intros codes H Hc; simpl in H; [by simplify_eq|].
  destruct (MustRegister s codes) as [codes1|] eqn:E; [|done].
  apply (IH codes1 H). unfold MustRegister in E. cases.
  destruct (decide (Code s = c)) as [<-|]; [congruence|]. by rewrite lookup_insert_ne.
Qed.

Lemma register_go_has catalog codes codes' sp :
  register_go catalog codes = Some codes' -> sp ∈ catalog -> codes' !! Code sp = Some sp.
Proof.
  revert codes. induction catalog as [|s catalog IH]; intros codes H Hin; [by apply elem_of_nil in Hin|].
  simpl in H. destruct (MustRegister s codes) as [codes1|] eqn:E; [|done].
  apply elem_of_cons in Hin as [->|Hin]; [|by eapply IH].
  eapply register_go_grows; [done|]. unfold MustRegister in E.
  destruct (Validate s); [done|]. destruct (codes !! Code s) eqn:El.
  - by case_bool_decide; simplify_eq.
  - simplify_eq. by rewrite lookup_insert_eq.
Qed.

Lemma register_go_again catalog codes :
  Forall (fun s => Validate s = None /\ codes !! Code s = Some s) catalog ->
  register_go catalog codes = Some codes.
Proof.
  induction 1 as [|s catalog [Hv Hs] _ IH]; simpl; [done|].
  unfold MustRegister. rewrite Hv, Hs, bool_decide_eq_true_2 by done. done.
Qed.

Lemma catalog_validate_valid seen catalog s :
  catalog_validate_go seen catalog = None -> s ∈ catalog -> Validate s = None.
Proof.
  revert seen. induction catalog as [|s' catalog IH]; intros seen H Hin; [by apply elem_of_nil in Hin|].
  simpl in H. cases. apply elem_of_cons in Hin as [->|Hin]; [done|]. by eapply IH.
Qed.

(** Registering a catalog again changes nothing, so that every component may
    request its catalog at startup. *)
Theorem RegisterAll_idempotent catalog codes codes' :
  RegisterAll catalog codes = Some codes' -> RegisterAll catalog codes' = Some codes'.
Proof.
  unfold RegisterAll. intros H. destruct (catalog_validate catalog) eqn:E; [done|].
  apply register_go_again, Forall_forall. intros s Hs. split.
  - by eapply catalog_validate_valid.
  - by eapply register_go_has.
Qed.

(** The application catalog is valid: startup does not panic. *)
Lemma errorcatalog_registers : RegisterAll errorcatalog_Catalog codes0 = Some app_codes.
Proof.
  unfold app_codes. assert (is_Some (RegisterAll errorcatalog_Catalog codes0)) as [m ->]; [|done].
  vm_compute. eauto.
Qed.

Lemma newCode_spec code internal :
  registered code = true -> exists sp, newCode code internal = withSpec sp internal None /\ Code sp = code.
Proof.
  unfold registered, newCode, NewCode, NewSpec, catalogSpec, registeredSpecForCode, lookupCoder.
  intros H%bool_decide_eq_true. destruct H as [sp Hsp]. rewrite Hsp.
  assert (Code sp = code) as Hc.
  { revert Hsp. clear. revert code sp. apply map_Forall_lookup.
    assert (bool_decide (map_Forall (fun c sp => Code sp = c) app_codes) = true) as H by (vm_compute; done).
    by apply bool_decide_eq_true in H. }
  rewrite Hc, Hsp. eauto.
Qed.

(** *** The bounded walk against the plain search *)

(** Induction over error trees, with the hypothesis for every nested error. *)
Definition opt_all {A} (P : A -> Prop) (o : option A) : Prop :=
  match o with Some x => P x | None => True end.

Lemma goerr_induction (P : goerr -> Prop) :
  (forall fmt args cause, opt_all P cause -> P (Errorf fmt args cause)) ->
  (forall spec internal cause, opt_all P cause -> P (withSpec spec internal cause)) ->
  (forall errs, Forall P errs -> P (aggregate errs)) ->
  (forall g m d, P (Status g m d)) ->
  (forall m, P (Driver m)) ->
  forall e, P e.
Proof.
  intros H1 H2 H3 H4 H5. fix IH 1. intros [fmt args cause|spec internal cause|errs|g m d|m].
  - apply H1. destruct cause; [apply IH|exact I].
  - apply H2. destruct cause; [apply IH|exact I].
  - apply H3. induction errs as [|e errs IHe]; constructor; [apply IH|exact IHe].
  - apply H4.
  - apply H5.
Qed.

(** The number of nodes of a tree, and the unbounded search. *)
Fixpoint err_size (e : goerr) : N :=
  match e with
  | Errorf _ _ (Some c) | withSpec _ _ (Some c) => 1 + err_size c
  | aggregate errs => 1 + fold_right (fun e n => err_size e + n) 0 errs
  | _ => 1
  end%N.

Fixpoint any_node (visit : goerr -> bool) (e : goerr) : bool :=
  match e with
  | aggregate errs => existsb (any_node visit) errs
  | Errorf _ _ (Some c) | withSpec _ _ (Some c) => visit e || any_node visit c
  | _ => visit e
  end.

Lemma walk_any_node visit e r :
  (err_size e <= r)%N ->
  (walkErrorTree visit e r).1 = any_node visit e /\
  (r <= (walkErrorTree visit e r).2 + err_size e)%N.
Proof.
  revert r. induction e as [fmt args cause IH|spec internal cause IH|errs IH|g m d|m]
    using goerr_induction; intros r Hr.
  1, 2: destruct cause as [c|]; cbn [walkErrorTree any_node err_size] in *;
        (destruct (N.eqb_spec r 0); [lia|]);
        match goal with |- context [if ?b then _ else _] => destruct b; simpl; [lia|] end;
        [|lia]; destruct (IH (r - 1)%N) as [E1 E2]; [lia|]; split; [done|lia].
  - cbn [walkErrorTree any_node err_size] in *. destruct (N.eqb_spec r 0); [lia|].
    assert (fold_right (fun e n => err_size e + n) 0 errs <= r - 1)%N as Hs by lia.
    cut (forall q, (fold_right (fun e n => err_size e + n) 0 errs <= q)%N ->
           let w := (fix walkAll (errs : list goerr) (remaining : N) : bool * N :=
              match errs with
              | [] => (false, remaining)
              | nested :: rest =>
                let '(found, remaining) := walkErrorTree visit nested remaining in
                if found then (true, remaining) else walkAll rest remaining
              end) errs q in
           w.1 = existsb (any_node visit) errs /\
           (q <= w.2 + fold_right (fun e n => err_size e + n) 0 errs)%N).
    { intros H. destruct (H (r - 1)%N Hs) as [E1 E2]. split; [done|lia]. }
    clear Hs Hr. induction IH as [|e errs He _ IHerrs]; intros q Hq; cbn [fold_right existsb] in *.
    { simpl. split; [done|lia]. }
    destruct (He q ltac:(lia)) as [E1 E2].
    destruct (walkErrorTree visit e q) as [found q'] eqn:Ew. cbn [fst snd] in *. subst found.
    cbn zeta. destruct (any_node visit e); cbn [orb fst snd]; [split; [done|lia]|].
    destruct (IHerrs q' ltac:(lia)) as [E3 E4]. split; [exact E3|]. cbn zeta in E4. lia.
  - simpl in *. destruct (N.eqb_spec r 0); [lia|]. simpl. split; [done|lia].
  - simpl in *. destruct (N.eqb_spec r 0); [lia|]. simpl. split; [done|lia].
Qed.

Definition is_coded (code : Z) (e : goerr) : bool :=
  match e with withSpec spec _ _ => Code spec =? code | _ => false end.

(** The bounded walk of [IsCode] is the plain search on every tree within the
    node budget, so the budget never hides a code from a service. *)
Theorem IsCode_any_node e code :
  (err_size e <= maxErrorTreeNodes)%N -> IsCode e code = any_node (is_coded code) e.
Proof. intros H. apply walk_any_node, H. Qed.

Lemma IsCode_leaf sp internal code : IsCode (withSpec sp internal None) code = (Code sp =? code).
Proof. by rewrite IsCode_any_node. Qed.

Lemma IsCode_newCode code internal code' :
  registered code = true -> IsCode (newCode code internal) code' = (code =? code').
Proof. intros H. destruct (newCode_spec code internal H) as (sp & -> & <-). apply IsCode_leaf. Qed.

Lemma WrapDatabase_spec err op :
  exists sp, WrapDatabase err op = withSpec sp op (Some err) /\ Code sp = ErrDatabase.
Proof. eexists. split; vm_compute; reflexivity. Qed.

Lemma IsCode_WrapDatabase err op code :
  (err_size err < maxErrorTreeNodes)%N ->
  IsCode (WrapDatabase err op) code = (ErrDatabase =? code) || any_node (is_coded code) err.
Proof.
  intros H. destruct (WrapDatabase_spec err op) as (sp & -> & Hsp).
  rewrite IsCode_any_node by (simpl; lia). simpl. by rewrite Hsp.
Qed.

Lemma IsCode_WrapDatabase_driver m op code :
  IsCode (WrapDatabase (Driver m) op) code = (ErrDatabase =? code).
Proof. rewrite IsCode_WrapDatabase by done. simpl. by rewrite orb_false_r. Qed.

(** The catalog is looked up by evaluation, never by unification. *)
#[global] Opaque app_codes newCode WrapDatabase IsCode.
