(* ===== verification/GoMonad.v ===== *)
(** * Effects: Go control flow over a database that can fail

    A service call runs against the tables of its database and a schedule of
    faults: before each statement the schedule says whether the driver fails it
    (a dropped connection, a deadlock victim, a timeout, the resilience guard).
    A call ends in a value, an error or a panic; the tables it leaves are kept
    unless a transaction restores them. *)
From S2P Require Import Prelude GoStrings Errors.

Inductive outcome (A : Type) :=
  | Ret (a : A)
  | Fail (e : goerr)
  | Panic (m : string).
Arguments Ret {A} a.
Arguments Fail {A} e.
Arguments Panic {A} m.

Definition is_ret {A} (r : outcome A) : bool := match r with Ret _ => true | _ => false end.

(** The database and the pending faults; [None] lets a statement through. *)
Record env (D : Type) := Env { e_db : D; e_faults : list (option string) }.
Arguments Env {D} _ _.
Arguments e_db {D} _.
Arguments e_faults {D} _.

Definition M (D A : Type) : Type := env D -> outcome A * env D.

Section Ops.
Context {D : Type}.

Definition ret {A} (a : A) : M D A := fun s => (Ret a, s).
Definition fail {A} (e : goerr) : M D A := fun s => (Fail e, s).
Definition panic {A} (m : string) : M D A := fun s => (Panic m, s).

Definition bind {A B} (m : M D A) (k : A -> M D B) : M D B := fun s =>
  match m s with
  | (Ret a, s') => k a s'
  | (Fail e, s') => (Fail e, s')
  | (Panic p, s') => (Panic p, s')
  end.

(** [x, err := m] with [err] inspected by the code that follows. *)
Definition attempt {A} (m : M D A) : M D (A + goerr) := fun s =>
  match m s with
  | (Ret a, s') => (Ret (inl a), s')
  | (Fail e, s') => (Ret (inr e), s')
  | (Panic p, s') => (Panic p, s')
  end.

(** [if err := m; err != nil { return f(err) }] *)
Definition wrap_err {A} (f : goerr -> goerr) (m : M D A) : M D A := fun s =>
  match m s with
  | (Fail e, s') => (Fail (f e), s')
  | r => r
  end.

(** [if b { return err }] *)
Definition fail_if (b : bool) (e : goerr) : M D unit := if b then fail e else ret tt.

Fixpoint for_each {A} (l : list A) (f : A -> M D unit) : M D unit :=
  match l with
  | [] => ret tt
  | x :: l => bind (f x) (fun _ => for_each l f)
  end.

(** The loop that collects a result per element. *)
Fixpoint map_each {A B} (l : list A) (f : A -> M D B) : M D (list B) :=
  match l with
  | [] => ret []
  | x :: l => bind (f x) (fun y => bind (map_each l f) (fun ys => ret (y :: ys)))
  end.

(** Whether the driver fails the next statement. *)
Definition next_fault (s : env D) : option string * env D :=
  match e_faults s with
  | [] => (None, s)
  | f :: fs => (f, Env (e_db s) fs)
  end.

(** One SQL statement: fails without effect, or acts on the tables. *)
Definition stmt {A} (f : D -> outcome A * D) : M D A := fun s =>
  match next_fault s with
  | (Some msg, s') => (Fail (Driver msg), s')
  | (None, s') => let '(r, d) := f (e_db s') in (r, Env d (e_faults s'))
  end.
Definition query {A} (f : D -> A) : M D A := stmt (fun d => (Ret (f d), d)).

(** Put the tables back, as a rollback does; the faults met stay consumed. *)
Definition rollback (d : D) (s : env D) : env D := Env d (e_faults s).

(** [COMMIT], which can fail too; the tables are then those before [BEGIN]. *)
Definition commit {A} (d0 : D) (a : A) (wrap : goerr -> goerr) : M D A := fun s =>
  match next_fault s with
  | (Some msg, s') => (Fail (wrap (Driver msg)), rollback d0 s')
  | (None, s') => (Ret a, s')
  end.

(** [db.Transaction(func(tx) error)]: an error or a panic rolls back. *)
Definition transaction {A} (body : M D A) : M D A := fun s =>
  match next_fault s with
  | (Some msg, s0) => (Fail (Driver msg), s0)
  | (None, s0) =>
    match body s0 with
    | (Ret a, s1) => commit (e_db s) a id s1
    | (r, s1) => (r, rollback (e_db s) s1)
    end
  end.
End Ops.

Notation "x <- m ;; k" := (bind m (fun x => k))
  (at level 100, m at next level, right associativity) : go_scope.
Notation "m ;;; k" := (bind m (fun _ => k))
  (at level 100, right associativity) : go_scope.

(** [gorm.ErrRecordNotFound], where the code returns it as it is. *)
Definition ErrRecordNotFound : goerr := Errorf "record not found" [] None.

(** [First]: [None] is [gorm.ErrRecordNotFound]. *)
Definition first_or_fail {D A} (m : M D (option A)) : M D A :=
  bind m (fun o => match o with Some a => ret a | None => fail ErrRecordNotFound end).

(** ** Reasoning about every run

    [steps R m]: whatever the faults, running [m] relates the tables before to
    the tables after by [R].  With a preorder [R] this is compositional; an
    invariant [I] is the preorder [fun d d' => I d -> I d']. *)
Section Steps.
Context {D : Type} (R : D -> D -> Prop) `{!PreOrder R}.

Definition steps {A} (m : M D A) : Prop := forall s, R (e_db s) (e_db (m s).2).

Lemma steps_ret {A} (a : A) : steps (ret a).
Proof. intros s. done. Qed.
Lemma steps_fail {A} e : steps (@fail D A e).
Proof. intros s. done. Qed.
Lemma steps_panic {A} p : steps (@panic D A p).
Proof. intros s. done. Qed.

Lemma steps_bind {A B} (m : M D A) (k : A -> M D B) :
  steps m -> (forall a, steps (k a)) -> steps (bind m k).
Proof.
  intros Hm Hk s. unfold bind. specialize (Hm s).
  destruct (m s) as [[a|e|p] s']; simpl in *; [|done..]. by etrans; [|apply Hk].
Qed.

Lemma steps_attempt {A} (m : M D A) : steps m -> steps (attempt m).
Proof.
  intros Hm s. unfold attempt. specialize (Hm s). by destruct (m s) as [[a|e|p] s'].
Qed.

Lemma steps_wrap_err {A} f (m : M D A) : steps m -> steps (wrap_err f m).
Proof.
  intros Hm s. unfold wrap_err. specialize (Hm s). by destruct (m s) as [[a|e|p] s'].
Qed.

Lemma steps_fail_if b e : steps (@fail_if D b e).
Proof. destruct b; intros s; done. Qed.

Lemma steps_for_each {A} (l : list A) f : (forall x, x ∈ l -> steps (f x)) -> steps (for_each l f).
Proof.
  induction l as [|x l IH]; intros H; simpl; [apply steps_ret|].
  apply steps_bind; [apply H; left|]. intros _. apply IH. intros y Hy. apply H. by right.
Qed.

Lemma steps_map_each {A B} (l : list A) (f : A -> M D B) :
  (forall x, steps (f x)) -> steps (map_each l f).
Proof.
  intros H. induction l as [|x l IH]; simpl; [apply steps_ret|].
  repeat (apply steps_bind; [done|intros ?]). apply steps_ret.
Qed.

Lemma next_fault_db (s : env D) : e_db (next_fault s).2 = e_db s.
Proof. unfold next_fault. by destruct (e_faults s). Qed.

Lemma steps_stmt {A} (f : D -> outcome A * D) : (forall d, R d (f d).2) -> steps (stmt f).
Proof.
  intros H s. unfold stmt. pose proof (next_fault_db s) as E.
  destruct (next_fault s) as [[msg|] s']; simpl in *; rewrite <- E; [done|].
  specialize (H (e_db s')). by destruct (f (e_db s')).
Qed.

Lemma steps_query {A} (f : D -> A) : steps (query f).
Proof. by apply steps_stmt. Qed.

Lemma steps_first_or_fail {A} (m : M D (option A)) : steps m -> steps (first_or_fail m).
Proof. intros H. apply steps_bind; [done|]. intros [a|]; [apply steps_ret|apply steps_fail]. Qed.

Lemma steps_transaction {A} (body : M D A) : steps body -> steps (transaction body).
Proof.
  intros H s. unfold transaction. pose proof (next_fault_db s) as E.
  destruct (next_fault s) as [[msg|] s0]; simpl in *; rewrite <- E; [done|].
  specialize (H s0). destruct (body s0) as [[a|e|p] s1]; simpl in *; [|done..].
  unfold commit. pose proof (next_fault_db s1) as E1.
  destruct (next_fault s1) as [[msg|] s2]; simpl in *; [done|]. by rewrite E1.
Qed.
End Steps.

(** Discharge [steps] along the structure of the code, down to its statements. *)
Ltac steps_step :=
  lazymatch goal with
  | |- steps _ (ret _) => apply steps_ret; exact _
  | |- steps _ (fail _) => apply steps_fail; exact _
  | |- steps _ (panic _) => apply steps_panic; exact _
  | |- steps _ (fail_if _ _) => apply steps_fail_if; exact _
  | |- steps _ (query _) => apply steps_query; exact _
  | |- steps _ (transaction _) => apply steps_transaction; [exact _|]
  | |- steps _ (attempt _) => apply steps_attempt
  | |- steps _ (wrap_err _ _) => apply steps_wrap_err
  | |- steps _ (first_or_fail _) => apply steps_first_or_fail; [exact _|]
  | |- steps _ (bind _ _) => apply steps_bind; [exact _| |intros ?]
  | |- steps _ (for_each _ _) => apply steps_for_each; [exact _|intros ? ?]
  | |- steps _ (map_each _ _) => apply steps_map_each; [exact _|intros ?]
  | |- steps _ (match ?x with _ => _ end) => destruct x
  | |- steps _ (let _ := _ in _) => cbv zeta
  end.
Ltac steps_go := repeat steps_step.

(** Weakening along an inclusion of relations. *)
Lemma steps_weaken {D A} (R S : D -> D -> Prop) (m : M D A) :
  (forall d d', R d d' -> S d d') -> steps R m -> steps S m.
Proof. intros H Hm s. apply H, Hm. Qed.

(** ** All or nothing *)

(** A run that does not return a value leaves the tables as they were. *)
Definition atomic {D A} (m : M D A) : Prop :=
  forall s, is_ret (m s).1 = false -> e_db (m s).2 = e_db s.

Lemma atomic_transaction {D A} (body : M D A) : atomic (transaction body).
Proof.
  intros s. unfold transaction. pose proof (next_fault_db s) as E.
  destruct (next_fault s) as [[msg|] s0]; simpl in *; [done|].
  destruct (body s0) as [[a|e|p] s1]; simpl in *; [|done..].
  unfold commit. destruct (next_fault s1) as [[msg|] s2]; simpl in *; done.
Qed.

Lemma atomic_readonly {D A} (m : M D A) : steps eq m -> atomic m.
Proof. intros H s _. symmetry. apply H. Qed.

Lemma atomic_wrap_err {D A} f (m : M D A) : atomic m -> atomic (wrap_err f m).
Proof.
  intros H s. specialize (H s). unfold wrap_err. by destruct (m s) as [[a|e|p] s'].
Qed.

(** A read-only prefix keeps a call atomic. *)
Lemma atomic_bind {D A B} (m : M D A) (k : A -> M D B) :
  steps eq m -> (forall a, atomic (k a)) -> atomic (bind m k).
Proof.
  intros Hm Hk s. unfold bind. specialize (Hm s).
  destruct (m s) as [[a|e|p] s']; simpl in *; [|congruence..].
  intros Hr. rewrite Hm. by apply Hk.
Qed.

Lemma atomic_ret {D A} (a : A) : atomic (@ret D A a).
Proof. intros s. done. Qed.
Lemma atomic_fail {D A} e : atomic (@fail D A e).
Proof. intros s. done. Qed.
Lemma atomic_stmt {D A} (f : D -> outcome A * D) :
  (forall d, is_ret (f d).1 = false -> (f d).2 = d) -> atomic (stmt f).
Proof.
  intros H s. unfold stmt. pose proof (next_fault_db s) as E.
  destruct (next_fault s) as [[m|] s0]; simpl in *; [done|].
  specialize (H (e_db s0)). destruct (f (e_db s0)) as [r d]; simpl in *. intros Hr. rewrite H by done. done.
Qed.

#[export] Hint Resolve atomic_transaction atomic_wrap_err atomic_ret atomic_fail : go.

Lemma Fail_inj {D A} (e e' : goerr) (s s' : env D) : (@Fail A e, s) = (Fail e', s') -> e = e'.
Proof. intros H. by injection H. Qed.

(** ** Inverting a run that returned a value *)
Section Inversion.
Context {D : Type}.
Implicit Types (s : env D).

Lemma bind_Ret {A B} (m : M D A) (k : A -> M D B) s b s' :
  bind m k s = (Ret b, s') -> exists a s1, m s = (Ret a, s1) /\ k a s1 = (Ret b, s').
Proof. unfold bind. destruct (m s) as [[a|e|p] s1]; [eauto|done..]. Qed.

Lemma attempt_Ret {A} (m : M D A) s r s' :
  attempt m s = (Ret r, s') ->
  match r with inl a => m s = (Ret a, s') | inr e => m s = (Fail e, s') end.
Proof. unfold attempt. destruct (m s) as [[a|e|p] s1]; intros; by simplify_eq. Qed.

Lemma wrap_err_Ret {A} f (m : M D A) s a s' :
  wrap_err f m s = (Ret a, s') -> m s = (Ret a, s').
Proof. unfold wrap_err. destruct (m s) as [[a'|e|p] s1]; intros; by simplify_eq. Qed.

Lemma fail_if_Ret b e s u s' : @fail_if D b e s = (Ret u, s') -> b = false /\ s' = s.
Proof. destruct b; unfold fail_if, fail, ret; intros; by simplify_eq. Qed.

Lemma query_Ret {A} (f : D -> A) s a s' :
  query f s = (Ret a, s') -> a = f (e_db s) /\ e_db s' = e_db s.
Proof.
  unfold query, stmt. pose proof (next_fault_db s) as E.
  destruct (next_fault s) as [[m|] s1]; simpl in *; intros; simplify_eq/=. by rewrite E.
Qed.

Lemma stmt_Ret {A} (f : D -> outcome A * D) s a s' :
  stmt f s = (Ret a, s') -> f (e_db s) = (Ret a, e_db s').
Proof.
  unfold stmt. pose proof (next_fault_db s) as E.
  destruct (next_fault s) as [[m|] s1]; simpl in *; intros H; [done|].
  rewrite <- E. destruct (f (e_db s1)); by simplify_eq/=.
Qed.

Lemma transaction_Ret {A} (body : M D A) s a s' :
  transaction body s = (Ret a, s') ->
  exists s0 s1, e_db s0 = e_db s /\ body s0 = (Ret a, s1) /\ e_db s' = e_db s1.
Proof.
  unfold transaction. pose proof (next_fault_db s) as E.
  destruct (next_fault s) as [[m|] s0]; simpl in *; [done|].
  destruct (body s0) as [[a'|e|p] s1] eqn:Eb; [|done..].
  unfold commit. pose proof (next_fault_db s1) as E1.
  destruct (next_fault s1) as [[m|] s2]; simpl in *; intros; simplify_eq.
  exists s0, s1. done.
Qed.

Lemma first_or_fail_Ret {A} (m : M D (option A)) s a s' :
  first_or_fail m s = (Ret a, s') -> m s = (Ret (Some a), s').
Proof.
  intros ([a'|] & s1 & H1 & H2)%bind_Ret; unfold ret, fail in H2; by simplify_eq.
Qed.
End Inversion.

(** Decompose the hypothesis that a piece of code returned a value. *)
Ltac minv_step :=
  match goal with
  | H : bind _ _ _ = (Ret _, _) |- _ => apply bind_Ret in H as (? & ? & ? & ?)
  | H : attempt _ _ = (Ret ?r, _) |- _ => apply attempt_Ret in H
  | H : wrap_err _ _ _ = (Ret _, _) |- _ => apply wrap_err_Ret in H
  | H : fail_if _ _ _ = (Ret _, _) |- _ => apply fail_if_Ret in H as [? ->]
  | H : query _ _ = (Ret _, _) |- _ => apply query_Ret in H as [? ?]
  | H : first_or_fail _ _ = (Ret _, _) |- _ => apply first_or_fail_Ret in H
  | H : ret _ _ = (Ret _, _) |- _ => unfold ret in H; simplify_eq/=
  | H : fail _ _ = (Ret _, _) |- _ => discriminate H
  | H : panic _ _ = (Ret _, _) |- _ => discriminate H
  end.
Ltac minv := repeat (minv_step; simplify_eq/=).

(** ** Invariants of the runs that return

    [keeps I m]: when [m] returns a value from tables that satisfy [I], they still
    do.  Inside a transaction this is what a body has to guarantee: a run that
    fails is rolled back. *)
Section Keeps.
Context {D : Type} (I : D -> Prop).

Definition keeps {A} (m : M D A) : Prop :=
  forall s a s', m s = (Ret a, s') -> I (e_db s) -> I (e_db s').

(** The invariant holds after every run, whatever its outcome. *)
Definition always {A} (m : M D A) : Prop := forall s, I (e_db s) -> I (e_db (m s).2).

Lemma always_intro {A} (m : M D A) : atomic m -> keeps m -> always m.
Proof.
  intros Ha Hk s Hs. specialize (Ha s). destruct (m s) as [[a|e|p] s'] eqn:E; simpl in *;
    [by eapply Hk|by rewrite Ha..].
Qed.

Lemma keeps_ret {A} (a : A) : keeps (ret a).
Proof. intros s b s' H. unfold ret in H. by simplify_eq. Qed.
Lemma keeps_fail {A} e : keeps (@fail D A e).
Proof. intros s b s' H. done. Qed.
Lemma keeps_fail_if b e : keeps (@fail_if D b e).
Proof. intros s u s' [_ ->]%fail_if_Ret. done. Qed.
Lemma keeps_bind {A B} (m : M D A) (k : A -> M D B) : keeps m -> (forall a, keeps (k a)) -> keeps (bind m k).
Proof. intros Hm Hk s b s' (a & s1 & H1 & H2)%bind_Ret Hs. eapply Hk; [done|]. by eapply Hm. Qed.
Lemma keeps_wrap_err {A} f (m : M D A) : keeps m -> keeps (wrap_err f m).
Proof. intros Hm s a s' H%wrap_err_Ret. by apply Hm with (a := a). Qed.
Lemma keeps_first_or_fail {A} (m : M D (option A)) : keeps m -> keeps (first_or_fail m).
Proof. intros Hm s a s' H%first_or_fail_Ret. by apply Hm with (a := Some a). Qed.
Lemma keeps_query {A} (f : D -> A) : keeps (query f).
Proof. intros s a s' [_ E]%query_Ret. by rewrite E. Qed.
Lemma keeps_stmt {A} (f : D -> outcome A * D) : (forall d, I d -> I (f d).2) -> keeps (stmt f).
Proof. intros H s a s' E%stmt_Ret Hs. specialize (H _ Hs). by rewrite E in H. Qed.
Lemma keeps_transaction {A} (m : M D A) : keeps m -> keeps (transaction m).
Proof. intros Hm s a s' (s0 & s1 & E0 & E1 & ->)%transaction_Ret Hs. eapply Hm; [exact E1|]. by rewrite E0. Qed.
Lemma keeps_for_each {A} (l : list A) f : (forall x, keeps (f x)) -> keeps (for_each l f).
Proof. intros H. induction l; simpl; [apply keeps_ret|]. apply keeps_bind; auto. Qed.
Lemma keeps_map_each {A B} (l : list A) (f : A -> M D B) : (forall x, keeps (f x)) -> keeps (map_each l f).
Proof.
  intros H. induction l; simpl; [apply keeps_ret|]. apply keeps_bind; [done|intros b].
  apply keeps_bind; [done|intros bs]. apply keeps_ret.
Qed.
(** A read whose error the code inspects. *)
Lemma keeps_attempt {A} (m : M D A) : steps eq m -> keeps (attempt m).
Proof.
  intros Hm s r s' H Hs. specialize (Hm s). apply attempt_Ret in H.
  assert ((m s).2 = s') as E by (destruct r; by rewrite H). rewrite E in Hm. by rewrite <- Hm.
Qed.
End Keeps.

Ltac keeps_step :=
  lazymatch goal with
  | |- keeps _ (ret _) => apply keeps_ret
  | |- keeps _ (fail _) => apply keeps_fail
  | |- keeps _ (fail_if _ _) => apply keeps_fail_if
  | |- keeps _ (query _) => apply keeps_query
  | |- keeps _ (transaction _) => apply keeps_transaction
  | |- keeps _ (wrap_err _ _) => apply keeps_wrap_err
  | |- keeps _ (first_or_fail _) => apply keeps_first_or_fail
  | |- keeps _ (bind _ _) => apply keeps_bind; [|intros ?]
  | |- keeps _ (for_each _ _) => apply keeps_for_each; intros ?
  | |- keeps _ (map_each _ _) => apply keeps_map_each; intros ?
  | |- keeps _ (match ?x with _ => _ end) => destruct x
  | |- keeps _ (let _ := _ in _) => cbv zeta
  end.
Ltac keeps_go := repeat keeps_step.

(** ** Transactions opened by [Begin] *)

(** [withTxnExecutor]: an error or a panic rolls back; a failed commit too.
    [gormTxn] is never nil, and a failed [Begin] shows as the failure of the
    first statement.  The value is what the closure wrote to the variables around it. *)
Definition withTxnExecutor {D A} (action : string) (fn : M D A) : M D A := fun s =>
  match fn s with
  | (Ret a, s1) =>
    commit (e_db s) a (fun err => Errorf "commit %s transaction: %w" [action] (Some err)) s1
  | (Fail err, s1) => (Fail err, rollback (e_db s) s1)
  | (Panic p, s1) => (Fail (Errorf "%s transaction panic: %v" [action; p] None), rollback (e_db s) s1)
  end.

Lemma withTxn_Ret {D A} action (fn : M D A) s u s' :
  withTxnExecutor action fn s = (Ret u, s') ->
  exists s1, fn s = (Ret u, s1) /\ e_db s' = e_db s1.
Proof.
  unfold withTxnExecutor. destruct (fn s) as [[a|e|p] s1]; [|done..]. unfold commit.
  pose proof (next_fault_db s1) as E.
  destruct (next_fault s1) as [[m|] s2]; simpl in *; intros; simplify_eq. eauto.
Qed.

Lemma atomic_withTxn {D A} action (fn : M D A) : atomic (withTxnExecutor action fn).
Proof.
  intros s. unfold withTxnExecutor, commit. destruct (fn s) as [[a|e|p] s1]; [|done..].
  by destruct (next_fault s1) as [[m|] s2].
Qed.

Lemma withTxn_clean {D A} action (fn : M D A) d u d' :
  fn (Env d []) = (Ret u, Env d' []) -> withTxnExecutor action fn (Env d []) = (Ret u, Env d' []).
Proof. intros H. unfold withTxnExecutor. by rewrite H. Qed.

#[export] Hint Resolve atomic_withTxn : go.

Lemma steps_withTxn {D A} (R : D -> D -> Prop) `{!PreOrder R} action (fn : M D A) :
  steps R fn -> steps R (withTxnExecutor action fn).
Proof.
  intros H s. specialize (H s). unfold withTxnExecutor, commit.
  destruct (fn s) as [[a|e|p] s1]; simpl in *; [|done..].
  pose proof (next_fault_db s1) as E. destruct (next_fault s1) as [[m|] s2]; simpl in *; [done|by rewrite E].
Qed.
