(* ===== verification/Authz.v ===== *)
(** * Access control: [app/pkg/authz]

    The vocabulary of principals, account states, permissions, staff roles and
    business domains, who may manage whose roles, and resource scopes with their
    encoding in tokens.  A Go [map] used as a set is a [gset]; the sorted slice made
    of it is [sorted_elements]. *)
From S2P Require Import Prelude GoStrings.

(** ** [PrincipalType] *)
Definition PrincipalAnonymous : string := "anonymous".
Definition PrincipalCustomer : string := "customer".
Definition PrincipalStaff : string := "staff".
Definition PrincipalAdminBootstrap : string := "admin_bootstrap".
Definition PrincipalInternalService : string := "internal_service".

(** ** [AccountStatus] *)
Definition AccountStatusActive : string := "active".
Definition AccountStatusDisabled : string := "disabled".
Definition AccountStatusLocked : string := "locked".
Definition AccountStatusDeletionPending : string := "deletion_pending".
Definition AccountStatusDeleted : string := "deleted".

(** ** [Permission] *)
Definition PermissionUserProfileReadSelf : string := "user:profile:read:self".
Definition PermissionUserProfileUpdateSelf : string := "user:profile:update:self".
Definition PermissionUserAccountDeleteSelf : string := "user:account:delete:self".
Definition PermissionUserDeviceBlacklistReadSelf : string := "user:device_blacklist:read:self".
Definition PermissionUserDeviceBlacklistWriteSelf : string := "user:device_blacklist:write:self".
Definition PermissionCartReadSelf : string := "cart:read:self".
Definition PermissionCartWriteSelf : string := "cart:write:self".
Definition PermissionOrderCreateSelf : string := "order:create:self".
Definition PermissionOrderReadSelf : string := "order:read:self".
Definition PermissionOrderPaySelf : string := "order:pay:self".
Definition PermissionOrderStatusLogReadSelf : string := "order:status_log:read:self".
Definition PermissionInventoryReadPublic : string := "inventory:read:public".
Definition PermissionReviewCreateSelf : string := "review:create:self".
Definition PermissionReviewAppendSelf : string := "review:append:self".
Definition PermissionReviewReadPublic : string := "review:read:public".
Definition PermissionUserCreateAny : string := "user:create:any".
Definition PermissionUserListAny : string := "user:list:any".
Definition PermissionUserReadAny : string := "user:read:any".
Definition PermissionUserDisableAny : string := "user:disable:any".
Definition PermissionGoodsReadAny : string := "goods:read:any".
Definition PermissionGoodsWriteAny : string := "goods:write:any".
Definition PermissionInventoryReadAny : string := "inventory:read:any".
Definition PermissionInventoryWriteAny : string := "inventory:write:any".
Definition PermissionInventoryAuditReadAny : string := "inventory:audit:read:any".
Definition PermissionOrderReadAny : string := "order:read:any".
Definition PermissionOrderCloseAny : string := "order:close:any".
Definition PermissionOrderRefundAny : string := "order:refund:any".
Definition PermissionStaffSessionReadAny : string := "staff_session:read:any".
Definition PermissionStaffSessionRevokeAny : string := "staff_session:revoke:any".
Definition PermissionBreakGlassApproveAny : string := "break_glass:approve:any".
Definition PermissionPaymentReconcileReadAny : string := "payment:reconciliation:read:any".
Definition PermissionRefundDeadJobRetryAny : string := "refund:dead_job:retry:any".
Definition PermissionPaymentCallbackSimulate : string := "payment:callback:simulate".
Definition PermissionAuditReadAny : string := "audit:read:any".
Definition PermissionRoleReadAny : string := "role:read:any".
Definition PermissionRoleAssignAny : string := "role:assign:any".
Definition PermissionRoleWriteAny : string := "role:write:any".
Definition PermissionReviewModerateAny : string := "review:moderate:any".
Definition PermissionReviewReplyAny : string := "review:reply:any".
Definition PermissionReviewAggregateRebuild : string := "review:aggregate:rebuild:any".

Definition customerPermissions : list string := [
  PermissionUserProfileReadSelf; PermissionUserProfileUpdateSelf; PermissionUserAccountDeleteSelf;
  PermissionUserDeviceBlacklistReadSelf; PermissionUserDeviceBlacklistWriteSelf; PermissionCartReadSelf;
  PermissionCartWriteSelf; PermissionOrderCreateSelf; PermissionOrderReadSelf; PermissionOrderPaySelf;
  PermissionOrderStatusLogReadSelf; PermissionReviewCreateSelf; PermissionReviewAppendSelf;
  PermissionReviewReadPublic].

Definition allPermissions : list string := [
  PermissionUserProfileReadSelf; PermissionUserProfileUpdateSelf; PermissionUserAccountDeleteSelf;
  PermissionUserDeviceBlacklistReadSelf; PermissionUserDeviceBlacklistWriteSelf; PermissionCartReadSelf;
  PermissionCartWriteSelf; PermissionOrderCreateSelf; PermissionOrderReadSelf; PermissionOrderPaySelf;
  PermissionOrderStatusLogReadSelf; PermissionInventoryReadPublic; PermissionReviewCreateSelf;
  PermissionReviewAppendSelf; PermissionReviewReadPublic; PermissionUserCreateAny;
  PermissionUserListAny; PermissionUserReadAny; PermissionUserDisableAny; PermissionGoodsReadAny;
  PermissionGoodsWriteAny; PermissionInventoryReadAny; PermissionInventoryWriteAny;
  PermissionInventoryAuditReadAny; PermissionOrderReadAny; PermissionOrderCloseAny;
  PermissionOrderRefundAny; PermissionStaffSessionReadAny; PermissionStaffSessionRevokeAny;
  PermissionBreakGlassApproveAny; PermissionPaymentReconcileReadAny; PermissionRefundDeadJobRetryAny;
  PermissionPaymentCallbackSimulate; PermissionAuditReadAny; PermissionRoleReadAny;
  PermissionRoleAssignAny; PermissionRoleWriteAny; PermissionReviewModerateAny;
  PermissionReviewReplyAny; PermissionReviewAggregateRebuild].

(** ** [StaffRole] *)
Definition StaffRoleSupport : string := "support".
Definition StaffRoleOps : string := "ops".
Definition StaffRoleFinance : string := "finance".
Definition StaffRoleCatalog : string := "catalog".
Definition StaffRoleReview : string := "review".
Definition StaffRoleAdmin : string := "admin".
Definition StaffRoleSuperAdmin : string := "super_admin".

(** ** [BusinessDomain] *)
Definition BusinessDomainSupport : string := "support".
Definition BusinessDomainOps : string := "operations".
Definition BusinessDomainFinance : string := "finance".
Definition BusinessDomainCatalog : string := "catalog".
Definition BusinessDomainReview : string := "review".
Definition BusinessDomainPlatform : string := "platform".

Definition AllBusinessDomains : list string := [
  BusinessDomainSupport; BusinessDomainOps; BusinessDomainFinance; BusinessDomainCatalog;
  BusinessDomainReview; BusinessDomainPlatform].

(** ** [ResourceScopeDimension] *)
Definition ResourceScopeDimensionNone : string := "none".
Definition ResourceScopeDimensionStore : string := "store".
Definition ResourceScopeDimensionTeam : string := "team".

(** ** Built-in roles *)
Record RoleDefinition := MkRoleDefinition {
  Name : string; Description : string; Permissions : list string; Domains : list string
}.

Definition builtinRoleDefinitions : list RoleDefinition := [
  MkRoleDefinition StaffRoleSupport "customer support operations" [
    PermissionRoleReadAny; PermissionUserListAny; PermissionUserReadAny; PermissionOrderReadAny;
    PermissionAuditReadAny]
    [BusinessDomainSupport];
  MkRoleDefinition StaffRoleOps "operations management" [
    PermissionInventoryReadAny; PermissionInventoryWriteAny; PermissionInventoryAuditReadAny;
    PermissionOrderReadAny; PermissionOrderCloseAny; PermissionAuditReadAny]
    [BusinessDomainOps];
  MkRoleDefinition StaffRoleFinance "payment and refund operations" [
    PermissionOrderReadAny; PermissionOrderRefundAny; PermissionPaymentReconcileReadAny;
    PermissionRefundDeadJobRetryAny; PermissionAuditReadAny]
    [BusinessDomainFinance];
  MkRoleDefinition StaffRoleCatalog "catalog and inventory maintenance" [
    PermissionGoodsReadAny; PermissionGoodsWriteAny]
    [BusinessDomainCatalog];
  MkRoleDefinition StaffRoleReview "review moderation and merchant replies" [
    PermissionReviewModerateAny; PermissionReviewReplyAny]
    [BusinessDomainReview];
  MkRoleDefinition StaffRoleAdmin "broad backoffice administration" [
    PermissionRoleReadAny; PermissionUserCreateAny; PermissionUserListAny; PermissionUserReadAny;
    PermissionUserDisableAny; PermissionGoodsReadAny; PermissionGoodsWriteAny;
    PermissionInventoryReadAny; PermissionInventoryWriteAny; PermissionInventoryAuditReadAny;
    PermissionOrderReadAny; PermissionOrderCloseAny; PermissionOrderRefundAny;
    PermissionStaffSessionReadAny; PermissionStaffSessionRevokeAny; PermissionBreakGlassApproveAny;
    PermissionPaymentReconcileReadAny; PermissionRefundDeadJobRetryAny; PermissionAuditReadAny;
    PermissionReviewModerateAny; PermissionReviewReplyAny; PermissionReviewAggregateRebuild]
    [BusinessDomainPlatform];
  MkRoleDefinition StaffRoleSuperAdmin "full backoffice administration" [
    PermissionRoleReadAny; PermissionRoleAssignAny; PermissionRoleWriteAny; PermissionUserCreateAny;
    PermissionUserListAny; PermissionUserReadAny; PermissionUserDisableAny; PermissionGoodsReadAny;
    PermissionGoodsWriteAny; PermissionInventoryReadAny; PermissionInventoryWriteAny;
    PermissionInventoryAuditReadAny; PermissionOrderReadAny; PermissionOrderCloseAny;
    PermissionOrderRefundAny; PermissionStaffSessionReadAny; PermissionStaffSessionRevokeAny;
    PermissionBreakGlassApproveAny; PermissionPaymentReconcileReadAny; PermissionRefundDeadJobRetryAny;
    PermissionPaymentCallbackSimulate; PermissionAuditReadAny; PermissionReviewModerateAny;
    PermissionReviewReplyAny; PermissionReviewAggregateRebuild]
    [BusinessDomainPlatform]].

(** ** Lookups and sets *)
Definition role_definition (role : string) : option RoleDefinition :=
  find (fun d => bool_decide (Name d = role)) builtinRoleDefinitions.
Definition sorted_elements (s : gset string) : list string :=
  merge_sort (fun a b => Is_true (String.leb a b)) (elements s).

Definition CustomerScopes : list string := customerPermissions.
Definition IsValidPermission (value : string) : bool :=
  existsb (fun p => bool_decide (p = TrimSpace value)) allPermissions.
Definition NormalizeAccountStatus (status : string) : string :=
  let status := ToLower (TrimSpace status) in
  if bool_decide (status = "") then AccountStatusActive else status.
Definition IsValidLegacyUserRole (role : Z) : bool := (role =? 1) || (role =? 2).

Definition IsValidBusinessDomain (value : string) : bool :=
  existsb (fun domain => bool_decide (domain = value)) AllBusinessDomains.
Definition ResourceScopeDimensionForDomain (domain : string) : string :=
  if bool_decide (domain = BusinessDomainPlatform) then ResourceScopeDimensionNone
  else ResourceScopeDimensionStore.
Definition ResourceScopeMatchesDomain (domain storeID teamID : string) : bool :=
  let storeID := TrimSpace storeID in
  let teamID := TrimSpace teamID in
  let no_store := bool_decide (storeID = "") in
  let no_team := bool_decide (teamID = "") in
  let dimension := ResourceScopeDimensionForDomain domain in
  if bool_decide (dimension = ResourceScopeDimensionNone) then no_store && no_team
  else if bool_decide (dimension = ResourceScopeDimensionStore) then
    if bool_decide (domain = BusinessDomainOps) then (negb no_store && no_team) || (no_store && negb no_team)
    else negb no_store && no_team
  else if bool_decide (dimension = ResourceScopeDimensionTeam) then no_store && negb no_team
  else false.

Definition BuiltinRoleDefinitions : list RoleDefinition := builtinRoleDefinitions.
Definition IsValidStaffRole (role : string) : bool := bool_decide (is_Some (role_definition role)).

(** The union of a field of the built-in roles among [roleNames]. *)
Definition union_of (field : RoleDefinition -> list string) (roleNames : list string) : gset string :=
  fold_left (fun acc roleName =>
    match role_definition roleName with
    | None => acc
    | Some definition => acc ∪ list_to_set (field definition)
    end) roleNames ∅.
Definition PermissionsForRoles (roleNames : list string) : list string :=
  sorted_elements (union_of Permissions roleNames).
Definition DomainsForRoles (roleNames : list string) : list string :=
  sorted_elements (union_of Domains roleNames).

Definition HasRole (roleNames : list string) (required : string) : bool :=
  existsb (fun roleName => bool_decide (roleName = required)) roleNames.

Definition domainSet (domains : list string) : gset string := list_to_set domains.

Definition CanManageRoleSet (actorRoles targetRoles : list string) : bool :=
  if HasRole actorRoles StaffRoleSuperAdmin then true
  else if HasRole targetRoles StaffRoleSuperAdmin then false
  else
    let actorDomains := domainSet (DomainsForRoles actorRoles) in
    if bool_decide (size actorDomains = 0%nat) then false
    else if bool_decide (BusinessDomainPlatform ∈ actorDomains) then true
    else
      let targetDomains := domainSet (DomainsForRoles targetRoles) in
      if bool_decide (BusinessDomainPlatform ∈ targetDomains) then false
      else forallb (fun domain => bool_decide (domain ∈ actorDomains)) (elements targetDomains).

Definition reservedNonStaffRoleNames : list string :=
  ["admin_bootstrap"; "basic"; "business_admin"; "normal_permission"; "primary_admin"].
Definition IsReservedNonStaffRoleName (roleName : string) : bool :=
  existsb (fun reserved => bool_decide (reserved = roleName)) reservedNonStaffRoleNames.

(** ** Resource scopes ([resource_scope.go]) *)
Module ResourceScope.
Record t := mk { Domain : string; StoreID : string; TeamID : string; ResourceType : string; ResourceID : string }.
#[global] Instance eq_dec : EqDecision t.
Proof. solve_decision. Defined.
End ResourceScope.
Import ResourceScope.

Definition scopeBindingSeparator : Ascii.ascii := Ascii.ascii_of_N 31.

Definition NormalizeResourceScope (scope : ResourceScope.t) : ResourceScope.t :=
  ResourceScope.mk (ToLower (TrimSpace (Domain scope))) (TrimSpace (StoreID scope)) (TrimSpace (TeamID scope))
    (ToLower (TrimSpace (ResourceType scope))) (TrimSpace (ResourceID scope)).

(** [strings.Join] with a one-byte separator. *)
Fixpoint Join (parts : list string) (sep : Ascii.ascii) : string :=
  match parts with
  | [] => ""
  | [p] => p
  | p :: rest => p +:+ String sep (Join rest sep)
  end.

Definition scope_fields (scope : ResourceScope.t) : list string :=
  [Domain scope; StoreID scope; TeamID scope; ResourceType scope; ResourceID scope].
Definition ResourceScopeKey (scope : ResourceScope.t) : string :=
  Join (scope_fields (NormalizeResourceScope scope)) scopeBindingSeparator.
Definition EncodeResourceScope (scope : ResourceScope.t) : string := ResourceScopeKey scope.

(** Missing parts are empty; parts after the fifth are ignored. *)
Definition DecodeResourceScope (value : string) : ResourceScope.t :=
  let parts := Split value scopeBindingSeparator in
  let part (i : nat) := default "" (parts !! i) in
  NormalizeResourceScope (ResourceScope.mk (part 0%nat) (part 1%nat) (part 2%nat) (part 3%nat) (part 4%nat)).

(** The claim of a token: a list of strings, a list of values some of which are
    strings, or something else. *)
Inductive scope_claim :=
  | ClaimStrings (values : list string)
  | ClaimValues (values : list (option string))
  | ClaimOther.
Definition ParseResourceScopes (raw : scope_claim) : list ResourceScope.t :=
  match raw with
  | ClaimStrings values => DecodeResourceScope <$> values
  | ClaimValues values => omap (fun v => DecodeResourceScope <$> v) values
  | ClaimOther => []
  end.

Definition scope_covers (item requested : ResourceScope.t) : bool :=
  let item := NormalizeResourceScope item in
  if bool_decide (Domain item <> Domain requested) || bool_decide (StoreID item <> StoreID requested)
     || bool_decide (TeamID item <> TeamID requested) then false
  else if bool_decide (ResourceType item = "") && bool_decide (ResourceID item = "") then true
  else bool_decide (ResourceType item = ResourceType requested) &&
       bool_decide (ResourceID item = ResourceID requested).
Definition ResourceScopeAllows (granted : list ResourceScope.t) (requested : ResourceScope.t) : bool :=
  let requested := NormalizeResourceScope requested in
  existsb (fun item => scope_covers item requested) granted.

(** ** Who may manage whose roles *)

Lemma elem_union_of field names x :
  x ∈ union_of field names <-> exists n d, n ∈ names /\ role_definition n = Some d /\ x ∈ field d.
Proof.
  unfold union_of.
  assert (forall acc : gset string, x ∈ fold_left (fun acc roleName => match role_definition roleName with
    | None => acc | Some definition => acc ∪ list_to_set (field definition) end) names acc <->
    x ∈ acc \/ exists n d, n ∈ names /\ role_definition n = Some d /\ x ∈ field d) as H; [|rewrite H; set_solver].
  induction names as [|n names IH]; intros acc; cbn [fold_left].
  { split; [by left|]. intros [H|(n & d & H & _)]; [done|]. by apply elem_of_nil in H. }
  rewrite IH. setoid_rewrite elem_of_cons. destruct (role_definition n) as [d|] eqn:E.
  - rewrite elem_of_union, elem_of_list_to_set. naive_solver.
  - naive_solver.
Qed.

Lemma elem_sorted (s : gset string) x : x ∈ sorted_elements s <-> x ∈ s.
Proof.
  unfold sorted_elements. rewrite <- elem_of_elements.
  split; intros H; (eapply elem_of_Permutation_proper; [|exact H]); [symmetry|]; apply merge_sort_Permutation.
Qed.

Lemma elem_PermissionsForRoles names p :
  p ∈ PermissionsForRoles names <-> exists n d, n ∈ names /\ role_definition n = Some d /\ p ∈ Permissions d.
Proof. unfold PermissionsForRoles. by rewrite elem_sorted, elem_union_of. Qed.

Lemma elem_DomainsForRoles names p :
  p ∈ domainSet (DomainsForRoles names) <-> exists n d, n ∈ names /\ role_definition n = Some d /\ p ∈ Domains d.
Proof. unfold domainSet, DomainsForRoles. by rewrite elem_of_list_to_set, elem_sorted, elem_union_of. Qed.

Lemma HasRole_spec names r : HasRole names r = true <-> r ∈ names.
Proof.
  unfold HasRole. rewrite existsb_exists. setoid_rewrite bool_decide_eq_true. setoid_rewrite <- list_elem_of_In.
  naive_solver.
Qed.

Lemma role_definition_in n d : role_definition n = Some d -> d ∈ builtinRoleDefinitions /\ Name d = n.
Proof. intros [H%list_elem_of_In E]%find_some. split; [done|]. by apply bool_decide_eq_true in E. Qed.

(** The table of roles: a role that outranks another, the super administrator, a
    platform role over any role but the super administrator's, or a role of the same
    domain, has all its permissions; and every role has a domain. *)
Definition outranks (a d : RoleDefinition) : bool :=
  bool_decide (Name a = StaffRoleSuperAdmin) ||
  (negb (bool_decide (Name d = StaffRoleSuperAdmin)) &&
   (bool_decide (BusinessDomainPlatform ∈ Domains a) || existsb (fun x => bool_decide (x ∈ Domains a)) (Domains d))).

Lemma outranks_permissions :
  forallb (fun d => forallb (fun a => negb (outranks a d) || bool_decide (Permissions d ⊆ Permissions a))
    builtinRoleDefinitions) builtinRoleDefinitions = true.
Proof. vm_compute. reflexivity. Qed.

Lemma roles_have_domains : forallb (fun d => negb (bool_decide (Domains d = []))) builtinRoleDefinitions = true.
Proof. vm_compute. reflexivity. Qed.

Lemma outranks_elem n d n' a p :
  role_definition n = Some d -> role_definition n' = Some a -> outranks a d = true -> p ∈ Permissions d ->
  p ∈ Permissions a.
Proof.
  intros [Hd _]%role_definition_in [Ha _]%role_definition_in Ho Hp. pose proof outranks_permissions as H.
  rewrite forallb_forall in H. specialize (H d (proj1 (list_elem_of_In _ _) Hd)).
  rewrite forallb_forall in H. specialize (H a (proj1 (list_elem_of_In _ _) Ha)).
  rewrite Ho in H. simpl in H. apply bool_decide_eq_true in H. set_solver.
Qed.

(** An actor that may manage a role holds a role that outranks it. *)
Lemma CanManageRoleSet_outranks actor target n d :
  CanManageRoleSet actor target = true -> n ∈ target -> role_definition n = Some d ->
  exists n' a, n' ∈ actor /\ role_definition n' = Some a /\ outranks a d = true.
Proof.
  unfold CanManageRoleSet. intros H Hn Hd. destruct (HasRole actor StaffRoleSuperAdmin) eqn:Es.
  { apply HasRole_spec in Es. eexists StaffRoleSuperAdmin, _. split; [done|]. split; [by vm_compute|]. by vm_compute. }
  destruct (HasRole target StaffRoleSuperAdmin) eqn:Et; [done|].
  assert (Name d <> StaffRoleSuperAdmin) as Hns.
  { intros E. apply role_definition_in in Hd as [_ Hd]. rewrite <- Hd, E in Hn. apply HasRole_spec in Hn. congruence. }
  unfold outranks. rewrite (bool_decide_eq_false_2 (Name d = StaffRoleSuperAdmin)) by done.
  destruct (bool_decide (size (domainSet (DomainsForRoles actor)) = 0%nat)); [done|].
  destruct (bool_decide (BusinessDomainPlatform ∈ domainSet (DomainsForRoles actor))) eqn:Ep.
  { apply bool_decide_eq_true, elem_DomainsForRoles in Ep as (n' & a & ? & ? & ?). exists n', a. split_and!; [done..|].
    rewrite (bool_decide_eq_true_2 (BusinessDomainPlatform ∈ _)) by done. by rewrite orb_true_r. }
  destruct (bool_decide (BusinessDomainPlatform ∈ domainSet (DomainsForRoles target))); [done|]. pose proof roles_have_domains as Hne. rewrite forallb_forall in Hne.
  pose proof (proj1 (role_definition_in _ _ Hd)) as Hin.
  specialize (Hne d (proj1 (list_elem_of_In _ _) Hin)). destruct (Domains d) as [|x l] eqn:Edom; [done|].
  rewrite forallb_forall in H.
  assert (x ∈ domainSet (DomainsForRoles target)) as Hx.
  { apply elem_DomainsForRoles. exists n, d. rewrite Edom. set_solver. }
  apply elem_of_elements, list_elem_of_In, H, bool_decide_eq_true, elem_DomainsForRoles in Hx as (n' & a & ? & ? & ?).
  exists n', a. split_and!; [done..|]. cbn [existsb]. rewrite (bool_decide_eq_true_2 (x ∈ Domains a)) by done.
  simpl. by rewrite !orb_true_r.
Qed.

(** C32: nobody hands out more than they hold: whoever may manage a set of roles has
    every permission of the built-in roles in it, and only a super administrator may
    manage a super administrator. *)
Theorem role_management_never_escalates actor target :
  CanManageRoleSet actor target = true ->
  PermissionsForRoles target ⊆ PermissionsForRoles actor /\
  (StaffRoleSuperAdmin ∈ target -> StaffRoleSuperAdmin ∈ actor).
Proof.
  intros H. split.
  - intros p (n & d & Hn & Hd & Hp)%elem_PermissionsForRoles.
    destruct (CanManageRoleSet_outranks _ _ _ _ H Hn Hd) as (n' & a & Hn' & Ha & Ho).
    apply elem_PermissionsForRoles. exists n', a. split_and!; [done..|]. exact (outranks_elem _ _ _ _ _ Hd Ha Ho Hp).
  - intros Ht. unfold CanManageRoleSet in H. apply HasRole_spec in Ht. rewrite Ht in H.
    destruct (HasRole actor StaffRoleSuperAdmin) eqn:E; [by apply HasRole_spec|done].
Qed.

Lemma role_management_never_escalates_witness :
  PermissionsForRoles ["ops"] ⊆ PermissionsForRoles ["admin"].
Proof. apply (role_management_never_escalates ["admin"] ["ops"]). vm_compute. reflexivity. Defined.

(** ** Scopes in tokens *)

Definition separator_free (scope : ResourceScope.t) : bool :=
  forallb (fun f => bool_decide (scopeBindingSeparator ∉ explode f)) (scope_fields scope).

Lemma split_Join sep parts :
  parts <> [] -> Forall (fun p => sep ∉ explode p) parts -> Split (Join parts sep) sep = parts.
Proof.
  intros Hne H. unfold Split. induction H as [|p parts Hp H IH]; [done|]. destruct parts as [|q parts].
  - cbn [Join]. rewrite split_on_no_sep by done. simpl. by rewrite implode_explode.
  - cbn [Join]. rewrite explode_app. change (explode (String sep ?x)) with (sep :: explode x).
    rewrite split_on_one by done. rewrite fmap_cons. simpl (rev [] ++ _). rewrite implode_explode. f_equal. by apply IH.
Qed.

Lemma TrimSpace_sub c s : c ∈ explode (TrimSpace s) -> c ∈ explode s.
Proof.
  unfold TrimSpace. rewrite explode_implode. intros H.
  destruct (strip_suffix space1 space2 space3 (explode s)) as [pre ->]. apply elem_of_app. right.
  fold (trim_left (explode s)). destruct (trim_right_prefix (trim_left (explode s))) as [suf ->]. set_solver.
Qed.

Lemma ToLower_separator s : scopeBindingSeparator ∈ explode (ToLower s) -> scopeBindingSeparator ∈ explode s.
Proof.
  unfold ToLower. rewrite explode_implode. intros (c & E & Hc)%list_elem_of_fmap.
  destruct (lower_char_case c) as [[H E']|E']; [|congruence].
  rewrite <- E in E'. change (code scopeBindingSeparator) with 31 in E'. lia.
Qed.

Lemma Normalize_idem s : NormalizeResourceScope (NormalizeResourceScope s) = NormalizeResourceScope s.
Proof.
  unfold NormalizeResourceScope. cbn [Domain StoreID TeamID ResourceType ResourceID].
  by rewrite <- !ToLower_TrimSpace, !ToLower_idem, !TrimSpace_idem.
Qed.

Lemma Normalize_separator s : separator_free s = true -> separator_free (NormalizeResourceScope s) = true.
Proof.
  unfold separator_free, scope_fields. cbn [forallb]. intros H. bprop. destruct H as (H1 & H2 & H3 & H4 & H5 & _).
  unfold NormalizeResourceScope. cbn [Domain StoreID TeamID ResourceType ResourceID].
  split_and!; try done; intros Hs; auto using TrimSpace_sub, ToLower_separator.
Qed.

Lemma Decode_Encode s :
  separator_free s = true -> DecodeResourceScope (EncodeResourceScope s) = NormalizeResourceScope s.
Proof.
  intros H%Normalize_separator. unfold DecodeResourceScope, EncodeResourceScope, ResourceScopeKey.
  rewrite split_Join; [|done|].
  - pose proof (Normalize_idem s) as E. destruct (NormalizeResourceScope s) as [a b c d e]. exact E.
  - apply Forall_forall. intros f Hf. unfold separator_free in H. rewrite forallb_forall in H.
    by apply list_elem_of_In, H, bool_decide_eq_true in Hf.
Qed.

Lemma scope_covers_normal item r : scope_covers (NormalizeResourceScope item) r = scope_covers item r.
Proof. unfold scope_covers. by rewrite Normalize_idem. Qed.

(** C35: a token decides as the grants it was made from: when no field of a grant
    holds the separator 0x1f, the scopes parsed back from a token, whichever way
    its claim was decoded, are the granted scopes normalised, and they allow
    exactly what the grants allow. *)
Theorem scopes_survive_token granted requested :
  Forall (fun s => separator_free s = true) granted ->
  let values := EncodeResourceScope <$> granted in
  ParseResourceScopes (ClaimStrings values) = NormalizeResourceScope <$> granted /\
  ParseResourceScopes (ClaimValues (Some <$> values)) = ParseResourceScopes (ClaimStrings values) /\
  ResourceScopeAllows (ParseResourceScopes (ClaimStrings values)) requested = ResourceScopeAllows granted requested.
Proof.
  intros H values. unfold values, ParseResourceScopes.
  assert (DecodeResourceScope <$> (EncodeResourceScope <$> granted) = NormalizeResourceScope <$> granted) as E.
  { induction H as [|s l Hs _ IH]; [done|]. rewrite !fmap_cons. by rewrite Decode_Encode, IH. }
  rewrite E. split_and!; [done| |].
  - rewrite <- E. clear. generalize (EncodeResourceScope <$> granted). intros l.
    induction l as [|v l IH]; [done|]. rewrite !fmap_cons. simpl. by f_equal.
  - unfold ResourceScopeAllows. clear. induction granted as [|s l IH]; [done|].
    rewrite fmap_cons. cbn [existsb]. by rewrite scope_covers_normal, IH.
Qed.

Definition demo_scope : ResourceScope.t := ResourceScope.mk " Finance" "s-1" "" "" "".
Lemma scopes_survive_token_witness :
  ResourceScopeAllows (ParseResourceScopes (ClaimStrings (EncodeResourceScope <$> [demo_scope])))
    (ResourceScope.mk "finance" "s-1" "" "order" "7") = true.
Proof.
  destruct (scopes_survive_token [demo_scope] (ResourceScope.mk "finance" "s-1" "" "order" "7")) as (_ & _ & H).
  - repeat constructor; vm_compute; reflexivity.
  - rewrite H. vm_compute. reflexivity.
Defined.
