(* ===== verification/ErrorTransport.v ===== *)
(** * Errors on the wire: gRPC statuses and HTTP responses

    [app/pkg/grpcerror/mapper.go] turns an application error into a gRPC status
    that carries its business code; [pkg/transport/httperror] turns an error, local
    or received over gRPC, into the status, the code and the message of an HTTP
    response.  The gRPC status package is not part of the repository: the class
    [grpc_status] names the two functions the code calls, [grpc_status_laws] what
    their documentation promises. *)

From S2P Require Import Prelude GoStrings Errors.

(** ** gRPC codes ([google.golang.org/grpc/codes]) *)
Module codes.
Definition OK : Z := 0.
Definition Canceled : Z := 1.
Definition InvalidArgument : Z := 3.
Definition DeadlineExceeded : Z := 4.
Definition NotFound : Z := 5.
Definition AlreadyExists : Z := 6.
Definition PermissionDenied : Z := 7.
Definition ResourceExhausted : Z := 8.
Definition FailedPrecondition : Z := 9.
Definition Aborted : Z := 10.
Definition OutOfRange : Z := 11.
Definition Internal : Z := 13.
Definition Unavailable : Z := 14.
Definition Unauthenticated : Z := 16.
End codes.

(** [status.FromError], [None] for an error that is no status, and
    [Status.WithDetails] followed by [Err], [None] for its error. *)
Class grpc_status := {
  FromError : goerr -> option (Z * string * list grpc_detail);
  WithDetails : Z -> string -> grpc_detail -> option goerr
}.

Definition is_status (e : goerr) : bool := match e with Status _ _ _ => true | _ => false end.

Class grpc_status_laws (G : grpc_status) := {
  FromError_status c m ds : FromError (Status c m ds) = Some (c, m, ds);
  FromError_other e : any_node is_status e = false -> FromError e = None;
  WithDetails_coded c m d : c <> codes.OK -> WithDetails c m d = Some (Status c m [d])
}.

(** [strconv.Atoi]: an optional sign and decimal digits within 64 bits. *)
Definition Atoi (s : string) : option Z :=
  let '(negative, body) :=
    match explode s with
    | "-"%char :: l => (true, l)
    | "+"%char :: l => (false, l)
    | l => (false, l)
    end in
  n ← ParseUint body;
  if negative then if n <=? 2 ^ 63 then Some (- n) else None
  else if n <? 2 ^ 63 then Some n else None.

(** ** [package grpcerror] *)
Module grpcerror.
Section Mapper.
Context `{G : grpc_status}.

(** [stderrors.Is] for the sentinels [context.Canceled] and
    [context.DeadlineExceeded], which are the [Driver] errors with their texts. *)
Definition context_Canceled : string := "context canceled".
Definition context_DeadlineExceeded : string := "context deadline exceeded".
Definition is_sentinel (text : string) (e : goerr) : bool :=
  match e with Driver m => bool_decide (m = text) | _ => false end.
Definition Is (err : goerr) (text : string) : bool := any_node (is_sentinel text) err.

Definition codeForKind (kind : Kind) : Z :=
  if bool_decide (kind = KindInvalidArgument) then codes.InvalidArgument
  else if bool_decide (kind = KindUnauthenticated) then codes.Unauthenticated
  else if bool_decide (kind = KindPermissionDenied) then codes.PermissionDenied
  else if bool_decide (kind = KindNotFound) then codes.NotFound
  else if bool_decide (kind = KindConflict) then codes.Aborted
  else if bool_decide (kind = KindRateLimited) then codes.ResourceExhausted
  else if bool_decide (kind = KindUnavailable) then codes.Unavailable
  else if bool_decide (kind = KindTimeout) then codes.DeadlineExceeded
  else codes.Internal.

(** The specification of an error, or the registered one of its code when it has
    none or one without a kind. *)
Definition spec_or (alternative : Spec) (err : goerr) : Spec :=
  match SpecOf err with
  | Some spec => if bool_decide (SpecKind spec = "") then alternative else spec
  | None => alternative
  end.

Definition business_detail (spec : Spec) : grpc_detail :=
  ErrorInfo "GOSHOP_BUSINESS_ERROR" "goshop"
    [("business_code", itoa (Code spec)); ("public_message", Message spec)].

Definition Map (err : goerr) : goerr :=
  if Is err context_Canceled then Status codes.Canceled context_Canceled []
  else if Is err context_DeadlineExceeded then Status codes.DeadlineExceeded context_DeadlineExceeded []
  else
    match FromError err with
    | Some _ => err
    | None =>
      let spec := spec_or (SpecForCode app_codes (Code (ParseCoder app_codes err))) err in
      match WithDetails (codeForKind (SpecKind spec)) (Message spec) (business_detail spec) with
      | Some withDetails => withDetails
      | None => Status (codeForKind (SpecKind spec)) (Message spec) []
      end
    end.
End Mapper.
End grpcerror.

(** ** [package httperror] *)
Module httperror.
Record Response := MkResponse { HttpStatus : Z; ResponseCode : Z; ResponseMessage : string }.

Definition statusForKind (kind : Kind) : Z :=
  if bool_decide (kind = KindInvalidArgument) then 400
  else if bool_decide (kind = KindUnauthenticated) then 401
  else if bool_decide (kind = KindPermissionDenied) then 403
  else if bool_decide (kind = KindNotFound) then 404
  else if bool_decide (kind = KindConflict) then 409
  else if bool_decide (kind = KindRateLimited) then 429
  else if bool_decide (kind = KindUnavailable) then 503
  else if bool_decide (kind = KindTimeout) then 504
  else 500.

(** Reading a Go map: a missing key has the empty string. *)
Definition metadata_get (key : string) (metadata : list (string * string)) : string :=
  match find (fun kv => bool_decide (kv.1 = key)) metadata with Some kv => kv.2 | None => "" end.

Definition set_Message (m : string) (spec : Spec) : Spec :=
  MkSpec (Code spec) (SpecKind spec) m (Reference spec).

(** The loop over the details: the specification of the first marked detail, when
    its code is one of the registered ones. *)
Fixpoint marked_spec (details : list grpc_detail) : option Spec :=
  match details with
  | [] => None
  | ErrorInfo reason domain metadata :: rest =>
    if bool_decide (domain <> "goshop") || bool_decide (reason <> "GOSHOP_BUSINESS_ERROR")
    then marked_spec rest
    else
      match Atoi (metadata_get "business_code" metadata) with
      | None => None
      | Some code =>
        if code <=? 0 then None else
        let spec := SpecForCode app_codes code in
        if Code spec =? 1 then None
        else if Code spec =? ErrValidation then
          let message := metadata_get "public_message" metadata in
          Some (if bool_decide (message <> "") then set_Message message spec else spec)
        else Some spec
      end
  | OtherDetail :: rest => marked_spec rest
  end.

(** The generic specification of an unmarked status. *)
Definition generic_spec (code : Z) : option Spec :=
  if (code =? codes.InvalidArgument) || (code =? codes.FailedPrecondition) || (code =? codes.OutOfRange)
  then Some (SpecForCode app_codes ErrValidation)
  else if code =? codes.NotFound then Some (SpecForCode app_codes ErrPageNotFound)
  else if (code =? codes.Aborted) || (code =? codes.AlreadyExists) then Some (SpecForCode app_codes ErrConflict)
  else if code =? codes.PermissionDenied then Some (SpecForCode app_codes ErrPermissionDenied)
  else if code =? codes.Unauthenticated then Some (SpecForCode app_codes ErrTokenInvalid)
  else if code =? codes.DeadlineExceeded then Some (SpecForCode app_codes ErrTimeout)
  else if code =? codes.Unavailable then Some (SpecForCode app_codes ErrServiceUnavailable)
  else None.

Section Adapter.
Context `{G : grpc_status}.

Definition SpecFromGRPC (err : goerr) : option Spec :=
  match FromError err with
  | None => None
  | Some (code, _, details) =>
    match marked_spec details with
    | Some spec => Some spec
    | None => generic_spec code
    end
  end.

Definition ResponseFor (err : goerr) : Response :=
  let spec := grpcerror.spec_or
    match SpecFromGRPC err with
    | Some grpcSpec => grpcSpec
    | None => SpecForCode app_codes (Code (ParseCoder app_codes err))
    end err in
  MkResponse (statusForKind (SpecKind spec)) (Code spec) (Message spec).
End Adapter.

(** The envelope of [AbortWithStatus], under the status it was given. *)
Definition AbortWithStatus (status : Z) : Response :=
  let code :=
    if (status =? 400) || (status =? 413) then ErrBind
    else if status =? 401 then ErrTokenInvalid
    else if status =? 403 then ErrPermissionDenied
    else if status =? 404 then ErrPageNotFound
    else if status =? 409 then ErrConflict
    else if status =? 504 then ErrTimeout
    else if status =? 503 then ErrServiceUnavailable
    else if status =? 429 then ErrRateLimited
    else ErrUnknown in
  let spec := SpecForCode app_codes code in
  MkResponse status (Code spec) (Message spec).
End httperror.
Import grpcerror httperror.

(** ** The contract of an error's specifications *)

(** A specification as the constructors of [pkg/errors] make them: code and kind of
    a registered contract, with its message unless it is a validation error, which
    may carry a message of its own. *)
Definition good_spec (sp : Spec) : bool :=
  match app_codes !! Code sp with
  | Some reg =>
    bool_decide (SpecKind sp = SpecKind reg) &&
    (bool_decide (Message sp = Message reg) ||
     ((Code sp =? ErrValidation) && bool_decide (Message sp <> "")))
  | None => false
  end.

Definition bad_node (e : goerr) : bool :=
  match e with withSpec sp _ _ => negb (good_spec sp) | _ => false end.

(** Every specification of the error is one the constructors make. *)
Definition conforms (e : goerr) : bool := negb (any_node bad_node e).

Lemma app_codes_wf code reg :
  app_codes !! code = Some reg ->
  Code reg = code /\ 0 < code < 2 ^ 63 /\ SpecKind reg <> "" /\ Message reg <> "".
Proof.
  revert code reg. apply map_Forall_lookup.
  assert (bool_decide (map_Forall (fun c sp => Code sp = c /\ (0 < c < 2 ^ 63) /\ SpecKind sp <> "" /\ Message sp <> "")
            app_codes) = true) as H by (vm_compute; done).
  by apply bool_decide_eq_true in H.
Qed.

Lemma SpecForCode_reg code reg : app_codes !! code = Some reg -> SpecForCode app_codes code = reg.
Proof. intros H. unfold SpecForCode, lookupCoder. rewrite H. by destruct reg. Qed.

(** What the walk of [SpecOf] finds is a node of the tree. *)
Lemma spec_walk_found visit sp e :
  (forall i c, visit (withSpec sp i c) = true) ->
  forall r, (spec_walk e r).1 = Some sp -> any_node visit e = true.
Proof.
  intros Hv. induction e as [fmt args cause IH|spec internal cause IH|errs IH|g m d|m] using goerr_induction; intros r.
  - cbn [spec_walk any_node]. destruct (r =? 0)%N; [done|]. destruct cause as [c|]; [|done].
    intros H. rewrite (IH _ H). apply orb_true_r.
  - cbn [spec_walk any_node]. destruct (r =? 0)%N; [done|]. intros [= ->]. destruct cause; by rewrite Hv.
  - cbn [spec_walk any_node]. destruct (r =? 0)%N; [done|]. generalize (r - 1)%N.
    induction IH as [|e errs He _ IHl]; intros q; [done|]. cbn [existsb].
    specialize (He q). destruct (spec_walk e q) as [[sp'|] q']; cbn [fst].
    + intros [= ->]. by rewrite He.
    + intros H. rewrite (IHl _ H). apply orb_true_r.
  - simpl. by destruct (r =? 0)%N.
  - simpl. by destruct (r =? 0)%N.
Qed.

Lemma conforms_SpecOf e sp : conforms e = true -> SpecOf e = Some sp -> good_spec sp = true.
Proof.
  unfold conforms, SpecOf. intros Hc H. destruct (good_spec sp) eqn:E; [done|].
  rewrite (spec_walk_found bad_node sp e) with (r := maxErrorTreeNodes) in Hc; [done| |done].
  intros i c. simpl. by rewrite E.
Qed.

Lemma good_unknown : good_spec unknownCoder = true.
Proof. vm_compute. done. Qed.

Lemma good_kind sp : good_spec sp = true -> SpecKind sp <> "".
Proof.
  unfold good_spec. destruct (app_codes !! Code sp) as [reg|] eqn:E; [|done].
  intros [->%bool_decide_eq_true _]%andb_true_iff. by apply app_codes_wf in E as (_ & _ & ? & _).
Qed.

(** The specification an error is reported with when it is no gRPC status. *)
Definition public_spec (e : goerr) : Spec :=
  spec_or (SpecForCode app_codes (Code (ParseCoder app_codes e))) e.

Lemma public_spec_good e : conforms e = true -> good_spec (public_spec e) = true.
Proof.
  intros H. unfold public_spec, spec_or, ParseCoder. destruct (SpecOf e) as [sp|] eqn:E; [|apply good_unknown].
  pose proof (conforms_SpecOf _ _ H E) as Hg. by rewrite bool_decide_eq_false_2 by (by apply good_kind).
Qed.

(** The constructors conform. *)
Lemma good_spec_lookup sp reg :
  app_codes !! Code sp = Some reg ->
  good_spec sp = bool_decide (SpecKind sp = SpecKind reg) &&
    (bool_decide (Message sp = Message reg) ||
     ((Code sp =? ErrValidation) && bool_decide (Message sp <> ""))).
Proof. intros H. unfold good_spec. by rewrite H. Qed.

Lemma registered_good reg : app_codes !! Code reg = Some reg -> good_spec reg = true.
Proof.
  intros H. rewrite (good_spec_lookup _ _ H). clear H.
  rewrite (bool_decide_eq_true_2 (SpecKind reg = _) eq_refl), (bool_decide_eq_true_2 (Message reg = _) eq_refl).
  reflexivity.
Qed.

Lemma catalogSpec_good sp : good_spec (catalogSpec app_codes sp) = true.
Proof.
  unfold catalogSpec, registeredSpecForCode, lookupCoder. destruct (app_codes !! Code sp) as [reg|] eqn:E.
  - apply registered_good. by destruct (app_codes_wf _ _ E) as (-> & _).
  - apply good_unknown.
Qed.

Lemma NewCode_conforms code internal : conforms (NewCode app_codes code internal) = true.
Proof.
  unfold NewCode, NewSpec, conforms. destruct (registeredSpecForCode app_codes code) as [sp|]; cbn [any_node bad_node];
    by rewrite catalogSpec_good.
Qed.

Lemma WrapCode_conforms err code internal : conforms err = true -> conforms (WrapCode app_codes err code internal) = true.
Proof.
  unfold WrapCode, wrapSpec, conforms. destruct (registeredSpecForCode app_codes code) as [sp|]; cbn [any_node bad_node];
    by rewrite catalogSpec_good.
Qed.

Lemma NewValidationError_conforms message : conforms (NewValidationError message) = true.
Proof.
  unfold NewValidationError, NewPublicSpec. cbn [Code SpecKind Message].
  destruct (registeredSpecForCode app_codes ErrValidation) as [reg|] eqn:E; [|apply NewCode_conforms].
  destruct (_ || _) eqn:Hb; [apply NewCode_conforms|].
  apply orb_false_iff in Hb as [_ Hm%bool_decide_eq_false].
  assert (reg = MkSpec ErrValidation KindInvalidArgument "Validation failed" "") as ->.
  { assert (Some reg = registeredSpecForCode app_codes ErrValidation) as Hr by done. vm_compute in Hr. by injection Hr. }
  assert (Validate (MkSpec ErrValidation KindInvalidArgument message "") = None) as Hv.
  { unfold Validate. cbn [Code SpecKind Message]. by rewrite (bool_decide_eq_false_2 (message = "")). }
  unfold safeSpec. cbn [Reference]. rewrite Hv. unfold conforms, bad_node, good_spec. cbn [any_node Code SpecKind Message].
  change (app_codes !! ErrValidation) with (registeredSpecForCode app_codes ErrValidation). rewrite E.
  cbn [SpecKind Message]. rewrite !(bool_decide_eq_true_2 (message <> "")) by done.
  rewrite (bool_decide_eq_true_2 (KindInvalidArgument = _)) by done. by rewrite orb_true_r.
Qed.

(** ** The round trip of a code *)

Lemma Atoi_itoa n : 0 <= n < 2 ^ 63 -> Atoi (itoa n) = Some n.
Proof.
  intros Hn. unfold Atoi, itoa. destruct (Z.ltb_spec n 0); [lia|]. rewrite explode_implode.
  pose proof (uint_digits_digits n ltac:(lia)) as Hd.
  pose proof (uint_digits_value n ltac:(unfold_int; lia)) as Hv.
  pose proof (uint_digits_nonempty n) as Hne.
  assert (ParseUint (uint_digits n) = Some n) as Hp.
  { unfold ParseUint. destruct (uint_digits n) as [|c l] eqn:E; [done|].
    rewrite parse_uint_loop_complete; [by rewrite Hv|done|lia|rewrite Hv; unfold_int; lia]. }
  destruct (uint_digits n) as [|c l]; [done|]. apply Forall_cons in Hd as [Hc _].
  destruct (decide (c = "-"%char)) as [->|N1]; [done|]. destruct (decide (c = "+"%char)) as [->|N2]; [done|].
  assert ((match c :: l with
           | "-"%char :: l => (true, l) | "+"%char :: l => (false, l) | l => (false, l) end) = (false, c :: l)) as ->.
  { clear -N1 N2. destruct c as [[] [] [] [] [] [] [] []]; done. }
  rewrite Hp. simpl. destruct (Z.ltb_spec n (2 ^ 63)); [done|lia].
Qed.

(** What a specification shows of itself. *)
Definition response_of (sp : Spec) : Response :=
  MkResponse (statusForKind (SpecKind sp)) (Code sp) (Message sp).

Lemma codeForKind_not_OK k : codeForKind k <> codes.OK.
Proof. unfold codeForKind. by repeat case_bool_decide. Qed.

(** The detail written for a specification reads back as the same response. *)
Lemma marked_business_detail sp :
  good_spec sp = true -> Code sp <> 1 ->
  exists sp', marked_spec [business_detail sp] = Some sp' /\ response_of sp' = response_of sp.
Proof.
  intros Hg H1. unfold good_spec in Hg. destruct (app_codes !! Code sp) as [reg|] eqn:E; [|done].
  destruct (app_codes_wf _ _ E) as (Hc & Hpos & _ & _).
  cbn [marked_spec business_detail]. rewrite !bool_decide_eq_false_2 by tauto. cbn [orb].
  change (metadata_get "business_code" _) with (itoa (Code sp)).
  rewrite Atoi_itoa by lia. destruct (Z.leb_spec (Code sp) 0); [lia|].
  rewrite (SpecForCode_reg _ _ E). cbn zeta. destruct (Z.eqb_spec (Code reg) 1); [lia|].
  change (metadata_get "public_message" _) with (Message sp). rewrite Hc. unfold response_of.
  apply andb_true_iff in Hg as [Hk%bool_decide_eq_true Hm]. rewrite Hk.
  destruct (Z.eqb_spec (Code sp) ErrValidation) as [Hv|Hv].
  - eexists. split; [done|]. destruct (decide (Message sp = "")) as [He|Hne].
    2: { by rewrite bool_decide_eq_true_2; cbn [SpecKind Code Message set_Message]; [rewrite Hc|]. }
    rewrite bool_decide_eq_false_2 by tauto. rewrite Hc.
    apply orb_true_iff in Hm as [Hm|Hm]; [apply bool_decide_eq_true in Hm; congruence|].
    apply andb_true_iff in Hm as [_ Hm%bool_decide_eq_true]. by destruct Hm.
  - eexists. split; [done|]. apply orb_true_iff in Hm as [Hm%bool_decide_eq_true|Hm]; [congruence|by rewrite andb_false_l in Hm].
Qed.

(** The internal error has no detail a client could read and no generic code. *)
Lemma unmarked_unknown sp :
  good_spec sp = true -> Code sp = 1 ->
  marked_spec [business_detail sp] = None /\ generic_spec (codeForKind (SpecKind sp)) = None /\
  response_of sp = response_of unknownCoder.
Proof.
  intros Hg E1.
  assert (app_codes !! Code sp = Some unknownCoder) as E by (rewrite E1; vm_compute; reflexivity).
  rewrite (good_spec_lookup _ _ E), E1 in Hg. clear E. unfold response_of, business_detail. rewrite E1. clear E1.
  apply andb_true_iff in Hg as [Hk%bool_decide_eq_true Hm].
  apply orb_true_iff in Hm as [Hm%bool_decide_eq_true|Hm]; [|discriminate Hm].
  rewrite Hk, Hm. clear. split_and!; vm_compute; reflexivity.
Qed.

(** A response that shows nothing but a registered contract, or a validation
    message. *)
Definition public_response (r : Response) : Prop :=
  exists reg, app_codes !! ResponseCode r = Some reg /\ HttpStatus r = statusForKind (SpecKind reg) /\
    (ResponseMessage r = Message reg \/ ResponseCode r = ErrValidation).

Lemma good_public sp : good_spec sp = true -> public_response (response_of sp).
Proof.
  unfold good_spec, public_response. cbn [response_of ResponseCode HttpStatus ResponseMessage].
  destruct (app_codes !! Code sp) as [reg|]; [|done]. intros [->%bool_decide_eq_true H]%andb_true_iff.
  exists reg. split_and!; [done..|]. apply orb_true_iff in H as [->%bool_decide_eq_true|H]; [by left|right].
  apply andb_true_iff in H as [H _]. lia.
Qed.

Lemma SpecForCode_good code : good_spec (SpecForCode app_codes code) = true.
Proof.
  unfold SpecForCode, lookupCoder. destruct (app_codes !! code) as [reg|] eqn:E; [|apply good_unknown].
  apply registered_good. by destruct (app_codes_wf _ _ E) as (-> & _).
Qed.

Lemma marked_public ds sp : marked_spec ds = Some sp -> public_response (response_of sp).
Proof.
  induction ds as [|[reason domain metadata|] ds IH]; cbn [marked_spec]; [done| |done].
  destruct (_ || _); [done|]. destruct (Atoi _) as [c|]; [|done]. destruct (c <=? 0); [done|]. cbn zeta.
  destruct (Code _ =? 1); [done|]. pose proof (SpecForCode_good c) as Hg. generalize dependent (SpecForCode app_codes c).
  intros sp0 Hg. destruct (Z.eqb_spec (Code sp0) ErrValidation) as [Hv|_]; intros [= <-]; [|by apply good_public].
  destruct (good_public sp0 Hg) as (reg & E & Hk & _). exists reg. case_bool_decide; cbn in *; auto.
Qed.

Lemma generic_public c sp : generic_spec c = Some sp -> public_response (response_of sp).
Proof.
  unfold generic_spec. intros H.
  repeat match type of H with (if ?b then _ else _) = _ => destruct b end;
    [..|discriminate H]; apply (inj Some) in H as <-; apply good_public, SpecForCode_good.
Qed.

Section Gateway.
Context {G : grpc_status} {HG : grpc_status_laws G}.

Lemma ResponseFor_spec e :
  ResponseFor e = response_of (spec_or
    match SpecFromGRPC e with
    | Some grpcSpec => grpcSpec
    | None => SpecForCode app_codes (Code (ParseCoder app_codes e))
    end e).
Proof. done. Qed.

Lemma ResponseFor_local e : any_node is_status e = false -> ResponseFor e = response_of (public_spec e).
Proof. intros H. unfold ResponseFor, SpecFromGRPC. by rewrite FromError_other. Qed.

Lemma ResponseFor_status c m ds :
  ResponseFor (Status c m ds) =
  response_of (match marked_spec ds with
               | Some spec => spec
               | None => default unknownCoder (generic_spec c)
               end).
Proof.
  unfold ResponseFor, SpecFromGRPC. rewrite FromError_status. unfold spec_or. change (SpecOf (Status c m ds)) with (@None Spec).
  cbn match. destruct (marked_spec ds); [done|]. by destruct (generic_spec c).
Qed.

(** C23: an error reaches an HTTP client unchanged through the gateway: for every
    error whose specifications were made by the constructors of the error package
    and which contains neither a gRPC status nor a cancelled or expired context,
    the response to the status it is mapped to has the HTTP status, the code and
    the message of the response to the error itself.  (A context error takes
    precedence over the code it is wrapped in and becomes a cancellation or a
    timeout.) *)
Theorem gateway_preserves_errors e :
  conforms e = true -> any_node is_status e = false ->
  Is e context_Canceled = false -> Is e context_DeadlineExceeded = false ->
  ResponseFor (Map e) = ResponseFor e.
Proof.
  intros Hc Hs H1 H2. rewrite (ResponseFor_local e Hs). unfold Map. rewrite H1, H2, FromError_other by done.
  fold (public_spec e). pose proof (public_spec_good e Hc) as Hg. generalize dependent (public_spec e). intros sp Hg.
  rewrite WithDetails_coded by apply codeForKind_not_OK. rewrite ResponseFor_status.
  destruct (decide (Code sp = 1)) as [E|E].
  - by destruct (unmarked_unknown sp Hg E) as (-> & -> & ->).
  - by destruct (marked_business_detail sp Hg E) as (sp' & -> & ?).
Qed.

(** C24: no text from inside the system reaches a client: in every response
    [ResponseFor] builds for an error whose specifications were made by the
    constructors of the error package, an unmarked or forged gRPC status included,
    the code is a registered one, the HTTP status is the one the adapter gives the
    kind registered for the code, and the message is the registered one unless it
    is a validation error.  (The comments and the generated table list other
    statuses for some codes; aborts with a status of the framework's own, such as
    413, do not pass here.) *)
Theorem responses_are_public e : conforms e = true -> public_response (ResponseFor e).
Proof.
  intros Hc. rewrite ResponseFor_spec. unfold spec_or.
  destruct (SpecOf e) as [sp|] eqn:E.
  { pose proof (conforms_SpecOf _ _ Hc E) as Hg. rewrite bool_decide_eq_false_2 by (by apply good_kind). by apply good_public. }
  destruct (SpecFromGRPC e) as [sp|] eqn:Eg; [|apply good_public, SpecForCode_good].
  unfold SpecFromGRPC in Eg. destruct (FromError e) as [[[c m] ds]|]; [|done].
  destruct (marked_spec ds) eqn:Em; simplify_eq; [by eapply marked_public|by eapply generic_public].
Qed.
End Gateway.

(** ** A concrete status package *)

(** The first status of the tree, with the text of the whole error when it is
    wrapped. *)
Fixpoint first_status (e : goerr) : option (Z * string * list grpc_detail) :=
  match e with
  | Status c m ds => Some (c, m, ds)
  | Errorf _ _ (Some e') | withSpec _ _ (Some e') => first_status e'
  | aggregate errs => fold_right (fun e r => match first_status e with Some x => Some x | None => r end) None errs
  | _ => None
  end.
Definition demo_status : grpc_status :=
  Build_grpc_status
    (fun e => match e with
              | Status c m ds => Some (c, m, ds)
              | _ => (fun '(c, m, ds) => (c, error_text e, ds)) <$> first_status e
              end)
    (fun c m d => if c =? codes.OK then None else Some (Status c m [d])).

Lemma first_status_none e : any_node is_status e = false -> first_status e = None.
Proof.
  induction e as [fmt args cause IH|spec internal cause IH|errs IH|g m d|m] using goerr_induction; simpl; try done.
  1, 2: destruct cause; [exact IH|done].
  induction IH as [|e errs He _ IHl]; simpl; [done|]. intros [H1 H2]%orb_false_iff. by rewrite He, IHl.
Qed.

Lemma demo_status_laws : grpc_status_laws demo_status.
Proof.
  split; [done| |].
  - intros e H. pose proof (first_status_none e H) as E. destruct e; cbn [FromError demo_status]; rewrite ?E; done.
  - intros c m d Hc. cbn [WithDetails demo_status]. by destruct (Z.eqb_spec c codes.OK).
Qed.

Definition demo_error : goerr :=
  Errorf "submit order: %w" [] (Some (NewValidationError "address is required")).

Lemma gateway_preserves_errors_witness :
  @ResponseFor demo_status (@Map demo_status demo_error) = @ResponseFor demo_status demo_error /\
  @ResponseFor demo_status demo_error = MkResponse 400 ErrValidation "address is required".
Proof.
  split; [|by vm_compute].
  apply (@gateway_preserves_errors demo_status demo_status_laws demo_error); vm_compute; reflexivity.
Defined.

Lemma responses_are_public_witness :
  public_response (@ResponseFor demo_status (Status codes.Internal "dial tcp 10.0.0.7: refused" [])).
Proof.
  apply (@responses_are_public demo_status (Status codes.Internal "dial tcp 10.0.0.7: refused" [])). vm_compute. reflexivity.
Defined.
