(* ===== verification/Money.v ===== *)
(** * Money: [pkg/money/money.go]

    Amounts are 64-bit counts of fen.  Arithmetic either is exact or reports an
    overflow; the decimal form parses back to the amount it was printed from. *)
From S2P Require Import Prelude GoStrings Errors.

Module money.

Definition FenPerYuan : Z := 100.

(** [type Fen int64] with [NewFen] and [Int64], the conversions. *)
Abbreviation Fen := Z (only parsing).
Definition NewFen (v : Z) : Fen := v.
Definition Int64 (f : Fen) : Z := f.

(** [func int64Magnitude(v int64) uint64] *)
Definition int64Magnitude (v : Z) : Z :=
  if v <? 0 then wrapu64 (wrapu64 (wrap64 (- wrap64 (v + 1))) + 1) else wrapu64 v.

(** [func (f Fen) YuanString() string] *)
Definition YuanString (f : Fen) : string :=
  let value := f in
  let sign := if value <? 0 then "-" else "" in
  let magnitude := int64Magnitude value in
  let yuan := magnitude / FenPerYuan in
  let fen := magnitude mod FenPerYuan in
  sign +:+ implode (uint_digits yuan) +:+ "." +:+ implode (pad_zero 2 (uint_digits fen)).

(** [func (f Fen) Add(other Fen) (Fen, error)] *)
Definition Add (f other : Fen) : Fen + goerr :=
  let left := f in
  let right := other in
  if ((0 <? right) && (wrap64 (int64_max - right) <? left)) ||
     ((right <? 0) && (left <? wrap64 (int64_min - right)))
  then inr (Errorf "money add overflow: %d + %d" [itoa left; itoa right] None)
  else inl (wrap64 (left + right)).

(** [func (f Fen) Multiply(qty int64) (Fen, error)]; [bits.Mul64] gives the high
    and the low word of the 128-bit product. *)
Definition Multiply (f : Fen) (qty : Z) : Fen + goerr :=
  if (qty =? 0) || (f =? 0) then inl 0 else
  let wide := int64Magnitude f * int64Magnitude qty in
  let overflow := wide / 2 ^ 64 in
  let product := wide mod 2 ^ 64 in
  let negative := negb (Bool.eqb (f <? 0) (qty <? 0)) in
  let limit := if negative then wrapu64 (int64_max + 1) else int64_max in
  if negb (overflow =? 0) || (limit <? product)
  then inr (Errorf "money multiply overflow: %d * %d" [itoa f; itoa qty] None)
  else
    let result := wrap64 product in
    inl (if negative && negb (product =? 2 ^ 63) then wrap64 (- result) else result).

(** [func allDigits(value string) bool] *)
Definition allDigits (value : string) : bool := forallb is_digit (explode value).

(** [strings.TrimLeft(s, "0")] *)
Fixpoint trim_zeros (l : list Ascii.ascii) : list Ascii.ascii :=
  match l with
  | c :: rest => if bool_decide (c = digit_char 0) then trim_zeros rest else l
  | [] => []
  end.

(** The sign of a trimmed decimal string and what follows it. *)
Definition parse_sign (value : string) : Z * string :=
  match value with
  | String c rest =>
    if bool_decide (c = "-"%char) then (-1, rest)
    else if bool_decide (c = "+"%char) then (1, rest) else (1, value)
  | EmptyString => (1, value)
  end.

(** [func ParseYuan(value string) (Fen, error)] *)
Definition ParseYuan (value : string) : Fen + goerr :=
  let value := TrimSpace value in
  if bool_decide (value = "") then inr (Errorf "money string is empty" [] None) else
  let '(sign, value) := parse_sign value in
  if bool_decide (value = "") then inr (Errorf "money string is invalid" [] None) else
  let parts := Split value "."%char in
  if (2 <? Z.of_nat (length parts))
  then inr (Errorf "money string %q is invalid" [value] None) else
  let intPart := default "" (parts !! 0%nat) in
  let intPart := if bool_decide (intPart = "") then "0" else intPart in
  let fracPart := if (Z.of_nat (length parts) =? 2) then default "" (parts !! 1%nat) else "" in
  if (2 <? Z.of_nat (slength fracPart))
  then inr (Errorf "money string %q has more than 2 decimal places" [value] None) else
  let fracPart := if bool_decide (fracPart = "") then "00"
                  else if (Z.of_nat (slength fracPart) =? 1) then fracPart +:+ "0" else fracPart in
  if negb (allDigits intPart) || negb (allDigits fracPart)
  then inr (Errorf "money string %q is invalid" [value] None) else
  let normalized := trim_zeros (explode (intPart +:+ fracPart)) in
  match normalized with
  | [] => inl 0
  | _ =>
    match ParseUint normalized with
    | None => inr (Errorf "parse money %q: %w" [value]
                  (Some (Errorf "strconv.ParseUint: parsing %q: value out of range"
                           [implode normalized] None)))
    | Some fenValue =>
      let limit := if sign <? 0 then wrapu64 (int64_max + 1) else int64_max in
      if limit <? fenValue then inr (Errorf "parse money %q: value out of range" [value] None) else
      let result := wrap64 fenValue in
      inl (if (sign <? 0) && negb (fenValue =? 2 ^ 63) then wrap64 (- result) else result)
    end
  end.

(** [func MustParseYuan(value string) Fen]: [None] is the panic. *)
Definition MustParseYuan (value : string) : option Fen :=
  match ParseYuan value with inl fen => Some fen | inr _ => None end.

End money.
Import money.

(** ** Arithmetic *)

Lemma int64Magnitude_abs v : is_int64 v -> int64Magnitude v = Z.abs v.
Proof.
  intros H. unfold int64Magnitude. destruct (Z.ltb_spec v 0).
  - rewrite (wrap64_id (v + 1)) by (unfold_int; lia).
    rewrite wrap64_id by (unfold_int; lia).
    rewrite (wrapu64_id (- (v + 1))) by (unfold_int; lia).
    rewrite wrapu64_id by (unfold_int; lia). lia.
  - rewrite wrapu64_id by (unfold_int; lia). lia.
Qed.

(** Converting a magnitude within the limit of its sign gives the signed value. *)
Lemma signed_of_magnitude (negative : bool) m :
  0 <= m <= (if negative then 2 ^ 63 else int64_max) ->
  (if negative && negb (m =? 2 ^ 63) then wrap64 (- wrap64 m) else wrap64 m)
  = if negative then - m else m.
Proof.
  intros H. destruct negative; simpl; [|apply wrap64_id; unfold_int; lia].
  destruct (Z.eqb_spec m (2 ^ 63)) as [->|]; simpl; [by vm_compute|].
  rewrite (wrap64_id m), wrap64_id by (unfold_int; lia). done.
Qed.

Lemma Add_cases f g :
  is_int64 f -> is_int64 g ->
  (is_int64 (f + g) -> Add f g = inl (f + g)) /\
  (~ is_int64 (f + g) -> exists e, Add f g = inr e).
Proof.
  intros Hf Hg. unfold Add.
  destruct (_ || _) eqn:E; bprop; split; intros H; [|by eauto|by rewrite wrap64_id|].
  - exfalso. destruct E as [[? E]|[? E]]; rewrite wrap64_id in E; unfold_int; lia.
  - exfalso. apply H. destruct E as [E1 E2]. destruct (decide (0 < g)).
    + destruct E1 as [|E1]; [lia|]. rewrite wrap64_id in E1; unfold_int; lia.
    + destruct E2 as [|E2]; [unfold_int; lia|].
      destruct (decide (g = 0)) as [->|]; [unfold_int; lia|].
      rewrite wrap64_id in E2; unfold_int; lia.
Qed.

Lemma Multiply_cases f qty :
  is_int64 f -> is_int64 qty ->
  (is_int64 (f * qty) -> Multiply f qty = inl (f * qty)) /\
  (~ is_int64 (f * qty) -> exists e, Multiply f qty = inr e).
Proof.
  intros Hf Hq. unfold Multiply.
  destruct ((qty =? 0) || (f =? 0)) eqn:E0.
  { assert (f * qty = 0) as -> by (bprop; nia). split; [done|]. intros []. unfold_int. lia. }
  rewrite !int64Magnitude_abs by done. rewrite <- Z.abs_mul.
  set (p := Z.abs (f * qty)). cbn zeta.
  set (negative := negb (Bool.eqb (f <? 0) (qty <? 0))).
  set (limit := if negative then wrapu64 (int64_max + 1) else int64_max).
  assert (limit = if negative then 2 ^ 63 else int64_max) as Hlim by (unfold limit; by destruct negative).
  assert (f * qty = if negative then - p else p) as Hp.
  { unfold negative, p. bprop. destruct (Z.ltb_spec f 0), (Z.ltb_spec qty 0); simpl; nia. }
  assert (0 < p) as Hpos by (unfold p; bprop; nia).
  assert (is_int64 (f * qty) <-> p <= limit) as Hiff.
  { rewrite Hp, Hlim. unfold_int. destruct negative; lia. }
  assert (limit < 2 ^ 64) as Hl64 by (rewrite Hlim; unfold_int; destruct negative; lia).
  bprop. destruct (negb _ || _) eqn:E; split; intros H.
  - exfalso. apply Hiff in H. rewrite Z.div_small, Z.mod_small in E by lia. simpl in E. blia.
  - by eauto.
  - apply Hiff in H. rewrite Z.mod_small by lia. f_equal.
    rewrite signed_of_magnitude by (rewrite <- Hlim; lia). by rewrite Hp.
  - exfalso. apply H, Hiff. bprop. destruct E as [E1 E2].
    rewrite (Z.div_mod p (2 ^ 64)) by lia. lia.
Qed.

Lemma Add_inl f g r : is_int64 f -> is_int64 g -> Add f g = inl r -> r = f + g /\ is_int64 r.
Proof.
  intros Hf Hg H. destruct (Add_cases f g Hf Hg) as [H1 H2].
  destruct (decide (is_int64 (f + g))) as [Hi|Hi]; 
    [rewrite H1 in H by done; by injection H as <-|destruct (H2 Hi) as [e E]; by rewrite E in H].
Qed.

Lemma Multiply_inl f q r : is_int64 f -> is_int64 q -> Multiply f q = inl r -> r = f * q /\ is_int64 r.
Proof.
  intros Hf Hg H. destruct (Multiply_cases f q Hf Hg) as [H1 H2].
  destruct (decide (is_int64 (f * q))) as [Hi|Hi]; 
    [rewrite H1 in H by done; by injection H as <-|destruct (H2 Hi) as [e E]; by rewrite E in H].
Qed.

(** C34: amounts never wrap: addition and multiplication return the exact result when
    it fits in 64 bits, and an error otherwise. *)
Theorem arithmetic_exact f g :
  is_int64 f -> is_int64 g ->
  ((is_int64 (f + g) -> Add f g = inl (f + g)) /\ (~ is_int64 (f + g) -> exists e, Add f g = inr e)) /\
  ((is_int64 (f * g) -> Multiply f g = inl (f * g)) /\ (~ is_int64 (f * g) -> exists e, Multiply f g = inr e)).
Proof. intros Hf Hg. split; [by apply Add_cases|by apply Multiply_cases]. Qed.

Lemma arithmetic_exact_witness : Add 5 (-7) = inl (-2) /\ Multiply (-2) 4611686018427387904 = inl int64_min.
Proof.
  split.
  - apply (arithmetic_exact 5 (-7)); unfold_int; lia.
  - apply (arithmetic_exact (-2) 4611686018427387904); unfold_int; lia.
Defined.

(** ** Printing and parsing *)

Lemma trim_zeros_value l : digits_from 0 (trim_zeros l) = digits_from 0 l.
Proof.
  induction l as [|c l IH]; [done|]. simpl. case_bool_decide as E; [|done].
  rewrite IH, E, digits_from_cons. done.
Qed.

Lemma trim_zeros_digits l :
  Forall (fun c => is_digit c = true) l -> Forall (fun c => is_digit c = true) (trim_zeros l).
Proof. induction 1; simpl; [done|]. case_bool_decide; [done|by constructor]. Qed.

Lemma allDigits_digits l :
  Forall (fun c => is_digit c = true) l -> allDigits (implode l) = true.
Proof.
  intros H. unfold allDigits. rewrite explode_implode. apply forallb_forall.
  rewrite Forall_forall in H. intros c Hc. by apply H, list_elem_of_In.
Qed.

Lemma two_digits_length c : 0 <= c < 100 -> length (pad_zero 2 (uint_digits c)) = 2%nat.
Proof.
  intros H. unfold pad_zero, uint_digits, digits_aux.
  destruct (Z.ltb_spec c 10); [done|].
  destruct (Z.ltb_spec (c / 10) 10); [done|].
  assert (c / 10 < 10) by (apply Z.div_lt_upper_bound; lia). lia.
Qed.

Lemma digits_no_char l c :
  Forall (fun c => is_digit c = true) l -> is_digit c = false -> c ∉ l.
Proof. rewrite Forall_forall. intros H Hc Hin. apply H in Hin. congruence. Qed.

(** The two decimal parts of an amount denote its magnitude. *)
Lemma decimal_parts_value m :
  is_uint64 m -> digits_from 0 (uint_digits (m / 100) ++ pad_zero 2 (uint_digits (m mod 100))) = m.
Proof.
  intros H. pose proof (Z.mod_pos_bound m 100 ltac:(lia)).
  rewrite digits_from_app, two_digits_length by done.
  unfold pad_zero. rewrite digits_from_zeros.
  rewrite !uint_digits_value; [pose proof (Z.div_mod m 100); simpl; lia|unfold_int; lia|].
  unfold_int. split; [apply Z.div_pos; lia|apply Z.div_le_upper_bound; lia].
Qed.

(** [ParseYuan] on a sign and two runs of digits, the second of length two. *)
Lemma ParseYuan_decimal (negative : bool) d1 d2 m :
  Forall (fun c => is_digit c = true) d1 -> Forall (fun c => is_digit c = true) d2 ->
  d1 <> [] -> length d2 = 2%nat -> digits_from 0 (d1 ++ d2) = m ->
  0 <= m <= (if negative then 2 ^ 63 else int64_max) ->
  ParseYuan ((if negative then "-" else "") +:+ implode d1 +:+ "." +:+ implode d2)
  = inl (if negative then - m else m).
Proof.
  intros H1 H2 Hne Hlen Hval Hm.
  set (rest := implode d1 +:+ "." +:+ implode d2).
  assert (explode rest = d1 ++ "."%char :: d2) as Hrest.
  { unfold rest. autorewrite with gostr. done. }
  assert (Forall (fun c => printable c = true) (explode rest)) as Hpr.
  { rewrite Hrest. apply Forall_app. split; [|constructor; [done|]];
      (eapply Forall_impl; [done|]); apply digit_printable. }
  assert (rest <> "") as Hne'.
  { intros E. rewrite E in Hrest. destruct d1; done. }
  unfold ParseYuan. rewrite TrimSpace_printable by (destruct negative; [by constructor|done]).
  assert (parse_sign ((if negative then "-" else "") +:+ rest) = (if negative then -1 else 1, rest)) as Hs.
  { destruct negative; [done|]. change ("" +:+ rest) with rest.
    destruct rest as [|c r] eqn:Er; [done|]. destruct d1 as [|c' d1]; [done|].
    simpl in Hrest. injection Hrest as -> _. inversion H1 as [|?? Hc _]; subst.
    unfold parse_sign. by rewrite !bool_decide_eq_false_2 by (intros ->; done). }
  rewrite Hs. rewrite !bool_decide_eq_false_2 by (first [done|by destruct negative]).
  assert (Split rest "."%char = [implode d1; implode d2]) as Hsp.
  { unfold Split. rewrite Hrest, split_on_one, split_on_no_sep by (by eapply digits_no_char). done. }
  rewrite Hsp. cbv zeta.
  change (default "" ([implode d1; implode d2] !! 0%nat)) with (implode d1).
  change (default "" ([implode d1; implode d2] !! 1%nat)) with (implode d2).
  change (2 <? Z.of_nat (length [implode d1; implode d2])) with false.
  change (Z.of_nat (length [implode d1; implode d2]) =? 2) with true. cbv iota.
  rewrite slength_implode, Hlen. change (2 <? Z.of_nat 2) with false.
  change (Z.of_nat 2 =? 1) with false. cbv iota.
  rewrite !bool_decide_eq_false_2 by (rewrite implode_nil_iff; by destruct d2).
  rewrite !allDigits_digits by done. cbn [negb orb]. cbv iota.
  rewrite explode_app, !explode_implode.
  assert (((if negative then -1 else 1) <? 0) = negative) as -> by (by destruct negative).
  pose proof (trim_zeros_value (d1 ++ d2)) as Htz.
  assert (ParseUint (trim_zeros (d1 ++ d2)) = Some m \/ trim_zeros (d1 ++ d2) = []) as [Hp|Hp].
  { destruct (trim_zeros (d1 ++ d2)) as [|c z] eqn:Ez; [by right|left].
    unfold ParseUint. rewrite parse_uint_loop_complete.
    - by rewrite Htz, Hval.
    - rewrite <- Ez. apply trim_zeros_digits, Forall_app. done.
    - lia.
    - rewrite Htz, Hval. unfold_int. destruct negative; lia. }
  - destruct (trim_zeros (d1 ++ d2)); [done|]. rewrite Hp.
    destruct (Z.ltb_spec (if negative then wrapu64 (int64_max + 1) else int64_max) m) as [Hlt|_].
    { destruct negative; [change (wrapu64 (int64_max + 1)) with (2 ^ 63) in Hlt|]; lia. }
    f_equal. by apply signed_of_magnitude.
  - rewrite Hp in Htz |- *. rewrite Hval, digits_from_nil in Htz. subst m.
    by rewrite <- Htz; destruct negative.
Qed.

(** Every amount parses back from its decimal form. *)
Theorem ParseYuan_YuanString f : is_int64 f -> ParseYuan (YuanString f) = inl f.
Proof.
  intros H. unfold YuanString, FenPerYuan. rewrite int64Magnitude_abs by done.
  rewrite (ParseYuan_decimal (f <? 0) _ _ (Z.abs f)).
  - f_equal. destruct (Z.ltb_spec f 0); lia.
  - apply uint_digits_digits. apply Z.div_pos; lia.
  - apply pad_zero_digits, uint_digits_digits. pose proof (Z.mod_pos_bound (Z.abs f) 100). lia.
  - apply uint_digits_nonempty.
  - apply two_digits_length. pose proof (Z.mod_pos_bound (Z.abs f) 100). lia.
  - apply decimal_parts_value. unfold_int. lia.
  - unfold_int. destruct (Z.ltb_spec f 0); lia.
Qed.

Lemma ParseYuan_YuanString_witness : ParseYuan (YuanString (-12305)) = inl (-12305).
Proof. apply (ParseYuan_YuanString (-12305)). unfold_int. lia. Defined.

Example YuanString_examples :
  YuanString (-12305) = "-123.05" /\ YuanString int64_min = "-92233720368547758.08" /\
  ParseYuan " 7.5 " = inl 750 /\ ParseYuan ".25" = inl 25.
Proof. by vm_compute. Qed.
