(* ===== verification/InventoryModel.v ===== *)
(** * Inventory data: [app/inventory/srv/internal/domain/do] and its tables

    A table is the list of its rows in primary key order.  GORM adds
    [deleted_at IS NULL] to every query on a model with a [DeletedAt] field, so a
    row carries that mark.  The order number is a unique key of
    [stockselldetail] and the correlation id one of [inventory_adjustment_logs]. *)
From S2P Require Import Prelude GoStrings Errors GoMonad.

Module InvDo.

(** ** Records *)
Record GoodsDetail := MkGoodsDetail { Goods : Z; Num : Z }.

Record InventoryDO := MkInventoryDO {
  ID : Z;
  DeletedAt : bool;
  InvGoods : Z;
  Stocks : Z;
  Total : Z;
  Available : Z;
  Locked : Z;
  Sold : Z;
  Version : Z
}.

Record StockSellDetailDO := MkStockSellDetailDO {
  OrderSn : string;
  Status : Z;
  Detail : list GoodsDetail
}.

Record InventoryAdjustmentDO := MkInventoryAdjustmentDO {
  AdjID : Z;
  GoodsID : Z;
  BeforeAvailable : Z;
  AfterAvailable : Z;
  ActorUserID : Z;
  CorrelationID : string;
  RequestID : string;
  Reason : string;
  CreatedAt : Z
}.

Record OrderFlow := MkOrderFlow {
  SellDetail : StockSellDetailDO;
  Adjustments : list InventoryAdjustmentDO;
  Inventories : list InventoryDO
}.

#[export] Instance GoodsDetail_eq_dec : EqDecision GoodsDetail.
Proof. solve_decision. Defined.
#[export] Instance InventoryDO_eq_dec : EqDecision InventoryDO.
Proof. solve_decision. Defined.
#[export] Instance StockSellDetailDO_eq_dec : EqDecision StockSellDetailDO.
Proof. solve_decision. Defined.

(** ** [GoodsDetailList] *)

(** [Less]: by goods id, what [sort.Sort] orders a detail list by. *)
Definition Less (a b : GoodsDetail) : bool := Goods a <? Goods b.
Definition sort_details (l : list GoodsDetail) : list GoodsDetail := go_sort Less l.

(** [Value]: the JSON text stored in the [detail] column. *)
Definition json_entry (g : GoodsDetail) : list Ascii.ascii :=
  explode "{'Goods':" ++ explode (itoa (Goods g)) ++ explode ",'Num':" ++
  explode (itoa (Num g)) ++ explode "}".
Fixpoint json_entries (l : list GoodsDetail) : list Ascii.ascii :=
  match l with
  | [] => []
  | [g] => json_entry g
  | g :: rest => json_entry g ++ explode "," ++ json_entries rest
  end.
Definition Value (l : list GoodsDetail) : list Ascii.ascii :=
  explode "[" ++ json_entries l ++ explode "]".
Lemma Value_length l : length (Value l) = (2 + length (json_entries l))%nat.
Proof. unfold Value. rewrite !length_app. simpl. lia. Qed.
#[global] Opaque Value.

(** ** The database of the inventory service *)
Record inv_db := MkInvDb {
  inventory : list InventoryDO;
  stockselldetail : gmap string StockSellDetailDO;
  adjustment_logs : list InventoryAdjustmentDO
}.

Definition set_inventory (rows : list InventoryDO) (d : inv_db) : inv_db :=
  MkInvDb rows (stockselldetail d) (adjustment_logs d).
Definition set_stockselldetail (m : gmap string StockSellDetailDO) (d : inv_db) : inv_db :=
  MkInvDb (inventory d) m (adjustment_logs d).
Definition set_adjustment_logs (l : list InventoryAdjustmentDO) (d : inv_db) : inv_db :=
  MkInvDb (inventory d) (stockselldetail d) l.

(** The next auto-increment value of a table. *)
Definition next_id {A} (id : A -> Z) (rows : list A) : Z :=
  1 + fold_right Z.max 0 (id <$> rows).

(** [WHERE goods = g] on live rows. *)
Definition is_goods (g : Z) (r : InventoryDO) : bool := negb (DeletedAt r) && (InvGoods r =? g).

(** Every integer column of a row is an [INT]: a value outside its range makes
    MySQL refuse the statement. *)
Definition row_fits (r : InventoryDO) : bool :=
  bool_decide (is_int32 (Stocks r)) && bool_decide (is_int32 (Total r)) &&
  bool_decide (is_int32 (Available r)) && bool_decide (is_int32 (Locked r)) &&
  bool_decide (is_int32 (Sold r)).

(** [UPDATE inventory SET .. WHERE p]: the number of rows matched.  Every update
    also moves [update_time], so a matched row is an affected row. *)
Definition update_inventory (p : InventoryDO -> bool) (f : InventoryDO -> InventoryDO)
    : M inv_db Z :=
  stmt (fun d =>
    let rows := (fun r => if p r then f r else r) <$> inventory d in
    if forallb (fun r => negb (p r) || row_fits (f r)) (inventory d)
    then (Ret (Z.of_nat (length (List.filter p (inventory d)))), set_inventory rows d)
    else (Fail (Driver "Out of range value for column"), d)).

(** [INSERT INTO inventory]. *)
Definition insert_inventory (inv : InventoryDO) : M inv_db unit :=
  stmt (fun d =>
    let row := MkInventoryDO (next_id ID (inventory d)) false (InvGoods inv) (Stocks inv) (Total inv)
                 (Available inv) (Locked inv) (Sold inv) (Version inv) in
    if row_fits row then (Ret tt, set_inventory (inventory d ++ [row]) d)
    else (Fail (Driver "Out of range value for column"), d)).

(** [SELECT .. FROM inventory WHERE goods = g ORDER BY id LIMIT 1]. *)
Definition find_inventory (g : Z) : M inv_db (option InventoryDO) :=
  query (fun d => find (is_goods g) (inventory d)).

(** [SELECT .. FROM stockselldetail WHERE order_sn = sn LIMIT 1]; [FOR UPDATE]
    reads the same row. *)
Definition find_sell_detail (sn : string) : M inv_db (option StockSellDetailDO) :=
  query (fun d => stockselldetail d !! sn).

(** [INSERT INTO stockselldetail]: a duplicate key or a JSON text wider than the
    column's 200 characters is an error. *)
Definition detail_width : Z := 200.
Definition insert_sell_detail (row : StockSellDetailDO) : M inv_db unit :=
  stmt (fun d =>
    if detail_width <? Z.of_nat (length (Value (Detail row)))
    then (Fail (Driver "Data too long for column 'detail'"), d)
    else match stockselldetail d !! OrderSn row with
         | Some _ => (Fail (Driver "Duplicate entry for key 'idx_order_sn'"), d)
         | None => (Ret tt, set_stockselldetail (<[OrderSn row := row]> (stockselldetail d)) d)
         end).

(** The same with [ON CONFLICT (order_sn) DO NOTHING]: the rows inserted. *)
Definition insert_sell_detail_or_nothing (row : StockSellDetailDO) : M inv_db Z :=
  stmt (fun d =>
    if detail_width <? Z.of_nat (length (Value (Detail row)))
    then (Fail (Driver "Data too long for column 'detail'"), d)
    else match stockselldetail d !! OrderSn row with
         | Some _ => (Ret 0, d)
         | None => (Ret 1, set_stockselldetail (<[OrderSn row := row]> (stockselldetail d)) d)
         end).

(** [UPDATE stockselldetail SET status = st WHERE order_sn = sn]: the table has
    no update time, so a row that already has the status is not affected. *)
Definition update_sell_status (sn : string) (st : Z) : M inv_db Z :=
  stmt (fun d =>
    match stockselldetail d !! sn with
    | Some row =>
      (Ret (if Status row =? st then 0 else 1),
       set_stockselldetail (<[sn := MkStockSellDetailDO (OrderSn row) st (Detail row)]> (stockselldetail d)) d)
    | None => (Ret 0, d)
    end).

(** [INSERT INTO inventory_adjustment_logs]. *)
Definition insert_adjustment (a : InventoryAdjustmentDO) : M inv_db unit :=
  stmt (fun d =>
    if existsb (fun b => bool_decide (CorrelationID b = CorrelationID a)) (adjustment_logs d)
    then (Fail (Driver "Duplicate entry for key 'uk_inventory_adjustment_correlation'"), d)
    else (Ret tt, set_adjustment_logs
                    (adjustment_logs d ++
                     [MkInventoryAdjustmentDO (next_id AdjID (adjustment_logs d)) (GoodsID a)
                        (BeforeAvailable a) (AfterAvailable a) (ActorUserID a) (CorrelationID a)
                        (RequestID a) (Reason a) (CreatedAt a)]) d)).

(** [ORDER BY id DESC OFFSET o LIMIT n]. *)
Definition page_desc {A} (rows : list A) (offset limit : Z) : list A :=
  take (Z.to_nat limit) (drop (Z.to_nat offset) (rev rows)).

End InvDo.
