(* ===== verification/InventoryStore.v ===== *)
(** * The inventory store: [app/inventory/srv/internal/data/v1/db/inventory.go]

    One definition per method of [inventorys].  [txn] does not appear: a call runs
    its statements on the tables it is given, and the transaction around it is the
    service's.  A pointer the code compares with [nil] is an [option]. *)
From S2P Require Import Prelude GoStrings Errors GoMonad InventoryModel.
Import InvDo.
Open Scope go_scope.

Module inventorys.

(** ** Validation *)

Definition not_found : goerr := newCode ErrInvSellDetailNotFound "inventory sell detail not found".
Definition inventory_not_found : goerr := newCode ErrInventoryNotFound "inventory not found".
Definition inventory_invalid : goerr := newCode ErrValidation "inventory is invalid".

(** [inv.Available+inv.Locked+inv.Sold], in [int32]. *)
Definition add3 (a b c : Z) : Z := wrap32 (wrap32 (a + b) + c).

(** [normalizeInventory]: the record the code leaves in place of [*inv]. *)
Definition normalizeInventory (p : option InventoryDO) : InventoryDO + goerr :=
  match p with
  | None => inr inventory_invalid
  | Some inv =>
    if InvGoods inv <=? 0 then inr inventory_invalid
    else if (Stocks inv <? 0) || (Total inv <? 0) || (Available inv <? 0) || (Locked inv <? 0)
            || (Sold inv <? 0) then inr inventory_invalid
    else
      let lifecycleProvided :=
        (0 <? Total inv) || (0 <? Available inv) || (0 <? Locked inv) || (0 <? Sold inv) in
      let '(total, available, locked, sold) :=
        if negb lifecycleProvided then (Stocks inv, Stocks inv, 0, 0)
        else if Total inv =? 0
        then (add3 (Available inv) (Locked inv) (Sold inv), Available inv, Locked inv, Sold inv)
        else (Total inv, Available inv, Locked inv, Sold inv) in
      if total <? add3 available locked sold then inr inventory_invalid
      else inl (MkInventoryDO (ID inv) (DeletedAt inv) (InvGoods inv) available total available
                  locked sold (Version inv))
  end.

#[global] Arguments normalizeInventory : simpl never.

Definition validateStockSellDetail (p : option StockSellDetailDO) : option goerr :=
  match p with
  | None => Some not_found
  | Some detail =>
    if bool_decide (TrimSpace (OrderSn detail) = "") then Some not_found
    else if Status detail <=? 0
    then Some (newCode ErrValidation "inventory sell detail status is invalid")
    else if existsb (fun item => (Goods item <=? 0) || (Num item <=? 0)) (Detail detail)
    then Some (newCode ErrValidation "inventory sell detail is invalid")
    else None
  end.

(** ** Reservation records *)

Definition UpdateStockSellDetailStatus (ordersn : string) (status : Z) : M inv_db unit :=
  let ordersn := TrimSpace ordersn in
  fail_if (bool_decide (ordersn = "")) not_found ;;;
  fail_if (status <=? 0) (newCode ErrValidation "inventory sell detail status is invalid") ;;;
  affected <- wrap_err (fun e => WrapDatabase e "update inventory sell detail status")
                (update_sell_status ordersn status) ;;
  fail_if (affected =? 0) not_found.

Definition GetSellDetail (ordersn : string) : M inv_db StockSellDetailDO :=
  let ordersn := TrimSpace ordersn in
  fail_if (bool_decide (ordersn = "")) not_found ;;;
  found <- wrap_err (fun e => WrapDatabase e "get inventory sell detail") (find_sell_detail ordersn) ;;
  match found with
  | None => fail (newCode ErrInvSellDetailNotFound "record not found")
  | Some detail => ret detail
  end.

Definition GetSellDetailForUpdate (ordersn : string) : M inv_db StockSellDetailDO :=
  let ordersn := TrimSpace ordersn in
  fail_if (bool_decide (ordersn = "")) not_found ;;;
  found <- wrap_err (fun e => WrapDatabase e "get inventory sell detail for update")
             (find_sell_detail ordersn) ;;
  match found with
  | None => fail (newCode ErrInvSellDetailNotFound "record not found")
  | Some detail => ret detail
  end.

Definition CreateStockSellDetail (detail : StockSellDetailDO) : M inv_db unit :=
  match validateStockSellDetail (Some detail) with
  | Some err => fail err
  | None => wrap_err (fun e => WrapDatabase e "create inventory sell detail") (insert_sell_detail detail)
  end.

Definition CreateStockSellDetailIfAbsent (detail : StockSellDetailDO) : M inv_db bool :=
  match validateStockSellDetail (Some detail) with
  | Some err => fail err
  | None =>
    affected <- wrap_err (fun e => WrapDatabase e "create inventory sell detail if absent")
                  (insert_sell_detail_or_nothing detail) ;;
    ret (0 <? affected)
  end.

(** ** Moving stock *)

(** What the three [Updates] do to a row. *)
Definition reduce_row (num : Z) (r : InventoryDO) : InventoryDO :=
  MkInventoryDO (ID r) (DeletedAt r) (InvGoods r) (Stocks r - num) (Total r)
    (Available r - num) (Locked r + num) (Sold r) (Version r).
Definition increase_row (num : Z) (r : InventoryDO) : InventoryDO :=
  MkInventoryDO (ID r) (DeletedAt r) (InvGoods r) (Stocks r + num) (Total r)
    (Available r + num) (Locked r - num) (Sold r) (Version r).
Definition confirm_row (num : Z) (r : InventoryDO) : InventoryDO :=
  MkInventoryDO (ID r) (DeletedAt r) (InvGoods r) (Stocks r) (Total r)
    (Available r) (Locked r - num) (Sold r + num) (Version r).

Definition Reduce (goodsID num : Z) : M inv_db unit :=
  fail_if (goodsID =? 0) inventory_not_found ;;;
  fail_if (num <=? 0) (newCode ErrValidation "inventory quantity is invalid") ;;;
  affected <- wrap_err (fun e => WrapDatabase e "reduce inventory")
                (update_inventory (fun r => is_goods goodsID r && (num <=? Available r)) (reduce_row num)) ;;
  fail_if (affected =? 0) (newCode ErrInvNotEnough "库存不足").

Definition Increase (goodsID num : Z) : M inv_db unit :=
  fail_if (goodsID =? 0) inventory_not_found ;;;
  fail_if (num <=? 0) (newCode ErrValidation "inventory quantity is invalid") ;;;
  affected <- wrap_err (fun e => WrapDatabase e "increase inventory")
                (update_inventory (fun r => is_goods goodsID r && (num <=? Locked r)) (increase_row num)) ;;
  fail_if (affected =? 0) inventory_not_found.

Definition ConfirmSell (goodsID num : Z) : M inv_db unit :=
  fail_if (goodsID =? 0) inventory_not_found ;;;
  fail_if (num <=? 0) (newCode ErrValidation "inventory quantity is invalid") ;;;
  affected <- wrap_err (fun e => WrapDatabase e "confirm inventory sale")
                (update_inventory (fun r => is_goods goodsID r && (num <=? Locked r)) (confirm_row num)) ;;
  fail_if (affected =? 0) inventory_not_found.

(** ** Stock administration *)

Definition Create (inv : option InventoryDO) : M inv_db unit :=
  match normalizeInventory inv with
  | inr err => fail err
  | inl inv => wrap_err (fun e => WrapDatabase e "create inventory") (insert_inventory inv)
  end.

(** The row [Updates] writes over [current]. *)
Definition adjust_row (inv r : InventoryDO) : InventoryDO :=
  MkInventoryDO (ID r) (DeletedAt r) (InvGoods r) (Available inv) (Total inv) (Available inv)
    (Locked inv) (Sold inv) (Version r).

(** [now] is the creation time GORM gives the audit row. *)
Definition Adjust (now : Z) (inv : option InventoryDO) (audit : option InventoryAdjustmentDO)
    : M inv_db unit :=
  match normalizeInventory inv, audit with
  | inr err, _ => fail err
  | inl _, None => fail (newCode ErrValidation "inventory adjustment audit is invalid")
  | inl inv, Some audit =>
    fail_if ((ActorUserID audit <=? 0) || bool_decide (TrimSpace (CorrelationID audit) = "")
             || bool_decide (TrimSpace (Reason audit) = ""))
      (newCode ErrValidation "inventory adjustment audit is invalid") ;;;
    wrap_err (fun e => WrapDatabase e "adjust inventory") (transaction (
      current <- find_inventory (InvGoods inv) ;;
      before <- match current with
                | Some current =>
                  update_inventory (fun r => negb (DeletedAt r) && (ID r =? ID current)) (adjust_row inv) ;;;
                  ret (Available current)
                | None => insert_inventory inv ;;; ret (BeforeAvailable audit)
                end ;;
      insert_adjustment (MkInventoryAdjustmentDO 0 (InvGoods inv) before (Available inv)
        (ActorUserID audit) (CorrelationID audit) (RequestID audit) (Reason audit) now)))
  end.

Definition ListAdjustments (goodsID offset limit : Z) : M inv_db (list InventoryAdjustmentDO * Z) :=
  let matching d := List.filter (fun a => GoodsID a =? goodsID) (adjustment_logs d) in
  total <- wrap_err (fun e => WrapDatabase e "count inventory adjustments")
             (query (fun d => Z.of_nat (length (matching d)))) ;;
  items <- wrap_err (fun e => WrapDatabase e "list inventory adjustments")
             (query (fun d => page_desc (matching d) offset limit)) ;;
  ret (items, total).

Definition ListAdjustmentsByGoods (goodsIDs : list Z) (limit : Z)
    : M inv_db (list InventoryAdjustmentDO) :=
  if bool_decide (goodsIDs = []) then ret []
  else
    let limit := if (limit <=? 0) || (500 <? limit) then 200 else limit in
    wrap_err (fun e => WrapDatabase e "list inventory adjustments by goods")
      (query (fun d => page_desc
         (List.filter (fun a => existsb (Z.eqb (GoodsID a)) goodsIDs) (adjustment_logs d)) 0 limit)).

Definition Get (goodsID : Z) : M inv_db InventoryDO :=
  fail_if (goodsID =? 0) inventory_not_found ;;;
  found <- wrap_err (fun e => WrapDatabase e "get inventory") (find_inventory goodsID) ;;
  match found with
  | None => fail (newCode ErrInventoryNotFound "record not found")
  | Some inv =>
    ret (MkInventoryDO (ID inv) (DeletedAt inv) (InvGoods inv) (Available inv) (Total inv)
           (Available inv) (Locked inv) (Sold inv) (Version inv))
  end.

End inventorys.
