(* ===== verification/InventoryService.v ===== *)
(** * The inventory service: [app/inventory/srv/internal/service/v1]

    [Sell] reserves the stock of an order, [Reback]/[Release] gives it back,
    [Confirm] turns it into a sale; each runs in one database transaction under a
    lock named by the order.  The lock is Redis's: whether it is granted is an
    argument ([None]: granted, [Some err]: [LockContext] failed). *)
From S2P Require Import Prelude GoStrings Errors GoMonad InventoryModel InventoryStore.
Import InvDo.
Open Scope go_scope.

Module inventoryService.

Definition stockSellStatusReserved : Z := 1.
Definition stockSellStatusReleased : Z := 2.
Definition stockSellStatusConfirmed : Z := 3.

Definition validateStockOperation (orderSn : string) (details : list GoodsDetail) : option goerr :=
  if bool_decide (TrimSpace orderSn = "") then Some (newCode ErrValidation "order_sn不能为空")
  else if bool_decide (details = []) then Some (newCode ErrValidation "库存明细不能为空")
  else if existsb (fun detail => (Goods detail <=? 0) || (Num detail <=? 0)) details
  then Some (newCode ErrValidation "库存明细参数错误")
  else None.

(** ** Queries and stock administration *)

Definition Create (inv : option InventoryDO) : M inv_db unit :=
  match inv with
  | None => fail inventorys.inventory_invalid
  | Some i =>
    fail_if ((InvGoods i <=? 0) || (Stocks i <? 0) || (Total i <? 0) || (Available i <? 0)
             || (Locked i <? 0) || (Sold i <? 0)) inventorys.inventory_invalid ;;;
    inventorys.Create inv
  end.

Definition Adjust (now : Z) (inv : option InventoryDO) (audit : option InventoryAdjustmentDO)
    : M inv_db unit :=
  match inv with
  | None => fail inventorys.inventory_invalid
  | Some _ => inventorys.Adjust now inv audit
  end.

Definition ListAdjustments (goodsID page pageSize : Z) : M inv_db (list InventoryAdjustmentDO * Z) :=
  fail_if (goodsID =? 0) inventorys.inventory_not_found ;;;
  let page := if page <? 1 then 1 else page in
  let pageSize := if (pageSize <? 1) || (100 <? pageSize) then 20 else pageSize in
  inventorys.ListAdjustments goodsID (wrap64 ((page - 1) * pageSize)) pageSize.

Definition Get (goodsID : Z) : M inv_db InventoryDO :=
  fail_if (goodsID =? 0) inventorys.inventory_not_found ;;;
  inventorys.Get goodsID.

Definition GetOrderDetail (orderSn : string) : M inv_db StockSellDetailDO :=
  fail_if (bool_decide (TrimSpace orderSn = "")) (newCode ErrValidation "order_sn不能为空") ;;;
  inventorys.GetSellDetail orderSn.

(** The loop that collects the distinct goods ids, in order of first use. *)
Fixpoint distinct_goods (seen : gset Z) (l : list GoodsDetail) : list Z :=
  match l with
  | [] => []
  | item :: l =>
    if Goods item <=? 0 then distinct_goods seen l
    else if bool_decide (Goods item ∈ seen) then distinct_goods seen l
    else wrapu64 (Goods item) :: distinct_goods ({[Goods item]} ∪ seen) l
  end.

Definition GetOrderFlow (orderSn : string) : M inv_db OrderFlow :=
  detail <- GetOrderDetail orderSn ;;
  let goodsIDs := distinct_goods ∅ (Detail detail) in
  adjustments <- inventorys.ListAdjustmentsByGoods goodsIDs 200 ;;
  inventories <- map_each goodsIDs inventorys.Get ;;
  ret (MkOrderFlow detail adjustments inventories).

(** ** The reservation protocol *)

Definition Sell (lock : option goerr) (ordersn : string) (details : list GoodsDetail) : M inv_db unit :=
  match validateStockOperation ordersn details, lock with
  | Some err, _ => fail err
  | None, Some err => fail err
  | None, None =>
    let detail := sort_details details in
    withTxnExecutor "sell inventory" (
      existing <- attempt (inventorys.GetSellDetail ordersn) ;;
      let reserve :=
        for_each detail (fun goodsInfo =>
          inventorys.Reduce (wrapu64 (Goods goodsInfo)) (Num goodsInfo)) ;;;
        inventorys.CreateStockSellDetail (MkStockSellDetailDO ordersn stockSellStatusReserved detail) in
      match existing with
      | inl existing =>
        if Status existing =? stockSellStatusReserved then ret tt
        else if (Status existing =? stockSellStatusReleased) || (Status existing =? stockSellStatusConfirmed)
        then ret tt
        else reserve
      | inr err => if negb (IsCode err ErrInvSellDetailNotFound) then fail err else reserve
      end)
  end.

Definition Reback (lock : option goerr) (ordersn : string) (details : list GoodsDetail) : M inv_db unit :=
  match validateStockOperation ordersn details, lock with
  | Some err, _ => fail err
  | None, Some err => fail err
  | None, None =>
    withTxnExecutor "release inventory" (
      sellDetail <- attempt (inventorys.GetSellDetailForUpdate ordersn) ;;
      match sellDetail with
      | inr err =>
        if IsCode err ErrInvSellDetailNotFound then
          inventorys.CreateStockSellDetailIfAbsent
            (MkStockSellDetailDO ordersn stockSellStatusReleased (sort_details details)) ;;;
          ret tt
        else fail err
      | inl sellDetail =>
        if Status sellDetail =? stockSellStatusReleased then ret tt
        else if Status sellDetail =? stockSellStatusConfirmed then ret tt
        else
          fail_if (bool_decide (Detail sellDetail = []))
            (newCode ErrDatabase "inventory sell detail is empty") ;;;
          for_each (sort_details (Detail sellDetail)) (fun goodsInfo =>
            inventorys.Increase (wrapu64 (Goods goodsInfo)) (Num goodsInfo)) ;;;
          inventorys.UpdateStockSellDetailStatus ordersn stockSellStatusReleased
      end)
  end.

Definition Confirm (lock : option goerr) (ordersn : string) (details : list GoodsDetail) : M inv_db unit :=
  match validateStockOperation ordersn details, lock with
  | Some err, _ => fail err
  | None, Some err => fail err
  | None, None =>
    withTxnExecutor "confirm inventory" (
      sellDetail <- inventorys.GetSellDetailForUpdate ordersn ;;
      if Status sellDetail =? stockSellStatusReleased then ret tt
      else if Status sellDetail =? stockSellStatusConfirmed then ret tt
      else
        fail_if (bool_decide (Detail sellDetail = []))
          (newCode ErrDatabase "inventory sell detail is empty") ;;;
        for_each (sort_details (Detail sellDetail)) (fun goodsInfo =>
          inventorys.ConfirmSell (wrapu64 (Goods goodsInfo)) (Num goodsInfo)) ;;;
        inventorys.UpdateStockSellDetailStatus ordersn stockSellStatusConfirmed)
  end.

Definition Release (lock : option goerr) (ordersn : string) (details : list GoodsDetail) : M inv_db unit :=
  Reback lock ordersn details.

End inventoryService.
