(* ===== verification/InventoryStock.v ===== *)
(** * How the store moves stock

    [Reduce], [Increase] and [ConfirmSell] are one operation: take [num] from a
    source column of the row of a goods and put it elsewhere.  The lemmas are
    proved once for any such [Transfer] and for the loops the service runs them
    in. *)
From S2P Require Import Prelude GoStrings Errors GoMonad InventoryModel InventoryStore.
Import InvDo.
Open Scope go_scope.

(** ** Rows and lines *)

(** The goods id a detail line addresses: [uint64(goodsInfo.Goods)]. *)
Definition line_goods (x : GoodsDetail) : Z := wrapu64 (Goods x).

(** What a detail list asks of a goods. *)
Definition qty (g : Z) (l : list GoodsDetail) : Z :=
  sumZ (fun x => if line_goods x =? g then Num x else 0) l.

Definition live (r : InventoryDO) : bool := negb (DeletedAt r).

(** At most one live row per goods, what the code takes for granted. *)
Definition uniq_goods (rows : list InventoryDO) : Prop := NoDup (InvGoods <$> List.filter live rows).

(** The invariant of a row: no negative quantity, [stocks] mirrors [available],
    and the parts fit in the total. *)
Definition row_ok (r : InventoryDO) : Prop :=
  Stocks r = Available r /\ 0 <= Available r /\ 0 <= Locked r /\ 0 <= Sold r /\
  Available r + Locked r + Sold r <= Total r <= int32_max.

#[export] Instance row_ok_dec r : Decision (row_ok r) := _.

(** Lines the service lets through. *)
Definition line_ok (x : GoodsDetail) : Prop := 0 < Goods x <= int32_max /\ 0 < Num x.

#[export] Instance line_ok_dec x : Decision (line_ok x) := _.

Lemma qty_nonneg g l : Forall (fun x => 0 < Num x) l -> 0 <= qty g l.
Proof.
  intros H. apply sumZ_nonneg. eapply Forall_impl; [exact H|]. intros x Hx. simpl in Hx. case_match; lia.
Qed.

Lemma qty_perm g l l' : l ≡ₚ l' -> qty g l = qty g l'.
Proof. apply sumZ_perm. Qed.

Lemma qty_cons g x l : qty g (x :: l) = (if line_goods x =? g then Num x else 0) + qty g l.
Proof. done. Qed.

Lemma sort_details_perm l : sort_details l ≡ₚ l.
Proof. apply go_sort_perm. Qed.

Lemma line_ok_goods x : line_ok x -> line_goods x = Goods x.
Proof. intros [H _]. apply wrapu64_id. unfold_int. lia. Qed.

Lemma lines_pos l : Forall line_ok l -> Forall (fun x => 0 < Num x) l.
Proof. intros H. eapply Forall_impl; [exact H|]. by intros x [_ ?]. Qed.

Lemma is_goods_true g r : is_goods g r = true <-> live r = true /\ InvGoods r = g.
Proof. unfold is_goods, live. by bprop. Qed.

(** Under uniqueness two live rows of the same goods are the same row. *)
Lemma uniq_goods_eq rows r1 r2 g :
  uniq_goods rows -> r1 ∈ rows -> r2 ∈ rows -> is_goods g r1 = true -> is_goods g r2 = true -> r1 = r2.
Proof.
  unfold uniq_goods. intros Hu H1 H2 [L1 G1]%is_goods_true [L2 G2]%is_goods_true.
  assert (r1 ∈ List.filter live rows) as E1.
  { apply list_elem_of_In, filter_In. by rewrite <- list_elem_of_In. }
  assert (r2 ∈ List.filter live rows) as E2.
  { apply list_elem_of_In, filter_In. by rewrite <- list_elem_of_In. }
  apply list_elem_of_lookup in E1 as [i1 E1]. apply list_elem_of_lookup in E2 as [i2 E2].
  assert (i1 = i2) as ->; [|congruence].
  eapply (NoDup_lookup _ i1 i2 g); [exact Hu| |]; rewrite list_lookup_fmap;
    [rewrite E1|rewrite E2]; simpl; congruence.
Qed.

(** A row-wise update that keeps goods and marks keeps uniqueness. *)
Lemma uniq_goods_fmap (f : InventoryDO -> InventoryDO) rows :
  (forall r, InvGoods (f r) = InvGoods r) -> (forall r, DeletedAt (f r) = DeletedAt r) ->
  uniq_goods rows -> uniq_goods (f <$> rows).
Proof.
  intros Hg Hd. unfold uniq_goods. intros H.
  replace (InvGoods <$> List.filter live (f <$> rows)) with (InvGoods <$> List.filter live rows); [done|].
  clear H. induction rows as [|r rows IH]; [done|]. rewrite fmap_cons. cbn [List.filter].
  replace (live (f r)) with (live r) by (unfold live; by rewrite Hd).
  destruct (live r); rewrite ?fmap_cons, ?Hg, IH; done.
Qed.

Lemma row_ok_fits r : row_ok r -> row_fits r = true.
Proof.
  unfold row_ok, row_fits. intros H. unfold_int.
  repeat (apply andb_true_iff; split); apply bool_decide_eq_true; lia.
Qed.

(** ** Transfers *)
Class Transfer (move : Z -> InventoryDO -> InventoryDO) (src : InventoryDO -> Z) := {
  move_0 : forall r, move 0 r = r;
  move_move : forall a b r, move a (move b r) = move (b + a) r;
  move_goods : forall n r, InvGoods (move n r) = InvGoods r;
  move_deleted : forall n r, DeletedAt (move n r) = DeletedAt r;
  move_id : forall n r, ID (move n r) = ID r;
  src_move : forall n r, src (move n r) = src r - n;
  move_ok : forall n r, 0 <= n <= src r -> row_ok r -> row_ok (move n r);
}.

Ltac row_lia := unfold row_ok in *; simpl in *; lia.

#[export] Instance Reduce_transfer : Transfer inventorys.reduce_row Available.
Proof.
  split; intros; try done; [destruct r|..]; unfold inventorys.reduce_row; simpl; try (f_equal; lia); row_lia.
Qed.
#[export] Instance Increase_transfer : Transfer inventorys.increase_row Locked.
Proof.
  split; intros; try done; [destruct r|..]; unfold inventorys.increase_row; simpl; try (f_equal; lia); row_lia.
Qed.
#[export] Instance ConfirmSell_transfer : Transfer inventorys.confirm_row Locked.
Proof.
  split; intros; try done; [destruct r|..]; unfold inventorys.confirm_row; simpl; try (f_equal; lia); row_lia.
Qed.

(** The shape the three store operations share. *)
Definition transfer_op (move : Z -> InventoryDO -> InventoryDO) (src : InventoryDO -> Z)
    (w : goerr -> goerr) (short : goerr) (g n : Z) : M inv_db unit :=
  fail_if (g =? 0) inventorys.inventory_not_found ;;;
  fail_if (n <=? 0) (newCode ErrValidation "inventory quantity is invalid") ;;;
  affected <- wrap_err w (update_inventory (fun r => is_goods g r && (n <=? src r)) (move n)) ;;
  fail_if (affected =? 0) short.

(** The rows after every line of [l] has been moved. *)
Definition move_lines (move : Z -> InventoryDO -> InventoryDO) (l : list GoodsDetail)
    (r : InventoryDO) : InventoryDO :=
  if live r then move (qty (InvGoods r) l) r else r.

(** Every line has a live row with enough in the source column. *)
Definition covered (src : InventoryDO -> Z) (l : list GoodsDetail) (rows : list InventoryDO) : Prop :=
  Forall (fun x => Exists (fun r => is_goods (line_goods x) r = true) rows) l /\
  Forall (fun r => live r = true -> 0 < qty (InvGoods r) l -> qty (InvGoods r) l <= src r) rows.

#[export] Instance covered_dec src l rows : Decision (covered src l rows) := _.

Section TransferOp.
Context (move : Z -> InventoryDO -> InventoryDO) (src : InventoryDO -> Z) `{!Transfer move src}.
Implicit Types (s : env inv_db) (l : list GoodsDetail).

Abbreviation on_goods g n := (fun r => if is_goods g r then move n r else r) (only parsing).

Lemma on_goods_lines x l r :
  move_lines move l (on_goods (line_goods x) (Num x) r) = move_lines move (x :: l) r.
Proof.
  unfold move_lines. rewrite qty_cons. unfold is_goods. fold (live r). destruct (live r) eqn:L; simpl.
  - rewrite (Z.eqb_sym (InvGoods r)).
    destruct (line_goods x =? InvGoods r); unfold live in *; rewrite ?move_deleted, L, ?move_goods;
      [|by rewrite Z.add_0_l]. by rewrite move_move.
  - by rewrite L.
Qed.

Lemma live_on_goods g n r : live (on_goods g n r) = live r.
Proof. unfold live. case_match; by rewrite ?move_deleted. Qed.

Lemma is_goods_on_goods g' g n r : is_goods g' (on_goods g n r) = is_goods g' r.
Proof. unfold is_goods at 1 3. case_match; by rewrite ?move_deleted, ?move_goods. Qed.

Lemma uniq_on_goods g n rows : uniq_goods rows -> uniq_goods (on_goods g n <$> rows).
Proof. apply uniq_goods_fmap; intros r; case_match; by rewrite ?move_goods, ?move_deleted. Qed.

(** Covering a list line by line. *)
Lemma covered_cons x l rows :
  0 < Num x -> Forall (fun x => 0 < Num x) l ->
  covered src (x :: l) rows <->
  (Exists (fun r => is_goods (line_goods x) r = true) rows /\
   Forall (fun r => is_goods (line_goods x) r = true -> Num x <= src r) rows /\
   covered src l (on_goods (line_goods x) (Num x) <$> rows)).
Proof.
  intros Hx Hl. unfold covered. rewrite Forall_cons, Forall_fmap.
  assert (forall r, live r = true -> (line_goods x =? InvGoods r) = is_goods (line_goods x) r) as Eg.
  { intros r Hr. unfold is_goods. fold (live r). by rewrite Hr, Z.eqb_sym. }
  assert (Forall (fun y => Exists (fun r => is_goods (line_goods y) r = true)
                             (on_goods (line_goods x) (Num x) <$> rows)) l
          <-> Forall (fun y => Exists (fun r => is_goods (line_goods y) r = true) rows) l) as ->.
  { apply Forall_iff. intros y. rewrite !Exists_exists. split.
    - intros (r & (r0 & -> & Hr0)%list_elem_of_fmap & Hr). rewrite is_goods_on_goods in Hr. eauto.
    - intros (r & Hr & Hg). eexists. split; [by apply list_elem_of_fmap_2|]. by rewrite is_goods_on_goods. }
  rewrite !Forall_forall. split.
  - intros [[H1 H2] H3]. split_and!; [done| |done|].
    + intros r Hr Hg. specialize (H3 r Hr). rewrite qty_cons in H3.
      apply is_goods_true in Hg as Hg'. rewrite Eg, Hg in H3 by tauto.
      pose proof (qty_nonneg (InvGoods r) l Hl). specialize (H3 ltac:(tauto)). lia.
    + intros r Hr. simpl. rewrite live_on_goods. intros L. specialize (H3 r Hr L).
      rewrite qty_cons, Eg in H3 by done. destruct (is_goods _ r); rewrite ?move_goods, ?src_move; lia.
  - intros (H1 & H2 & H3 & H4). split_and!; [done|done|]. intros r Hr L. rewrite qty_cons, Eg by done.
    specialize (H4 r Hr). simpl in H4. rewrite live_on_goods in H4. specialize (H4 L). specialize (H2 r Hr).
    pose proof (qty_nonneg (InvGoods r) l Hl).
    destruct (is_goods _ r); rewrite ?move_goods, ?src_move in H4; [|lia].
    specialize (H2 eq_refl). lia.
Qed.

Context (w : goerr -> goerr) (short : goerr).
Abbreviation op := (transfer_op move src w short) (only parsing).

Lemma transfer_op_Ret g n s u s' :
  uniq_goods (inventory (e_db s)) -> op g n s = (Ret u, s') ->
  0 < n /\
  e_db s' = set_inventory (on_goods g n <$> inventory (e_db s)) (e_db s) /\
  Exists (fun r => is_goods g r = true) (inventory (e_db s)) /\
  Forall (fun r => is_goods g r = true -> n <= src r) (inventory (e_db s)).
Proof.
  intros Hu. unfold transfer_op, update_inventory. intros H. minv.
  match goal with E : stmt _ _ = _ |- _ => apply stmt_Ret in E end.
  case_match; simplify_eq. bprop.
  set (p := fun r => is_goods g r && (n <=? src r)) in *.
  assert (exists r, r ∈ inventory (e_db s) /\ p r = true) as (r & Hr & Hp).
  { destruct (List.filter p (inventory (e_db s))) as [|r rs] eqn:E; [simpl in *; lia|].
    exists r.
    assert (In r (List.filter p (inventory (e_db s)))) as Hin by (rewrite E; by left).
    apply filter_In in Hin as [Hin ?]. split; [by apply list_elem_of_In|done]. }
  unfold p in Hp. apply andb_true_iff in Hp as [Hg Hn].
  assert (forall r', r' ∈ inventory (e_db s) -> is_goods g r' = true -> n <= src r') as Hall.
  { intros r' Hr' Hg'. rewrite (uniq_goods_eq _ r' r g) by done. blia. }
  split; [lia|]. split; [|split; [apply Exists_exists; eauto|by apply Forall_forall]].
  match goal with E : _ = e_db _ |- _ => rewrite <- E end. f_equal.
  apply list_fmap_ext. intros i r' Hi. apply list_elem_of_lookup_2 in Hi. unfold p.
  destruct (is_goods g r') eqn:E; simpl; [|done].
  rewrite (proj2 (Z.leb_le _ _)); [done|]. by apply Hall.
Qed.

(** The loop of the service: it succeeds only on covered lines, and then every
    row has moved by exactly what the lines ask. *)
Lemma for_each_transfer_Ret l s u s' :
  uniq_goods (inventory (e_db s)) ->
  for_each l (fun x => op (wrapu64 (Goods x)) (Num x)) s = (Ret u, s') ->
  Forall (fun x => 0 < Num x) l /\ covered src l (inventory (e_db s)) /\
  e_db s' = set_inventory (move_lines move l <$> inventory (e_db s)) (e_db s).
Proof.
  revert s. induction l as [|x l IH]; intros s Hu H; simpl in H.
  - minv. split; [done|]. split.
    + split; [done|]. apply Forall_forall. intros r _ _. unfold qty. simpl. lia.
    + rewrite (list_fmap_ext _ id), list_fmap_id; [by destruct (e_db s')|].
      intros i r _. unfold move_lines, qty. simpl. rewrite move_0. by destruct (live r).
  - minv. fold (line_goods x) in *.
    match goal with E : op _ _ _ = _ |- _ => apply transfer_op_Ret in E as (Hn & Ed & He & Hs); [|done] end.
    match goal with E : for_each _ _ ?s1 = _ |- _ => destruct (IH s1) as (Hl & Hc & Ed'); [|done|] end.
    { rewrite Ed. by apply uniq_on_goods. }
    rewrite Ed in Hc, Ed'. simpl in Hc, Ed'. split; [by constructor|]. split.
    + by apply covered_cons.
    + rewrite Ed'. unfold set_inventory; simpl. f_equal. rewrite <- list_fmap_compose.
      apply list_fmap_ext. intros i r _. apply on_goods_lines.
Qed.

(** Without faults a covered line goes through: no other error is possible. *)
Lemma transfer_op_complete g n d :
  g <> 0 -> 0 < n -> Forall (fun r => live r = true -> row_ok r) (inventory d) ->
  Exists (fun r => is_goods g r = true) (inventory d) ->
  Forall (fun r => is_goods g r = true -> n <= src r) (inventory d) ->
  op g n (Env d []) = (Ret tt, Env (set_inventory (on_goods g n <$> inventory d) d) []).
Proof.
  intros Hg Hn Hok (r & Hr & Hgr)%Exists_exists Hsrc. rewrite Forall_forall in Hok, Hsrc.
  unfold transfer_op, update_inventory, fail_if, bind, wrap_err, stmt, ret.
  rewrite (proj2 (Z.eqb_neq _ _)), (proj2 (Z.leb_gt _ _)) by lia. simpl.
  set (p := fun r => is_goods g r && (n <=? src r)).
  assert (forall r, r ∈ inventory d -> p r = is_goods g r) as Hp.
  { intros r' Hr'. unfold p. destruct (is_goods g r') eqn:E; [|done]. simpl.
    apply Z.leb_le. by apply Hsrc. }
  rewrite (proj2 (forallb_forall _ _)).
  - assert ((Z.of_nat (length (List.filter p (inventory d))) =? 0) = false) as ->.
    { apply Z.eqb_neq. assert (In r (List.filter p (inventory d))) as Hin.
      { apply filter_In. rewrite <- list_elem_of_In, Hp; done. }
      destruct (List.filter p (inventory d)); [by destruct Hin|simpl; lia]. }
    do 3 f_equal. apply list_fmap_ext. intros i r' Hi. apply list_elem_of_lookup_2 in Hi.
    fold (p r'). by rewrite Hp.
  - intros r' Hr'%list_elem_of_In. fold (p r'). rewrite Hp by done. destruct (is_goods g r') eqn:E; [|done].
    apply row_ok_fits, move_ok; [split; [lia|by apply Hsrc]|].
    apply Hok; [done|]. apply is_goods_true in E. tauto.
Qed.

Lemma for_each_transfer_complete l d :
  Forall line_ok l -> Forall (fun r => live r = true -> row_ok r) (inventory d) ->
  covered src l (inventory d) ->
  for_each l (fun x => op (wrapu64 (Goods x)) (Num x)) (Env d []) =
  (Ret tt, Env (set_inventory (move_lines move l <$> inventory d) d) []).
Proof.
  revert d. induction l as [|x l IH]; intros d Hl Hok Hc; simpl.
  - unfold ret. rewrite (list_fmap_ext _ id), list_fmap_id; [by destruct d|].
    intros i r _. unfold move_lines, qty. simpl. rewrite move_0. by destruct (live r).
  - inversion_clear Hl as [|? ? Hx Hl'].
    apply covered_cons in Hc as (He & Hs & Hc); [|apply Hx|by apply lines_pos].
    fold (line_goods x). unfold bind. rewrite transfer_op_complete; try done.
    + rewrite IH; try done; simpl.
      * do 2 f_equal. unfold set_inventory. simpl. f_equal. rewrite <- list_fmap_compose.
        apply list_fmap_ext. intros i r _. apply on_goods_lines.
      * rewrite Forall_fmap. rewrite Forall_forall in Hok, Hs |- *. intros r Hr. simpl.
        rewrite live_on_goods. intros L. specialize (Hok r Hr L). specialize (Hs r Hr).
        destruct (is_goods _ r); [|done]. apply move_ok; [|done].
        destruct Hx as [_ ?]. specialize (Hs eq_refl). lia.
    + rewrite line_ok_goods by done. destruct Hx. lia.
    + apply Hx.
Qed.

Lemma uniq_move_lines l rows : uniq_goods rows -> uniq_goods (move_lines move l <$> rows).
Proof. apply uniq_goods_fmap; intros r; unfold move_lines; case_match; by rewrite ?move_goods, ?move_deleted. Qed.

Lemma move_lines_goods l r : InvGoods (move_lines move l r) = InvGoods r.
Proof. unfold move_lines. case_match; by rewrite ?move_goods. Qed.
Lemma move_lines_live l r : live (move_lines move l r) = live r.
Proof. unfold move_lines, live. case_match; by rewrite ?move_deleted. Qed.
Lemma move_lines_ids l (rows : list InventoryDO) : ID <$> (move_lines move l <$> rows) = ID <$> rows.
Proof.
  rewrite <- list_fmap_compose. apply list_fmap_ext. intros i r _. simpl. unfold move_lines. case_match; by rewrite ?move_id.
Qed.

Lemma move_lines_perm l l' : l ≡ₚ l' -> forall r, move_lines move l r = move_lines move l' r.
Proof. intros H r. unfold move_lines. by rewrite (qty_perm _ _ _ H). Qed.

Lemma covered_perm l l' rows : l ≡ₚ l' -> covered src l rows -> covered src l' rows.
Proof.
  intros H [H1 H2]. split; [by rewrite <- H|].
  eapply Forall_impl; [exact H2|]. intros r. simpl. by rewrite (qty_perm _ _ _ H).
Qed.

Lemma move_lines_ok l rows :
  Forall (fun x => 0 < Num x) l -> covered src l rows ->
  Forall (fun r => live r = true -> row_ok r) rows ->
  Forall (fun r => live r = true -> row_ok r) (move_lines move l <$> rows).
Proof.
  intros Hl [_ Hc] Hok. rewrite Forall_fmap. rewrite Forall_forall in Hok, Hc |- *.
  intros r Hr. simpl. rewrite move_lines_live. intros L. specialize (Hok r Hr L). specialize (Hc r Hr L).
  unfold move_lines. rewrite L. pose proof (qty_nonneg (InvGoods r) l Hl).
  destruct (decide (qty (InvGoods r) l = 0)) as [->|]; [by rewrite move_0|]. apply move_ok; [lia|done].
Qed.
End TransferOp.
