(* ===== verification/InventoryProtocol.v ===== *)
(** * The reservation protocol and its specification

    [spec_sell], [spec_release] and [spec_confirm] say what the three operations
    promise of the tables, with no transaction, loop, lock, sorting or fault: the
    next tables, or [None] when the request must be refused.  The service refines
    them whatever statement fails: a call that returns has made the specified
    step, and one that does not has changed nothing. *)
From S2P Require Import Prelude GoStrings Errors GoMonad InventoryModel InventoryStore InventoryService.
From S2P Require Import InventoryStock.
Import InvDo inventoryService.
Open Scope go_scope.

(** ** Well-formed tables *)

Definition record_ok (k : string) (rec : StockSellDetailDO) : Prop :=
  OrderSn rec = k /\
  (Status rec = stockSellStatusReserved \/ Status rec = stockSellStatusReleased
   \/ Status rec = stockSellStatusConfirmed) /\
  Detail rec <> [] /\ Forall line_ok (Detail rec).

Record inv_ok (d : inv_db) : Prop := {
  ok_uniq : uniq_goods (inventory d);
  ok_rows : Forall (fun r => live r = true -> row_ok r) (inventory d);
  ok_records : map_Forall record_ok (stockselldetail d)
}.

#[export] Instance record_ok_dec k rec : Decision (record_ok k rec) := _.

(** Proving [inv_ok] of concrete tables by evaluation. *)
Definition inv_okb (d : inv_db) : bool :=
  bool_decide (NoDup (InvGoods <$> List.filter live (inventory d))) &&
  bool_decide (Forall (fun r => live r = true -> row_ok r) (inventory d)) &&
  bool_decide (map_Forall record_ok (stockselldetail d)).

Lemma inv_okb_ok d : inv_okb d = true -> inv_ok d.
Proof. unfold inv_okb. rewrite !andb_true_iff, !bool_decide_eq_true. intros [[? ?] ?]. by split. Qed.

(** A request whose quantities are what the wire type allows. *)
Definition typed_lines (l : list GoodsDetail) : Prop := Forall (fun x => is_int32 (Goods x)) l.

(** ** Specification *)

(** The JSON text of the lines fits the [detail] column. *)
Definition fits_detail (l : list GoodsDetail) : Prop :=
  Z.of_nat (length (Value (sort_details l))) <= detail_width.

Definition put_record (rec : StockSellDetailDO) (d : inv_db) : inv_db :=
  set_stockselldetail (<[OrderSn rec := rec]> (stockselldetail d)) d.
Definition with_status (st : Z) (rec : StockSellDetailDO) : StockSellDetailDO :=
  MkStockSellDetailDO (OrderSn rec) st (Detail rec).
Definition move_stock (move : Z -> InventoryDO -> InventoryDO) (l : list GoodsDetail) (d : inv_db) : inv_db :=
  set_inventory (move_lines move l <$> inventory d) d.

(** An order that has a record keeps it: a repeated, late or crossed [Sell] is a
    no-op.  A new order takes every line from [available] or is refused. *)
Definition spec_sell (sn : string) (l : list GoodsDetail) (d : inv_db) : option inv_db :=
  match validateStockOperation sn l, stockselldetail d !! TrimSpace sn with
  | Some _, _ => None
  | None, Some _ => Some d
  | None, None =>
    if decide (covered Available l (inventory d) /\ fits_detail l /\ stockselldetail d !! sn = None)
    then Some (put_record (MkStockSellDetailDO sn stockSellStatusReserved (sort_details l))
                 (move_stock inventorys.reduce_row l d))
    else None
  end.

(** A release of a reserved order gives its lines back; of a released or confirmed
    one is a no-op; of an unknown one leaves a released record, so that the [Sell]
    still under way cannot reserve afterwards. *)
Definition spec_release (sn : string) (l : list GoodsDetail) (d : inv_db) : option inv_db :=
  match validateStockOperation sn l, stockselldetail d !! TrimSpace sn with
  | Some _, _ => None
  | None, None =>
    if decide (fits_detail l) then
      match stockselldetail d !! sn with
      | Some _ => Some d
      | None => Some (put_record (MkStockSellDetailDO sn stockSellStatusReleased (sort_details l)) d)
      end
    else None
  | None, Some rec =>
    if Status rec =? stockSellStatusReserved then
      if decide (covered Locked (Detail rec) (inventory d))
      then Some (put_record (with_status stockSellStatusReleased rec)
                   (move_stock inventorys.increase_row (Detail rec) d))
      else None
    else Some d
  end.

(** A confirmation of a reserved order turns its lines into sales; of a released
    or confirmed one is a no-op; of an unknown one is refused. *)
Definition spec_confirm (sn : string) (l : list GoodsDetail) (d : inv_db) : option inv_db :=
  match validateStockOperation sn l, stockselldetail d !! TrimSpace sn with
  | Some _, _ | _, None => None
  | None, Some rec =>
    if Status rec =? stockSellStatusReserved then
      if decide (covered Locked (Detail rec) (inventory d))
      then Some (put_record (with_status stockSellStatusConfirmed rec)
                   (move_stock inventorys.confirm_row (Detail rec) d))
      else None
    else Some d
  end.

Lemma move_stock_sort move l d : move_stock move (sort_details l) d = move_stock move l d.
Proof.
  unfold move_stock. f_equal. apply list_fmap_ext. intros i r _. unfold move_lines.
  by rewrite (qty_perm _ _ _ (sort_details_perm l)).
Qed.

(** [m] implements the partial step [f] from [d]: under every fault schedule it
    makes exactly that step or leaves the tables alone, and without faults it
    makes the step whenever there is one. *)
Definition implements {A} (m : M inv_db A) (f : inv_db -> option inv_db) (d : inv_db) : Prop :=
  (forall faults, match m (Env d faults) with
                  | (Ret _, s') => f d = Some (e_db s')
                  | (_, s') => e_db s' = d
                  end) /\
  (forall d', f d = Some d' -> exists a, m (Env d []) = (Ret a, Env d' [])).

(** ** Request validation *)

Lemma validateStockOperation_None sn l :
  validateStockOperation sn l = None ->
  TrimSpace sn <> "" /\ l <> [] /\ Forall (fun x => 0 < Goods x /\ 0 < Num x) l.
Proof.
  unfold validateStockOperation. repeat case_match; try done. intros _. bprop.
  split_and!; [done..|]. apply Forall_forall. intros x Hx%list_elem_of_In.
  match goal with H : existsb ?f l = false |- _ =>
    destruct (f x) eqn:E; [|simpl in E; blia];
    rewrite (proj2 (existsb_exists f l)) in H; [done|eauto] end.
Qed.

Lemma validate_lines_ok sn l :
  validateStockOperation sn l = None -> typed_lines l -> Forall line_ok l.
Proof.
  intros (_ & _ & H)%validateStockOperation_None T. unfold typed_lines in T.
  rewrite Forall_forall in *. intros x Hx. specialize (H x Hx). specialize (T x Hx).
  unfold line_ok. unfold_int. lia.
Qed.

(** A list of valid lines passes the store's own check too. *)
Lemma validate_detail sn l st :
  validateStockOperation sn l = None -> 0 < st ->
  inventorys.validateStockSellDetail (Some (MkStockSellDetailDO sn st (sort_details l))) = None.
Proof.
  intros (H1 & _ & H)%validateStockOperation_None Hst. simpl.
  rewrite bool_decide_eq_false_2 by done. rewrite (proj2 (Z.leb_gt _ _)) by lia.
  destruct (existsb _ _) eqn:E; [|done]. apply existsb_exists in E as (x & Hx & Hf).
  apply list_elem_of_In in Hx. rewrite sort_details_perm in Hx.
  rewrite Forall_forall in H. specialize (H x Hx). simpl in Hf. blia.
Qed.

(** ** Reading a reservation record *)

Section GetDetail.
Context (op : string).
Definition get_detail (sn : string) : M inv_db StockSellDetailDO :=
  fail_if (bool_decide (TrimSpace sn = "")) inventorys.not_found ;;;
  found <- wrap_err (fun e => WrapDatabase e op) (find_sell_detail (TrimSpace sn)) ;;
  match found with
  | None => fail (newCode ErrInvSellDetailNotFound "record not found")
  | Some detail => ret detail
  end.

(** Whatever the faults, the read returns the record, or an error that is a
    not-found code exactly when there is none. *)
Lemma get_detail_cases sn s :
  TrimSpace sn <> "" ->
  exists s', e_db s' = e_db s /\
  match get_detail sn s with
  | (Ret rec, s1) => s1 = s' /\ stockselldetail (e_db s) !! TrimSpace sn = Some rec
  | (Fail e, s1) =>
      s1 = s' /\ (IsCode e ErrInvSellDetailNotFound = true ->
                  stockselldetail (e_db s) !! TrimSpace sn = None)
  | (Panic _, _) => False
  end.
Proof.
  intros Hne. unfold get_detail, bind, fail_if, wrap_err, find_sell_detail, query, stmt, ret, fail.
  rewrite bool_decide_eq_false_2 by done. simpl. pose proof (next_fault_db s) as E.
  destruct (next_fault s) as [[m|] s1]; simpl in *.
  - exists s1. split; [done|]. split; [done|]. by rewrite IsCode_WrapDatabase_driver.
  - eexists (Env (e_db s1) (e_faults s1)). split; [done|].
    destruct (stockselldetail (e_db s1) !! TrimSpace sn) eqn:El; rewrite <- E; done.
Qed.

Lemma get_detail_found sn d rec :
  TrimSpace sn <> "" -> stockselldetail d !! TrimSpace sn = Some rec ->
  get_detail sn (Env d []) = (Ret rec, Env d []).
Proof.
  intros Hne H. unfold get_detail, bind, fail_if. rewrite bool_decide_eq_false_2 by done.
  unfold wrap_err, find_sell_detail, query, stmt, ret, fail. simpl. by rewrite H.
Qed.

Lemma get_detail_missing sn d :
  TrimSpace sn <> "" -> stockselldetail d !! TrimSpace sn = None ->
  get_detail sn (Env d []) = (Fail (newCode ErrInvSellDetailNotFound "record not found"), Env d []).
Proof.
  intros Hne H. unfold get_detail, bind, fail_if. rewrite bool_decide_eq_false_2 by done.
  unfold wrap_err, find_sell_detail, query, stmt, ret, fail. simpl. by rewrite H.
Qed.
End GetDetail.

Lemma GetSellDetail_eq : inventorys.GetSellDetail = get_detail "get inventory sell detail".
Proof. done. Qed.
Lemma GetSellDetailForUpdate_eq :
  inventorys.GetSellDetailForUpdate = get_detail "get inventory sell detail for update".
Proof. done. Qed.

Lemma Reduce_eq :
  inventorys.Reduce = transfer_op inventorys.reduce_row Available
    (fun e => WrapDatabase e "reduce inventory") (newCode ErrInvNotEnough "库存不足").
Proof. done. Qed.

Lemma not_found_code : IsCode (newCode ErrInvSellDetailNotFound "record not found") ErrInvSellDetailNotFound = true.
Proof. by rewrite IsCode_newCode. Qed.

(** ** Writing a reservation record *)

Lemma CreateStockSellDetail_Ret rec s u s' :
  inventorys.CreateStockSellDetail rec s = (Ret u, s') ->
  Z.of_nat (length (Value (Detail rec))) <= detail_width /\
  stockselldetail (e_db s) !! OrderSn rec = None /\ e_db s' = put_record rec (e_db s).
Proof.
  unfold inventorys.CreateStockSellDetail. case_match; [done|]. intros Hr. minv.
  apply stmt_Ret in Hr. cases. bprop. split; [lia|]. split; [done|by symmetry].
Qed.

Lemma CreateStockSellDetailIfAbsent_Ret rec s b s' :
  inventorys.CreateStockSellDetailIfAbsent rec s = (Ret b, s') ->
  Z.of_nat (length (Value (Detail rec))) <= detail_width /\
  e_db s' = match stockselldetail (e_db s) !! OrderSn rec with
            | Some _ => e_db s
            | None => put_record rec (e_db s)
            end.
Proof.
  unfold inventorys.CreateStockSellDetailIfAbsent. case_match; [done|]. intros H1. minv.
  match goal with E : insert_sell_detail_or_nothing _ _ = _ |- _ => apply stmt_Ret in E as E' end.
  cases; bprop; split; try lia; done.
Qed.

Lemma UpdateStatus_Ret sn st s u s' :
  inventorys.UpdateStockSellDetailStatus sn st s = (Ret u, s') ->
  exists rec, stockselldetail (e_db s) !! TrimSpace sn = Some rec /\
    e_db s' = set_stockselldetail (<[TrimSpace sn := with_status st rec]> (stockselldetail (e_db s))) (e_db s).
Proof.
  unfold inventorys.UpdateStockSellDetailStatus. intros H. minv.
  match goal with E : update_sell_status _ _ _ = _ |- _ => apply stmt_Ret in E end.
  cases. eexists. split; [done|]. done.
Qed.

Lemma CreateStockSellDetail_clean sn st l d :
  validateStockOperation sn l = None -> 0 < st -> fits_detail l -> stockselldetail d !! sn = None ->
  let rec := MkStockSellDetailDO sn st (sort_details l) in
  inventorys.CreateStockSellDetail rec (Env d []) = (Ret tt, Env (put_record rec d) []).
Proof.
  intros Hv Hst Hw Hn. simpl. unfold inventorys.CreateStockSellDetail.
  rewrite validate_detail by done. unfold wrap_err, insert_sell_detail, stmt. simpl.
  unfold fits_detail in Hw. rewrite (proj2 (Z.ltb_ge _ _)) by lia. by rewrite Hn.
Qed.

Lemma CreateStockSellDetailIfAbsent_clean sn st l d :
  validateStockOperation sn l = None -> 0 < st -> fits_detail l ->
  let rec := MkStockSellDetailDO sn st (sort_details l) in
  exists b, inventorys.CreateStockSellDetailIfAbsent rec (Env d []) =
    (Ret b, Env (match stockselldetail d !! sn with Some _ => d | None => put_record rec d end) []).
Proof.
  intros Hv Hst Hw. simpl. unfold inventorys.CreateStockSellDetailIfAbsent.
  rewrite validate_detail by done. unfold bind, wrap_err, insert_sell_detail_or_nothing, stmt. simpl.
  unfold fits_detail in Hw. rewrite (proj2 (Z.ltb_ge _ _)) by lia.
  destruct (stockselldetail d !! sn); eexists; done.
Qed.

Lemma UpdateStatus_clean sn st d rec :
  TrimSpace sn <> "" -> 0 < st -> stockselldetail d !! TrimSpace sn = Some rec -> Status rec <> st ->
  inventorys.UpdateStockSellDetailStatus sn st (Env d []) =
  (Ret tt, Env (set_stockselldetail (<[TrimSpace sn := with_status st rec]> (stockselldetail d)) d) []).
Proof.
  intros Hne Hst Hl Hs. unfold inventorys.UpdateStockSellDetailStatus, bind, fail_if.
  rewrite bool_decide_eq_false_2 by done. rewrite (proj2 (Z.leb_gt _ _)) by lia. simpl.
  unfold wrap_err, update_sell_status, stmt. simpl. rewrite Hl.
  rewrite (proj2 (Z.eqb_neq (Status rec) st) Hs). done.
Qed.

(** ** Refinement *)

Lemma Sell_Ret lock sn l s u s' :
  inv_ok (e_db s) -> Sell lock sn l s = (Ret u, s') -> spec_sell sn l (e_db s) = Some (e_db s').
Proof.
  intros Hok. unfold Sell, spec_sell. destruct (validateStockOperation sn l) eqn:Hv; [done|].
  destruct lock; [done|]. apply validateStockOperation_None in Hv as (Hne & _ & Hpos).
  intros (s1 & H & ->)%withTxn_Ret. apply bind_Ret in H as ([rec|err] & s0 & Hg%attempt_Ret & H);
    destruct (get_detail_cases "get inventory sell detail" sn s Hne) as (s0' & Hdb & Hc);
    rewrite GetSellDetail_eq in Hg;
    rewrite Hg in Hc; destruct Hc as [<- Hl].
  - rewrite Hl. destruct (ok_records _ Hok _ _ Hl) as (_ & Hst & _).
    assert (e_db s1 = e_db s); [|congruence]. cases; minv; try done. exfalso. bprop. lia.
  - case_match eqn:Hcode; minv. apply negb_false_iff, Hl in Hcode. rewrite Hcode.
    match goal with E : for_each _ _ _ = _ |- _ =>
      eapply (for_each_transfer_Ret inventorys.reduce_row Available) in E as (_ & Hcov & Ed);
        [|rewrite Hdb; apply Hok] end.
    match goal with E : inventorys.CreateStockSellDetail _ _ = _ |- _ =>
      apply CreateStockSellDetail_Ret in E as (Hw & Hn & Ed') end.
    rewrite Hdb in *. rewrite Ed in *. simpl in *.
    rewrite decide_True; [|split_and!; [|done..]; eapply covered_perm; [apply sort_details_perm|done]].
    rewrite Ed'. fold (move_stock inventorys.reduce_row (sort_details l) (e_db s)).
    by rewrite move_stock_sort.
Qed.

Lemma put_status sn st d rec :
  inv_ok d -> stockselldetail d !! TrimSpace sn = Some rec ->
  set_stockselldetail (<[TrimSpace sn := with_status st rec]> (stockselldetail d)) d
  = put_record (with_status st rec) d.
Proof.
  intros Hok Hl. destruct (ok_records _ Hok _ _ Hl) as [Hk _]. unfold put_record. simpl. by rewrite Hk.
Qed.

(** The part [Reback] and [Confirm] share: settle a reserved record. *)
Definition settle (move : Z -> InventoryDO -> InventoryDO) (w : goerr -> goerr)
    (sn : string) (st : Z) (rec : StockSellDetailDO) : M inv_db unit :=
  if Status rec =? stockSellStatusReleased then ret tt
  else if Status rec =? stockSellStatusConfirmed then ret tt
  else
    fail_if (bool_decide (Detail rec = [])) (newCode ErrDatabase "inventory sell detail is empty") ;;;
    for_each (sort_details (Detail rec)) (fun x =>
      transfer_op move Locked w inventorys.inventory_not_found (wrapu64 (Goods x)) (Num x)) ;;;
    inventorys.UpdateStockSellDetailStatus sn st.

Definition spec_settle (move : Z -> InventoryDO -> InventoryDO) (st : Z)
    (rec : StockSellDetailDO) (d : inv_db) : option inv_db :=
  if Status rec =? stockSellStatusReserved then
    if decide (covered Locked (Detail rec) (inventory d))
    then Some (put_record (with_status st rec) (move_stock move (Detail rec) d))
    else None
  else Some d.

Section Settle.
Context (move : Z -> InventoryDO -> InventoryDO) `{!Transfer move Locked} (w : goerr -> goerr) (st : Z).

Lemma settle_Ret sn rec s u s' :
  inv_ok (e_db s) -> stockselldetail (e_db s) !! TrimSpace sn = Some rec ->
  settle move w sn st rec s = (Ret u, s') -> spec_settle move st rec (e_db s) = Some (e_db s').
Proof.
  intros Hok Hl H. destruct (ok_records _ Hok _ _ Hl) as (_ & Hst & _).
  unfold settle, spec_settle in *. destruct (Z.eqb_spec (Status rec) stockSellStatusReserved) as [E|E].
  2: { cases; minv; try done. exfalso. bprop. lia. }
  rewrite E in H. simpl in H. minv.
  match goal with F : for_each _ _ _ = _ |- _ =>
    eapply (for_each_transfer_Ret move Locked) in F as (_ & Hcov & Ed); [|apply Hok] end.
  match goal with F : inventorys.UpdateStockSellDetailStatus _ _ _ = _ |- _ =>
    apply UpdateStatus_Ret in F as (rec' & Hl' & Ed') end.
  rewrite Ed in *. simpl in Hl'. simplify_eq.
  rewrite decide_True by (eapply covered_perm; [apply sort_details_perm|done]).
  rewrite Ed'. fold (move_stock move (sort_details (Detail rec)) (e_db s)).
  rewrite move_stock_sort. f_equal. unfold put_record. simpl.
  by destruct (ok_records _ Hok _ _ Hl) as [-> _].
Qed.

Lemma settle_clean sn rec d d' :
  inv_ok d -> TrimSpace sn <> "" -> 0 < st -> st <> stockSellStatusReserved ->
  stockselldetail d !! TrimSpace sn = Some rec -> spec_settle move st rec d = Some d' ->
  settle move w sn st rec (Env d []) = (Ret tt, Env d' []).
Proof.
  intros Hok Hne Hst Hr Hl. destruct (ok_records _ Hok _ _ Hl) as (Hk & Hs & He & Hlines).
  unfold settle, spec_settle. destruct (Z.eqb_spec (Status rec) stockSellStatusReserved) as [E|E].
  2: { intros ?; simplify_eq. destruct Hs as [|[-> | ->]]; done. }
  destruct (decide _) as [Hc|]; [|done]. intros ?; simplify_eq. rewrite E. simpl.
  unfold bind at 1. rewrite bool_decide_eq_false_2 by done. simpl. unfold bind.
  rewrite (for_each_transfer_complete move Locked);
    [|by rewrite sort_details_perm|apply Hok|eapply covered_perm; [symmetry; apply sort_details_perm|done]].
  fold (move_stock move (sort_details (Detail rec)) d). rewrite move_stock_sort.
  rewrite UpdateStatus_clean with (rec := rec); [|done|done|done|congruence].
  unfold put_record. simpl. by rewrite Hk.
Qed.
End Settle.

Lemma spec_release_settle sn l d :
  spec_release sn l d =
  match validateStockOperation sn l, stockselldetail d !! TrimSpace sn with
  | None, Some rec => spec_settle inventorys.increase_row stockSellStatusReleased rec d
  | _, _ => spec_release sn l d
  end.
Proof. unfold spec_release, spec_settle. repeat case_match; done. Qed.

Lemma Reback_Ret lock sn l s u s' :
  inv_ok (e_db s) -> Reback lock sn l s = (Ret u, s') -> spec_release sn l (e_db s) = Some (e_db s').
Proof.
  intros Hok. rewrite spec_release_settle. unfold Reback.
  destruct (validateStockOperation sn l) eqn:Hv; [done|]. destruct lock; [done|].
  apply validateStockOperation_None in Hv as Hv'. destruct Hv' as (Hne & _).
  intros (s1 & H & ->)%withTxn_Ret. apply bind_Ret in H as ([rec|err] & s0 & Hg%attempt_Ret & H);
    destruct (get_detail_cases "get inventory sell detail for update" sn s Hne) as (s0' & Hdb & Hc);
    rewrite GetSellDetailForUpdate_eq in Hg;
    rewrite Hg in Hc; destruct Hc as [<- Hl].
  - rewrite Hl. rewrite <- Hdb in *. by eapply settle_Ret in H; [|try exact _..].
  - case_match eqn:Hcode; minv. specialize (Hl eq_refl). rewrite Hl. unfold spec_release. rewrite Hv, Hl.
    match goal with E : inventorys.CreateStockSellDetailIfAbsent _ _ = _ |- _ =>
      apply CreateStockSellDetailIfAbsent_Ret in E as [Hw Ed] end.
    rewrite decide_True by done. rewrite Ed, Hdb. simpl. by destruct (stockselldetail (e_db s) !! sn).
Qed.

Lemma Confirm_Ret lock sn l s u s' :
  inv_ok (e_db s) -> Confirm lock sn l s = (Ret u, s') -> spec_confirm sn l (e_db s) = Some (e_db s').
Proof.
  intros Hok. unfold Confirm, spec_confirm.
  destruct (validateStockOperation sn l) eqn:Hv; [done|]. destruct lock; [done|].
  apply validateStockOperation_None in Hv as (Hne & _).
  intros (s1 & H & ->)%withTxn_Ret. apply bind_Ret in H as (rec & s0 & Hg & H).
  destruct (get_detail_cases "get inventory sell detail for update" sn s Hne) as (s0' & Hdb & Hc).
  rewrite GetSellDetailForUpdate_eq in Hg.
  rewrite Hg in Hc. destruct Hc as [<- Hl]. rewrite Hl. rewrite <- Hdb in *.
  by eapply settle_Ret in H; [|try exact _..].
Qed.

Lemma atomic_Sell lock sn l : atomic (Sell lock sn l).
Proof. unfold Sell. repeat case_match; eauto with go. Qed.
Lemma atomic_Reback lock sn l : atomic (Reback lock sn l).
Proof. unfold Reback. repeat case_match; eauto with go. Qed.
Lemma atomic_Confirm lock sn l : atomic (Confirm lock sn l).
Proof. unfold Confirm. repeat case_match; eauto with go. Qed.

Lemma implements_intro {A} (m : M inv_db A) f d :
  atomic m -> (forall s a s', e_db s = d -> m s = (Ret a, s') -> f d = Some (e_db s')) ->
  (forall d', f d = Some d' -> exists a, m (Env d []) = (Ret a, Env d' [])) ->
  implements m f d.
Proof.
  intros Ha Hr Hc. split; [|done]. intros faults. specialize (Ha (Env d faults)).
  destruct (m (Env d faults)) as [[a|e|p] s'] eqn:E;
    [by eapply (Hr (Env d faults))|by apply Ha..].
Qed.

(** Unfold one step of a fault-free run whose read is known. *)
Ltac clean_read H :=
  unfold bind at 1, attempt; rewrite ?GetSellDetail_eq, ?GetSellDetailForUpdate_eq, H; cbn [negb].

Lemma Sell_clean sn l d :
  inv_ok d -> typed_lines l -> forall d', spec_sell sn l d = Some d' ->
  exists u, Sell None sn l (Env d []) = (Ret u, Env d' []).
Proof.
  intros Hok Ht.
  intros d'. unfold spec_sell, Sell. destruct (validateStockOperation sn l) eqn:Hv; [done|].
  apply validateStockOperation_None in Hv as Hv'. destruct Hv' as (Hne & _).
  destruct (stockselldetail d !! TrimSpace sn) as [rec|] eqn:Hl; intros H; exists tt; apply withTxn_clean.
  - simplify_eq. clean_read (get_detail_found "get inventory sell detail" _ _ _ Hne Hl).
    by destruct (ok_records _ Hok _ _ Hl) as (_ & [-> | [-> | ->]] & _).
  - destruct (decide _) as [(Hc & Hw & Hn)|]; simplify_eq.
    clean_read (get_detail_missing "get inventory sell detail" _ _ Hne Hl). rewrite not_found_code. cbn [negb].
    unfold bind. rewrite Reduce_eq, (for_each_transfer_complete inventorys.reduce_row Available);
      [|rewrite sort_details_perm; by eapply validate_lines_ok|apply Hok
       |eapply covered_perm; [symmetry; apply sort_details_perm|done]].
    fold (move_stock inventorys.reduce_row (sort_details l) d). rewrite move_stock_sort.
    by apply CreateStockSellDetail_clean.
Qed.

(** C2: [Sell] refines its specification.  On well-formed tables, with lines of
    32-bit ids and quantities and with its lock obtained, under every fault
    schedule: it either takes exactly the requested lines out of [available] and
    records the reservation, or recognises an order it has a record of, or leaves
    the tables as they were; and when nothing fails it does reserve exactly when
    [spec_sell] says so: the request is valid, the stock covers it, no record is
    stored under its number, and the reservation's JSON fits the column of 200
    characters (ten or more lines never do,
    [InventoryProperties.ten_lines_refused]). *)
Theorem Sell_refines sn l d :
  inv_ok d -> typed_lines l -> implements (Sell None sn l) (spec_sell sn l) d.
Proof.
  intros Hok Ht. apply implements_intro; [apply atomic_Sell|intros s a s' <-; by apply Sell_Ret|].
  by apply Sell_clean.
Qed.

Lemma Reback_clean sn l d :
  inv_ok d -> typed_lines l -> forall d', spec_release sn l d = Some d' ->
  exists u, Reback None sn l (Env d []) = (Ret u, Env d' []).
Proof.
  intros Hok Ht.
  intros d'. rewrite spec_release_settle. unfold Reback. destruct (validateStockOperation sn l) eqn:Hv.
  { unfold spec_release. by rewrite Hv. }
  apply validateStockOperation_None in Hv as Hv'. destruct Hv' as (Hne & _).
  destruct (stockselldetail d !! TrimSpace sn) as [rec|] eqn:Hl; intros H; exists tt; apply withTxn_clean.
  - clean_read (get_detail_found "get inventory sell detail for update" _ _ _ Hne Hl).
    by eapply settle_clean in H; [exact H|try exact _..].
  - clean_read (get_detail_missing "get inventory sell detail for update" _ _ Hne Hl). rewrite not_found_code.
    unfold spec_release in H. rewrite Hv, Hl in H. destruct (decide _) as [Hw|]; [|done]. unfold bind.
    destruct (CreateStockSellDetailIfAbsent_clean sn stockSellStatusReleased l d Hv) as [b Hb]; [done..|].
    rewrite Hb. destruct (stockselldetail d !! sn); by simplify_eq.
Qed.

(** C7: [Reback] (and [Release]) refines its specification under every fault
    schedule. *)
Theorem Reback_refines sn l d :
  inv_ok d -> typed_lines l -> implements (Reback None sn l) (spec_release sn l) d.
Proof.
  intros Hok Ht. apply implements_intro; [apply atomic_Reback|intros s a s' <-; by apply Reback_Ret|].
  by apply Reback_clean.
Qed.

Lemma Confirm_clean sn l d :
  inv_ok d -> typed_lines l -> forall d', spec_confirm sn l d = Some d' ->
  exists u, Confirm None sn l (Env d []) = (Ret u, Env d' []).
Proof.
  intros Hok Ht.
  intros d'. unfold spec_confirm, Confirm. destruct (validateStockOperation sn l) eqn:Hv; [done|].
  apply validateStockOperation_None in Hv as (Hne & _).
  destruct (stockselldetail d !! TrimSpace sn) as [rec|] eqn:Hl; [|done].
  intros H. exists tt. apply withTxn_clean. unfold bind at 1.
  rewrite GetSellDetailForUpdate_eq, (get_detail_found "get inventory sell detail for update" _ _ _ Hne Hl).
  by eapply settle_clean in H; [exact H|try exact _..].
Qed.

(** C8: [Confirm] refines its specification under every fault schedule. *)
Theorem Confirm_refines sn l d :
  inv_ok d -> typed_lines l -> implements (Confirm None sn l) (spec_confirm sn l) d.
Proof.
  intros Hok Ht. apply implements_intro; [apply atomic_Confirm|intros s a s' <-; by apply Confirm_Ret|].
  by apply Confirm_clean.
Qed.

(** Two goods in stock; the request wants both, in the other order. *)
Definition demo_lines : list GoodsDetail := [MkGoodsDetail 8 1; MkGoodsDetail 7 3].
Definition demo_db0 : inv_db :=
  MkInvDb [MkInventoryDO 1 false 7 50 50 50 0 0 0; MkInventoryDO 2 false 8 5 5 5 0 0 0] ∅ [].
Definition demo_db1 : inv_db := e_db (Sell None "A1" demo_lines (Env demo_db0 [])).2.

Lemma demo_ok0 : inv_ok demo_db0.
Proof. apply inv_okb_ok. vm_compute. reflexivity. Qed.
Lemma demo_ok1 : inv_ok demo_db1.
Proof. apply inv_okb_ok. vm_compute. reflexivity. Qed.
Lemma demo_typed : typed_lines demo_lines.
Proof. repeat constructor; simpl; unfold_int; lia. Qed.

Lemma Sell_refines_witness :
  implements (Sell None "A1" demo_lines) (spec_sell "A1" demo_lines) demo_db0 /\
  Available <$> inventory demo_db1 = [47; 4].
Proof.
  split; [apply (Sell_refines "A1" demo_lines demo_db0); [apply demo_ok0|apply demo_typed]|].
  vm_compute. reflexivity.
Defined.

Lemma Reback_refines_witness :
  implements (Reback None "A1" demo_lines) (spec_release "A1" demo_lines) demo_db1 /\
  option_map inventory (spec_release "A1" demo_lines demo_db1) = Some (inventory demo_db0).
Proof.
  split; [apply (Reback_refines "A1" demo_lines demo_db1); [apply demo_ok1|apply demo_typed]|].
  vm_compute. reflexivity.
Defined.

Lemma Confirm_refines_witness :
  implements (Confirm None "A1" demo_lines) (spec_confirm "A1" demo_lines) demo_db1 /\
  option_map (fun d => Sold <$> inventory d) (spec_confirm "A1" demo_lines demo_db1) = Some [3; 1].
Proof.
  split; [apply (Confirm_refines "A1" demo_lines demo_db1); [apply demo_ok1|apply demo_typed]|].
  vm_compute. reflexivity.
Defined.
