(* ===== verification/InventoryServer.v ===== *)
(** * The inventory gRPC server: [app/inventory/srv/internal/controller/v1]

    Each handler checks the request pointer, converts the message and calls the
    service.  A shortage of stock leaves as [codes.Aborted], which is what tells a
    saga to compensate. *)
From S2P Require Import Prelude GoStrings Errors GoMonad InventoryModel InventoryStore InventoryService.
From S2P Require Import InventoryStock InventoryProtocol.
Import InvDo.
Open Scope go_scope.

Module inventoryServer.

(** ** Messages ([api/inventory/v1]) *)
Record GoodsInvInfo := MkGoodsInvInfo {
  GoodsId : Z; InfoNum : Z; InfoTotal : Z; InfoAvailable : Z; InfoLocked : Z; InfoSold : Z;
  ActorUserId : Z; CorrelationId : string; RequestId : string; InfoReason : string
}.
Record SellInfo := MkSellInfo { GoodsInfo : list GoodsInvInfo; SellOrderSn : string }.
Record SellDetailInfo := MkSellDetailInfo {
  DetailOrderSn : string; DetailStatus : Z; StatusName : string;
  DetailGoods : list (Z * Z);
  DetailAdjustments : list InventoryAdjustmentDO;
  InventorySnapshot : list GoodsInvInfo
}.

Definition required (what : string) : goerr := newCode ErrValidation what.

Definition stockSellStatusName (status : Z) : string :=
  if status =? 1 then "reserved" else if status =? 2 then "released"
  else if status =? 3 then "confirmed" else "unknown".

(** The row a request describes: the fields the handlers do not set are zero. *)
Definition inventory_of (info : GoodsInvInfo) : InventoryDO :=
  MkInventoryDO 0 false (GoodsId info) (InfoNum info) (InfoTotal info) (InfoAvailable info)
    (InfoLocked info) (InfoSold info) 0.
Definition info_of (inv : InventoryDO) : GoodsInvInfo :=
  MkGoodsInvInfo (InvGoods inv) (Stocks inv) (Total inv) (Available inv) (Locked inv) (Sold inv) 0 "" "" "".
Definition details_of (info : SellInfo) : list GoodsDetail :=
  (fun value => MkGoodsDetail (GoodsId value) (InfoNum value)) <$> GoodsInfo info.

Definition SetInv (info : option GoodsInvInfo) : M inv_db unit :=
  match info with
  | None => fail (required "inventory request is required")
  | Some info => inventoryService.Create (Some (inventory_of info))
  end.

Definition SetStock (now : Z) (info : option GoodsInvInfo) : M inv_db unit :=
  match info with
  | None => fail (required "inventory request is required")
  | Some info =>
    inventoryService.Adjust now (Some (inventory_of info))
      (Some (MkInventoryAdjustmentDO 0 0 0 0 (ActorUserId info) (CorrelationId info) (RequestId info)
               (InfoReason info) 0))
  end.

Definition ListAdjustments (goodsId page pageSize : Z) : M inv_db (list InventoryAdjustmentDO * Z) :=
  r <- inventoryService.ListAdjustments (wrapu64 goodsId) page pageSize ;;
  ret (r.1, wrap32 r.2).

Definition InvDetail (info : option GoodsInvInfo) : M inv_db GoodsInvInfo :=
  match info with
  | None => fail (required "inventory request is required")
  | Some info => inv <- inventoryService.Get (wrapu64 (GoodsId info)) ;; ret (info_of inv)
  end.
Definition GetStock (info : option GoodsInvInfo) : M inv_db GoodsInvInfo := InvDetail info.

Definition GetSellDetail (orderSn : option string) : M inv_db SellDetailInfo :=
  match orderSn with
  | None => fail (required "inventory order request is required")
  | Some orderSn =>
    flow <- inventoryService.GetOrderFlow orderSn ;;
    let detail := SellDetail flow in
    ret (MkSellDetailInfo (OrderSn detail) (Status detail) (stockSellStatusName (Status detail))
           ((fun item => (Goods item, Num item)) <$> Detail detail)
           (Adjustments flow) (info_of <$> Inventories flow))
  end.

Definition codes_Aborted : Z := 10.

Definition Sell (lock : option goerr) (info : option SellInfo) : M inv_db unit :=
  match info with
  | None => fail (required "inventory sell request is required")
  | Some info =>
    wrap_err (fun err =>
        if IsCode err ErrInvNotEnough then Errors.Status codes_Aborted (error_text err) [] else err)
      (inventoryService.Sell lock (SellOrderSn info) (details_of info))
  end.
Definition Reserve (lock : option goerr) (info : option SellInfo) : M inv_db unit := Sell lock info.

Definition Reback (lock : option goerr) (info : option SellInfo) : M inv_db unit :=
  match info with
  | None => fail (required "inventory reback request is required")
  | Some info => inventoryService.Reback lock (SellOrderSn info) (details_of info)
  end.

Definition Confirm (lock : option goerr) (info : option SellInfo) : M inv_db unit :=
  match info with
  | None => fail (required "inventory confirm request is required")
  | Some info => inventoryService.Confirm lock (SellOrderSn info) (details_of info)
  end.

Definition Release (lock : option goerr) (info : option SellInfo) : M inv_db unit :=
  match info with
  | None => fail (required "inventory release request is required")
  | Some info => inventoryService.Release lock (SellOrderSn info) (details_of info)
  end.

(** ** Shortage *)

(** What the loop over the lines can answer without faults on well-formed rows. *)
Lemma for_each_short l d :
  Forall line_ok l -> uniq_goods (inventory d) ->
  Forall (fun r => live r = true -> row_ok r) (inventory d) -> ~ covered Available l (inventory d) ->
  exists d', for_each l (fun x => inventorys.Reduce (wrapu64 (Goods x)) (Num x)) (Env d []) =
    (Fail (newCode ErrInvNotEnough "库存不足"), Env d' []).
Proof.
  rewrite Reduce_eq. revert d. induction l as [|x l IH]; intros d Hl Hu Hok Hc.
  { exfalso. apply Hc. split; [done|]. apply Forall_forall. intros r _ _. unfold qty. simpl. lia. }
  inversion_clear Hl as [|? ? Hx Hl']. pose proof (line_ok_goods x Hx) as Eg. fold (line_goods x).
  destruct Hx as [Hx1 Hx2].
  destruct (decide (Exists (fun r => is_goods (line_goods x) r = true) (inventory d) /\
    Forall (fun r => is_goods (line_goods x) r = true -> Num x <= Available r) (inventory d))) as [[He Hs]|Hn].
  - simpl. fold (line_goods x). unfold bind.
    rewrite (transfer_op_complete inventorys.reduce_row Available); try done; [|lia].
    apply IH; try done; simpl.
    + by apply (uniq_on_goods inventorys.reduce_row Available).
    + rewrite Forall_fmap. rewrite Forall_forall in Hok, Hs |- *. intros r Hr. simpl.
      rewrite (live_on_goods inventorys.reduce_row Available). intros L. specialize (Hok r Hr L).
      specialize (Hs r Hr). destruct (is_goods _ r); [|done]. apply Reduce_transfer; [|done].
      specialize (Hs eq_refl). lia.
    + intros Hc'. apply Hc. by rewrite (covered_cons inventorys.reduce_row Available x l _ Hx2 (lines_pos _ Hl')).
  - simpl. fold (line_goods x). unfold bind at 1, transfer_op, fail_if, bind, wrap_err, update_inventory, stmt, ret.
    rewrite (proj2 (Z.eqb_neq _ _)), (proj2 (Z.leb_gt _ _)) by lia. simpl.
    assert (forall r, r ∈ inventory d -> is_goods (line_goods x) r && (Num x <=? Available r) = false) as Hp.
    { intros r Hr. destruct (is_goods (line_goods x) r) eqn:Egr; [|done]. simpl. apply Z.leb_gt.
      destruct (decide (Num x <= Available r)); [|lia]. exfalso. apply Hn. split.
      - apply Exists_exists. eauto.
      - apply Forall_forall. intros r' Hr' Hg'. by rewrite (uniq_goods_eq _ r' r _ Hu Hr' Hr Hg' Egr). }
    rewrite (proj2 (forallb_forall _ _)) by (intros r Hr%list_elem_of_In; by rewrite Hp).
    rewrite (proj2 (Z.eqb_eq _ _)); [eexists; reflexivity|].
    assert (List.filter (fun r => is_goods (line_goods x) r && (Num x <=? Available r)) (inventory d) = []) as ->; [|done].
    clear -Hp. induction (inventory d) as [|r rs IH]; [done|]. simpl. rewrite Hp by left.
    apply IH. intros r' Hr'. apply Hp. by right.
Qed.

(** Without faults, a valid new request the stock does not cover leaves the
    tables unchanged and is answered [codes.Aborted]. *)
Theorem Sell_shortage_aborts info d :
  inv_ok d -> typed_lines (details_of info) ->
  inventoryService.validateStockOperation (SellOrderSn info) (details_of info) = None ->
  stockselldetail d !! TrimSpace (SellOrderSn info) = None ->
  ~ covered Available (details_of info) (inventory d) ->
  Sell None (Some info) (Env d []) = (Fail (Errors.Status codes_Aborted "库存不足" []), Env d []).
Proof.
  intros Hok Ht Hv Hn Hc. set (sn := SellOrderSn info) in *. set (l := details_of info) in *.
  pose proof (validate_lines_ok _ _ Hv Ht) as Hl.
  destruct (for_each_short (sort_details l) d) as [d' E].
  { by rewrite sort_details_perm. } { apply Hok. } { apply Hok. }
  { intros Hc'. apply Hc. by eapply covered_perm; [apply sort_details_perm|]. }
  apply validateStockOperation_None in Hv as Hv'.
  destruct Hv' as [Hne _]. unfold Sell, wrap_err, inventoryService.Sell. fold sn l. rewrite Hv.
  unfold withTxnExecutor, bind at 1, attempt.
  rewrite GetSellDetail_eq, (get_detail_missing "get inventory sell detail" _ _ Hne Hn), not_found_code. cbn [negb].
  unfold bind. rewrite E. rewrite IsCode_newCode by (vm_compute; reflexivity). reflexivity.
Qed.

Lemma Sell_shortage_aborts_witness :
  let info := MkSellInfo [MkGoodsInvInfo 8 6 0 0 0 0 0 "" "" ""] "A1" in
  Sell None (Some info) (Env demo_db0 []) =
  (Fail (Errors.Status codes_Aborted "库存不足" []), Env demo_db0 []).
Proof.
  apply (Sell_shortage_aborts (MkSellInfo [MkGoodsInvInfo 8 6 0 0 0 0 0 "" "" ""] "A1") demo_db0).
  - apply demo_ok0.
  - repeat constructor; simpl; unfold_int; lia.
  - vm_compute. reflexivity.
  - vm_compute. reflexivity.
  - intros H. assert (bool_decide (covered Available [MkGoodsDetail 8 6] (inventory demo_db0)) = false) as E
      by (vm_compute; reflexivity).
    apply bool_decide_eq_false in E. by apply E.
Defined.

End inventoryServer.
