(* ===== verification/InventoryLedger.v ===== *)
(** * The stock ledger

    What holds of the inventory tables however calls are ordered and whichever of
    their statements fail: no row goes negative, what is locked is exactly what
    live reservations hold, what is sold is exactly what was confirmed, and a
    reserved order can always be settled. *)
From S2P Require Import Prelude GoStrings Errors GoMonad InventoryModel InventoryStore InventoryService.
From S2P Require Import InventoryStock InventoryProtocol.
Import InvDo inventoryService.
Open Scope go_scope.

(** ** What the records hold of a goods *)

Definition held (st g : Z) (rec : StockSellDetailDO) : Z :=
  if Status rec =? st then qty g (Detail rec) else 0.
Definition booked (st g : Z) (m : gmap string StockSellDetailDO) : Z :=
  sumZ (fun kr => held st g kr.2) (map_to_list m).

Lemma booked_insert_new st g m k rec :
  m !! k = None -> booked st g (<[k := rec]> m) = held st g rec + booked st g m.
Proof. intros H. unfold booked. by rewrite (sumZ_perm _ _ _ (map_to_list_insert m k rec H)). Qed.

Lemma booked_insert_old st g m k rec rec' :
  m !! k = Some rec -> booked st g (<[k := rec']> m) = booked st g m - held st g rec + held st g rec'.
Proof.
  intros H. rewrite <- (insert_delete_eq m k rec') .
  assert (booked st g m = held st g rec + booked st g (delete k m)) as ->.
  { rewrite <- (insert_delete_id m k rec H) at 1. by apply booked_insert_new, lookup_delete_eq. }
  rewrite booked_insert_new by apply lookup_delete_eq. lia.
Qed.

Lemma booked_ge st g m k rec :
  map_Forall record_ok m -> m !! k = Some rec -> held st g rec <= booked st g m.
Proof.
  intros Hm H. unfold booked. rewrite <- (insert_delete_id m k rec H) at 1.
  rewrite (sumZ_perm _ _ _ (map_to_list_insert (delete k m) k rec (lookup_delete_eq m k))). simpl.
  assert (0 <= sumZ (fun kr : string * StockSellDetailDO => held st g kr.2) (map_to_list (delete k m))); [|lia].
  apply sumZ_nonneg, Forall_forall. intros [k' r'] Hk%elem_of_map_to_list. simpl.
  apply lookup_delete_Some in Hk as [_ Hk]. destruct (Hm _ _ Hk) as (_ & _ & _ & Hl).
  unfold held. case_match; [|done]. by apply qty_nonneg, lines_pos.
Qed.

(** ** The ledger invariant *)

Record ledger_ok (d : inv_db) : Prop := {
  ledger_wf : inv_ok d;
  ledger_rows : Forall (fun r => live r = true ->
    Locked r = booked stockSellStatusReserved (InvGoods r) (stockselldetail d) /\
    Sold r = booked stockSellStatusConfirmed (InvGoods r) (stockselldetail d)) (inventory d);
  ledger_lines : map_Forall (fun _ rec => Status rec <> stockSellStatusReleased ->
    Forall (fun x => Exists (fun r => is_goods (line_goods x) r = true) (inventory d)) (Detail rec))
    (stockselldetail d);
  ledger_ids : NoDup (ID <$> inventory d)
}.

(** Lines with a row keep one under a row-wise transfer. *)
Lemma lines_have_rows move src `{!Transfer move src} l l' rows :
  Forall (fun x => Exists (fun r => is_goods (line_goods x) r = true) rows) l ->
  Forall (fun x => Exists (fun r => is_goods (line_goods x) r = true) (move_lines move l' <$> rows)) l.
Proof.
  intros H. eapply Forall_impl; [exact H|]. intros x. simpl. rewrite !Exists_exists.
  intros (r & Hr & Hg). eexists. split; [by apply list_elem_of_fmap_2|].
  unfold is_goods in *. fold (live (move_lines move l' r)). fold (live r) in Hg.
  by rewrite (move_lines_live move src), (move_lines_goods move src).
Qed.

(** A reserved record is covered by what is locked: settling cannot fall short. *)
Lemma reserved_covered d k rec :
  ledger_ok d -> stockselldetail d !! k = Some rec -> Status rec = stockSellStatusReserved ->
  covered Locked (Detail rec) (inventory d).
Proof.
  intros [[Hu Ho Hr] Hrows Hlines _] Hk Hst. split; [apply (Hlines k rec); [done|by rewrite Hst]|].
  rewrite Forall_forall in Hrows |- *. intros r Hin L _. destruct (Hrows r Hin L) as [-> _].
  pose proof (booked_ge stockSellStatusReserved (InvGoods r) _ _ _ Hr Hk) as H.
  unfold held in H. by rewrite Hst in H.
Qed.

Lemma line_ok_sort l : Forall line_ok l -> Forall line_ok (sort_details l).
Proof. by rewrite sort_details_perm. Qed.

Lemma record_ok_new sn l st :
  validateStockOperation sn l = None -> typed_lines l ->
  (st = stockSellStatusReserved \/ st = stockSellStatusReleased) ->
  record_ok sn (MkStockSellDetailDO sn st (sort_details l)).
Proof.
  intros Hv Ht Hst. split_and!; simpl; [done|tauto| |by apply line_ok_sort, validate_lines_ok with (1 := Hv)].
  apply validateStockOperation_None in Hv as (_ & Hn & _). intros E.
  apply Hn. apply Permutation_nil. rewrite <- E. apply sort_details_perm.
Qed.

Lemma move_stock_ok move src `{!Transfer move src} l rec d :
  inv_ok d -> Forall (fun x => 0 < Num x) l -> covered src l (inventory d) -> record_ok (OrderSn rec) rec ->
  inv_ok (put_record rec (move_stock move l d)).
Proof.
  intros [Hu Ho Hr] Hl Hc Hrec. split; simpl.
  - by apply (uniq_move_lines move src).
  - by apply (move_lines_ok move src).
  - by apply map_Forall_insert_2.
Qed.

Lemma qty_sort g l : qty g (sort_details l) = qty g l.
Proof. apply qty_perm, sort_details_perm. Qed.

(** How the two sums move when a new record is put or one is settled. *)
Lemma held_match st g sn l : held st g (MkStockSellDetailDO sn st (sort_details l)) = qty g l.
Proof. unfold held. simpl. by rewrite Z.eqb_refl, qty_sort. Qed.
Lemma held_other st st' g sn l : st' <> st -> held st g (MkStockSellDetailDO sn st' l) = 0.
Proof. intros H. unfold held. simpl. by rewrite (proj2 (Z.eqb_neq _ _) H). Qed.

Lemma spec_sell_ledger sn l d d' :
  ledger_ok d -> typed_lines l -> spec_sell sn l d = Some d' -> ledger_ok d'.
Proof.
  intros Hd Ht. unfold spec_sell. destruct (validateStockOperation sn l) eqn:Hv; [done|].
  case_match; [by intros ?; simplify_eq|]. destruct (decide _) as [(Hc & Hw & Hn)|]; [|done].
  intros ?; simplify_eq. destruct Hd as [Hwf Hrows Hlines Hids].
  pose proof (validate_lines_ok _ _ Hv Ht) as Hl. split.
  - apply (move_stock_ok _ Available); [done|by apply lines_pos|done|apply record_ok_new; tauto].
  - simpl. rewrite Forall_fmap. rewrite Forall_forall in Hrows |- *. intros r Hr. simpl.
    rewrite (move_lines_live inventorys.reduce_row Available), (move_lines_goods inventorys.reduce_row Available).
    intros L. destruct (Hrows r Hr L) as [E1 E2].
    rewrite !booked_insert_new, held_match, held_other by done. unfold move_lines. rewrite L. simpl. lia.
  - simpl. apply map_Forall_insert_2.
    + intros _. simpl. apply (lines_have_rows _ Available). destruct Hc as [Hc _]. by rewrite sort_details_perm.
    + eapply map_Forall_impl; [exact Hlines|]. intros k rec H2 Hst. simpl.
      by apply (lines_have_rows _ Available), H2.
  - simpl. by rewrite (move_lines_ids _ Available).
Qed.

Lemma spec_settle_ledger move `{!Transfer move Locked} st k rec d d' :
  ledger_ok d -> stockselldetail d !! k = Some rec ->
  (st = stockSellStatusReleased /\ (forall n r, Locked (move n r) = Locked r - n /\ Sold (move n r) = Sold r) \/
   st = stockSellStatusConfirmed /\ (forall n r, Locked (move n r) = Locked r - n /\ Sold (move n r) = Sold r + n)) ->
  spec_settle move st rec d = Some d' -> ledger_ok d'.
Proof.
  intros Hd Hk Hst. unfold spec_settle. destruct (Z.eqb_spec (Status rec) stockSellStatusReserved) as [E|];
    [|by intros ?; simplify_eq].
  destruct (decide _) as [Hc|]; [|done]. intros ?; simplify_eq.
  destruct Hd as [Hwf Hrows Hlines Hids]. destruct (ok_records _ Hwf _ _ Hk) as (Ek & Hs & He & Hl).
  assert (st <> stockSellStatusReserved) as Hst' by (destruct Hst as [[-> _]|[-> _]]; done).
  split.
  - apply (move_stock_ok _ Locked); [done|by apply lines_pos|done|]. split_and!; simpl; [done|tauto|done..].
  - simpl. rewrite Forall_fmap. rewrite Forall_forall in Hrows |- *. intros r Hr. simpl.
    rewrite (move_lines_live move Locked), (move_lines_goods move Locked). intros L.
    destruct (Hrows r Hr L) as [E1 E2]. rewrite !booked_insert_old with (rec := rec) by (by rewrite Ek).
    unfold held. simpl. rewrite E. unfold move_lines. rewrite L.
    destruct Hst as [[-> Hm]|[-> Hm]]; destruct (Hm (qty (InvGoods r) (Detail rec)) r) as [-> ->]; simpl; lia.
  - simpl. apply map_Forall_insert_2.
    { intros _. simpl. apply (lines_have_rows _ Locked), (Hlines k); [done|by rewrite E]. }
    eapply map_Forall_impl; [exact Hlines|]. intros k' rec' H2 Hst2. simpl.
    by apply (lines_have_rows _ Locked), H2.
  - simpl. by rewrite (move_lines_ids _ Locked).
Qed.

Lemma spec_release_ledger sn l d d' :
  ledger_ok d -> typed_lines l -> spec_release sn l d = Some d' -> ledger_ok d'.
Proof.
  intros Hd Ht. rewrite spec_release_settle. destruct (validateStockOperation sn l) eqn:Hv.
  { unfold spec_release. by rewrite Hv. }
  destruct (stockselldetail d !! TrimSpace sn) as [rec|] eqn:Hk.
  - apply (spec_settle_ledger _ _ _ _ _ _ Hd Hk). left. split; [done|]. by intros n r.
  - unfold spec_release. rewrite Hv, Hk. case_match; [|done].
    destruct (stockselldetail d !! sn) eqn:Hn; intros ?; simplify_eq; [done|].
    destruct Hd as [[Hu Ho Hr] Hrows Hlines Hids]. split; [split; [done..|]| | |]; simpl.
    + apply map_Forall_insert_2; [apply record_ok_new; tauto|done].
    + eapply Forall_impl; [exact Hrows|]. intros r H2 L. simpl. destruct (H2 L) as [-> ->].
      rewrite !booked_insert_new, !held_other by done. lia.
    + by apply map_Forall_insert_2.
    + done.
Qed.

Lemma spec_confirm_ledger sn l d d' :
  ledger_ok d -> spec_confirm sn l d = Some d' -> ledger_ok d'.
Proof.
  intros Hd. unfold spec_confirm. destruct (validateStockOperation sn l); [done|].
  destruct (stockselldetail d !! TrimSpace sn) as [rec|] eqn:Hk; [|done].
  apply (spec_settle_ledger _ stockSellStatusConfirmed _ _ _ _ Hd Hk). right. split; [done|]. by intros n r.
Qed.

(** ** Putting a goods in stock *)

(** The columns of a row as Go holds them. *)
Definition typed_row (r : InventoryDO) : Prop :=
  is_int32 (Stocks r) /\ is_int32 (Total r) /\ is_int32 (Available r) /\ is_int32 (Locked r) /\ is_int32 (Sold r).
#[export] Instance typed_row_dec r : Decision (typed_row r) := _.

Lemma add3_exact a b c : 0 <= a -> 0 <= b -> 0 <= c -> a + b + c <= int32_max -> inventorys.add3 a b c = a + b + c.
Proof. intros. unfold inventorys.add3. rewrite (wrap32_id (a + b)), wrap32_id; unfold_int; lia. Qed.

Lemma normalizeInventory_row inv r :
  typed_row inv -> Available inv + Locked inv + Sold inv <= int32_max ->
  inventorys.normalizeInventory (Some inv) = inl r ->
  row_ok r /\ 0 < InvGoods r /\ InvGoods r = InvGoods inv /\
  (0 < Total inv -> Total r = Total inv) /\
  (Total inv = 0 -> Total r = Available r + Locked r + Sold r).
Proof.
  intros (T1 & T2 & T3 & T4 & T5) Hsum. unfold inventorys.normalizeInventory.
  destruct (InvGoods inv <=? 0) eqn:Eg; [done|].
  destruct (_ || (Sold inv <? 0)) eqn:En; [done|]. bprop.
  assert (inventorys.add3 (Available inv) (Locked inv) (Sold inv)
          = Available inv + Locked inv + Sold inv) as Ea by (apply add3_exact; lia).
  assert (inventorys.add3 (Stocks inv) 0 0 = Stocks inv) as Es by (rewrite add3_exact; unfold_int; lia).
  destruct (negb _) eqn:El; bprop.
  - rewrite Es. case_match; [done|]. intros [= <-]. unfold row_ok; simpl. unfold_int. bprop. lia.
  - rewrite Ea. destruct (Z.eqb_spec (Total inv) 0); (case_match; [done|]); intros [= <-];
      unfold row_ok; simpl; unfold_int; bprop; lia.
Qed.

(** C36: [normalizeInventory] accepts only requests it turns into a well-formed row
    (parts non-negative, within the total, [stocks] equal to [available]), as long
    as the parts add up within 32 bits; it changes neither the goods nor a total
    that was given. *)
Theorem normalizeInventory_ok inv r :
  typed_row inv -> Available inv + Locked inv + Sold inv <= int32_max ->
  inventorys.normalizeInventory (Some inv) = inl r ->
  row_ok r /\ 0 < InvGoods r /\ InvGoods r = InvGoods inv /\
  (0 < Total inv -> Total r = Total inv) /\
  (Total inv = 0 -> Total r = Available r + Locked r + Sold r).
Proof. apply normalizeInventory_row. Qed.

Lemma normalizeInventory_ok_witness :
  exists r, inventorys.normalizeInventory (Some (MkInventoryDO 0 false 7 0 0 40 10 2 0)) = inl r
    /\ row_ok r /\ Total r = 52.
Proof.
  eexists. split; [vm_compute; reflexivity|].
  pose proof (normalizeInventory_ok (MkInventoryDO 0 false 7 0 0 40 10 2 0)
    (MkInventoryDO 0 false 7 40 52 40 10 2 0)) as H.
  split; [|done]. apply H; [unfold typed_row; unfold_int; simpl; lia|simpl; unfold_int; lia|vm_compute; reflexivity].
Defined.

Lemma inv_Create_Ret inv s u s' :
  inventoryService.Create inv s = (Ret u, s') ->
  exists i r, inv = Some i /\ inventorys.normalizeInventory (Some i) = inl r /\
    e_db s' = set_inventory (inventory (e_db s) ++
      [MkInventoryDO (next_id ID (inventory (e_db s))) false (InvGoods r) (Stocks r) (Total r)
         (Available r) (Locked r) (Sold r) (Version r)]) (e_db s).
Proof.
  unfold Create. destruct inv as [i|]; [|done]. intros H. apply bind_Ret in H as (u' & s1 & [_ ->]%fail_if_Ret & H).
  unfold inventorys.Create in H. destruct (inventorys.normalizeInventory (Some i)) as [r|] eqn:En; [|done].
  apply wrap_err_Ret, stmt_Ret in H. cbv zeta in H. destruct (row_fits _); [|done]. injection H as _ E.
  exists i, r. split_and!; [done|exact En|by symmetry].
Qed.

Lemma atomic_Create inv : atomic (Create inv).
Proof.
  unfold Create. destruct inv as [i|]; [|apply atomic_fail]. apply atomic_bind; [apply steps_fail_if; exact _|].
  intros _. unfold inventorys.Create. case_match; [|apply atomic_fail]. apply atomic_wrap_err, atomic_stmt.
  intros d. cbv zeta. by destruct (row_fits _).
Qed.

(** What a committed adjustment did. *)
Lemma Adjust_Ret now inv audit s u s' :
  Adjust now (Some inv) audit s = (Ret u, s') ->
  exists r rows, inventorys.normalizeInventory (Some inv) = inl r /\
    (inventory (e_db s') = rows /\ stockselldetail (e_db s') = stockselldetail (e_db s)) /\
    rows = match find (is_goods (InvGoods r)) (inventory (e_db s)) with
           | Some current => (fun x => if negb (DeletedAt x) && (ID x =? ID current) then inventorys.adjust_row r x else x)
               <$> inventory (e_db s)
           | None => inventory (e_db s) ++ [MkInventoryDO (next_id ID (inventory (e_db s))) false (InvGoods r) (Stocks r)
               (Total r) (Available r) (Locked r) (Sold r) (Version r)]
           end.
Proof.
  unfold Adjust, inventorys.Adjust. destruct (inventorys.normalizeInventory (Some inv)) as [r|]; [|done].
  destruct audit as [audit|]; [|done]. intros H. exists r.
  apply bind_Ret in H as (? & ? & [_ ->]%fail_if_Ret & H). apply wrap_err_Ret, transaction_Ret in H as (s0 & s1 & E0 & H & E1).
  apply bind_Ret in H as (current & s2 & [-> E2]%query_Ret & H). apply bind_Ret in H as (before & s3 & Hb & H).
  apply stmt_Ret in H. destruct (existsb _ _); [done|]. injection H as _ H. rewrite E1, <- H. cbn.
  rewrite E0 in *. destruct (find _ _) as [current|].
  - apply bind_Ret in Hb as (n & s4 & Hu%stmt_Ret & Hb). cbv zeta in Hu. destruct (forallb _ _); [|done].
    injection Hu as _ Hu. injection Hb as _ <-. rewrite <- Hu, E2. cbn. eauto.
  - apply bind_Ret in Hb as (n & s4 & Hu%stmt_Ret & Hb). cbv zeta in Hu. destruct (row_fits _); [|done].
    injection Hu as _ Hu. injection Hb as _ <-. rewrite <- Hu, E2. cbn. eauto.
Qed.
Lemma atomic_Adjust now inv audit : atomic (Adjust now (Some inv) audit).
Proof.
  unfold Adjust, inventorys.Adjust. destruct (inventorys.normalizeInventory (Some inv)); [|apply atomic_fail].
  destruct audit; [|apply atomic_fail]. apply atomic_bind; [apply steps_fail_if; exact _|]. intros _.
  apply atomic_wrap_err, atomic_transaction.
Qed.

(** ** Calls in any order, with any faults *)

(** A request that restates what the records hold of its goods. *)
Definition restates (inv : InventoryDO) (d : inv_db) : Prop :=
  typed_row inv /\ Available inv + Locked inv + Sold inv <= int32_max /\
  Locked inv = booked stockSellStatusReserved (InvGoods inv) (stockselldetail d) /\
  Sold inv = booked stockSellStatusConfirmed (InvGoods inv) (stockselldetail d).

Inductive call :=
  | CCreate (inv : InventoryDO)
  | CAdjust (now : Z) (inv : InventoryDO) (audit : option InventoryAdjustmentDO)
  | CSell (lock : option goerr) (sn : string) (l : list GoodsDetail)
  | CReback (lock : option goerr) (sn : string) (l : list GoodsDetail)
  | CConfirm (lock : option goerr) (sn : string) (l : list GoodsDetail).

Definition run_call (c : call) : M inv_db unit :=
  match c with
  | CCreate inv => Create (Some inv)
  | CAdjust now inv audit => Adjust now (Some inv) audit
  | CSell lock sn l => Sell lock sn l
  | CReback lock sn l => Reback lock sn l
  | CConfirm lock sn l => Confirm lock sn l
  end.

(** The calls of orders are unrestricted.  Those of operators respect the ledger: a row
    is created for a goods that has none, with nothing locked or sold, and an adjustment
    restates what is locked and sold; [InventoryProperties.duplicate_rows_sold_twice]
    and [adjust_blocks_settlement] show what happens otherwise. *)
Definition admissible (c : call) (d : inv_db) : Prop :=
  match c with
  | CCreate inv => typed_row inv /\ Locked inv = 0 /\ Sold inv = 0 /\
      Forall (fun r => is_goods (InvGoods inv) r = false) (inventory d)
  | CAdjust _ inv _ => restates inv d
  | CSell _ _ l | CReback _ _ l | CConfirm _ _ l => typed_lines l
  end.

Definition empty_db : inv_db := MkInvDb [] ∅ [].

Inductive reachable : inv_db -> Prop :=
  | reach_init : reachable empty_db
  | reach_call d c faults :
      reachable d -> admissible c d -> reachable (e_db (run_call c (Env d faults)).2).

Lemma uniq_goods_app rows r :
  uniq_goods rows -> Forall (fun r' => is_goods (InvGoods r) r' = false) rows -> uniq_goods (rows ++ [r]).
Proof.
  unfold uniq_goods. rewrite List.filter_app, fmap_app. intros Hu Hf. apply NoDup_app. split; [done|]. split.
  - intros g Hg%list_elem_of_fmap Hg'. destruct Hg as (r' & -> & Hr').
    apply list_elem_of_In, filter_In in Hr' as [Hr' L']. simpl in Hg'. destruct (live r) eqn:L; [|by inversion Hg'].
    apply list_elem_of_singleton in Hg'. rewrite Forall_forall in Hf.
    specialize (Hf r' ltac:(by apply list_elem_of_In)).
    assert (is_goods (InvGoods r) r' = true) by (by apply is_goods_true). congruence.
  - simpl. destruct (live r); simpl; [apply NoDup_singleton|apply NoDup_nil_2].
Qed.

(** Nothing is booked on a goods that has no row. *)
Lemma booked_fresh d st g :
  ledger_ok d -> st <> stockSellStatusReleased ->
  Forall (fun r => is_goods g r = false) (inventory d) -> booked st g (stockselldetail d) = 0.
Proof.
  intros [Hwf _ Hlines _] Hst Hf. unfold booked.
  rewrite (sumZ_ext _ (fun _ => 0)); [apply sumZ_zero|].
  intros [k rec] Hk%elem_of_map_to_list. simpl. unfold held.
  destruct (Z.eqb_spec (Status rec) st) as [E|]; [|done].
  specialize (Hlines _ _ Hk ltac:(by rewrite E)). unfold qty. rewrite (sumZ_ext _ (fun _ => 0)); [apply sumZ_zero|].
  intros x Hx. destruct (Z.eqb_spec (line_goods x) g) as [Eg|]; [|done]. exfalso.
  rewrite Forall_forall in Hlines. rewrite Forall_forall in Hf. specialize (Hlines x Hx). apply Exists_exists in Hlines as (r & Hr & Hg).
  specialize (Hf r Hr). congruence.
Qed.

Lemma normalize_restates inv d r :
  restates inv d -> inventorys.normalizeInventory (Some inv) = inl r ->
  row_ok r /\ InvGoods r = InvGoods inv /\ Stocks r = Available r /\
  Locked r = booked stockSellStatusReserved (InvGoods r) (stockselldetail d) /\
  Sold r = booked stockSellStatusConfirmed (InvGoods r) (stockselldetail d).
Proof.
  intros (Ht & Hs & EL & ES) Hn. destruct (normalizeInventory_row _ _ Ht Hs Hn) as (Hok & _ & Hg & _).
  assert (Locked r = Locked inv /\ Sold r = Sold inv /\ Stocks r = Available r) as (E1 & E2 & E3).
  { revert Hn. unfold inventorys.normalizeInventory. repeat (case_match; try done); intros; simplify_eq/=; bprop; lia. }
  rewrite E1, E2, Hg. done.
Qed.

Lemma create_ledger d inv r :
  ledger_ok d -> restates inv d -> Forall (fun r => is_goods (InvGoods inv) r = false) (inventory d) ->
  inventorys.normalizeInventory (Some inv) = inl r ->
  ledger_ok (set_inventory (inventory d ++
    [MkInventoryDO (next_id ID (inventory d)) false (InvGoods r) (Stocks r) (Total r) (Available r) (Locked r) (Sold r)
       (Version r)]) d).
Proof.
  intros Hd Hres Hf Hn. destruct (normalize_restates _ _ _ Hres Hn) as (Hok & Hg & _ & E1 & E2).
  rewrite <- Hg in Hf. pose proof Hd as [[Hu Ho Hr] Hrows Hlines Hids]. split; [split|..]; simpl.
  - by apply uniq_goods_app.
  - apply Forall_app. split; [done|]. constructor; [|done]. intros _. done.
  - done.
  - apply Forall_app. split; [done|]. constructor; [|done]. intros _. simpl. done.
  - eapply map_Forall_impl; [exact Hlines|]. intros k rec H1 Hst. eapply Forall_impl; [by apply H1|].
    intros x Hx. apply Exists_app. by left.
  - rewrite fmap_app. apply NoDup_snoc; [done|]. apply max_id_fresh.
Qed.

(** The row of the goods is written over; the others, which have other ids, stay. *)
Lemma adjust_ledger d inv r current :
  ledger_ok d -> restates inv d -> inventorys.normalizeInventory (Some inv) = inl r ->
  find (is_goods (InvGoods r)) (inventory d) = Some current ->
  ledger_ok (set_inventory ((fun x => if negb (DeletedAt x) && (ID x =? ID current) then inventorys.adjust_row r x else x)
    <$> inventory d) d).
Proof.
  intros Hd Hres Hn Hf. destruct (normalize_restates _ _ _ Hres Hn) as (Hok & Hg & Es & E1 & E2).
  pose proof Hd as [[Hu Ho Hr] Hrows Hlines Hids].
  apply find_some in Hf as [Hin Hgoods]. apply list_elem_of_In in Hin.
  set (f := fun x => if negb (DeletedAt x) && (ID x =? ID current) then inventorys.adjust_row r x else x).
  assert (forall x, InvGoods (f x) = InvGoods x /\ DeletedAt (f x) = DeletedAt x /\ ID (f x) = ID x) as Hkeep
    by (intros x; unfold f; by case_match).
  assert (forall x, live (f x) = live x) as Hlive by (intros x; unfold live; by rewrite (proj1 (proj2 (Hkeep x)))).
  assert (forall x, x ∈ inventory d -> f x = x \/ x = current) as Hcase.
  { intros x Hx. unfold f. destruct (DeletedAt x); [by left|]. cbn. destruct (Z.eqb_spec (ID x) (ID current)); [right|by left].
    by apply (NoDup_fmap_eq ID (inventory d)). }
  assert (f current = inventorys.adjust_row r current /\ InvGoods current = InvGoods r) as [Ec Eg].
  { unfold is_goods in Hgoods. apply andb_true_iff in Hgoods as [Hdel Eg]. unfold f. rewrite Hdel, Z.eqb_refl. split; [done|blia]. }
  assert (row_ok (inventorys.adjust_row r current)) as Hok' by (destruct Hok as (?&?&?&?&?); unfold row_ok; cbn; lia).
  split; [split|..]; cbn [inventory set_inventory stockselldetail].
  - unfold uniq_goods. assert (InvGoods <$> List.filter live (f <$> inventory d) = InvGoods <$> List.filter live (inventory d)) as ->;
      [|done].
    clear -Hlive Hkeep. induction (inventory d) as [|x l IH]; [done|]. rewrite fmap_cons. cbn [List.filter]. rewrite Hlive.
    destruct (live x); [|done]. rewrite !fmap_cons, IH. by rewrite (proj1 (Hkeep x)).
  - rewrite Forall_fmap. rewrite Forall_forall in Ho |- *. intros x Hx. cbn. rewrite Hlive. intros L.
    destruct (Hcase x Hx) as [->| ->]; [by apply Ho|by rewrite Ec].
  - done.
  - rewrite Forall_fmap. rewrite Forall_forall in Hrows |- *. intros x Hx. cbn. rewrite Hlive. intros L.
    destruct (Hcase x Hx) as [->| ->]; [by apply Hrows|]. rewrite Ec. cbn. by rewrite Eg.
  - eapply map_Forall_impl; [exact Hlines|]. intros k rec H1 Hst. eapply Forall_impl; [by apply H1|].
    intros y. rewrite !Exists_exists. intros (x & Hx & Hy). exists (f x). split; [by apply list_elem_of_fmap_2|].
    unfold is_goods in *. destruct (Hkeep x) as (-> & -> & _). done.
  - rewrite <- list_fmap_compose. erewrite list_fmap_ext; [exact Hids|]. intros i x _. apply Hkeep.
Qed.

(** A call that keeps the ledger when it returns keeps it in every case. *)
Lemma atomic_keeps (P : inv_db -> Prop) {A} (m : M inv_db A) s :
  atomic m -> P (e_db s) -> (forall a s', m s = (Ret a, s') -> P (e_db s')) -> P (e_db (m s).2).
Proof.
  intros Ha Hp Hr. specialize (Ha s). destruct (m s) as [[a|e|p] s'] eqn:E; simpl in *; [by eapply Hr|..];
    by rewrite Ha.
Qed.

Lemma reachable_ledger d : reachable d -> ledger_ok d.
Proof.
  induction 1 as [|d c faults _ Hd Hc].
  { split; [split|..]; simpl; [apply NoDup_nil_2|done|apply map_Forall_empty|done|apply map_Forall_empty|apply NoDup_nil_2]. }
  destruct c as [inv|now inv audit|lock sn l|lock sn l|lock sn l]; cbn [run_call admissible] in *;
    (apply atomic_keeps; [|exact Hd|intros a s' H]).
  - apply atomic_Create.
  - destruct Hc as (Ht & HL & HS & Hf). apply inv_Create_Ret in H as (i & r & [= <-] & Hn & ->).
    eapply create_ledger; [done| |done|done]. unfold restates. rewrite HL, HS, !booked_fresh by done.
    split; [done|]. destruct Ht as (_&_&Ha&_). unfold_int. lia.
  - apply atomic_Adjust.
  - apply Adjust_Ret in H as (r & rows & Hn & E & Hrows). simpl in Hrows, E.
    assert (ledger_ok (set_inventory rows d)) as [[? ? ?] ? ? ?].
    { destruct (find _ _) as [current|] eqn:Hf; rewrite Hrows; [by eapply adjust_ledger|].
      eapply create_ledger; [done|done| |done]. apply normalize_restates with (1 := Hc) in Hn as (_ & <- & _).
      apply Forall_forall. intros x Hx%list_elem_of_In. by apply (find_none _ _ Hf). }
    destruct E as [E1 E2]. split; [split|..]; by rewrite ?E1, ?E2.
  - apply atomic_Sell.
  - apply Sell_Ret in H; [|apply Hd]. by eapply spec_sell_ledger.
  - apply atomic_Reback.
  - apply Reback_Ret in H; [|apply Hd]. by eapply spec_release_ledger.
  - apply atomic_Confirm.
  - apply Confirm_Ret in H; [|apply Hd]. by eapply spec_confirm_ledger.
Qed.


Lemma demo_reachable0 : reachable demo_db0.
Proof.
  assert (reachable (MkInvDb [MkInventoryDO 1 false 7 50 50 50 0 0 0] ∅ [])) as H.
  { apply (reach_call _ (CCreate (MkInventoryDO 0 false 7 50 0 0 0 0 0)) [] reach_init).
    split_and!; simpl; try done; unfold typed_row; unfold_int; simpl; lia. }
  apply (reach_call _ (CCreate (MkInventoryDO 0 false 8 5 0 0 0 0 0)) [] H).
  split_and!; simpl; try done; [..|by repeat constructor]; unfold typed_row; unfold_int; simpl; lia.
Qed.

Lemma demo_reachable1 : reachable demo_db1.
Proof. apply (reach_call _ (CSell None "A1" demo_lines) [] demo_reachable0). apply demo_typed. Qed.

(** A recount that finds ten more of goods 7 while an order holds three. *)
Definition demo_db2 : inv_db :=
  e_db (Adjust 5 (Some (MkInventoryDO 0 false 7 0 60 57 3 0 0)) (Some (MkInventoryAdjustmentDO 0 0 0 0 9 "c-1" "r-1" "recount" 0))
          (Env demo_db1 [])).2.
Lemma demo_reachable2 : reachable demo_db2.
Proof.
  apply (reach_call demo_db1 (CAdjust 5 (MkInventoryDO 0 false 7 0 60 57 3 0 0)
    (Some (MkInventoryAdjustmentDO 0 0 0 0 9 "c-1" "r-1" "recount" 0))) [] demo_reachable1).
  split; [unfold typed_row; unfold_int; simpl; lia|]. split; [unfold_int; simpl; lia|]. split; vm_compute; reflexivity.
Qed.


(** ** Progress *)


