(* ===== verification/InventoryProperties.v ===== *)
(** * What the reservation protocol guarantees its callers

    The properties a saga relies on: settling undoes or completes a reservation,
    repeated, late and crossed calls do nothing, a record only moves forward, and
    quantities are neither made nor lost.  The last section holds what the code
    leaves to its callers. *)
From S2P Require Import Prelude GoStrings Errors GoMonad InventoryModel InventoryStore InventoryService.
From S2P Require Import InventoryStock InventoryProtocol InventoryLedger.
Import InvDo inventoryService.
Open Scope go_scope.

(** ** Compensation *)

Lemma reduce_increase n r : inventorys.increase_row n (inventorys.reduce_row n r) = r.
Proof. destruct r. unfold inventorys.increase_row, inventorys.reduce_row. simpl. f_equal; lia. Qed.

Lemma release_undoes_reserve l (rows : list InventoryDO) :
  move_lines inventorys.increase_row l <$> (move_lines inventorys.reduce_row l <$> rows) = rows.
Proof.
  rewrite <- list_fmap_compose. rewrite (list_fmap_ext _ id), list_fmap_id; [done|].
  intros i r _. simpl. unfold move_lines. destruct (live r) eqn:L; [|by rewrite L].
  unfold live in *. simpl. rewrite L. apply reduce_increase.
Qed.

(** What was just taken from [available] can be given back. *)
Lemma reserve_covers l rows :
  Forall (fun r => live r = true -> row_ok r) rows -> covered Available l rows ->
  covered Locked l (move_lines inventorys.reduce_row l <$> rows).
Proof.
  intros Hok [H1 _]. split; [by apply (lines_have_rows _ Available)|].
  rewrite Forall_fmap. rewrite Forall_forall in Hok |- *. intros r Hr. simpl.
  rewrite (move_lines_live inventorys.reduce_row Available), (move_lines_goods inventorys.reduce_row Available).
  intros L. destruct (Hok r Hr L) as (_ & _ & ? & _). unfold move_lines. rewrite L. simpl. lia.
Qed.

(** Releasing a fresh reservation restores every row of the inventory, from
    any well-formed tables and whatever lines the release call itself names. *)
Theorem Sell_Release_restores d s1 sn l l' :
  inv_ok d -> typed_lines l -> typed_lines l' -> TrimSpace sn = sn ->
  validateStockOperation sn l' = None -> stockselldetail d !! sn = None ->
  Sell None sn l (Env d []) = (Ret tt, s1) ->
  exists s2, Release None sn l' s1 = (Ret tt, s2) /\ inventory (e_db s2) = inventory d.
Proof.
  intros Hok Ht Ht' Htrim Hv' Hn H. pose proof (Sell_Ret None sn l (Env d []) _ _ Hok H) as Hs.
  simpl in Hs. unfold spec_sell in Hs. rewrite Htrim, Hn in Hs.
  destruct (validateStockOperation sn l) eqn:Hv; [done|].
  destruct (decide _) as [(Hc & Hw & _)|]; [|done]. injection Hs as Hs.
  assert (s1 = Env (e_db s1) []) as ->.
  { destruct (Sell_clean sn l d Hok Ht (e_db s1)) as [[] E]; [|by rewrite H in E; injection E].
    unfold spec_sell. by rewrite Hv, Htrim, Hn, decide_True, Hs. }
  rewrite <- Hs. set (d1 := put_record _ _). simpl in Hs.
  assert (inv_ok d1) as Hok1.
  { apply (move_stock_ok _ Available); [done|by eapply lines_pos, validate_lines_ok|done|].
    apply record_ok_new; tauto. }
  assert (covered Locked (sort_details l) (inventory d1)) as Hc1.
  { apply (covered_perm Locked l); [symmetry; apply sort_details_perm|]. apply reserve_covers; [apply Hok|done]. }
  edestruct (Reback_clean sn l' d1 Hok1 Ht') as [[] E].
  { unfold spec_release. rewrite Hv', Htrim. unfold d1 at 1. simpl. rewrite lookup_insert_eq. simpl.
    rewrite decide_True by done. reflexivity. }
  eexists. split; [exact E|]. simpl. rewrite <- (release_undoes_reserve l (inventory d)) at 2.
  apply list_fmap_ext. intros i r _. unfold move_lines. by rewrite qty_sort.
Qed.

Lemma Sell_Release_restores_witness :
  exists s2, Release None "A1" [MkGoodsDetail 7 1] (Env demo_db1 []) = (Ret tt, s2)
    /\ inventory (e_db s2) = inventory demo_db0.
Proof.
  apply (Sell_Release_restores demo_db0 (Env demo_db1 []) "A1" demo_lines [MkGoodsDetail 7 1]).
  - apply demo_ok0.
  - apply demo_typed.
  - repeat constructor; simpl; unfold_int; lia.
  - vm_compute. reflexivity.
  - vm_compute. reflexivity.
  - vm_compute. reflexivity.
  - vm_compute. reflexivity.
Defined.

(** ** Repeated, late and crossed calls *)

Inductive order_op := OpSell | OpRelease | OpConfirm.
Definition run_op (op : order_op) (lock : option goerr) : string -> list GoodsDetail -> M inv_db unit :=
  match op with OpSell => Sell lock | OpRelease => Release lock | OpConfirm => Confirm lock end.
Definition spec_op (op : order_op) : string -> list GoodsDetail -> inv_db -> option inv_db :=
  match op with OpSell => spec_sell | OpRelease => spec_release | OpConfirm => spec_confirm end.

Lemma atomic_op op lock sn l : atomic (run_op op lock sn l).
Proof. destruct op; [apply atomic_Sell|apply atomic_Reback|apply atomic_Confirm]. Qed.

Lemma op_Ret op lock sn l s u s' :
  inv_ok (e_db s) -> run_op op lock sn l s = (Ret u, s') -> spec_op op sn l (e_db s) = Some (e_db s').
Proof. destruct op; [apply Sell_Ret|apply Reback_Ret|apply Confirm_Ret]. Qed.

(** A settled order answers every valid request with success and no effect. *)
Lemma spec_op_settled op sn l d rec :
  validateStockOperation sn l = None -> stockselldetail d !! TrimSpace sn = Some rec ->
  Status rec <> stockSellStatusReserved \/ op = OpSell -> spec_op op sn l d = Some d.
Proof.
  intros Hv Hl Hs. destruct op; simpl; unfold spec_sell, spec_release, spec_confirm; rewrite Hv, Hl; [done|..];
    (destruct (Z.eqb_spec (Status rec) stockSellStatusReserved); [|done]); destruct Hs; done.
Qed.

Lemma op_clean op sn l d d' :
  inv_ok d -> typed_lines l -> spec_op op sn l d = Some d' ->
  run_op op None sn l (Env d []) = (Ret tt, Env d' []).
Proof.
  intros Hok Ht H. destruct op; simpl in *;
    [destruct (Sell_clean sn l d Hok Ht _ H) as [[] E]
    |destruct (Reback_clean sn l d Hok Ht _ H) as [[] E]
    |destruct (Confirm_clean sn l d Hok Ht _ H) as [[] E]]; exact E.
Qed.

(** Every operation is idempotent, and no operation has an effect on an order
    that is already released or confirmed: once a call has returned, any later
    call for the order other than the settling of a reservation succeeds and
    leaves the tables alone (even if statements fail, it leaves them alone). *)
Theorem settled_orders_absorb op sn l d rec faults :
  inv_ok d -> typed_lines l -> validateStockOperation sn l = None ->
  stockselldetail d !! TrimSpace sn = Some rec -> Status rec <> stockSellStatusReserved \/ op = OpSell ->
  e_db (run_op op None sn l (Env d faults)).2 = d /\ run_op op None sn l (Env d []) = (Ret tt, Env d []).
Proof.
  intros Hok Ht Hv Hl Hs. pose proof (spec_op_settled op sn l d rec Hv Hl Hs) as Hspec. split.
  - apply (atomic_keeps (fun d' => d' = d)); [apply atomic_op|done|].
    intros a s' H%op_Ret; [simpl in H; congruence|done].
  - by apply op_clean.
Qed.

Lemma settled_orders_absorb_witness :
  exists d, d = e_db (Release None "A2" demo_lines (Env demo_db0 [])).2 /\
    Sell None "A2" demo_lines (Env d []) = (Ret tt, Env d []).
Proof.
  eexists. split; [reflexivity|].
  eapply (settled_orders_absorb OpSell "A2" demo_lines _ (MkStockSellDetailDO "A2" 2 (sort_details demo_lines)) []).
  - apply inv_okb_ok. vm_compute. reflexivity.
  - apply demo_typed.
  - vm_compute. reflexivity.
  - vm_compute. reflexivity.
  - by right.
Defined.

(** A release that overtakes its [Sell] wins: after [Release] of an order the
    tables do not know, whatever calls for that order follow, in any order and with
    any faults, the stock stays as it was (no stock is left locked by the [Sell]
    that arrives late). *)
Theorem release_before_sell sn l d s1 (later : list (order_op * list GoodsDetail * list (option string))) :
  inv_ok d -> typed_lines l -> TrimSpace sn = sn -> stockselldetail d !! sn = None ->
  Forall (fun c => typed_lines c.1.2) later ->
  Release None sn l (Env d []) = (Ret tt, s1) ->
  inventory (fold_left (fun d c => e_db (run_op c.1.1 None sn c.1.2 (Env d c.2)).2) later (e_db s1)) = inventory d.
Proof.
  intros Hok Ht Htrim Hn Hlater H. pose proof (Reback_Ret None sn l (Env d []) _ _ Hok H) as Hs. simpl in Hs.
  unfold spec_release in Hs. rewrite Htrim, Hn in Hs. destruct (validateStockOperation sn l) eqn:Hv; [done|].
  destruct (decide _) as [Hw|]; [|done]. injection Hs as Hs. rewrite <- Hs. clear H Hs s1.
  set (rec := MkStockSellDetailDO sn stockSellStatusReleased (sort_details l)).
  assert (inv_ok (put_record rec d)) as Hok1.
  { destruct Hok as [Hu Ho Hr]. split; [done..|]. simpl. apply map_Forall_insert_2; [apply record_ok_new; tauto|done]. }
  replace (inventory d) with (inventory (put_record rec d)) by done. f_equal.
  induction Hlater as [|[[op lc] faults] later Hc _ IH]; simpl; [done|].
  assert (e_db (run_op op None sn lc (Env (put_record rec d) faults)).2 = put_record rec d) as ->; [|done].
  destruct (validateStockOperation sn lc) eqn:Hvc.
  - apply (atomic_keeps (fun d' => d' = put_record rec d)); [apply atomic_op|done|].
    intros a s' E%op_Ret; [|done]. destruct op; simpl in E; unfold spec_sell, spec_release, spec_confirm in E;
      by rewrite Hvc in E.
  - apply (atomic_keeps (fun d' => d' = put_record rec d)); [apply atomic_op|done|].
    intros a s' E%op_Ret; [|done]. simpl in E.
    rewrite (spec_op_settled op sn lc _ rec) in E; [congruence|done| |by left].
    simpl. rewrite Htrim. apply lookup_insert_eq.
Qed.

Lemma release_before_sell_witness :
  inventory (e_db (Sell None "A3" demo_lines
    (Env (e_db (Release None "A3" demo_lines (Env demo_db0 [])).2) [])).2) = inventory demo_db0.
Proof.
  apply (release_before_sell "A3" demo_lines demo_db0 (Release None "A3" demo_lines (Env demo_db0 [])).2
    [(OpSell, demo_lines, [])]).
  - apply demo_ok0.
  - apply demo_typed.
  - vm_compute. reflexivity.
  - vm_compute. reflexivity.
  - constructor; [apply demo_typed|constructor].
  - vm_compute. reflexivity.
Defined.

(** ** Records move forward only *)

(** A record keeps its order and lines, and its status only goes from reserved to
    released or confirmed. *)
Definition forward (rec rec' : StockSellDetailDO) : Prop :=
  rec' = rec \/ Status rec = stockSellStatusReserved /\
    (rec' = with_status stockSellStatusReleased rec \/ rec' = with_status stockSellStatusConfirmed rec).

Lemma put_record_forward rec0 rec' d k rec :
  (stockselldetail d !! OrderSn rec' = None \/ stockselldetail d !! OrderSn rec' = Some rec0 /\ forward rec0 rec') ->
  stockselldetail d !! k = Some rec ->
  exists rec1, stockselldetail (put_record rec' d) !! k = Some rec1 /\ forward rec rec1.
Proof.
  intros Hc Hk. simpl. destruct (decide (k = OrderSn rec')) as [->|Hne].
  - rewrite lookup_insert_eq. destruct Hc as [?|[? Hf]]; simplify_eq. eauto.
  - rewrite lookup_insert_ne by done. exists rec. split; [done|by left].
Qed.

Lemma spec_op_forward op sn l d d' k rec :
  inv_ok d -> spec_op op sn l d = Some d' -> stockselldetail d !! k = Some rec ->
  exists rec', stockselldetail d' !! k = Some rec' /\ forward rec rec'.
Proof.
  intros Hok H Hk. assert (exists rec', stockselldetail d !! k = Some rec' /\ forward rec rec') as Hsame.
  { exists rec. split; [done|by left]. }
  destruct op; simpl in H; unfold spec_sell, spec_release, spec_confirm in H;
    destruct (validateStockOperation sn l); try done;
    destruct (stockselldetail d !! TrimSpace sn) as [rec0|] eqn:E0; simplify_eq; try done.
  - destruct (decide _) as [(_ & _ & Hn)|]; simplify_eq.
    apply (put_record_forward rec _ (move_stock inventorys.reduce_row l d)); [by left|done].
  - destruct (Z.eqb_spec (Status rec0) stockSellStatusReserved); simplify_eq; [|done].
    destruct (decide _); simplify_eq. destruct (ok_records _ Hok _ _ E0) as [Ek _].
    apply (put_record_forward rec0 _ (move_stock inventorys.increase_row (Detail rec0) d)); [|done].
    right. simpl. rewrite Ek. split; [done|right; eauto].
  - destruct (decide _); [|done]. destruct (stockselldetail d !! sn) eqn:Es; simplify_eq; [done|].
    apply (put_record_forward rec _ d); [by left|done].
  - destruct (Z.eqb_spec (Status rec0) stockSellStatusReserved); simplify_eq; [|done].
    destruct (decide _); simplify_eq. destruct (ok_records _ Hok _ _ E0) as [Ek _].
    apply (put_record_forward rec0 _ (move_stock inventorys.confirm_row (Detail rec0) d)); [|done].
    right. simpl. rewrite Ek. split; [done|right; eauto].
Qed.

(** Whatever the call, the lock and the faults, no reservation record ever
    disappears, changes its lines, or moves other than from reserved to released or
    confirmed; released and confirmed are final. *)
Theorem records_move_forward op lock sn l d faults k rec :
  inv_ok d -> stockselldetail d !! k = Some rec ->
  exists rec', stockselldetail (e_db (run_op op lock sn l (Env d faults)).2) !! k = Some rec' /\ forward rec rec'.
Proof.
  intros Hok Hk. apply (atomic_keeps (fun d' => exists rec', stockselldetail d' !! k = Some rec' /\ forward rec rec')).
  - apply atomic_op.
  - exists rec. split; [done|by left].
  - intros a s' H%op_Ret; [|done]. by eapply spec_op_forward.
Qed.

Lemma records_move_forward_witness :
  exists rec', stockselldetail (e_db (Confirm None "A1" demo_lines (Env demo_db1 [None; None; Some "deadlock"])).2)
                 !! "A1" = Some rec'
    /\ forward (MkStockSellDetailDO "A1" 1 [MkGoodsDetail 7 3; MkGoodsDetail 8 1]) rec'.
Proof.
  apply (records_move_forward OpConfirm None "A1" demo_lines demo_db1 [None; None; Some "deadlock"] "A1").
  - apply demo_ok1.
  - vm_compute. reflexivity.
Defined.

(** ** Conservation *)

(** What no order call touches: a row's identity, its total, the sum of its parts
    and the gap between [stocks] and [available]. *)
Definition frame (r : InventoryDO) : Z * bool * Z * Z * Z * Z * Z :=
  (ID r, DeletedAt r, InvGoods r, Total r, Available r + Locked r + Sold r, Stocks r - Available r, Version r).

Definition conserved (d d' : inv_db) : Prop :=
  frame <$> inventory d' = frame <$> inventory d /\ adjustment_logs d' = adjustment_logs d.

#[export] Instance conserved_preorder : PreOrder conserved.
Proof.
  split; [by intros d|]. intros d1 d2 d3 [H1 H2] [H3 H4]. split; congruence.
Qed.

Lemma conserved_update p f :
  (forall r, frame (f r) = frame r) -> steps conserved (update_inventory p f).
Proof.
  intros Hf. apply steps_stmt; [exact _|]. intros d. case_match; simpl; [|done]. split; [|done]. simpl.
  rewrite <- list_fmap_compose. apply list_fmap_ext. intros i r _. simpl. by destruct (p r).
Qed.

Lemma conserved_records {A} (f : inv_db -> outcome A * inv_db) :
  (forall d, inventory (f d).2 = inventory d /\ adjustment_logs (f d).2 = adjustment_logs d) ->
  steps conserved (stmt f).
Proof. intros H. apply steps_stmt; [exact _|]. intros d. destruct (H d) as [H1 H2]. split; congruence. Qed.

Ltac conserve :=
  steps_go; try (apply conserved_records; intros d; repeat case_match; done).

Ltac frame_eq :=
  intros []; unfold frame; simpl; repeat (match goal with |- (_, _) = (_, _) => f_equal end); lia.

Lemma conserved_read op sn : steps conserved (get_detail op sn).
Proof. unfold get_detail, find_sell_detail. conserve. Qed.
Lemma conserved_create rec : steps conserved (inventorys.CreateStockSellDetail rec).
Proof. unfold inventorys.CreateStockSellDetail, insert_sell_detail. conserve. Qed.
Lemma conserved_create_absent rec : steps conserved (inventorys.CreateStockSellDetailIfAbsent rec).
Proof. unfold inventorys.CreateStockSellDetailIfAbsent, insert_sell_detail_or_nothing. conserve. Qed.
Lemma conserved_status sn st : steps conserved (inventorys.UpdateStockSellDetailStatus sn st).
Proof. unfold inventorys.UpdateStockSellDetailStatus, update_sell_status. conserve. Qed.
Lemma conserved_Reduce g n : steps conserved (inventorys.Reduce g n).
Proof. unfold inventorys.Reduce. steps_go. apply conserved_update. frame_eq. Qed.
Lemma conserved_Increase g n : steps conserved (inventorys.Increase g n).
Proof. unfold inventorys.Increase. steps_go. apply conserved_update. frame_eq. Qed.
Lemma conserved_ConfirmSell g n : steps conserved (inventorys.ConfirmSell g n).
Proof. unfold inventorys.ConfirmSell. steps_go. apply conserved_update. frame_eq. Qed.

Ltac conserve_op :=
  repeat (steps_step ||
    lazymatch goal with
    | |- steps _ (withTxnExecutor _ _) => apply steps_withTxn; [exact _|]
    | |- steps _ (get_detail _ _) => apply conserved_read
    | |- steps _ (inventorys.CreateStockSellDetail _) => apply conserved_create
    | |- steps _ (inventorys.CreateStockSellDetailIfAbsent _) => apply conserved_create_absent
    | |- steps _ (inventorys.UpdateStockSellDetailStatus _ _) => apply conserved_status
    | |- steps _ (inventorys.Reduce _ _) => apply conserved_Reduce
    | |- steps _ (inventorys.Increase _ _) => apply conserved_Increase
    | |- steps _ (inventorys.ConfirmSell _ _) => apply conserved_ConfirmSell
    end).

(** No order call makes or loses stock: whatever the tables (duplicate and
    deleted rows included), the lock and the faults, every row keeps its identity,
    its total and the sum [available + locked + sold], and the adjustment log is
    untouched. *)
Theorem order_calls_conserve op lock sn l d faults :
  conserved d (e_db (run_op op lock sn l (Env d faults)).2).
Proof.
  assert (steps conserved (run_op op lock sn l)) as H; [|apply (H (Env d faults))].
  destruct op; cbn [run_op]; unfold Sell, Release, Reback, Confirm;
    rewrite ?GetSellDetail_eq, ?GetSellDetailForUpdate_eq; conserve_op.
Qed.

(** ** What is left to the callers *)

(** The sum of the parts is taken in 32 bits, so quantities near the limit pass
    the check with a total below them: the row this request creates has more
    available than its total. *)
Theorem normalizeInventory_overflow :
  exists inv r, typed_row inv /\ inventorys.normalizeInventory (Some inv) = inl r /\
    row_fits r = true /\ Total r < Available r + Locked r + Sold r /\ ~ row_ok r.
Proof.
  exists (MkInventoryDO 0 false 1 0 10 2147483647 1 0 0), (MkInventoryDO 0 false 1 2147483647 10 2147483647 1 0 0).
  split; [unfold typed_row; unfold_int; simpl; lia|].
  split; [vm_compute; reflexivity|]. split; [vm_compute; reflexivity|].
  split; [simpl; lia|]. unfold row_ok. simpl. lia.
Qed.

(** [SetInv] does not look for an existing row, and [Reduce] takes the quantity
    from every live row of the goods: after two creations one sale of 3 is taken
    twice. *)
Theorem duplicate_rows_sold_twice :
  let create := Create (Some (MkInventoryDO 0 false 7 50 0 0 0 0 0)) in
  let d := e_db ((create ;;; create ;;; Sell None "A1" [MkGoodsDetail 7 3]) (Env empty_db [])).2 in
  Locked <$> inventory d = [3; 3] /\ booked stockSellStatusReserved 7 (stockselldetail d) = 3.
Proof. vm_compute. done. Qed.

(** [SetStock] overwrites [locked]; when an adjustment forgets what is reserved,
    the reserved order can be neither released nor confirmed any more. *)
Theorem adjust_blocks_settlement :
  let audit := MkInventoryAdjustmentDO 0 0 0 0 9 "c-1" "r-1" "recount" 0 in
  let d := e_db (Adjust 1 (Some (MkInventoryDO 0 false 7 60 0 0 0 0 0)) (Some audit) (Env demo_db1 [])).2 in
  Release None "A1" demo_lines (Env d []) = (Fail inventorys.inventory_not_found, Env d []) /\
  Confirm None "A1" demo_lines (Env d []) = (Fail inventorys.inventory_not_found, Env d []).
Proof. vm_compute. done. Qed.

Lemma itoa_length z : (1 <= length (explode (itoa z)))%nat.
Proof.
  unfold itoa. assert (forall n, 1 <= length (uint_digits n))%nat as H.
  { intros n. pose proof (uint_digits_nonempty n). destruct (uint_digits n); [done|simpl; lia]. }
  case_match; rewrite ?explode_app, ?length_app, explode_implode; [specialize (H (- z)); lia|apply H].
Qed.

Lemma json_entries_length l : l <> [] -> (20 * length l <= length (json_entries l) + 1)%nat.
Proof.
  assert (forall g, 19 <= length (json_entry g))%nat as He.
  { intros g. unfold json_entry. rewrite !length_app. pose proof (itoa_length (Goods g)).
    pose proof (itoa_length (Num g)).
    change (length (explode "{'Goods':")) with 9%nat. change (length (explode ",'Num':")) with 7%nat.
    change (length (explode "}")) with 1%nat. lia. }
  induction l as [|g [|g' l] IH]; intros Hl; [done|cbn [json_entries length]; specialize (He g); lia|].
  specialize (IH ltac:(done)). specialize (He g).
  change (json_entries (g :: g' :: l)) with (json_entry g ++ explode "," ++ json_entries (g' :: l)).
  rewrite !length_app. change (length (explode ",")) with 1%nat. cbn [length] in *. lia.
Qed.

(** A record holds at most 200 characters of JSON, so a new order of ten or
    more lines is always refused, however much is in stock. *)
Theorem ten_lines_refused lock sn l s :
  (10 <= length l)%nat -> inv_ok (e_db s) -> stockselldetail (e_db s) !! TrimSpace sn = None ->
  is_ret (Sell lock sn l s).1 = false.
Proof.
  intros Hl Hok Hn. destruct (Sell lock sn l s) as [[u|e|p] s'] eqn:E; [|done..]. exfalso.
  apply Sell_Ret in E; [|done]. unfold spec_sell in E. rewrite Hn in E.
  destruct (validateStockOperation sn l); [done|]. destruct (decide _) as [(_ & Hw & _)|]; [|done].
  unfold fits_detail, detail_width in Hw. rewrite Value_length in Hw.
  pose proof (Permutation_length (sort_details_perm l)) as Hp.
  pose proof (json_entries_length (sort_details l)) as Hj.
  assert (sort_details l <> []) as Hne by (intros E'; rewrite E' in Hp; simpl in Hp; lia).
  specialize (Hj Hne). lia.
Qed.

Lemma ten_lines_refused_witness :
  is_ret (Sell None "A9" (replicate 10 (MkGoodsDetail 7 1)) (Env demo_db0 [])).1 = false.
Proof.
  apply (ten_lines_refused None "A9" (replicate 10 (MkGoodsDetail 7 1)) (Env demo_db0 [])).
  - simpl. lia.
  - apply demo_ok0.
  - vm_compute. reflexivity.
Defined.
