(* ===== verification/Tables.v ===== *)
(** * Tables: the SQL statements GORM issues, over a database of lists

    A table is one component of the database, the list of its rows in primary key
    order.  Each statement below is one round trip that the fault schedule can
    fail.  [update_where] returns the rows matched, which for a table with an
    update time is what [RowsAffected] reports. *)
From S2P Require Import Prelude GoStrings Errors GoMonad.
Open Scope go_scope.

(** Access to one table of the database. *)
Record table (D R : Type) := Table { rows : D -> list R; set_rows : list R -> D -> D }.
Arguments Table {D R} _ _.
Arguments rows {D R} _ _.
Arguments set_rows {D R} _ _ _.

Class LawfulTable {D R} (t : table D R) := {
  rows_set : forall l d, rows t (set_rows t l d) = l;
  set_same : forall d, set_rows t (rows t d) d = d
}.

Section Statements.
Context {D R : Type} (t : table D R).

(** [SELECT .. WHERE p ORDER BY id LIMIT 1]; [FOR UPDATE] reads the same row. *)
Definition select_first (p : R -> bool) : M D (option R) := query (fun d => find p (rows t d)).
(** [SELECT .. WHERE p]. *)
Definition select_where (p : R -> bool) : M D (list R) := query (fun d => List.filter p (rows t d)).
(** [SELECT COUNT( * ) .. WHERE p]. *)
Definition count_where (p : R -> bool) : M D Z :=
  query (fun d => Z.of_nat (length (List.filter p (rows t d)))).
(** [INSERT] of a row that may bring its id, an [int]: 0 asks the database for one,
    until the ids run out; [conflict] is the other unique keys. *)
Definition insert_keyed (id : R -> Z) (set_id : Z -> R -> R) (conflict : R -> R -> bool) (row : R) : M D Z :=
  stmt (fun d =>
    let n := if id row =? 0 then 1 + fold_right Z.max 0 (id <$> rows t d) else id row in
    if int32_max <? n then (Fail (Driver "Failed to read auto-increment value"), d)
    else if existsb (fun r => (id r =? n) || conflict r row) (rows t d) then (Fail (Driver "Duplicate entry"), d)
    else (Ret n, set_rows t (rows t d ++ [set_id n row]) d)).
(** [UPDATE .. SET .. WHERE p]. *)
Definition update_where (p : R -> bool) (f : R -> R) : M D Z :=
  stmt (fun d =>
    (Ret (Z.of_nat (length (List.filter p (rows t d)))),
     set_rows t ((fun r => if p r then f r else r) <$> rows t d) d)).
(** [INSERT]: [dup] is the unique keys' conflict with an existing row, [mk] the row
    for the id the database assigns; the result is that id. *)
Definition insert_row (id : R -> Z) (dup : R -> bool) (mk : Z -> R) : M D Z :=
  stmt (fun d =>
    if existsb dup (rows t d) then (Fail (Driver "Duplicate entry"), d)
    else let n := 1 + fold_right Z.max 0 (id <$> rows t d) in
         (Ret n, set_rows t (rows t d ++ [mk n]) d)).
(** [INSERT] of several rows at once. *)
Definition insert_rows (id : R -> Z) (mks : list (Z -> R)) : M D unit :=
  stmt (fun d =>
    let n := 1 + fold_right Z.max 0 (id <$> rows t d) in
    (Ret tt, set_rows t (rows t d ++ imap (fun i mk => mk (n + Z.of_nat i)) mks) d)).
(** [INSERT] of a row that brings its own key, of rows under keys the database
    assigns, and [UPDATE], where [bad] is what the constraints of the schema refuse:
    a duplicate key or a missing parent row. *)
Definition insert_new (bad : D -> bool) (row : R) : M D unit :=
  stmt (fun d => if bad d then (Fail (Driver "constraint fails"), d)
                 else (Ret tt, set_rows t (rows t d ++ [row]) d)).
Definition insert_all (bad : D -> bool) (id : R -> Z) (mks : list (Z -> R)) : M D unit :=
  stmt (fun d =>
    if bad d then (Fail (Driver "constraint fails"), d)
    else let n := 1 + fold_right Z.max 0 (id <$> rows t d) in
         (Ret tt, set_rows t (rows t d ++ imap (fun i mk => mk (n + Z.of_nat i)) mks) d)).
Definition update_checked (bad : D -> bool) (p : R -> bool) (f : R -> R) : M D Z :=
  stmt (fun d =>
    if bad d then (Fail (Driver "constraint fails"), d)
    else (Ret (Z.of_nat (length (List.filter p (rows t d)))),
          set_rows t ((fun r => if p r then f r else r) <$> rows t d) d)).
(** [INSERT .. ON DUPLICATE KEY] that keeps the row already there. *)
Definition insert_or_keep (same : R -> bool) (bad : D -> bool) (row : R) : M D unit :=
  stmt (fun d =>
    if existsb same (rows t d) then (Ret tt, d)
    else if bad d then (Fail (Driver "constraint fails"), d)
    else (Ret tt, set_rows t (rows t d ++ [row]) d)).
(** [DELETE .. WHERE p] on a table without a deletion mark. *)
Definition delete_where (p : R -> bool) : M D Z :=
  stmt (fun d =>
    (Ret (Z.of_nat (length (List.filter p (rows t d)))),
     set_rows t (List.filter (fun r => negb (p r)) (rows t d)) d)).

Lemma select_first_Ret p s o s' :
  select_first p s = (Ret o, s') -> o = find p (rows t (e_db s)) /\ e_db s' = e_db s.
Proof. intros H. exact (query_Ret _ _ _ _ H). Qed.

Lemma select_where_Ret p s l s' :
  select_where p s = (Ret l, s') -> l = List.filter p (rows t (e_db s)) /\ e_db s' = e_db s.
Proof. intros H. exact (query_Ret _ _ _ _ H). Qed.

Lemma update_where_Ret p f s n s' :
  update_where p f s = (Ret n, s') ->
  n = Z.of_nat (length (List.filter p (rows t (e_db s)))) /\
  e_db s' = set_rows t ((fun r => if p r then f r else r) <$> rows t (e_db s)) (e_db s).
Proof. intros H%stmt_Ret. by injection H as <- <-. Qed.

Lemma insert_row_Ret id dup mk s n s' :
  insert_row id dup mk s = (Ret n, s') ->
  existsb dup (rows t (e_db s)) = false /\
  n = 1 + fold_right Z.max 0 (id <$> rows t (e_db s)) /\
  e_db s' = set_rows t (rows t (e_db s) ++ [mk n]) (e_db s).
Proof.
  intros H%stmt_Ret. destruct (existsb dup (rows t (e_db s))); [done|]. cbv zeta in H. by injection H as <- <-.
Qed.

Lemma insert_keyed_Ret id set_id conflict row s n s' :
  insert_keyed id set_id conflict row s = (Ret n, s') ->
  n = (if id row =? 0 then 1 + fold_right Z.max 0 (id <$> rows t (e_db s)) else id row) /\
  n <= int32_max /\ existsb (fun r => (id r =? n) || conflict r row) (rows t (e_db s)) = false /\
  e_db s' = set_rows t (rows t (e_db s) ++ [set_id n row]) (e_db s).
Proof.
  intros H%stmt_Ret. cbv zeta in H. destruct (Z.ltb_spec int32_max (if id row =? 0 then 1 + fold_right Z.max 0 (id <$> rows t (e_db s)) else id row)); [done|].
  destruct (existsb _ _) eqn:Hd; [done|]. by injection H as <- <-.
Qed.

Lemma insert_rows_Ret id mks s u s' :
  insert_rows id mks s = (Ret u, s') ->
  e_db s' = set_rows t (rows t (e_db s) ++
    imap (fun i mk => mk (1 + fold_right Z.max 0 (id <$> rows t (e_db s)) + Z.of_nat i)) mks) (e_db s).
Proof. intros H%stmt_Ret. cbv zeta in H. by injection H as _ <-. Qed.

Lemma insert_new_Ret bad row s u s' :
  insert_new bad row s = (Ret u, s') ->
  bad (e_db s) = false /\ e_db s' = set_rows t (rows t (e_db s) ++ [row]) (e_db s).
Proof. intros H%stmt_Ret. destruct (bad (e_db s)); [done|]. by injection H as _ <-. Qed.

Lemma update_checked_Ret bad p f s n s' :
  update_checked bad p f s = (Ret n, s') ->
  bad (e_db s) = false /\ n = Z.of_nat (length (List.filter p (rows t (e_db s)))) /\
  e_db s' = set_rows t ((fun r => if p r then f r else r) <$> rows t (e_db s)) (e_db s).
Proof. intros H%stmt_Ret. destruct (bad (e_db s)); [done|]. by injection H as <- <-. Qed.

Lemma count_where_Ret p s n s' :
  count_where p s = (Ret n, s') -> n = Z.of_nat (length (List.filter p (rows t (e_db s)))) /\ e_db s' = e_db s.
Proof. intros H. exact (query_Ret _ _ _ _ H). Qed.

(** A relation that ignores this table holds across every statement on it. *)
Class Ignores (R' : D -> D -> Prop) := ignores : forall l d, R' d (set_rows t l d).

Section Ignored.
Context (R' : D -> D -> Prop) `{!PreOrder R', !Ignores R'}.
Lemma steps_update_where p f : steps R' (update_where p f).
Proof. apply (steps_stmt R'). intros d. apply ignores. Qed.
Lemma steps_update_checked bad p f : steps R' (update_checked bad p f).
Proof. apply (steps_stmt R'). intros d. destruct (bad d); [done|apply ignores]. Qed.
Lemma steps_insert_row id dup mk : steps R' (insert_row id dup mk).
Proof. apply (steps_stmt R'). intros d. destruct (existsb dup _); [done|apply ignores]. Qed.
Lemma steps_insert_keyed id set_id conflict row : steps R' (insert_keyed id set_id conflict row).
Proof. apply (steps_stmt R'). intros d. cbv zeta. destruct (int32_max <? _); [done|]. destruct (existsb _ _); [done|apply ignores]. Qed.
Lemma steps_insert_rows id mks : steps R' (insert_rows id mks).
Proof. apply (steps_stmt R'). intros d. apply ignores. Qed.
Lemma steps_insert_new bad row : steps R' (insert_new bad row).
Proof. apply (steps_stmt R'). intros d. destruct (bad d); [done|apply ignores]. Qed.
Lemma steps_insert_all bad id mks : steps R' (insert_all bad id mks).
Proof. apply (steps_stmt R'). intros d. destruct (bad d); [done|apply ignores]. Qed.
Lemma steps_insert_or_keep same bad row : steps R' (insert_or_keep same bad row).
Proof. apply (steps_stmt R'). intros d. destruct (existsb same _); [done|]. destruct (bad d); [done|apply ignores]. Qed.
Lemma steps_delete_where p : steps R' (delete_where p).
Proof. apply (steps_stmt R'). intros d. apply ignores. Qed.
End Ignored.

Lemma steps_select_first (R' : D -> D -> Prop) `{!PreOrder R'} p : steps R' (select_first p).
Proof. apply steps_query. exact _. Qed.
Lemma steps_select_where (R' : D -> D -> Prop) `{!PreOrder R'} p : steps R' (select_where p).
Proof. apply steps_query. exact _. Qed.
Lemma steps_count_where (R' : D -> D -> Prop) `{!PreOrder R'} p : steps R' (count_where p).
Proof. apply steps_query. exact _. Qed.
End Statements.

(** ** Runs that leave a table alone *)
Definition same_rows {D R} (t : table D R) (d d' : D) : Prop := rows t d' = rows t d.
#[export] Instance same_rows_pre {D R} (t : table D R) : PreOrder (same_rows t).
Proof. split; [done|]. intros d1 d2 d3. unfold same_rows. congruence. Qed.
#[export] Instance same_rows_ignores {D R R'} (t : table D R) (t' : table D R') :
  (forall l d, rows t (set_rows t' l d) = rows t d) -> Ignores t' (same_rows t).
Proof. intros H l d. apply H. Qed.

(** [stderrors.Is(err, gorm.ErrRecordNotFound)]: the read that found nothing. *)
Definition first_or {D A B} (m : M D (option A)) (none : M D B) (some : A -> M D B) : M D B :=
  o <- m ;; match o with None => none | Some a => some a end.

(** A page of a result: [OFFSET o LIMIT n]; GORM leaves out an offset or a limit
    that is not positive ([Limit] keeps 0 and drops negative values). *)
Definition page {A} (offset limit : Z) (l : list A) : list A :=
  let l := if 0 <? offset then drop (Z.to_nat offset) l else l in
  if 0 <=? limit then take (Z.to_nat limit) l else l.

(** ** Transactions the service opens by hand

    [txn := Begin(); .. txn.Commit()]: [undo] is what the code does with the error
    of a failed step after the rollback, [rescue] the error it makes of a panic it
    recovers. *)
Definition manual_txn {D A} (begin_err commit_err : goerr -> goerr) (undo : goerr -> M D A)
    (rescue : string -> option goerr) (body : M D A) : M D A := fun s =>
  match next_fault s with
  | (Some msg, s0) => (Fail (begin_err (Driver msg)), s0)
  | (None, s0) =>
    match body s0 with
    | (Ret a, s1) => commit (e_db s) a commit_err s1
    | (Fail e, s1) => undo e (rollback (e_db s) s1)
    | (Panic p, s1) =>
      match rescue p with
      | Some e => undo e (rollback (e_db s) s1)
      | None => (Panic p, rollback (e_db s) s1)
      end
    end
  end.

Lemma manual_txn_Ret {D A} b c (undo : goerr -> M D A) rescue (body : M D A) s a s' :
  (forall e s, is_ret (undo e s).1 = false) ->
  manual_txn b c undo rescue body s = (Ret a, s') ->
  exists s0 s1, e_db s0 = e_db s /\ body s0 = (Ret a, s1) /\ e_db s' = e_db s1.
Proof.
  intros Hu. unfold manual_txn. pose proof (next_fault_db s) as E.
  destruct (next_fault s) as [[m|] s0]; simpl in *; [done|].
  destruct (body s0) as [[a'|e|p] s1] eqn:Eb.
  - unfold commit. pose proof (next_fault_db s1) as E1.
    destruct (next_fault s1) as [[m|] s2]; simpl in *; intros; simplify_eq. exists s0, s1. done.
  - intros H. specialize (Hu e (rollback (e_db s) s1)). by rewrite H in Hu.
  - destruct (rescue p) as [e|]; [|done]. intros H. specialize (Hu e (rollback (e_db s) s1)). by rewrite H in Hu.
Qed.

Lemma atomic_manual_txn {D A} b c (undo : goerr -> M D A) rescue (body : M D A) :
  (forall e s, e_db (undo e s).2 = e_db s) -> atomic (manual_txn b c undo rescue body).
Proof.
  intros Hu s. unfold manual_txn, commit. pose proof (next_fault_db s) as E.
  destruct (next_fault s) as [[m|] s0]; simpl in *; [done|].
  destruct (body s0) as [[a'|e|p] s1]; [by destruct (next_fault s1) as [[m|] s2]| |].
  - intros _. by rewrite Hu.
  - destruct (rescue p); [|done]. intros _. by rewrite Hu.
Qed.

Lemma steps_manual_txn {D A} (R : D -> D -> Prop) `{!PreOrder R} b c (undo : goerr -> M D A) rescue (body : M D A) :
  (forall e s, e_db (undo e s).2 = e_db s) -> steps R body -> steps R (manual_txn b c undo rescue body).
Proof.
  intros Hu Hb s. unfold manual_txn, commit. pose proof (next_fault_db s) as E.
  destruct (next_fault s) as [[m|] s0]; simpl in *; rewrite <- E; [done|].
  specialize (Hb s0). destruct (body s0) as [[a'|e|p] s1]; simpl in *.
  - pose proof (next_fault_db s1) as E1. destruct (next_fault s1) as [[m|] s2]; simpl in *; [done|by rewrite E1].
  - by rewrite Hu.
  - destruct (rescue p); [by rewrite Hu|done].
Qed.

(** A statement that fails changes nothing, and neither does what only returns. *)
Lemma atomic_insert_new {D R} (t : table D R) bad row : atomic (insert_new t bad row).
Proof. apply atomic_stmt. intros d. by destruct (bad d). Qed.
Lemma atomic_then {D A B} (m : M D A) (k : A -> M D B) :
  atomic m -> (forall a s, exists b, k a s = (Ret b, s)) -> atomic (bind m k).
Proof.
  intros Hm Hk s. specialize (Hm s). unfold bind. destruct (m s) as [[a|e|p] s']; simpl in *; [|done..].
  destruct (Hk a s') as [b ->]. done.
Qed.

(** ** Running forward

    The same code on a database that answers: a step whose run is known is replaced
    by its result. *)
Section Forward.
Context {D : Type}.

Lemma bind_run {A B} (m : M D A) (k : A -> M D B) s a s1 : m s = (Ret a, s1) -> bind m k s = k a s1.
Proof. unfold bind. by intros ->. Qed.
Lemma bind_Fail {A B} (m : M D A) (k : A -> M D B) s e s1 : m s = (Fail e, s1) -> bind m k s = (Fail e, s1).
Proof. unfold bind. by intros ->. Qed.
Lemma attempt_run {A} (m : M D A) s a s1 : m s = (Ret a, s1) -> attempt m s = (Ret (inl a), s1).
Proof. unfold attempt. by intros ->. Qed.
Lemma attempt_Fail {A} (m : M D A) s e s1 : m s = (Fail e, s1) -> attempt m s = (Ret (inr e), s1).
Proof. unfold attempt. by intros ->. Qed.
Lemma wrap_err_run {A} f (m : M D A) s a s1 : m s = (Ret a, s1) -> wrap_err f m s = (Ret a, s1).
Proof. unfold wrap_err. by intros ->. Qed.
Lemma fail_if_run (b : bool) e (s : env D) : b = false -> fail_if b e s = (Ret tt, s).
Proof. by intros ->. Qed.
Lemma manual_txn_run {A} b c (undo : goerr -> M D A) rescue (body : M D A) d a d' :
  body (Env d []) = (Ret a, Env d' []) -> manual_txn b c undo rescue body (Env d []) = (Ret a, Env d' []).
Proof. unfold manual_txn. simpl. by intros ->. Qed.
Lemma transaction_run {A} (body : M D A) d a d' :
  body (Env d []) = (Ret a, Env d' []) -> transaction body (Env d []) = (Ret a, Env d' []).
Proof. unfold transaction. simpl. by intros ->. Qed.
Lemma query_run {A} (f : D -> A) d : query f (Env d []) = (Ret (f d), Env d []).
Proof. done. Qed.
Lemma update_where_run {R} (t : table D R) p f d :
  update_where t p f (Env d []) =
    (Ret (Z.of_nat (length (List.filter p (rows t d)))),
     Env (set_rows t ((fun r => if p r then f r else r) <$> rows t d) d) []).
Proof. done. Qed.
End Forward.
