(* ===== verification/OrderModel.v ===== *)
(** * Order data: [app/order/srv/internal/domain/do] and its tables

    One module per table row, with the source's field names.  Rows of the tables
    with [gorm.BaseModel] carry the deletion mark GORM filters on.  Times are
    nanoseconds since the epoch. *)
From S2P Require Import Prelude GoStrings Errors GoMonad Tables.

Module OrderGoods.
Record t := mk {
  ID : Z; DeletedAt : bool; Order : Z; Goods : Z; GoodsName : string; GoodsImage : string;
  GoodsPriceFen : Z; Nums : Z
}.
#[global] Instance eq_dec : EqDecision t.
Proof. solve_decision. Defined.
Definition new (goods nums : Z) : t := mk 0 false 0 goods "" "" 0 nums.
End OrderGoods.

Module OrderInfoDO.
Record t := mk {
  ID : Z; CreatedAt : Z; DeletedAt : bool; OrderGoods : list OrderGoods.t; User : Z; OrderSn : string;
  PayType : string; Status : string; TradeNo : string; OrderMountFen : Z; StoreID : string;
  PayTime : option Z; Address : string; SignerName : string; SingerMobile : string; Post : string
}.
#[global] Instance eq_dec : EqDecision t.
Proof. solve_decision. Defined.
(** The zero value with a number and a status. *)
Definition named (sn status : string) : t :=
  mk 0 0 false [] 0 sn "" status "" 0 "" None "" "" "" "".
Definition set_OrderSn (sn : string) (o : t) : t :=
  mk (ID o) (CreatedAt o) (DeletedAt o) (OrderGoods o) (User o) sn (PayType o) (Status o) (TradeNo o)
    (OrderMountFen o) (StoreID o) (PayTime o) (Address o) (SignerName o) (SingerMobile o) (Post o).
Definition set_Status (st : string) (o : t) : t :=
  mk (ID o) (CreatedAt o) (DeletedAt o) (OrderGoods o) (User o) (OrderSn o) (PayType o) st (TradeNo o)
    (OrderMountFen o) (StoreID o) (PayTime o) (Address o) (SignerName o) (SingerMobile o) (Post o).
Definition set_PayTime (pt : option Z) (o : t) : t :=
  mk (ID o) (CreatedAt o) (DeletedAt o) (OrderGoods o) (User o) (OrderSn o) (PayType o) (Status o) (TradeNo o)
    (OrderMountFen o) (StoreID o) pt (Address o) (SignerName o) (SingerMobile o) (Post o).
Definition set_goods (l : list OrderGoods.t) (o : t) : t :=
  mk (ID o) (CreatedAt o) (DeletedAt o) l (User o) (OrderSn o) (PayType o) (Status o) (TradeNo o)
    (OrderMountFen o) (StoreID o) (PayTime o) (Address o) (SignerName o) (SingerMobile o) (Post o).
Definition set_amount (fen : Z) (store : string) (l : list OrderGoods.t) (o : t) : t :=
  mk (ID o) (CreatedAt o) (DeletedAt o) l (User o) (OrderSn o) (PayType o) (Status o) (TradeNo o)
    fen store (PayTime o) (Address o) (SignerName o) (SingerMobile o) (Post o).
Definition set_row (id created : Z) (o : t) : t :=
  mk id created false [] (User o) (OrderSn o) (PayType o) (Status o) (TradeNo o)
    (OrderMountFen o) (StoreID o) (PayTime o) (Address o) (SignerName o) (SingerMobile o) (Post o).
Definition delete (o : t) : t :=
  mk (ID o) (CreatedAt o) true (OrderGoods o) (User o) (OrderSn o) (PayType o) (Status o) (TradeNo o)
    (OrderMountFen o) (StoreID o) (PayTime o) (Address o) (SignerName o) (SingerMobile o) (Post o).
End OrderInfoDO.

Module ShoppingCartDO.
Record t := mk { ID : Z; DeletedAt : bool; User : Z; Goods : Z; Nums : Z; Checked : bool }.
#[global] Instance eq_dec : EqDecision t.
Proof. solve_decision. Defined.
End ShoppingCartDO.

Module OrderStatusLogDO.
Record t := mk {
  ID : Z; OrderID : Z; OrderSn : string; FromStatus : string; ToStatus : string;
  Reason : string; Source : string; Operator : string
}.
#[global] Instance eq_dec : EqDecision t.
Proof. solve_decision. Defined.
End OrderStatusLogDO.

Module PaymentEventDO.
Record t := mk {
  ID : Z; Provider : string; EventID : string; OrderSN : string; TradeNo : string; EventType : string;
  OrderAmountFen : Z; ProviderAmountFen : Z; RefundAmountFen : Z; Status : string;
  ErrorDetail : string; ReceivedAt : Z; CompletedAt : option Z
}.
#[global] Instance eq_dec : EqDecision t.
Proof. solve_decision. Defined.
Definition set_status (st detail : string) (e : t) : t :=
  mk (ID e) (Provider e) (EventID e) (OrderSN e) (TradeNo e) (EventType e) (OrderAmountFen e)
    (ProviderAmountFen e) (RefundAmountFen e) st detail (ReceivedAt e) (CompletedAt e).
Definition set_completed (now : Z) (e : t) : t :=
  mk (ID e) (Provider e) (EventID e) (OrderSN e) (TradeNo e) (EventType e) (OrderAmountFen e)
    (ProviderAmountFen e) (RefundAmountFen e) "completed" "" (ReceivedAt e) (Some now).
End PaymentEventDO.

Module RefundRequestDO.
Record t := mk {
  ID : Z; OrderSN : string; ActorUserID : Z; AmountFen : Z; Reason : string; Status : string;
  Provider : string; ProviderRefundID : string; FailureReason : string; CorrelationID : string;
  CreatedAt : Z; UpdatedAt : Z
}.
#[global] Instance eq_dec : EqDecision t.
Proof. solve_decision. Defined.
(** The columns the workflow updates; [None] leaves one as it is. *)
Definition update (st : string) (provider refund failure : option string) (now : Z) (r : t) : t :=
  mk (ID r) (OrderSN r) (ActorUserID r) (AmountFen r) (Reason r) st (default (Provider r) provider)
    (default (ProviderRefundID r) refund) (default (FailureReason r) failure) (CorrelationID r)
    (CreatedAt r) now.
End RefundRequestDO.

Module RefundOutboxDO.
Record t := mk {
  ID : Z; RefundRequestID : Z; Status : string; Attempts : Z; AvailableAt : Z; LockedAt : option Z;
  LastError : string; CreatedAt : Z; UpdatedAt : Z
}.
#[global] Instance eq_dec : EqDecision t.
Proof. solve_decision. Defined.
Definition update (st : string) (attempts available : Z) (locked : option Z) (err : string) (now : Z) (o : t) : t :=
  mk (ID o) (RefundRequestID o) st attempts available locked err (CreatedAt o) now.
End RefundOutboxDO.

Module RefundJob.
Record t := mk {
  OutboxID : Z; RefundRequestID : Z; OrderSN : string; TradeNo : string; AmountFen : Z;
  Reason : string; CorrelationID : string; Attempts : Z
}.
End RefundJob.

Module PaymentReconciliationRunDO.
Record t := mk {
  ID : Z; Provider : string; WindowStart : Z; WindowEnd : Z; StartedAt : Z; FinishedAt : option Z;
  CheckedCount : Z; MismatchCount : Z; Status : string
}.
End PaymentReconciliationRunDO.

Module PaymentReconciliationItemDO.
Record t := mk {
  ID : Z; RunID : Z; ProviderEventID : string; OrderSN : string; TradeNo : string; EventType : string;
  ProviderAmountFen : Z; LocalAmountFen : Z; Result : string; Detail : string; CreatedAt : Z
}.
End PaymentReconciliationItemDO.

(** ** The database of the order service *)
Record order_db := MkOrderDb {
  orderinfo : list OrderInfoDO.t;
  ordergoods : list OrderGoods.t;
  shoppingcart : list ShoppingCartDO.t;
  order_status_logs : list OrderStatusLogDO.t;
  payment_events : list PaymentEventDO.t;
  order_refund_requests : list RefundRequestDO.t;
  order_refund_outbox : list RefundOutboxDO.t;
  reconciliation_runs : list PaymentReconciliationRunDO.t;
  reconciliation_items : list PaymentReconciliationItemDO.t
}.

Definition t_orderinfo : table order_db OrderInfoDO.t := Table orderinfo (fun l d =>
  MkOrderDb l (ordergoods d) (shoppingcart d) (order_status_logs d) (payment_events d)
    (order_refund_requests d) (order_refund_outbox d) (reconciliation_runs d) (reconciliation_items d)).
Definition t_ordergoods : table order_db OrderGoods.t := Table ordergoods (fun l d =>
  MkOrderDb (orderinfo d) l (shoppingcart d) (order_status_logs d) (payment_events d)
    (order_refund_requests d) (order_refund_outbox d) (reconciliation_runs d) (reconciliation_items d)).
Definition t_shoppingcart : table order_db ShoppingCartDO.t := Table shoppingcart (fun l d =>
  MkOrderDb (orderinfo d) (ordergoods d) l (order_status_logs d) (payment_events d)
    (order_refund_requests d) (order_refund_outbox d) (reconciliation_runs d) (reconciliation_items d)).
Definition t_logs : table order_db OrderStatusLogDO.t := Table order_status_logs (fun l d =>
  MkOrderDb (orderinfo d) (ordergoods d) (shoppingcart d) l (payment_events d)
    (order_refund_requests d) (order_refund_outbox d) (reconciliation_runs d) (reconciliation_items d)).
Definition t_events : table order_db PaymentEventDO.t := Table payment_events (fun l d =>
  MkOrderDb (orderinfo d) (ordergoods d) (shoppingcart d) (order_status_logs d) l
    (order_refund_requests d) (order_refund_outbox d) (reconciliation_runs d) (reconciliation_items d)).
Definition t_refunds : table order_db RefundRequestDO.t := Table order_refund_requests (fun l d =>
  MkOrderDb (orderinfo d) (ordergoods d) (shoppingcart d) (order_status_logs d) (payment_events d)
    l (order_refund_outbox d) (reconciliation_runs d) (reconciliation_items d)).
Definition t_outbox : table order_db RefundOutboxDO.t := Table order_refund_outbox (fun l d =>
  MkOrderDb (orderinfo d) (ordergoods d) (shoppingcart d) (order_status_logs d) (payment_events d)
    (order_refund_requests d) l (reconciliation_runs d) (reconciliation_items d)).
Definition t_runs : table order_db PaymentReconciliationRunDO.t := Table reconciliation_runs (fun l d =>
  MkOrderDb (orderinfo d) (ordergoods d) (shoppingcart d) (order_status_logs d) (payment_events d)
    (order_refund_requests d) (order_refund_outbox d) l (reconciliation_items d)).
Definition t_items : table order_db PaymentReconciliationItemDO.t := Table reconciliation_items (fun l d =>
  MkOrderDb (orderinfo d) (ordergoods d) (shoppingcart d) (order_status_logs d) (payment_events d)
    (order_refund_requests d) (order_refund_outbox d) (reconciliation_runs d) l).

Definition empty_order_db : order_db := MkOrderDb [] [] [] [] [] [] [] [] [].

#[export] Instance t_orderinfo_lawful : LawfulTable t_orderinfo.
Proof. split; [done|by intros []]. Qed.
#[export] Instance t_logs_lawful : LawfulTable t_logs.
Proof. split; [done|by intros []]. Qed.

(** [WHERE order_sn = sn] on live rows. *)
Definition sn_is (sn : string) (o : OrderInfoDO.t) : bool :=
  negb (OrderInfoDO.DeletedAt o) && bool_decide (OrderInfoDO.OrderSn o = sn).
