(* ===== verification/OrderStore.v ===== *)
(** * The order store: [app/order/srv/internal/data/v1/db]

    [order.go], [shopcart.go], [order_status_log.go] and [order_by.go]; the refund
    and reconciliation workflow is in [PaymentStore].  The order in which MySQL
    returns the rows of a query with [ORDER BY] is a parameter ([sql_order]). *)
From S2P Require Import Prelude GoStrings Errors GoMonad Tables OrderModel.
Open Scope go_scope.

(** The error every store method wraps a driver error in. *)
Definition dberr {A} (m : M order_db A) : M order_db A :=
  wrap_err (fun e => WrapDatabase e "database operation") m.

(** [First] inside [db.Transaction(func ..)]: nothing found is an error that goes
    through [WrapDatabase] like any other. *)
Definition must_first {A} (m : M order_db (option A)) : M order_db A := first_or_fail m.

(** ** [order_by.go] *)

Definition orderInfoOrderColumns : gmap string string := list_to_map [
  ("id", "id"); ("user", "user"); ("order_sn", "order_sn"); ("pay_type", "pay_type"); ("status", "status");
  ("trade_no", "trade_no"); ("order_mount", "order_mount_fen"); ("pay_time", "pay_time");
  ("address", "address"); ("signer_name", "signer_name"); ("singer_mobile", "singer_mobile");
  ("post", "post"); ("add_time", "add_time"); ("update_time", "update_time")].
Definition shopCartOrderColumns : gmap string string := list_to_map [
  ("id", "id"); ("user", "user"); ("goods", "goods"); ("nums", "nums"); ("checked", "checked");
  ("add_time", "add_time"); ("update_time", "update_time")].

Definition parseOrderBy (value : string) (allowedColumns : gmap string string) : option (string * bool) :=
  let value := TrimSpace (RemoveAll value "`"%char) in
  if bool_decide (value = "") then None
  else match Fields value with
       | [column] => (fun c => (c, false)) <$> allowedColumns !! ToLower column
       | [column; dir] =>
         match allowedColumns !! ToLower column with
         | None => None
         | Some c =>
           if bool_decide (ToLower dir = "asc") then Some (c, false)
           else if bool_decide (ToLower dir = "desc") then Some (c, true)
           else None
         end
       | _ => None
       end.

(** [applyOrderBy]: the columns added to the query, in order. *)
Definition applyOrderBy (orderBy : list string) (allowedColumns : gmap string string) : list (string * bool) :=
  omap (fun value => parseOrderBy value allowedColumns) orderBy.

(** ** Pagination of [List] *)
Definition list_limit (pageSize : Z) : Z := if pageSize =? 0 then 10 else pageSize.
Definition list_offset (pageNo pageSize : Z) : Z :=
  if 0 <? pageNo then wrap64 ((pageNo - 1) * list_limit pageSize) else 0.

Module orders.
Import OrderInfoDO.

Definition not_found : goerr := newCode ErrOrderNotFound "order not found".

(** [Preload("OrderGoods")] for the rows found. *)
Definition goods_of (d : list OrderGoods.t) (id : Z) : list OrderGoods.t :=
  List.filter (fun g => negb (OrderGoods.DeletedAt g) && (OrderGoods.Order g =? id)) d.
Definition preload (l : list t) : M order_db (list t) :=
  match l with
  | [] => ret []
  | _ => query (fun d => (fun o => set_goods (goods_of (ordergoods d) (ID o)) o) <$> l)
  end.
Definition preload_one (o : t) : M order_db t :=
  query (fun d => set_goods (goods_of (ordergoods d) (ID o)) o).

Definition Get (orderSn : string) : M order_db t :=
  let orderSn := TrimSpace orderSn in
  fail_if (bool_decide (orderSn = "")) not_found ;;;
  first_or (dberr (select_first t_orderinfo (sn_is orderSn)))
    (fail (newCode ErrOrderNotFound "record not found"))
    (fun order => dberr (preload_one order)).

Definition List (sql_order : list (string * bool) -> list t -> list t)
    (userID pageNo pageSize : Z) (orderBy : list string) : M order_db (list t * Z) :=
  if userID =? 0 then ret ([], 0)
  else
    let mine o := negb (DeletedAt o) && (User o =? userID) in
    total <- dberr (count_where t_orderinfo mine) ;;
    found <- dberr (select_where t_orderinfo mine) ;;
    items <- dberr (preload (page (list_offset pageNo pageSize) (list_limit pageSize)
               (sql_order (applyOrderBy orderBy orderInfoOrderColumns) found))) ;;
    ret (items, total).

(** [Create]: the order row, then the rows of its goods; the stored order. *)
Definition Create (now : Z) (order : option t) : M order_db t :=
  match order with
  | None => fail (newCode ErrSubmitOrder "order is required")
  | Some order =>
    let order := set_OrderSn (TrimSpace (OrderSn order)) order in
    fail_if ((User order <=? 0) || bool_decide (OrderSn order = ""))
      (newCode ErrSubmitOrder "user and order_sn are required") ;;;
    dberr (
      id <- insert_row t_orderinfo ID (fun _ => false) (fun id => set_row id now order) ;;
      match OrderGoods order with
      | [] => ret tt
      | goods => insert_rows t_ordergoods OrderGoods.ID ((fun g gid =>
          OrderGoods.mk gid false id (OrderGoods.Goods g) (OrderGoods.GoodsName g)
            (OrderGoods.GoodsImage g) (OrderGoods.GoodsPriceFen g) (OrderGoods.Nums g)) <$> goods)
      end ;;;
      ret (set_goods (OrderGoods order) (set_row id now order)))
  end.

Definition delete_goods (g : OrderGoods.t) : OrderGoods.t :=
  OrderGoods.mk (OrderGoods.ID g) true (OrderGoods.Order g) (OrderGoods.Goods g) (OrderGoods.GoodsName g)
    (OrderGoods.GoodsImage g) (OrderGoods.GoodsPriceFen g) (OrderGoods.Nums g).

Definition DeleteByOrderSn (orderSn : string) : M order_db unit :=
  let orderSn := TrimSpace orderSn in
  if bool_decide (orderSn = "") then ret tt
  else
    first_or (dberr (select_first t_orderinfo (sn_is orderSn))) (ret tt) (fun order =>
      dberr (update_where t_ordergoods
        (fun g => negb (OrderGoods.DeletedAt g) && (OrderGoods.Order g =? ID order)) delete_goods) ;;;
      dberr (update_where t_orderinfo (fun o => negb (DeletedAt o) && (ID o =? ID order)) delete) ;;;
      ret tt).

(** The columns [Update] writes: the status, and what the caller filled in. *)
Definition apply_update (order o : t) : t :=
  mk (ID o) (CreatedAt o) (DeletedAt o) (OrderGoods o) (User o) (OrderSn o)
    (if bool_decide (PayType order = "") then PayType o else PayType order)
    (Status order)
    (if bool_decide (TradeNo order = "") then TradeNo o else TradeNo order)
    (OrderMountFen o) (StoreID o)
    (match PayTime order with Some pt => Some pt | None => PayTime o end)
    (Address o) (SignerName o) (SingerMobile o) (Post o).

(** The rows [Update] addresses: by id when there is one, else by number. *)
Definition update_target (order o : t) : bool :=
  negb (DeletedAt o) &&
  if 0 <? ID order then ID o =? ID order else bool_decide (OrderSn o = OrderSn order).

Definition Update (order : option t) : M order_db unit :=
  match order with
  | None => fail not_found
  | Some order =>
    let order := set_Status (TrimSpace (Status order)) (set_OrderSn (TrimSpace (OrderSn order)) order) in
    fail_if ((ID order <=? 0) && bool_decide (OrderSn order = "")) not_found ;;;
    fail_if (bool_decide (Status order = "")) (newCode ErrOrderStatusInvalid "order status is required") ;;;
    affected <- dberr (update_where t_orderinfo (update_target order) (apply_update order)) ;;
    fail_if (affected =? 0) not_found
  end.

(** [CreateRefundRequest]: the request and the outbox entry that will carry it. *)
Definition CreateRefundRequest (now : Z) (request : option RefundRequestDO.t) : M order_db unit :=
  match request with
  | None => fail (newCode ErrValidation "refund request is invalid")
  | Some r =>
    fail_if (bool_decide (RefundRequestDO.OrderSN r = "") || (RefundRequestDO.ActorUserID r <=? 0)
             || (RefundRequestDO.AmountFen r <=? 0) || bool_decide (RefundRequestDO.Reason r = "")
             || bool_decide (RefundRequestDO.CorrelationID r = ""))
      (newCode ErrValidation "refund request is invalid") ;;;
    id <- dberr (insert_row t_refunds RefundRequestDO.ID
            (fun x => bool_decide (RefundRequestDO.CorrelationID x = RefundRequestDO.CorrelationID r))
            (fun id => RefundRequestDO.mk id (RefundRequestDO.OrderSN r) (RefundRequestDO.ActorUserID r)
               (RefundRequestDO.AmountFen r) (RefundRequestDO.Reason r) (RefundRequestDO.Status r)
               (RefundRequestDO.Provider r) (RefundRequestDO.ProviderRefundID r)
               (RefundRequestDO.FailureReason r) (RefundRequestDO.CorrelationID r)
               (RefundRequestDO.CreatedAt r) (RefundRequestDO.UpdatedAt r))) ;;
    dberr (insert_row t_outbox RefundOutboxDO.ID (fun x => RefundOutboxDO.RefundRequestID x =? id)
             (fun oid => RefundOutboxDO.mk oid id "pending" 0 now None "" now now)) ;;;
    ret tt
  end.

Definition batch_limit (limit : Z) : Z := if limit <=? 0 then 20 else limit.

Definition ListCloseCandidates (statuses : list string) (createdBefore limit : Z) : M order_db (list t) :=
  if bool_decide (statuses = []) then ret []
  else
    found <- dberr (select_where t_orderinfo (fun o =>
               negb (DeletedAt o) && bool_decide (Status o ∈ statuses) && (CreatedAt o <=? createdBefore))) ;;
    dberr (preload (page 0 (batch_limit limit) (go_sort (fun a b => CreatedAt a <? CreatedAt b) found))).

Definition paid_before (paidBefore : Z) (o : t) : bool :=
  match PayTime o with Some pt => pt <=? paidBefore | None => false end.
Definition pay_time_less (a b : t) : bool := default 0 (PayTime a) <? default 0 (PayTime b).

Definition ListFinishCandidates (status : string) (paidBefore limit : Z) : M order_db (list t) :=
  let status := TrimSpace status in
  if bool_decide (status = "") then ret []
  else
    found <- dberr (select_where t_orderinfo (fun o =>
               negb (DeletedAt o) && bool_decide (Status o = status) && paid_before paidBefore o)) ;;
    dberr (preload (page 0 (batch_limit limit) (go_sort pay_time_less found))).
End orders.

(** ** [order_status_log.go] *)
Module orderStatusLogs.
Import OrderStatusLogDO.

Definition Create (entry : option t) : M order_db unit :=
  match entry with
  | None => fail (newCode ErrValidation "order status log is required")
  | Some e =>
    fail_if (bool_decide (TrimSpace (OrderSn e) = "") || bool_decide (TrimSpace (ToStatus e) = ""))
      (newCode ErrValidation "order status log is required") ;;;
    dberr (insert_row t_logs ID (fun _ => false) (fun id =>
      mk id (OrderID e) (OrderSn e) (FromStatus e) (ToStatus e) (Reason e) (Source e) (Operator e))) ;;;
    ret tt
  end.

(** Rows are written in time order, so [add_time asc, id asc] is the id order. *)
Definition ListByOrderSn (orderSn : string) : M order_db (list t) :=
  let orderSn := TrimSpace orderSn in
  fail_if (bool_decide (orderSn = "")) (newCode ErrValidation "order_sn is required") ;;;
  dberr (select_where t_logs (fun e => bool_decide (OrderSn e = orderSn))).
End orderStatusLogs.
