(* ===== verification/CartStore.v ===== *)
(** * The shopping cart store: [app/order/srv/internal/data/v1/db/shopcart.go] *)
From S2P Require Import Prelude GoStrings Errors GoMonad Tables OrderModel OrderStore.
Open Scope go_scope.

Module shopCarts.
Import ShoppingCartDO.

Definition not_found : goerr := newCode ErrShopCartItemNotFound "shop cart item not found".

(** [user = u AND goods = g] on live rows. *)
Definition of_user_goods (u g : Z) (c : t) : bool :=
  negb (DeletedAt c) && (User c =? u) && (Goods c =? g).
Definition delete (c : t) : t := mk (ID c) true (User c) (Goods c) (Nums c) (Checked c).
Definition invalid (c : t) : bool := (User c <=? 0) || (Goods c <=? 0) || (Nums c <=? 0).

(** The error of this delete is returned as the driver gave it. *)
Definition DeleteByGoodsIDs (userID : Z) (goodsIDs : list Z) : M order_db unit :=
  if (userID =? 0) || bool_decide (goodsIDs = []) then ret tt
  else update_where t_shoppingcart (fun c =>
         negb (DeletedAt c) && (User c =? userID) && bool_decide (Goods c ∈ goodsIDs)) delete ;;;
       ret tt.

Definition restore_nums (nums : Z) (c : t) : t :=
  mk (ID c) (DeletedAt c) (User c) (Goods c) (Z.max (Nums c) nums) true.

(** The body of the loop of [RestoreCheckedItems]. *)
Definition restore_item (userID : Z) (item : OrderGoods.t) : M order_db unit :=
  if (OrderGoods.Goods item <=? 0) || (OrderGoods.Nums item <=? 0) then ret tt
  else
    affected <- dberr (update_where t_shoppingcart (of_user_goods userID (OrderGoods.Goods item))
                         (restore_nums (OrderGoods.Nums item))) ;;
    if 0 <? affected then ret tt
    else dberr (insert_row t_shoppingcart ID (fun _ => false) (fun id =>
           mk id false (wrap32 userID) (OrderGoods.Goods item) (OrderGoods.Nums item) true)) ;;;
         ret tt.

Definition RestoreCheckedItems (userID : Z) (items : list OrderGoods.t) : M order_db unit :=
  if userID =? 0 then ret tt else for_each items (restore_item userID).

Definition List (sql_order : list (string * bool) -> list t -> list t)
    (userID : Z) (checked : bool) (pageNo pageSize : Z) (orderBy : list string) : M order_db (list t * Z) :=
  if userID =? 0 then ret ([], 0)
  else
    let mine c := negb (DeletedAt c) && (User c =? userID) && (negb checked || Checked c) in
    total <- dberr (count_where t_shoppingcart mine) ;;
    found <- dberr (select_where t_shoppingcart mine) ;;
    ret (page (list_offset pageNo pageSize) (list_limit pageSize)
           (sql_order (applyOrderBy orderBy shopCartOrderColumns) found), total).

Definition Create (cartItem : option t) : M order_db t :=
  match cartItem with
  | None => fail not_found
  | Some c =>
    fail_if (invalid c) not_found ;;;
    id <- dberr (insert_row t_shoppingcart ID (fun _ => false) (fun id =>
            mk id false (User c) (Goods c) (Nums c) (Checked c))) ;;
    ret (mk id false (User c) (Goods c) (Nums c) (Checked c))
  end.

Definition Get (userID goodsID : Z) : M order_db t :=
  fail_if ((userID =? 0) || (goodsID =? 0)) not_found ;;;
  first_or (dberr (select_first t_shoppingcart (of_user_goods userID goodsID)))
    (fail (newCode ErrShopCartItemNotFound "record not found")) ret.

Definition set_num (item c : t) : t := mk (ID c) (DeletedAt c) (User c) (Goods c) (Nums item) (Checked item).

Definition UpdateNum (cartItem : option t) : M order_db unit :=
  match cartItem with
  | None => fail not_found
  | Some c =>
    fail_if (invalid c) not_found ;;;
    affected <- dberr (update_where t_shoppingcart (of_user_goods (User c) (Goods c)) (set_num c)) ;;
    fail_if (affected =? 0) not_found
  end.

Definition Delete (userID id : Z) : M order_db unit :=
  fail_if ((userID =? 0) || (id =? 0)) not_found ;;;
  affected <- dberr (update_where t_shoppingcart (fun c =>
                negb (DeletedAt c) && (ID c =? id) && (User c =? userID)) delete) ;;
  fail_if (affected =? 0) not_found.

Definition ClearCheck (userID : Z) : M order_db unit :=
  if userID =? 0 then ret tt
  else dberr (update_where t_shoppingcart (fun c => negb (DeletedAt c) && (User c =? userID) && Checked c)
                (fun c => mk (ID c) (DeletedAt c) (User c) (Goods c) (Nums c) false)) ;;;
       ret tt.
End shopCarts.
