(* ===== verification/PaymentStore.v ===== *)
(** * Payments and refunds in the order store: [payment_workflow.go] and the payment
    methods of [order.go] in [app/order/srv/internal/data/v1/db]

    Payment events are recorded once per provider and event id; a refund travels
    through an outbox whose entries are claimed, completed, retried with backoff and
    given up.  Each method is one database transaction; the times it reads are
    arguments. *)
From S2P Require Import Prelude GoStrings Errors GoMonad Tables OrderModel OrderStore.
Open Scope go_scope.

Definition Second : Z := 1000000000.
Definition Minute : Z := 60 * Second.

(** [db.Transaction(..)] with its error wrapped. *)
Definition db_txn {A} (op : string) (m : M order_db A) : M order_db A :=
  wrap_err (fun e => WrapDatabase e op) (transaction m).

Module payments.
Import PaymentEventDO.

Definition OrderStatusRefundPendingDB : string := "REFUND_PENDING".
Definition OrderStatusRefundedDB : string := "REFUNDED".
Definition OrderStatusRefundFailedDB : string := "REFUND_FAILED".

Definition seq (a b : string) : bool := bool_decide (a = b).
Definition invalid_event : goerr := newCode ErrValidation "payment event is invalid".

(** ** Payment events *)

Definition same_event (e e' : t) : bool := seq (Provider e') (Provider e) && seq (EventID e') (EventID e).
Definition by_id (id : Z) (e : t) : bool := ID e =? id.
Definition accept (now fen id : Z) (e : t) : t :=
  mk id (Provider e) (EventID e) (OrderSN e) (TradeNo e) (EventType e) fen (ProviderAmountFen e)
    (RefundAmountFen e) "processing" (ErrorDetail e) now (CompletedAt e).

(** The event as recorded, its order, and whether the caller has to process it. *)
Definition BeginPaymentEvent (now : Z) (event : option t) : M order_db (t * OrderInfoDO.t * bool) :=
  match event with
  | None => fail invalid_event
  | Some event =>
    fail_if (seq (Provider event) "" || seq (EventID event) "" || seq (OrderSN event) ""
             || seq (EventType event) "" || (ProviderAmountFen event <? 0)) invalid_event ;;;
    db_txn "database operation" (
      first_or (select_first t_events (same_event event))
        (order <- must_first (select_first t_orderinfo (sn_is (OrderSN event))) ;;
         let fen := OrderInfoDO.OrderMountFen order in
         id <- insert_row t_events ID (same_event event) (fun id => accept now fen id event) ;;
         ret (accept now fen id event, order, true))
        (fun existing =>
         r <- (if seq (Status existing) "failed"
               then update_where t_events (by_id (ID existing)) (set_status "processing" "") ;;;
                    ret (set_status "processing" "" existing, true)
               else ret (existing, false)) ;;
         order <- must_first (select_first t_orderinfo (sn_is (OrderSN existing))) ;;
         ret (r.1, order, r.2)))
  end.

(** [ORDER BY id DESC LIMIT 1] of an update: the last matching row. *)
Definition last_id (p : RefundRequestDO.t -> bool) (l : list RefundRequestDO.t) : option Z :=
  RefundRequestDO.ID <$> find p (rev l).
Definition open_refund (sn : string) (r : RefundRequestDO.t) : bool :=
  seq (RefundRequestDO.OrderSN r) sn &&
  (seq (RefundRequestDO.Status r) "REFUND_PENDING" || seq (RefundRequestDO.Status r) "PROCESSING").
Definition update_last_refund (p : RefundRequestDO.t -> bool) (f : RefundRequestDO.t -> RefundRequestDO.t)
    : M order_db unit :=
  stmt (fun d =>
    (Ret tt, match last_id p (order_refund_requests d) with
             | None => d
             | Some id => set_rows t_refunds ((fun r => if p r && (RefundRequestDO.ID r =? id) then f r else r)
                            <$> order_refund_requests d) d
             end)).

(** [now] is read once; the refund's update time differs only below the tick. *)
Definition CompletePaymentEvent (now id : Z) (success : bool) (detail : string) : M order_db unit :=
  db_txn "database operation" (
    event <- must_first (select_first t_events (fun e => (ID e =? id) && seq (Status e) "processing")) ;;
    update_where t_events (by_id (ID event))
      (if success then set_completed now else set_status "failed" (TrimSpace detail)) ;;;
    if success && (seq (EventType event) "refund_succeeded" || seq (EventType event) "refund_failed")
    then
      let failed := seq (EventType event) "refund_failed" in
      update_last_refund (open_refund (OrderSN event))
        (RefundRequestDO.update (if failed then "FAILED" else "REFUNDED") (Some (Provider event)) None
           (Some (if failed then "provider reported refund failure" else "")) now)
    else ret tt).

(** The predicate [mismatchSQL]. *)
Definition mismatch_sql (e : t) : bool :=
  (negb (seq (EventType e) "refund_succeeded") && negb (ProviderAmountFen e =? OrderAmountFen e)) ||
  (seq (EventType e) "refund_succeeded" &&
   (negb (RefundAmountFen e =? ProviderAmountFen e) || (OrderAmountFen e <? RefundAmountFen e))).

(** The page, the number of events of the query, the number of mismatches. *)
Definition ListPaymentEvents (orderSN : string) (offset limit : Z) (mismatchesOnly : bool)
    : M order_db (list t * Z * Z) :=
  let mine e := seq orderSN "" || seq (OrderSN e) orderSN in
  let p e := mine e && (negb mismatchesOnly || mismatch_sql e) in
  total <- dberr (count_where t_events p) ;;
  mismatches <- dberr (count_where t_events (fun e => mismatch_sql e && mine e)) ;;
  items <- dberr (select_where t_events p) ;;
  ret (page offset limit (rev items), total, mismatches).

(** ** The refund outbox *)

Definition job_id (id : Z) (o : RefundOutboxDO.t) : bool := RefundOutboxDO.ID o =? id.
Definition refund_id (id : Z) (r : RefundRequestDO.t) : bool := RefundRequestDO.ID r =? id.

(** Entries a worker may take at [now]: waiting ones that are due and have attempts
    left, and ones whose worker has been silent for longer than the lock. *)
Definition claimable (now maxAttempts lockTimeout : Z) (o : RefundOutboxDO.t) : bool :=
  ((RefundOutboxDO.Attempts o <? maxAttempts) && (RefundOutboxDO.AvailableAt o <=? now) &&
   (seq (RefundOutboxDO.Status o) "pending" || seq (RefundOutboxDO.Status o) "retry")) ||
  (seq (RefundOutboxDO.Status o) "processing" &&
   match RefundOutboxDO.LockedAt o with Some l => l <? now - lockTimeout | None => false end).

Definition claim (now : Z) (o : RefundOutboxDO.t) : RefundOutboxDO.t :=
  RefundOutboxDO.update "processing" (RefundOutboxDO.Attempts o + 1) (RefundOutboxDO.AvailableAt o)
    (Some now) (RefundOutboxDO.LastError o) now o.

Definition claim_limit (limit : Z) : Z := if limit <=? 0 then 20 else limit.
Definition claim_attempts (maxAttempts : Z) : Z := if maxAttempts <=? 0 then 8 else maxAttempts.
Definition claim_timeout (lockTimeout : Z) : Z := if lockTimeout <=? 0 then 2 * Minute else lockTimeout.

(** The join of the request with the rows of [orderinfo] that have its number,
    deleted rows included. *)
Definition refund_rows (id : Z) (d : order_db) : list (RefundRequestDO.t * OrderInfoDO.t) :=
  r ← List.filter (refund_id id) (order_refund_requests d);
  (fun o => (r, o)) <$> List.filter (fun o => seq (OrderInfoDO.OrderSn o) (RefundRequestDO.OrderSN r)) (orderinfo d).

Definition ClaimRefundJobs (now limit maxAttempts lockTimeout : Z) : M order_db (list RefundJob.t) :=
  db_txn "database operation" (
    found <- select_where t_outbox (claimable now (claim_attempts maxAttempts) (claim_timeout lockTimeout)) ;;
    map_each (page 0 (claim_limit limit) found) (fun outbox =>
      update_where t_outbox (job_id (RefundOutboxDO.ID outbox)) (claim now) ;;;
      joined <- query (refund_rows (RefundOutboxDO.RefundRequestID outbox)) ;;
      match joined with
      | [(r, o)] =>
        ret (RefundJob.mk (RefundOutboxDO.ID outbox) (RefundRequestDO.ID r) (RefundRequestDO.OrderSN r)
               (OrderInfoDO.TradeNo o) (RefundRequestDO.AmountFen r) (RefundRequestDO.Reason r)
               (RefundRequestDO.CorrelationID r) (RefundOutboxDO.Attempts outbox + 1))
      | _ => fail (Errorf "refund request %d has no order" [itoa (RefundOutboxDO.RefundRequestID outbox)] None)
      end)).

(** [refundFailureDecision]: [None] gives the job up, [Some at] retries it then. *)
Definition refundFailureDecision (attempts maxAttempts now : Z) : option Z :=
  let maxAttempts := claim_attempts maxAttempts in
  if maxAttempts <=? attempts then None
  else Some (now + Z.shiftl 1 (Z.min attempts 10) * Second).

Definition updateRefundOrderStatus (orderSN from to reason : string) : M order_db unit :=
  order <- must_first (select_first t_orderinfo (sn_is orderSN)) ;;
  if seq (OrderInfoDO.Status order) to then ret tt
  else
    fail_if (negb (seq (OrderInfoDO.Status order) from))
      (Errorf "order %s status is %s, expected %s" [orderSN; OrderInfoDO.Status order; from] None) ;;;
    update_where t_orderinfo (fun o => negb (OrderInfoDO.DeletedAt o) && (OrderInfoDO.ID o =? OrderInfoDO.ID order))
      (OrderInfoDO.set_Status to) ;;;
    insert_row t_logs OrderStatusLogDO.ID (fun _ => false) (fun id =>
      OrderStatusLogDO.mk id (OrderInfoDO.ID order) (OrderInfoDO.OrderSn order) from to reason
        "payment.refund.worker" "system") ;;;
    ret tt.

Definition truncatePaymentDetail (value : string) : string :=
  let value := TrimSpace value in
  if (255 <? slength value)%nat then implode (take 255 (explode value)) else value.

Definition set_outbox (id : Z) (f : RefundOutboxDO.t -> RefundOutboxDO.t) : M order_db unit :=
  update_where t_outbox (job_id id) f ;;; ret tt.

(** How a claimed entry is left. *)
Definition job_done (now : Z) (o : RefundOutboxDO.t) : RefundOutboxDO.t :=
  RefundOutboxDO.update "completed" (RefundOutboxDO.Attempts o) (RefundOutboxDO.AvailableAt o) None "" now o.
Definition job_dead (now : Z) (detail : string) (o : RefundOutboxDO.t) : RefundOutboxDO.t :=
  RefundOutboxDO.update "dead" (RefundOutboxDO.Attempts o) (RefundOutboxDO.AvailableAt o) None detail now o.
Definition job_retry (now at_ : Z) (detail : string) (o : RefundOutboxDO.t) : RefundOutboxDO.t :=
  RefundOutboxDO.update "retry" (RefundOutboxDO.Attempts o) at_ None detail now o.
Definition job_revived (now : Z) (o : RefundOutboxDO.t) : RefundOutboxDO.t :=
  RefundOutboxDO.update "retry" 0 now None "" now o.

Definition CompleteRefundJob (now id : Z) (success : bool)
    (provider providerRefundID providerStatus detail : string) (maxAttempts : Z) : M order_db unit :=
  fail_if (id =? 0) (newCode ErrValidation "refund job id is required") ;;;
  db_txn "database operation" (
    outbox <- must_first (select_first t_outbox (fun o =>
                job_id id o && seq (RefundOutboxDO.Status o) "processing")) ;;
    let rid := RefundOutboxDO.RefundRequestID outbox in
    if success then
      let refunded := EqualFold providerStatus "refunded" || EqualFold providerStatus "succeeded" in
      update_where t_refunds (refund_id rid)
        (RefundRequestDO.update (if refunded then "REFUNDED" else "PROCESSING") (Some provider)
           (Some providerRefundID) (Some "") now) ;;;
      refund <- must_first (select_first t_refunds (refund_id rid)) ;;
      (if refunded
       then updateRefundOrderStatus (RefundRequestDO.OrderSN refund) OrderStatusRefundPendingDB
              OrderStatusRefundedDB "provider refund completed"
       else ret tt) ;;;
      set_outbox (RefundOutboxDO.ID outbox) (job_done now)
    else
      let detail := truncatePaymentDetail detail in
      match refundFailureDecision (RefundOutboxDO.Attempts outbox) maxAttempts now with
      | None =>
        update_where t_refunds (refund_id rid) (RefundRequestDO.update "FAILED" None None (Some detail) now) ;;;
        refund <- must_first (select_first t_refunds (refund_id rid)) ;;
        updateRefundOrderStatus (RefundRequestDO.OrderSN refund) OrderStatusRefundPendingDB
          OrderStatusRefundFailedDB "refund retry limit reached" ;;;
        set_outbox (RefundOutboxDO.ID outbox) (job_dead now detail)
      | Some at_ => set_outbox (RefundOutboxDO.ID outbox) (job_retry now at_ detail)
      end).

Definition RetryDeadRefundJob (now id : Z) : M order_db RefundJob.t :=
  fail_if (id =? 0) (newCode ErrValidation "refund job id is required") ;;;
  db_txn "database operation" (
    outbox <- must_first (select_first t_outbox (fun o => job_id id o && seq (RefundOutboxDO.Status o) "dead")) ;;
    refund <- must_first (select_first t_refunds (refund_id (RefundOutboxDO.RefundRequestID outbox))) ;;
    (if seq (RefundRequestDO.Status refund) "FAILED"
     then update_where t_refunds (refund_id (RefundRequestDO.ID refund))
            (RefundRequestDO.update "PROCESSING" None None (Some "") now) ;;; ret tt
     else ret tt) ;;;
    order <- must_first (select_first t_orderinfo (sn_is (RefundRequestDO.OrderSN refund))) ;;
    (if seq (OrderInfoDO.Status order) OrderStatusRefundFailedDB
     then updateRefundOrderStatus (RefundRequestDO.OrderSN refund) OrderStatusRefundFailedDB
            OrderStatusRefundPendingDB "refund dead-letter retry requested"
     else ret tt) ;;;
    set_outbox (RefundOutboxDO.ID outbox) (job_revived now) ;;;
    ret (RefundJob.mk (RefundOutboxDO.ID outbox) (RefundRequestDO.ID refund) (RefundRequestDO.OrderSN refund)
           (OrderInfoDO.TradeNo order) (RefundRequestDO.AmountFen refund) (RefundRequestDO.Reason refund)
           (RefundRequestDO.CorrelationID refund) 0)).

(** ** Reconciliation *)

(** Compare one transaction of the provider's statement with the local events. *)
Definition reconcile_remote (now run : Z) (localByEvent : gmap string t) (remote : t)
    : PaymentReconciliationItemDO.t :=
  let '(result, detail, localAmount) :=
    match localByEvent !! EventID remote with
    | None => ("missing_local", "provider transaction missing locally", 0)
    | Some local =>
      if seq (OrderSN local) (OrderSN remote) && seq (TradeNo local) (TradeNo remote)
         && seq (EventType local) (EventType remote) && (ProviderAmountFen local =? ProviderAmountFen remote)
      then ("matched", "", ProviderAmountFen local)
      else ("mismatch", "provider and local transaction differ", ProviderAmountFen local)
    end in
  PaymentReconciliationItemDO.mk 0 run (EventID remote) (OrderSN remote) (TradeNo remote) (EventType remote)
    (ProviderAmountFen remote) localAmount result detail now.
Definition reconcile_local (now run : Z) (local : t) : PaymentReconciliationItemDO.t :=
  PaymentReconciliationItemDO.mk 0 run (EventID local) (OrderSN local) (TradeNo local) (EventType local)
    0 (ProviderAmountFen local) "missing_provider" "local transaction missing from provider statement" now.

Definition index_events (l : list t) : gmap string t := fold_left (fun m e => <[EventID e := e]> m) l ∅.

Definition reconcile_items (now run : Z) (transactions locals : list t) : list PaymentReconciliationItemDO.t :=
  let seen : gset string := list_to_set (EventID <$> transactions) in
  (reconcile_remote now run (index_events locals) <$> transactions) ++
  (reconcile_local now run <$> List.filter (fun e => negb (bool_decide (EventID e ∈ seen))) locals).

Definition reconcile_mismatches (items : list PaymentReconciliationItemDO.t) : Z :=
  Z.of_nat (length (List.filter (fun i => negb (seq (PaymentReconciliationItemDO.Result i) "matched")) items)).

(** [CreateInBatches(items, 100)]. *)
Fixpoint batches {A} (fuel : nat) (n : nat) (l : list A) : list (list A) :=
  match fuel, l with
  | _, [] => []
  | O, _ => [l]
  | S fuel, _ => take n l :: batches fuel n (drop n l)
  end.
Definition with_item_id (i : PaymentReconciliationItemDO.t) (id : Z) : PaymentReconciliationItemDO.t :=
  PaymentReconciliationItemDO.mk id (PaymentReconciliationItemDO.RunID i) (PaymentReconciliationItemDO.ProviderEventID i)
    (PaymentReconciliationItemDO.OrderSN i) (PaymentReconciliationItemDO.TradeNo i)
    (PaymentReconciliationItemDO.EventType i) (PaymentReconciliationItemDO.ProviderAmountFen i)
    (PaymentReconciliationItemDO.LocalAmountFen i) (PaymentReconciliationItemDO.Result i)
    (PaymentReconciliationItemDO.Detail i) (PaymentReconciliationItemDO.CreatedAt i).

Definition invalid_transaction (e : t) : bool :=
  seq (TrimSpace (EventID e)) "" || seq (TrimSpace (OrderSN e)) "" || seq (TrimSpace (EventType e)) ""
  || (ProviderAmountFen e <? 0).
Definition run_finished (finished checked mismatches : Z) (r : PaymentReconciliationRunDO.t)
    : PaymentReconciliationRunDO.t :=
  PaymentReconciliationRunDO.mk (PaymentReconciliationRunDO.ID r) (PaymentReconciliationRunDO.Provider r)
    (PaymentReconciliationRunDO.WindowStart r) (PaymentReconciliationRunDO.WindowEnd r)
    (PaymentReconciliationRunDO.StartedAt r) (Some finished) checked mismatches "completed".

Definition ReconcilePayments (now finished : Z) (provider : string) (from to : Z) (transactions : list t)
    : M order_db PaymentReconciliationRunDO.t :=
  let provider := ToLower (TrimSpace provider) in
  fail_if (seq provider "" || negb (from <? to)) (newCode ErrValidation "invalid reconciliation request") ;;;
  fail_if (10000 <? Z.of_nat (length transactions)) (newCode ErrValidation "reconciliation batch is too large") ;;;
  fail_if (existsb invalid_transaction transactions) (newCode ErrValidation "provider transaction is invalid") ;;;
  fail_if (negb (bool_decide (NoDup (EventID <$> transactions))))
    (newCode ErrValidation "provider statement contains duplicate event_id") ;;;
  db_txn "reconcile payments" (
    let run id := PaymentReconciliationRunDO.mk id provider from to now None 0 0 "processing" in
    id <- insert_row t_runs PaymentReconciliationRunDO.ID (fun _ => false) run ;;
    locals <- select_where t_events (fun e =>
                seq (Provider e) provider && (from <=? ReceivedAt e) && (ReceivedAt e <? to)) ;;
    let items := reconcile_items now id transactions locals in
    for_each (batches (length items) 100 items) (fun batch =>
      insert_rows t_items PaymentReconciliationItemDO.ID (with_item_id <$> batch)) ;;;
    let checked := Z.of_nat (length items) in
    let mismatches := reconcile_mismatches items in
    update_where t_runs (fun r => PaymentReconciliationRunDO.ID r =? id) (run_finished finished checked mismatches) ;;;
    ret (run_finished finished checked mismatches (run id))).

End payments.
