(* ===== verification/OrderService.v ===== *)
(** * The order service: [app/order/srv/internal/service/v1/order.go]

    Carts, order creation and its compensation, and the status machine.  The goods
    service is a parameter: what its [BatchGetGoods] call answered.  The data
    factory's [Begin] never returns nil, so the branches for a nil transaction,
    which only test doubles reach, are left out. *)
From S2P Require Import Prelude GoStrings Errors GoMonad Tables Money OrderModel OrderStore CartStore.
Open Scope go_scope.

Module orderService.

(** ** Statuses *)
Definition OrderStatusPaying : string := "PAYING".
Definition OrderStatusWaitBuyerPay : string := "WAIT_BUYER_PAY".
Definition OrderStatusTradeSuccess : string := "TRADE_SUCCESS".
Definition OrderStatusTradeClosed : string := "TRADE_CLOSED".
Definition OrderStatusTradeFinished : string := "TRADE_FINISHED".
Definition OrderStatusRefundPending : string := "REFUND_PENDING".
Definition OrderStatusRefundFailed : string := "REFUND_FAILED".
Definition OrderStatusRefunded : string := "REFUNDED".

Definition validOrderStatuses : list string :=
  [OrderStatusPaying; OrderStatusWaitBuyerPay; OrderStatusTradeSuccess; OrderStatusTradeClosed;
   OrderStatusTradeFinished; OrderStatusRefundPending; OrderStatusRefundFailed; OrderStatusRefunded].
Definition isValidOrderStatus (status : string) : bool := bool_decide (status ∈ validOrderStatuses).

(** [==] on strings. *)
Definition seq (a b : string) : bool := bool_decide (a = b).

Definition canTransitionOrderStatus (current next : string) : bool :=
  let current := TrimSpace current in
  let next := TrimSpace next in
  if seq current "" || seq current next then true
  else if seq current OrderStatusWaitBuyerPay
  then seq next OrderStatusPaying || seq next OrderStatusTradeSuccess || seq next OrderStatusTradeClosed
  else if seq current OrderStatusPaying
  then seq next OrderStatusTradeSuccess || seq next OrderStatusTradeClosed
  else if seq current OrderStatusTradeClosed || seq current OrderStatusTradeFinished
  then seq current OrderStatusTradeFinished && seq next OrderStatusRefundPending
  else if seq current OrderStatusTradeSuccess
  then seq next OrderStatusTradeFinished || seq next OrderStatusRefundPending
  else if seq current OrderStatusRefundPending
  then seq next OrderStatusRefunded || seq next OrderStatusRefundFailed
  else if seq current OrderStatusRefundFailed then seq next OrderStatusRefundPending
  else false.

Definition normalizeInitialOrderStatus (status : string) : string :=
  let status := TrimSpace status in
  if seq status "" then OrderStatusWaitBuyerPay else status.

(** ** Status log entries *)
Definition defaultStatusLogReason (reason fromStatus toStatus : string) : string :=
  let reason := TrimSpace reason in
  if negb (seq reason "") then reason
  else if seq fromStatus "" && seq toStatus OrderStatusWaitBuyerPay then "order created"
  else if seq toStatus OrderStatusTradeSuccess then "payment confirmed"
  else if seq toStatus OrderStatusTradeClosed then "order closed"
  else if seq toStatus OrderStatusTradeFinished then "order finished"
  else "order status changed".
Definition defaultStatusLogSource (source fromStatus toStatus : string) : string :=
  let source := TrimSpace source in
  if negb (seq source "") then source
  else if seq fromStatus "" && seq toStatus OrderStatusWaitBuyerPay then "order.create"
  else if seq toStatus OrderStatusTradeSuccess then "order.payment"
  else if seq toStatus OrderStatusTradeClosed then "order.close"
  else if seq toStatus OrderStatusTradeFinished then "order.finish"
  else "order.update".
Definition user_operator (userID : Z) : string := "user:" +:+ itoa userID.
Definition defaultStatusLogOperator (operator : string) (userID : Z) : string :=
  let operator := TrimSpace operator in
  if negb (seq operator "") then operator
  else if 0 <? userID then user_operator userID
  else "system".

(** [dto.OrderDTO] *)
Record OrderDTO := MkOrderDTO {
  Info : OrderInfoDO.t;
  StatusReason : string; StatusSource : string; StatusOperator : string;
  RefundAmountFen : Z; ActorUserID : Z; CorrelationID : string; RequestID : string
}.
Definition with_info (f : OrderInfoDO.t -> OrderInfoDO.t) (o : OrderDTO) : OrderDTO :=
  MkOrderDTO (f (Info o)) (StatusReason o) (StatusSource o) (StatusOperator o) (RefundAmountFen o)
    (ActorUserID o) (CorrelationID o) (RequestID o).

Definition buildStatusLog (existing : OrderInfoDO.t) (order : OrderDTO) : OrderStatusLogDO.t :=
  let from := OrderInfoDO.Status existing in
  let to := OrderInfoDO.Status (Info order) in
  OrderStatusLogDO.mk 0 (OrderInfoDO.ID existing) (OrderInfoDO.OrderSn existing) from to
    (defaultStatusLogReason (StatusReason order) from to)
    (defaultStatusLogSource (StatusSource order) from to)
    (defaultStatusLogOperator (StatusOperator order) (OrderInfoDO.User existing)).

Definition createStatusLog (entry : OrderStatusLogDO.t) : M order_db unit :=
  orderStatusLogs.Create (Some entry).

(** ** Lines of an order *)

(** [aggregateOrderGoods]: the quantity per goods; [None] is the code's [false]. *)
Fixpoint aggregate_go (items : list OrderGoods.t) (goods : gmap Z Z) : option (gmap Z Z) :=
  match items with
  | [] => Some goods
  | item :: items =>
    if (OrderGoods.Goods item <=? 0) || (OrderGoods.Nums item <=? 0) then None
    else aggregate_go items
           (<[OrderGoods.Goods item :=
               wrap64 (default 0 (goods !! OrderGoods.Goods item) + OrderGoods.Nums item)]> goods)
  end.
Definition aggregateOrderGoods (items : list OrderGoods.t) : option (gmap Z Z) :=
  if bool_decide (items = []) then None
  else match aggregate_go items ∅ with
       | Some goods => if bool_decide (0 < size goods)%nat then Some goods else None
       | None => None
       end.
Definition hasOrderGoods (items : list OrderGoods.t) : bool :=
  match aggregateOrderGoods items with Some _ => true | None => false end.

(** [sameOrderGoods]: same size and every left entry equal on the right, where a
    missing entry reads as zero. *)
Definition sameOrderGoods (left right : list OrderGoods.t) : bool :=
  match aggregateOrderGoods left, aggregateOrderGoods right with
  | Some l, Some r =>
    bool_decide (size l = size r) &&
    forallb (fun kv => default 0 (r !! kv.1) =? kv.2) (map_to_list l)
  | _, _ => false
  end.

Definition tseq (a b : string) : bool := seq (TrimSpace a) (TrimSpace b).

Definition sameCreateOrder (existing incoming : OrderInfoDO.t) : bool :=
  (OrderInfoDO.User existing =? OrderInfoDO.User incoming) &&
  tseq (OrderInfoDO.OrderSn existing) (OrderInfoDO.OrderSn incoming) &&
  tseq (OrderInfoDO.Address existing) (OrderInfoDO.Address incoming) &&
  tseq (OrderInfoDO.SignerName existing) (OrderInfoDO.SignerName incoming) &&
  tseq (OrderInfoDO.SingerMobile existing) (OrderInfoDO.SingerMobile incoming) &&
  tseq (OrderInfoDO.Post existing) (OrderInfoDO.Post incoming) &&
  (seq (TrimSpace (OrderInfoDO.StoreID existing)) "" || seq (TrimSpace (OrderInfoDO.StoreID incoming)) ""
   || tseq (OrderInfoDO.StoreID existing) (OrderInfoDO.StoreID incoming)) &&
  sameOrderGoods (OrderInfoDO.OrderGoods existing) (OrderInfoDO.OrderGoods incoming).

(** ** Goods ([boundary/goods.go]) *)
Record GoodsInfo := MkGoodsInfo {
  GoodsInfoID : Z; Name : string; ShopPriceFen : Z; GoodsFrontImage : string; GoodsStoreID : string
}.
Definition no_goods : GoodsInfo := MkGoodsInfo 0 "" 0 "" "".
(** [BatchGetGoods]: the response keyed by id; a later duplicate wins. *)
Definition BatchGetGoods (resp : list GoodsInfo) : gmap Z GoodsInfo :=
  fold_left (fun m item => <[GoodsInfoID item := item]> m) resp ∅.

(** The loop that prices the lines: total, store and the completed lines. *)
Fixpoint price_lines (goodsMap : gmap Z GoodsInfo) (items : list OrderGoods.t) (storeID : string) (amount : Z)
    : (Z * string * list OrderGoods.t) + goerr :=
  match items with
  | [] => inl (amount, storeID, [])
  | value :: items =>
    let goodsInfo := default no_goods (goodsMap !! OrderGoods.Goods value) in
    let currentStoreID := TrimSpace (GoodsStoreID goodsInfo) in
    if seq currentStoreID "" then inr (newCode ErrGoodsNotFound "商品缺少归属门店")
    else if negb (seq storeID "") && negb (seq storeID currentStoreID)
    then inr (newCode ErrSubmitOrder "订单商品必须属于同一门店")
    else
      match money.Multiply (money.NewFen (ShopPriceFen goodsInfo)) (OrderGoods.Nums value) with
      | inr err => inr (Errorf "calculate order line amount" [] (Some err))
      | inl line =>
        match money.Add amount line with
        | inr err => inr (Errorf "accumulate order amount" [] (Some err))
        | inl amount =>
          match price_lines goodsMap items (if seq storeID "" then currentStoreID else storeID) amount with
          | inr err => inr err
          | inl (total, store, lines) =>
            inl (total, store,
                 OrderGoods.mk (OrderGoods.ID value) (OrderGoods.DeletedAt value) (OrderGoods.Order value)
                   (OrderGoods.Goods value) (Name goodsInfo) (GoodsFrontImage goodsInfo)
                   (money.Int64 (money.NewFen (ShopPriceFen goodsInfo))) (OrderGoods.Nums value) :: lines)
          end
        end
      end
  end.

(** ** Creation and compensation *)

Definition wrapf {A} (fmt : string) (m : M order_db A) : M order_db A :=
  wrap_err (fun err => Errorf fmt [] (Some err)) m.

(** [rollback(cause)] of [Create]: a failed rollback is added to the message. *)
Definition rollback_with {A} (cause : goerr) : M order_db A := fun s =>
  match next_fault s with
  | (None, s) => (Fail cause, s)
  | (Some msg, s) => (Fail (Errorf "%w; rollback order transaction: %v" [msg] (Some cause)), s)
  end.

(** [goods] is the goods service's answer to the call for the order's ids. *)
Definition Create (now : Z) (goods : list Z -> list GoodsInfo + goerr) (order : option OrderDTO) : M order_db unit :=
  match order with
  | None => fail (newCode ErrSubmitOrder "order is required")
  | Some order =>
    let order := with_info (fun i => OrderInfoDO.set_OrderSn (TrimSpace (OrderInfoDO.OrderSn i)) i) order in
    fail_if (seq (OrderInfoDO.OrderSn (Info order)) "") (newCode ErrSubmitOrder "order_sn is required") ;;;
    fail_if (negb (hasOrderGoods (OrderInfoDO.OrderGoods (Info order)))) (newCode ErrNoGoodsSelect "没有选择商品") ;;;
    let info := OrderInfoDO.set_Status (normalizeInitialOrderStatus (OrderInfoDO.Status (Info order))) (Info order) in
    existing <- attempt (orders.Get (OrderInfoDO.OrderSn info)) ;;
    match existing with
    | inl existing =>
      if sameCreateOrder existing info then ret tt
      else fail (newCode ErrOrderConflict "order_sn already exists with different order data")
    | inr err =>
      fail_if (negb (IsCode err ErrOrderNotFound)) err ;;;
      let goodsIds := OrderGoods.Goods <$> OrderInfoDO.OrderGoods info in
      match goods goodsIds with
      | inr err => fail err
      | inl resp =>
        let goodsMap := BatchGetGoods resp in
        fail_if (negb (bool_decide (size goodsMap = length goodsIds)))
          (newCode ErrGoodsNotFound "商品不存在或者部分不存在") ;;;
        match price_lines goodsMap (OrderInfoDO.OrderGoods info) "" 0 with
        | inr err => fail err
        | inl (total, store, lines) =>
          let info := OrderInfoDO.set_amount (money.Int64 total) store lines info in
          manual_txn
            (fun err => Errorf "begin order transaction: %w" [] (Some err))
            (fun err => Errorf "commit order transaction: %w" [] (Some err))
            rollback_with
            (fun p => Some (Errorf "create order transaction panic: %v" [p] None))
            (stored <- wrapf "create order: %w" (orders.Create now (Some info)) ;;
             wrapf "delete selected shop carts: %w"
               (shopCarts.DeleteByGoodsIDs (wrapu64 (OrderInfoDO.User info)) goodsIds) ;;;
             wrapf "create order status log: %w"
               (createStatusLog (OrderStatusLogDO.mk 0 (OrderInfoDO.ID stored) (OrderInfoDO.OrderSn info) ""
                  (OrderInfoDO.Status info) "order created" "order.create"
                  (user_operator (OrderInfoDO.User info)))))
        end
      end
    end
  end.

Definition CreateCom (order : option OrderDTO) : M order_db unit :=
  match order with
  | None => ret tt
  | Some order =>
    if seq (TrimSpace (OrderInfoDO.OrderSn (Info order))) "" then ret tt
    else
      existing <- attempt (orders.Get (OrderInfoDO.OrderSn (Info order))) ;;
      match existing with
      | inr err => if IsCode err ErrOrderNotFound then ret tt else fail err
      | inl existing =>
        manual_txn
          (fun err => Errorf "begin create order compensation transaction: %w" [] (Some err))
          (fun err => Errorf "commit create order compensation transaction: %w" [] (Some err))
          fail (fun _ => None)
          (wrapf "restore selected shop carts: %w"
             (shopCarts.RestoreCheckedItems (wrapu64 (OrderInfoDO.User existing)) (OrderInfoDO.OrderGoods existing)) ;;;
           wrapf "delete compensated order: %w" (orders.DeleteByOrderSn (OrderInfoDO.OrderSn existing)))
      end
  end.

(** ** Reading orders *)

Definition Get (userID : Z) (orderSn : string) : M order_db OrderInfoDO.t :=
  fail_if ((userID =? 0) || seq (TrimSpace orderSn) "") orders.not_found ;;;
  order <- orders.Get orderSn ;;
  fail_if (negb (wrapu64 (OrderInfoDO.User order) =? userID)) orders.not_found ;;;
  ret order.

Definition StatusLogs (userID : Z) (orderSn : string) : M order_db (list OrderStatusLogDO.t) :=
  order <- Get userID orderSn ;;
  orderStatusLogs.ListByOrderSn (OrderInfoDO.OrderSn order).

(** ** Carts *)

Definition CreateCartItem (cartItem : option ShoppingCartDO.t) : M order_db ShoppingCartDO.t :=
  match cartItem with
  | None => fail shopCarts.not_found
  | Some c =>
    fail_if (shopCarts.invalid c) shopCarts.not_found ;;;
    existing <- attempt (shopCarts.Get (wrapu64 (ShoppingCartDO.User c)) (wrapu64 (ShoppingCartDO.Goods c))) ;;
    match existing with
    | inl e =>
      let e := ShoppingCartDO.mk (ShoppingCartDO.ID e) (ShoppingCartDO.DeletedAt e) (ShoppingCartDO.User e)
                 (ShoppingCartDO.Goods e) (wrap32 (ShoppingCartDO.Nums e + ShoppingCartDO.Nums c))
                 (ShoppingCartDO.Checked c) in
      shopCarts.UpdateNum (Some e) ;;; ret e
    | inr err =>
      fail_if (negb (IsCode err ErrShopCartItemNotFound)) err ;;;
      shopCarts.Create (Some c)
    end
  end.

Definition UpdateCartItem (cartItem : option ShoppingCartDO.t) : M order_db unit :=
  match cartItem with
  | None => fail shopCarts.not_found
  | Some c => fail_if (shopCarts.invalid c) shopCarts.not_found ;;; shopCarts.UpdateNum (Some c)
  end.

Definition DeleteCartItem (userID id : Z) : M order_db unit :=
  fail_if ((userID =? 0) || (id =? 0)) shopCarts.not_found ;;; shopCarts.Delete userID id.

(** ** Status updates *)

(** The checks [Update] makes before it opens its transaction: the order to write. *)
Definition check_update (now : Z) (existing : OrderInfoDO.t) (order : OrderDTO) : OrderDTO + goerr :=
  let st := OrderInfoDO.Status (Info order) in
  if negb (canTransitionOrderStatus (OrderInfoDO.Status existing) st)
  then inr (newCode ErrOrderStatusInvalid "invalid order status transition")
  else if seq st OrderStatusTradeSuccess && seq (TrimSpace (OrderInfoDO.TradeNo (Info order))) ""
  then inr (newCode ErrOrderStatusInvalid "trade_no is required when order is paid")
  else if seq st OrderStatusRefundPending &&
          ((ActorUserID order <=? 0) || (RefundAmountFen order <=? 0)
           || seq (TrimSpace (StatusReason order)) "" || seq (TrimSpace (CorrelationID order)) "")
  then inr (newCode ErrOrderStatusInvalid "refund actor, amount, reason, and correlation_id are required")
  else if seq st OrderStatusRefundPending && (OrderInfoDO.OrderMountFen existing <? RefundAmountFen order)
  then inr (newCode ErrOrderStatusInvalid "refund amount exceeds order total")
  else inl (if seq st OrderStatusTradeSuccess
            then with_info (fun i => match OrderInfoDO.PayTime i with
                                     | Some _ => i
                                     | None => OrderInfoDO.set_PayTime (Some now) i end) order
            else order).

Definition Update (now : Z) (order : option OrderDTO) : M order_db unit :=
  match order with
  | None => fail (newCode ErrOrderStatusInvalid "order is required")
  | Some order =>
    let order := with_info (fun i =>
      OrderInfoDO.set_Status (TrimSpace (OrderInfoDO.Status i))
        (OrderInfoDO.set_OrderSn (TrimSpace (OrderInfoDO.OrderSn i)) i)) order in
    fail_if (seq (OrderInfoDO.OrderSn (Info order)) "" || seq (OrderInfoDO.Status (Info order)) "")
      (newCode ErrOrderStatusInvalid "order_sn and status are required") ;;;
    fail_if (negb (isValidOrderStatus (OrderInfoDO.Status (Info order))))
      (newCode ErrOrderStatusInvalid "invalid order status") ;;;
    existing <- orders.Get (OrderInfoDO.OrderSn (Info order)) ;;
    match check_update now existing order with
    | inr err => fail err
    | inl order =>
      manual_txn
        (fun err => Errorf "begin update order transaction: %w" [] (Some err))
        (fun err => Errorf "commit update order transaction: %w" [] (Some err))
        fail (fun _ => None)
        (orders.Update (Some (Info order)) ;;;
         (if negb (tseq (OrderInfoDO.Status existing) (OrderInfoDO.Status (Info order)))
          then wrapf "create order status log: %w" (createStatusLog (buildStatusLog existing order))
          else ret tt) ;;;
         (if seq (OrderInfoDO.Status (Info order)) OrderStatusRefundPending
          then orders.CreateRefundRequest now (Some (RefundRequestDO.mk 0 (OrderInfoDO.OrderSn (Info order))
                 (ActorUserID order) (RefundAmountFen order) (StatusReason order) OrderStatusRefundPending
                 "" "" "" (CorrelationID order) now now))
          else ret tt))
    end
  end.

End orderService.
