(* ===== verification/OrderServer.v ===== *)
(** * The order gRPC server and the lifecycle worker

    [controller/order/v1/order.go], [service/v1/payment.go], [service/v1/order_lifecycle.go]
    and [service/v1/service.go] of [app/order/srv/internal], with the step of
    [Submit] that builds the saga handed to the DTM coordinator.  The coordinator
    and the inventory service are reached over the network: the saga is the result
    of [Submit], and what [Release] answered is an argument of the worker. *)
From S2P Require Import Prelude GoStrings Errors GoMonad Tables OrderModel OrderStore CartStore PaymentStore.
From S2P Require Import OrderService.
Import orderService.
Open Scope go_scope.

(** ** Submitting an order *)
Module submit.
Record OrderRequest := MkOrderRequest {
  ReqOrderSn : string; UserId : Z; ReqAddress : string; ReqName : string; ReqMobile : string;
  ReqPost : string; OrderItems : list (Z * Z)
}.
(** The two branches of the saga: [Inventory/Sell] compensated by [Reback], then
    [Order/CreateOrder] compensated by [CreateOrderCom]. *)
Record saga := MkSaga { sell_sn : string; sell_lines : list (Z * Z); create_req : OrderRequest }.

Definition cart_lines (items : list ShoppingCartDO.t) : list (Z * Z) :=
  (fun value => (ShoppingCartDO.Goods value, ShoppingCartDO.Nums value)) <$> items.

Definition Submit (sql_order : list (string * bool) -> list ShoppingCartDO.t -> list ShoppingCartDO.t)
    (grpcServer : option string) (order : option OrderInfoDO.t) : M order_db saga :=
  match order with
  | None => fail (newCode ErrSubmitOrder "order is required")
  | Some order =>
    let sn := TrimSpace (OrderInfoDO.OrderSn order) in
    fail_if ((OrderInfoDO.User order <=? 0) || seq sn "")
      (newCode ErrSubmitOrder "user and order_sn are required") ;;;
    fail_if (match grpcServer with None => true | Some s => seq (TrimSpace s) "" end)
      (newCode ErrSubmitOrder "dtm grpc server is required") ;;;
    r <- shopCarts.List sql_order (wrapu64 (OrderInfoDO.User order)) true 0 0 [] ;;
    fail_if (bool_decide (r.1 = [])) (newCode ErrNoGoodsSelect "没有选择商品") ;;;
    let lines := cart_lines r.1 in
    ret (MkSaga sn lines
           (MkOrderRequest sn (OrderInfoDO.User order) (OrderInfoDO.Address order)
              (OrderInfoDO.SignerName order) (OrderInfoDO.SingerMobile order) (OrderInfoDO.Post order) lines))
  end.
End submit.

(** ** Handlers *)
Module orderServer.
Import submit.

Record OrderStatusMsg := MkOrderStatusMsg {
  MsgId : Z; MsgOrderSn : string; MsgStatus : string; MsgPayType : string; MsgTradeNo : string;
  MsgPayTime : Z; MsgReason : string; MsgActorUserId : Z; MsgRefundAmountFen : Z;
  MsgCorrelationId : string; MsgRequestId : string
}.

Definition bare_dto (i : OrderInfoDO.t) : OrderDTO := MkOrderDTO i "" "" "" 0 0 "" "".

Definition order_of (request : OrderRequest) : OrderInfoDO.t :=
  OrderInfoDO.mk 0 0 false ((fun it => OrderGoods.new it.1 it.2) <$> OrderItems request) (UserId request)
    (ReqOrderSn request) "" "" "" 0 "" None (ReqAddress request) (ReqName request) (ReqMobile request)
    (ReqPost request).

Definition CreateOrder (now : Z) (goods : list Z -> list GoodsInfo + goerr) (request : option OrderRequest)
    : M order_db unit :=
  match request with
  | None => fail (newCode ErrValidation "order request is required")
  | Some request => orderService.Create now goods (Some (bare_dto (order_of request)))
  end.

Definition CreateOrderCom (request : option OrderRequest) : M order_db unit :=
  match request with
  | None => fail (newCode ErrValidation "order request is required")
  | Some request => orderService.CreateCom (Some (bare_dto (OrderInfoDO.named (ReqOrderSn request) "")))
  end.

Definition SubmitOrder sql_order (grpcServer : option string) (request : option OrderRequest) : M order_db saga :=
  match request with
  | None => fail (newCode ErrValidation "order request is required")
  | Some request => Submit sql_order grpcServer (Some (OrderInfoDO.set_goods [] (order_of request)))
  end.

(** The order a status message asks for. *)
Definition status_dto (status : OrderStatusMsg) : OrderDTO :=
  MkOrderDTO
    (OrderInfoDO.mk (if 0 <? MsgId status then MsgId status else 0) 0 false [] 0 (MsgOrderSn status)
       (MsgPayType status) (MsgStatus status) (MsgTradeNo status) 0 ""
       (if 0 <? MsgPayTime status then Some (MsgPayTime status * Second) else None) "" "" "" "")
    (MsgReason status) "" "" (MsgRefundAmountFen status) (MsgActorUserId status)
    (MsgCorrelationId status) (MsgRequestId status).

Definition UpdateOrderStatus (now : Z) (status : option OrderStatusMsg) : M order_db unit :=
  match status with
  | None => fail (newCode ErrValidation "order status is required")
  | Some status => orderService.Update now (Some (status_dto status))
  end.

(** ** [payment.go]: the service in front of the payment store *)

Definition norm_event (e : PaymentEventDO.t) : PaymentEventDO.t :=
  PaymentEventDO.mk (PaymentEventDO.ID e) (ToLower (TrimSpace (PaymentEventDO.Provider e)))
    (TrimSpace (PaymentEventDO.EventID e)) (TrimSpace (PaymentEventDO.OrderSN e))
    (TrimSpace (PaymentEventDO.TradeNo e)) (ToLower (TrimSpace (PaymentEventDO.EventType e)))
    (PaymentEventDO.OrderAmountFen e) (PaymentEventDO.ProviderAmountFen e) (PaymentEventDO.RefundAmountFen e)
    (PaymentEventDO.Status e) (PaymentEventDO.ErrorDetail e) (PaymentEventDO.ReceivedAt e)
    (PaymentEventDO.CompletedAt e).
Definition BeginPaymentEvent (now : Z) (e : PaymentEventDO.t) : M order_db (PaymentEventDO.t * OrderInfoDO.t * bool) :=
  payments.BeginPaymentEvent now (Some (norm_event e)).

Definition CompleteRefundJob (now id : Z) (success : bool) (provider refundID status detail : string)
    (maxAttempts : Z) : M order_db unit :=
  payments.CompleteRefundJob now id success (ToLower (TrimSpace provider)) (TrimSpace refundID)
    (ToLower (TrimSpace status)) detail maxAttempts.

Definition norm_page (p : Z) : Z := if p <? 1 then 1 else p.
Definition norm_size (n : Z) : Z := if (n <? 1) || (100 <? n) then 20 else n.
Definition ListPaymentEvents (orderSN : string) (pageNo pageSize : Z) (mismatchesOnly : bool) :=
  payments.ListPaymentEvents (TrimSpace orderSN)
    (wrap64 ((norm_page pageNo - 1) * norm_size pageSize)) (norm_size pageSize) mismatchesOnly.

(** [countTraceMismatches], the same test in Go. *)
Definition countTraceMismatches (items : list PaymentEventDO.t) : Z :=
  fold_left (fun total item =>
    if (negb (seq (PaymentEventDO.EventType item) "refund_succeeded") &&
        negb (PaymentEventDO.ProviderAmountFen item =? PaymentEventDO.OrderAmountFen item)) ||
       (seq (PaymentEventDO.EventType item) "refund_succeeded" &&
        (negb (PaymentEventDO.RefundAmountFen item =? PaymentEventDO.ProviderAmountFen item) ||
         (PaymentEventDO.OrderAmountFen item <? PaymentEventDO.RefundAmountFen item)))
    then total + 1 else total) items 0.
End orderServer.

(** ** The lifecycle worker *)
Module lifecycle.
Record LifecycleConfig := MkLifecycleConfig {
  PollInterval : Z; SweepTimeout : Z; TimeoutCloseAfter : Z; FinishAfterPayment : Z; BatchSize : Z
}.
Definition Hour : Z := 60 * Minute.
Definition orderLifecyclePollInterval : Z := 5 * Second.
Definition orderLifecycleSweepTimeout : Z := 2 * Minute.
Definition orderTimeoutCloseAfter : Z := 30 * Minute.
Definition orderFinishAfterPayment : Z := 7 * 24 * Hour.
Definition orderLifecycleBatchSize : Z := 20.

Definition pos_or (v dflt : Z) : Z := if v <=? 0 then dflt else v.
Definition normalize (c : LifecycleConfig) : LifecycleConfig :=
  MkLifecycleConfig (pos_or (PollInterval c) orderLifecyclePollInterval)
    (pos_or (SweepTimeout c) orderLifecycleSweepTimeout)
    (pos_or (TimeoutCloseAfter c) orderTimeoutCloseAfter)
    (pos_or (FinishAfterPayment c) orderFinishAfterPayment)
    (pos_or (BatchSize c) orderLifecycleBatchSize).

(** The lines [releaseOrderInventory] sends; none means no call. *)
Definition release_items (order : OrderInfoDO.t) : list (Z * Z) :=
  (fun i => (OrderGoods.Goods i, OrderGoods.Nums i)) <$>
  List.filter (fun i => negb ((OrderGoods.Goods i <=? 0) || (OrderGoods.Nums i <=? 0))) (OrderInfoDO.OrderGoods order).
Definition releaseOrderInventory (release : string -> list (Z * Z) -> option goerr) (order : OrderInfoDO.t)
    : option goerr :=
  match release_items order with
  | [] => None
  | items => release (TrimSpace (OrderInfoDO.OrderSn order)) items
  end.

Definition auto_update (sn status reason source : string) : OrderDTO :=
  MkOrderDTO (OrderInfoDO.named sn status) reason source "system" 0 0 "" "".

(** The body of both loops: [true] counts as done, [false] as failed. *)
Definition sweep_one (now : Z) (guard : option goerr) (dto : OrderDTO) : M order_db bool :=
  match guard with
  | Some _ => ret false
  | None =>
    r <- attempt (orderService.Update now (Some dto)) ;;
    ret (match r with inl _ => true | inr _ => false end)
  end.

(** The closed and the failed orders of a sweep. *)
Definition counts (l : list bool) : Z * Z :=
  (Z.of_nat (length (List.filter (fun b => b) l)), Z.of_nat (length (List.filter negb l))).

Definition processExpiredOrdersOnce (c : LifecycleConfig) (now : Z)
    (release : string -> list (Z * Z) -> option goerr) : M order_db (Z * Z) :=
  candidates <- wrap_err (fun err => Errorf "list close candidates: %w" [] (Some err))
    (orders.ListCloseCandidates [OrderStatusWaitBuyerPay; OrderStatusPaying]
       (now - TimeoutCloseAfter c) (BatchSize c)) ;;
  results <- map_each candidates (fun order =>
    sweep_one now (releaseOrderInventory release order)
      (auto_update (OrderInfoDO.OrderSn order) OrderStatusTradeClosed "order timeout auto close"
         "order.timeout_worker")) ;;
  ret (counts results).

Definition processFinishedOrdersOnce (c : LifecycleConfig) (now : Z) : M order_db (Z * Z) :=
  candidates <- wrap_err (fun err => Errorf "list finish candidates: %w" [] (Some err))
    (orders.ListFinishCandidates OrderStatusTradeSuccess (now - FinishAfterPayment c) (BatchSize c)) ;;
  results <- map_each candidates (fun order =>
    sweep_one now None
      (auto_update (OrderInfoDO.OrderSn order) OrderStatusTradeFinished "payment success auto finish"
         "order.finish_worker")) ;;
  ret (counts results).

(** [runLifecycleSweep]: an error of one half is logged, the other half runs. *)
Definition runLifecycleSweep (c : LifecycleConfig) (now : Z)
    (release : string -> list (Z * Z) -> option goerr) : M order_db unit :=
  attempt (processExpiredOrdersOnce c now release) ;;;
  attempt (processFinishedOrdersOnce c now) ;;;
  ret tt.
End lifecycle.
