(* ===== verification/OrderTrace.v ===== *)
(** * Reading the payment workflow: reconciliation runs and the trace of an order

    The queries of [data/v1/db/payment_workflow.go] that change nothing, with their
    wrappers in [service/v1/payment.go] and the read-only operations of
    [service/v1/order.go]. *)
From S2P Require Import Prelude GoStrings Errors GoMonad Tables OrderModel OrderStore CartStore PaymentStore.
From S2P Require Import OrderService OrderServer.
Import orderService.
Open Scope go_scope.

(** [domain/do/trace.go] *)
Record OrderTraceLookup := MkOrderTraceLookup { LookOrderSN : string; LookTradeNo : string; LookCorrelationID : string }.
Record RefundTraceRecord := MkRefundTraceRecord {
  RefundRequest : RefundRequestDO.t; RefundOutbox : option RefundOutboxDO.t
}.
Record OrderTrace := MkOrderTrace {
  MatchedBy : string; MatchedValue : string; TraceOrder : OrderInfoDO.t;
  StatusLogs : list OrderStatusLogDO.t; PaymentEvents : list PaymentEventDO.t; Refunds : list RefundTraceRecord
}.

Module traces.

(** The runs of a provider whose window lies in the one asked for. *)
Definition run_matches (provider : string) (from to : option Z) (r : PaymentReconciliationRunDO.t) : bool :=
  (seq provider "" || seq (PaymentReconciliationRunDO.Provider r) provider) &&
  (match from with Some t => t <=? PaymentReconciliationRunDO.WindowStart r | None => true end) &&
  (match to with Some t => PaymentReconciliationRunDO.WindowEnd r <=? t | None => true end).

Definition ListPaymentReconciliationRuns (provider : string) (from to : option Z) (offset limit : Z)
    : M order_db (list PaymentReconciliationRunDO.t * Z) :=
  let p := run_matches provider from to in
  total <- dberr (count_where t_runs p) ;;
  items <- dberr (select_where t_runs p) ;;
  ret (page offset limit (rev items), total).

(** The items joined with their runs. *)
Definition item_matches (provider : string) (from to : option Z) (result : string) (runID : Z)
    (runs : list PaymentReconciliationRunDO.t) (i : PaymentReconciliationItemDO.t) : bool :=
  existsb (fun r => (PaymentReconciliationRunDO.ID r =? PaymentReconciliationItemDO.RunID i) &&
                    run_matches provider from to r) runs &&
  (seq result "" || seq (PaymentReconciliationItemDO.Result i) result) &&
  ((runID =? 0) || (PaymentReconciliationItemDO.RunID i =? runID)).

Definition ListPaymentReconciliationItems (provider : string) (from to : option Z) (result : string)
    (runID offset limit : Z) : M order_db (list PaymentReconciliationItemDO.t * Z) :=
  let found d := List.filter (item_matches provider from to result runID (reconciliation_runs d))
                   (reconciliation_items d) in
  total <- dberr (query (fun d => Z.of_nat (length (found d)))) ;;
  items <- dberr (query found) ;;
  ret (page offset limit (rev items), total).

(** [Select("order_sn") .. Limit(1).Scan(&orderSN)]: the first row of the index,
    rows marked deleted included; no row leaves the string empty. *)
Definition scan_sn {R} (t : table order_db R) (p : R -> bool) (sn : R -> string) : M order_db string :=
  found <- dberr (select_first t p) ;;
  ret (match found with Some r => sn r | None => "" end).

Definition order_found (orderSN by_ value : string) : M order_db (OrderInfoDO.t * string * string) :=
  fail_if (seq (TrimSpace orderSN) "") (newCode ErrOrderNotFound "order not found") ;;;
  order <- orders.Get orderSN ;;
  ret (order, by_, value).

Definition resolveTraceOrder (lookup : OrderTraceLookup) : M order_db (OrderInfoDO.t * string * string) :=
  if negb (seq (LookOrderSN lookup) "") then
    order <- orders.Get (LookOrderSN lookup) ;;
    ret (order, "order_sn", LookOrderSN lookup)
  else if negb (seq (LookTradeNo lookup) "") then
    sn <- scan_sn t_orderinfo (fun o => seq (OrderInfoDO.TradeNo o) (LookTradeNo lookup)) OrderInfoDO.OrderSn ;;
    order_found sn "trade_no" (LookTradeNo lookup)
  else if negb (seq (LookCorrelationID lookup) "") then
    sn <- scan_sn t_refunds (fun r => seq (RefundRequestDO.CorrelationID r) (LookCorrelationID lookup))
            RefundRequestDO.OrderSN ;;
    order_found sn "correlation_id" (LookCorrelationID lookup)
  else fail (newCode ErrValidation "order_sn, trade_no or correlation_id is required").

Definition loadTraceStatusLogs (orderSN : string) : M order_db (list OrderStatusLogDO.t) :=
  dberr (select_where t_logs (fun e => seq (OrderStatusLogDO.OrderSn e) orderSN)).

(** The record made of a row of the join: the times of the outbox entry are not selected. *)
Definition trace_outbox (r : RefundRequestDO.t) (o : RefundOutboxDO.t) : RefundOutboxDO.t :=
  RefundOutboxDO.mk (RefundOutboxDO.ID o) (RefundRequestDO.ID r) (RefundOutboxDO.Status o)
    (RefundOutboxDO.Attempts o) (RefundOutboxDO.AvailableAt o) (RefundOutboxDO.LockedAt o)
    (RefundOutboxDO.LastError o) 0 0.
(** [LEFT JOIN]: one row per outbox entry, or one without. *)
Definition trace_rows (d : order_db) (r : RefundRequestDO.t) : list RefundTraceRecord :=
  match List.filter (fun o => RefundOutboxDO.RefundRequestID o =? RefundRequestDO.ID r) (order_refund_outbox d) with
  | [] => [MkRefundTraceRecord r None]
  | entries => (fun o => MkRefundTraceRecord r (Some (trace_outbox r o))) <$> entries
  end.
Definition loadTraceRefunds (orderSN : string) : M order_db (list RefundTraceRecord) :=
  dberr (query (fun d =>
    List.filter (fun r => seq (RefundRequestDO.OrderSN r) orderSN) (order_refund_requests d) ≫= trace_rows d)).

Definition GetOrderTrace (lookup : OrderTraceLookup) : M order_db OrderTrace :=
  r <- resolveTraceOrder lookup ;;
  let '(order, matchedBy, matchedValue) := r in
  statusLogs <- loadTraceStatusLogs (OrderInfoDO.OrderSn order) ;;
  events <- payments.ListPaymentEvents (OrderInfoDO.OrderSn order) 0 100 false ;;
  refunds <- loadTraceRefunds (OrderInfoDO.OrderSn order) ;;
  ret (MkOrderTrace matchedBy matchedValue order statusLogs events.1.1 refunds).
End traces.

(** ** The service in front of the store *)
Module readService.
Import orderServer.

Definition ListPaymentReconciliationRuns (provider : string) (from to : option Z) (pageNo pageSize : Z) :=
  traces.ListPaymentReconciliationRuns (ToLower (TrimSpace provider)) from to
    (wrap64 ((norm_page pageNo - 1) * norm_size pageSize)) (norm_size pageSize).
Definition ListPaymentReconciliationItems (provider : string) (from to : option Z) (result : string)
    (runID pageNo pageSize : Z) :=
  traces.ListPaymentReconciliationItems (ToLower (TrimSpace provider)) from to (ToLower (TrimSpace result)) runID
    (wrap64 ((norm_page pageNo - 1) * norm_size pageSize)) (norm_size pageSize).

Definition GetOrderTrace (lookup : OrderTraceLookup) : M order_db OrderTrace :=
  let lookup := MkOrderTraceLookup (TrimSpace (LookOrderSN lookup)) (TrimSpace (LookTradeNo lookup))
                  (TrimSpace (LookCorrelationID lookup)) in
  fail_if (seq (LookOrderSN lookup) "" && seq (LookTradeNo lookup) "" && seq (LookCorrelationID lookup) "")
    (newCode ErrValidation "order_sn, trade_no or correlation_id is required") ;;;
  traces.GetOrderTrace lookup.

Section Lists.
Context (sql_carts : list (string * bool) -> list ShoppingCartDO.t -> list ShoppingCartDO.t).
Context (sql_orders : list (string * bool) -> list OrderInfoDO.t -> list OrderInfoDO.t).

Definition CartItemList (userID pageNo pageSize : Z) (orderBy : list string) : M order_db (list ShoppingCartDO.t * Z) :=
  if userID =? 0 then ret ([], 0) else shopCarts.List sql_carts userID false pageNo pageSize orderBy.
Definition List (userID pageNo pageSize : Z) (orderBy : list string) : M order_db (list OrderInfoDO.t * Z) :=
  if userID =? 0 then ret ([], 0) else orders.List sql_orders userID pageNo pageSize orderBy.
End Lists.
End readService.
