(* ===== verification/OrderHandlers.v ===== *)
(** * The order gRPC server: messages and the handlers that answer with them

    [controller/order/v1/order.go] and [payment.go] of [app/order/srv/internal]: the
    conversions between rows and messages, and the handlers of carts, listings,
    payment events, refund jobs, reconciliation and traces.  A message is the record
    of its fields; a repeated field may hold nil.  The zone in which
    [time.Format] prints is a parameter ([format_time]); the status log rows of the
    model carry no time, so neither do their messages. *)
From S2P Require Import Prelude GoStrings Errors GoMonad Tables OrderModel OrderStore CartStore PaymentStore.
From S2P Require Import OrderService OrderServer OrderTrace.
Import orderService orderServer.
Open Scope go_scope.

(** ** Messages ([api/order/v1/order.proto]) *)
Module pb.
Record OrderInfoResponse := MkOrderInfoResponse {
  Id : Z; UserId : Z; OrderSn : string; PayType : string; Status : string; Post : string; TotalFen : Z;
  Address : string; Name : string; Mobile : string; AddTime : string; TradeNo : string; PayTime : Z;
  StoreId : string
}.
Record OrderItemResponse := MkOrderItemResponse {
  ItemId : Z; ItemOrderId : Z; GoodsId : Z; GoodsName : string; GoodsImage : string; GoodsPriceFen : Z; Nums : Z
}.
Record OrderInfoDetailResponse := MkOrderInfoDetailResponse {
  OrderInfo : option OrderInfoResponse; Goods : list (option OrderItemResponse)
}.
Record OrderListResponse := MkOrderListResponse { ListTotal : Z; ListData : list OrderInfoResponse }.
Record OrderFilterRequest := MkOrderFilterRequest { FilterUserId : Z; Pages : Z; PagePerNums : Z }.
Record CartItemRequest := MkCartItemRequest {
  CartId : Z; CartUserId : Z; CartGoodsId : Z; CartNums : Z; CartChecked : bool
}.
Record ShopCartInfoResponse := MkShopCartInfoResponse {
  ShopId : Z; ShopUserId : Z; ShopGoodsId : Z; ShopNums : Z; ShopChecked : bool
}.
Record CartItemListResponse := MkCartItemListResponse { CartTotal : Z; CartData : list ShopCartInfoResponse }.
Record OrderStatusLogResponse := MkOrderStatusLogResponse {
  LogId : Z; LogOrderId : Z; LogOrderSn : string; LogFrom : string; LogTo : string; LogReason : string;
  LogSource : string; LogOperator : string
}.
Record OrderStatusLogListResponse := MkOrderStatusLogListResponse { LogTotal : Z; LogData : list OrderStatusLogResponse }.

Record PaymentEventRequest := MkPaymentEventRequest {
  EvProvider : string; EvEventId : string; EvOrderSn : string; EvTradeNo : string; EvEventType : string;
  EvProviderAmountFen : Z; EvRefundAmountFen : Z
}.
Record PaymentEventResponse := MkPaymentEventResponse {
  EvId : Z; Accepted : bool; Completed : bool; OrderAmountFen : Z; OrderStatus : string
}.
Record CompletePaymentEventRequest := MkCompletePaymentEventRequest {
  CompleteId : Z; CompleteSuccess : bool; CompleteDetail : string
}.
Record PaymentEventListRequest := MkPaymentEventListRequest {
  EvListOrderSn : string; EvListPage : Z; EvListPageSize : Z; MismatchesOnly : bool
}.
Record PaymentEventRecord := MkPaymentEventRecord {
  RecId : Z; RecProvider : string; RecEventId : string; RecOrderSn : string; RecTradeNo : string;
  RecEventType : string; RecOrderAmountFen : Z; RecProviderAmountFen : Z; RecRefundAmountFen : Z;
  RecStatus : string; RecErrorDetail : string; RecReceivedAt : Z; RecCompletedAt : Z
}.
Record PaymentEventListResponse := MkPaymentEventListResponse {
  EventTotal : Z; EventData : list PaymentEventRecord; MismatchCount : Z
}.

Record ClaimRefundJobsRequest := MkClaimRefundJobsRequest { Limit : Z; ClaimMaxAttempts : Z; LockTimeoutSeconds : Z }.
Record RefundJob := MkRefundJob {
  JobId : Z; RefundRequestId : Z; JobOrderSn : string; JobTradeNo : string; JobAmountFen : Z; JobReason : string;
  JobCorrelationId : string; JobAttempts : Z
}.
Record CompleteRefundJobRequest := MkCompleteRefundJobRequest {
  DoneId : Z; DoneSuccess : bool; DoneProvider : string; DoneRefundId : string; DoneStatus : string;
  DoneDetail : string; DoneMaxAttempts : Z
}.
Record RetryDeadRefundJobResponse := MkRetryDeadRefundJobResponse {
  RetryId : Z; RetryStatus : string; RetryAttempts : Z; RetryCorrelationId : string
}.

Record ProviderTransaction := MkProviderTransaction {
  TxEventId : string; TxOrderSn : string; TxTradeNo : string; TxEventType : string; TxAmountFen : Z; TxOccurredAt : Z
}.
Record ReconcilePaymentsRequest := MkReconcilePaymentsRequest {
  RcProvider : string; RcWindowStart : Z; RcWindowEnd : Z; RcTransactions : list ProviderTransaction
}.
Record ReconcilePaymentsResponse := MkReconcilePaymentsResponse {
  RcRunId : Z; RcCheckedCount : Z; RcMismatchCount : Z
}.
Record PaymentReconciliationRunRecord := MkRunRecord {
  RunRecId : Z; RunRecProvider : string; RunRecStart : Z; RunRecEnd : Z; RunRecStarted : Z; RunRecFinished : Z;
  RunRecChecked : Z; RunRecMismatches : Z; RunRecStatus : string
}.
Record PaymentReconciliationItemRecord := MkItemRecord {
  ItemRecId : Z; ItemRecRun : Z; ItemRecEvent : string; ItemRecOrderSn : string; ItemRecTradeNo : string;
  ItemRecType : string; ItemRecProviderFen : Z; ItemRecLocalFen : Z; ItemRecResult : string; ItemRecDetail : string;
  ItemRecCreated : Z
}.
(** Both listing requests; the runs have no result and no run id. *)
Record ReconciliationListRequest := MkReconciliationListRequest {
  RlProvider : string; RlWindowStart : Z; RlWindowEnd : Z; RlResult : string; RlRunId : Z; RlPage : Z; RlPageSize : Z
}.

Record OrderTraceRequest := MkOrderTraceRequest { TrOrderSn : string; TrTradeNo : string; TrCorrelationId : string }.
Record RefundTraceRecord := MkRefundTrace {
  RtRequestId : Z; RtOrderSn : string; RtActorUserId : Z; RtAmountFen : Z; RtReason : string; RtStatus : string;
  RtProvider : string; RtProviderRefundId : string; RtFailureReason : string; RtCorrelationId : string;
  RtCreatedAt : Z; RtUpdatedAt : Z;
  RtJobId : Z; RtJobStatus : string; RtJobAttempts : Z; RtJobAvailableAt : Z; RtJobLockedAt : Z; RtJobLastError : string
}.
Record OrderTraceResponse := MkOrderTraceResponse {
  TrMatchedBy : string; TrMatchedValue : string; TrOrder : option OrderInfoDetailResponse;
  TrStatusLogs : OrderStatusLogListResponse; TrPaymentEvents : PaymentEventListResponse;
  TrRefunds : list RefundTraceRecord
}.
End pb.

(** ** Conversions *)
Definition Unix (t : Z) : Z := t / Second.
Definition unix_or_zero (t : option Z) : Z := match t with Some t => Unix t | None => 0 end.
Definition optionalUnixTime (value : Z) : option Z := if value <=? 0 then None else Some (value * Second).

Section Format.
Context (format_time : Z -> string).

Definition orderToResponse (order : OrderInfoDO.t) : pb.OrderInfoResponse :=
  pb.MkOrderInfoResponse (OrderInfoDO.ID order) (OrderInfoDO.User order) (OrderInfoDO.OrderSn order)
    (OrderInfoDO.PayType order) (OrderInfoDO.Status order) (OrderInfoDO.Post order) (OrderInfoDO.OrderMountFen order)
    (OrderInfoDO.Address order) (OrderInfoDO.SignerName order) (OrderInfoDO.SingerMobile order)
    (format_time (OrderInfoDO.CreatedAt order)) (OrderInfoDO.TradeNo order)
    (unix_or_zero (OrderInfoDO.PayTime order)) (OrderInfoDO.StoreID order).

Definition orderGoodsToResponse (goods : list OrderGoods.t) : list (option pb.OrderItemResponse) :=
  (fun item => Some (pb.MkOrderItemResponse (OrderGoods.ID item) (OrderGoods.Order item) (OrderGoods.Goods item)
     (OrderGoods.GoodsName item) (OrderGoods.GoodsImage item) (OrderGoods.GoodsPriceFen item)
     (OrderGoods.Nums item))) <$> goods.

Definition orderToDetailResponse (order : OrderInfoDO.t) : pb.OrderInfoDetailResponse :=
  pb.MkOrderInfoDetailResponse (Some (orderToResponse order)) (orderGoodsToResponse (OrderInfoDO.OrderGoods order)).
End Format.

Definition shopCartToResponse (cart : ShoppingCartDO.t) : pb.ShopCartInfoResponse :=
  pb.MkShopCartInfoResponse (ShoppingCartDO.ID cart) (ShoppingCartDO.User cart) (ShoppingCartDO.Goods cart)
    (ShoppingCartDO.Nums cart) (ShoppingCartDO.Checked cart).

Definition orderStatusLogToResponse (item : OrderStatusLogDO.t) : pb.OrderStatusLogResponse :=
  pb.MkOrderStatusLogResponse (OrderStatusLogDO.ID item) (OrderStatusLogDO.OrderID item)
    (OrderStatusLogDO.OrderSn item) (OrderStatusLogDO.FromStatus item) (OrderStatusLogDO.ToStatus item)
    (OrderStatusLogDO.Reason item) (OrderStatusLogDO.Source item) (OrderStatusLogDO.Operator item).
Definition statusLogsToResponse (entries : list OrderStatusLogDO.t) : pb.OrderStatusLogListResponse :=
  pb.MkOrderStatusLogListResponse (wrap32 (Z.of_nat (length entries))) (orderStatusLogToResponse <$> entries).

Definition event_record (item : PaymentEventDO.t) : pb.PaymentEventRecord :=
  pb.MkPaymentEventRecord (wrap64 (PaymentEventDO.ID item)) (PaymentEventDO.Provider item)
    (PaymentEventDO.EventID item) (PaymentEventDO.OrderSN item) (PaymentEventDO.TradeNo item)
    (PaymentEventDO.EventType item) (PaymentEventDO.OrderAmountFen item) (PaymentEventDO.ProviderAmountFen item)
    (PaymentEventDO.RefundAmountFen item) (PaymentEventDO.Status item) (PaymentEventDO.ErrorDetail item)
    (Unix (PaymentEventDO.ReceivedAt item)) (unix_or_zero (PaymentEventDO.CompletedAt item)).

Definition job_message (job : RefundJob.t) : pb.RefundJob :=
  pb.MkRefundJob (wrap64 (RefundJob.OutboxID job)) (wrap64 (RefundJob.RefundRequestID job)) (RefundJob.OrderSN job)
    (RefundJob.TradeNo job) (RefundJob.AmountFen job) (RefundJob.Reason job) (RefundJob.CorrelationID job)
    (wrap32 (RefundJob.Attempts job)).

Definition run_record (run : PaymentReconciliationRunDO.t) : pb.PaymentReconciliationRunRecord :=
  pb.MkRunRecord (wrap64 (PaymentReconciliationRunDO.ID run)) (PaymentReconciliationRunDO.Provider run)
    (Unix (PaymentReconciliationRunDO.WindowStart run)) (Unix (PaymentReconciliationRunDO.WindowEnd run))
    (Unix (PaymentReconciliationRunDO.StartedAt run)) (unix_or_zero (PaymentReconciliationRunDO.FinishedAt run))
    (wrap32 (PaymentReconciliationRunDO.CheckedCount run)) (wrap32 (PaymentReconciliationRunDO.MismatchCount run))
    (PaymentReconciliationRunDO.Status run).
Definition item_record (item : PaymentReconciliationItemDO.t) : pb.PaymentReconciliationItemRecord :=
  pb.MkItemRecord (wrap64 (PaymentReconciliationItemDO.ID item)) (wrap64 (PaymentReconciliationItemDO.RunID item))
    (PaymentReconciliationItemDO.ProviderEventID item) (PaymentReconciliationItemDO.OrderSN item)
    (PaymentReconciliationItemDO.TradeNo item) (PaymentReconciliationItemDO.EventType item)
    (PaymentReconciliationItemDO.ProviderAmountFen item) (PaymentReconciliationItemDO.LocalAmountFen item)
    (PaymentReconciliationItemDO.Result item) (PaymentReconciliationItemDO.Detail item)
    (Unix (PaymentReconciliationItemDO.CreatedAt item)).

Definition refund_record (item : RefundTraceRecord) : pb.RefundTraceRecord :=
  let r := RefundRequest item in
  let job {A} (f : RefundOutboxDO.t -> A) (zero : A) := match RefundOutbox item with Some o => f o | None => zero end in
  pb.MkRefundTrace (wrap64 (RefundRequestDO.ID r)) (RefundRequestDO.OrderSN r) (RefundRequestDO.ActorUserID r)
    (RefundRequestDO.AmountFen r) (RefundRequestDO.Reason r) (RefundRequestDO.Status r) (RefundRequestDO.Provider r)
    (RefundRequestDO.ProviderRefundID r) (RefundRequestDO.FailureReason r) (RefundRequestDO.CorrelationID r)
    (Unix (RefundRequestDO.CreatedAt r)) (Unix (RefundRequestDO.UpdatedAt r))
    (job (fun o => wrap64 (RefundOutboxDO.ID o)) 0) (job RefundOutboxDO.Status "")
    (job (fun o => wrap32 (RefundOutboxDO.Attempts o)) 0) (job (fun o => Unix (RefundOutboxDO.AvailableAt o)) 0)
    (job (fun o => unix_or_zero (RefundOutboxDO.LockedAt o)) 0) (job RefundOutboxDO.LastError "").

(** ** Handlers *)
Module orderHandlers.
Section Handlers.
Context (format_time : Z -> string).
Context (sql_carts : list (string * bool) -> list ShoppingCartDO.t -> list ShoppingCartDO.t).
Context (sql_orders : list (string * bool) -> list OrderInfoDO.t -> list OrderInfoDO.t).

Definition required (what : string) : goerr := newCode ErrValidation what.

Definition CartItemList (info : option Z) : M order_db pb.CartItemListResponse :=
  match info with
  | None => fail (required "user info is required")
  | Some id =>
    list <- readService.CartItemList sql_carts (wrapu64 id) 0 0 [] ;;
    ret (pb.MkCartItemListResponse (wrap32 list.2) (shopCartToResponse <$> list.1))
  end.

(** The row a cart request describes. *)
Definition cart_of (request : pb.CartItemRequest) : ShoppingCartDO.t :=
  ShoppingCartDO.mk 0 false (pb.CartUserId request) (pb.CartGoodsId request) (pb.CartNums request)
    (pb.CartChecked request).

Definition CreateCartItem (request : option pb.CartItemRequest) : M order_db pb.ShopCartInfoResponse :=
  match request with
  | None => fail (required "cart item request is required")
  | Some request =>
    cart <- orderService.CreateCartItem (Some (cart_of request)) ;;
    ret (shopCartToResponse cart)
  end.
Definition UpdateCartItem (request : option pb.CartItemRequest) : M order_db unit :=
  match request with
  | None => fail (required "cart item request is required")
  | Some request => orderService.UpdateCartItem (Some (cart_of request))
  end.
Definition DeleteCartItem (request : option pb.CartItemRequest) : M order_db unit :=
  match request with
  | None => fail (required "cart item request is required")
  | Some request =>
    orderService.DeleteCartItem (wrapu64 (pb.CartUserId request)) (wrapu64 (pb.CartId request))
  end.

Definition OrderList (request : option pb.OrderFilterRequest) : M order_db pb.OrderListResponse :=
  match request with
  | None => fail (required "order filter request is required")
  | Some request =>
    list <- readService.List sql_orders (wrapu64 (pb.FilterUserId request)) (pb.Pages request)
              (pb.PagePerNums request) ["add_time desc"] ;;
    ret (pb.MkOrderListResponse (wrap32 list.2) (orderToResponse format_time <$> list.1))
  end.

(** The request is its user and its number. *)
Definition OrderDetail (request : option (Z * string)) : M order_db pb.OrderInfoDetailResponse :=
  match request with
  | None => fail (required "order request is required")
  | Some (userId, orderSn) =>
    order <- orderService.Get (wrapu64 userId) orderSn ;;
    ret (orderToDetailResponse format_time order)
  end.
Definition OrderStatusLogs (request : option (Z * string)) : M order_db pb.OrderStatusLogListResponse :=
  match request with
  | None => fail (required "order request is required")
  | Some (userId, orderSn) =>
    list <- orderService.StatusLogs (wrapu64 userId) orderSn ;;
    ret (statusLogsToResponse list)
  end.

(** Of [GetOrderBySn] there is only what the generated [UnimplementedOrderServer],
    which the server embeds, answers. *)
Definition codes_Unimplemented : Z := 12.
Definition GetOrderBySn (request : string) : M order_db pb.OrderInfoDetailResponse :=
  fail (Errors.Status codes_Unimplemented "method GetOrderBySn not implemented" []).

(** *** [payment.go] *)
Definition event_of (req : pb.PaymentEventRequest) : PaymentEventDO.t :=
  PaymentEventDO.mk 0 (pb.EvProvider req) (pb.EvEventId req) (pb.EvOrderSn req) (pb.EvTradeNo req)
    (pb.EvEventType req) 0 (pb.EvProviderAmountFen req) (pb.EvRefundAmountFen req) "" "" 0 None.
Definition BeginPaymentEvent (now : Z) (req : pb.PaymentEventRequest) : M order_db pb.PaymentEventResponse :=
  r <- orderServer.BeginPaymentEvent now (event_of req) ;;
  let '(event, order, accepted) := r in
  ret (pb.MkPaymentEventResponse (wrap64 (PaymentEventDO.ID event)) accepted
         (seq (PaymentEventDO.Status event) "completed") (PaymentEventDO.OrderAmountFen event)
         (OrderInfoDO.Status order)).
Definition CompletePaymentEvent (now : Z) (req : pb.CompletePaymentEventRequest) : M order_db unit :=
  payments.CompletePaymentEvent now (wrapu64 (pb.CompleteId req)) (pb.CompleteSuccess req) (pb.CompleteDetail req).
Definition ListPaymentEvents (req : pb.PaymentEventListRequest) : M order_db pb.PaymentEventListResponse :=
  r <- orderServer.ListPaymentEvents (pb.EvListOrderSn req) (pb.EvListPage req) (pb.EvListPageSize req)
         (pb.MismatchesOnly req) ;;
  let '(items, total, mismatches) := r in
  ret (pb.MkPaymentEventListResponse (wrap32 total) (event_record <$> items) (wrap32 mismatches)).

Definition ClaimRefundJobs (now : Z) (req : pb.ClaimRefundJobsRequest) : M order_db (list pb.RefundJob) :=
  jobs <- payments.ClaimRefundJobs now (pb.Limit req) (pb.ClaimMaxAttempts req)
            (wrap64 (pb.LockTimeoutSeconds req * Second)) ;;
  ret (job_message <$> jobs).
Definition CompleteRefundJob (now : Z) (req : pb.CompleteRefundJobRequest) : M order_db unit :=
  orderServer.CompleteRefundJob now (wrapu64 (pb.DoneId req)) (pb.DoneSuccess req) (pb.DoneProvider req)
    (pb.DoneRefundId req) (pb.DoneStatus req) (pb.DoneDetail req) (pb.DoneMaxAttempts req).
Definition RetryDeadRefundJob (now id : Z) : M order_db pb.RetryDeadRefundJobResponse :=
  job <- payments.RetryDeadRefundJob now (wrapu64 id) ;;
  ret (pb.MkRetryDeadRefundJobResponse (wrap64 (RefundJob.OutboxID job)) "retry" (wrap32 (RefundJob.Attempts job))
         (RefundJob.CorrelationID job)).

Definition transaction_of (provider : string) (item : pb.ProviderTransaction) : PaymentEventDO.t :=
  PaymentEventDO.mk 0 provider (pb.TxEventId item) (pb.TxOrderSn item) (pb.TxTradeNo item) (pb.TxEventType item)
    0 (pb.TxAmountFen item) 0 "" "" (pb.TxOccurredAt item * Second) None.
Definition ReconcilePayments (now finished : Z) (req : pb.ReconcilePaymentsRequest)
    : M order_db pb.ReconcilePaymentsResponse :=
  run <- payments.ReconcilePayments now finished (pb.RcProvider req) (pb.RcWindowStart req * Second)
           (pb.RcWindowEnd req * Second) (transaction_of (pb.RcProvider req) <$> pb.RcTransactions req) ;;
  ret (pb.MkReconcilePaymentsResponse (wrap64 (PaymentReconciliationRunDO.ID run))
         (wrap32 (PaymentReconciliationRunDO.CheckedCount run)) (wrap32 (PaymentReconciliationRunDO.MismatchCount run))).

Definition ListPaymentReconciliationRuns (req : pb.ReconciliationListRequest)
    : M order_db (Z * list pb.PaymentReconciliationRunRecord) :=
  r <- readService.ListPaymentReconciliationRuns (pb.RlProvider req) (optionalUnixTime (pb.RlWindowStart req))
         (optionalUnixTime (pb.RlWindowEnd req)) (pb.RlPage req) (pb.RlPageSize req) ;;
  ret (wrap32 r.2, run_record <$> r.1).
Definition ListPaymentReconciliationItems (req : pb.ReconciliationListRequest)
    : M order_db (Z * list pb.PaymentReconciliationItemRecord) :=
  r <- readService.ListPaymentReconciliationItems (pb.RlProvider req) (optionalUnixTime (pb.RlWindowStart req))
         (optionalUnixTime (pb.RlWindowEnd req)) (pb.RlResult req) (wrapu64 (pb.RlRunId req)) (pb.RlPage req)
         (pb.RlPageSize req) ;;
  ret (wrap32 r.2, item_record <$> r.1).

Definition GetOrderTrace (req : option pb.OrderTraceRequest) : M order_db pb.OrderTraceResponse :=
  match req with
  | None => fail (required "order trace request is required")
  | Some req =>
    trace <- readService.GetOrderTrace
               (MkOrderTraceLookup (pb.TrOrderSn req) (pb.TrTradeNo req) (pb.TrCorrelationId req)) ;;
    ret (pb.MkOrderTraceResponse (MatchedBy trace) (MatchedValue trace)
           (Some (orderToDetailResponse format_time (TraceOrder trace))) (statusLogsToResponse (OrderTrace.StatusLogs trace))
           (pb.MkPaymentEventListResponse (wrap32 (Z.of_nat (length (PaymentEvents trace))))
              (event_record <$> PaymentEvents trace) (wrap32 (countTraceMismatches (PaymentEvents trace))))
           (refund_record <$> Refunds trace))
  end.
End Handlers.
End orderHandlers.
