(* ===== verification/OrderGateway.v ===== *)
(** * The order part of the API gateway: [app/goshop/api/internal/service/order/v1/order.go]

    The gateway keeps no tables of its own: every operation is a sequence of calls to
    the order and the inventory service.  Its operations are written against the
    clients' interfaces, over any state [D]; [server_orders] and [server_stock] are
    the clients of the two services as modelled, over the [world] of both databases,
    through a network that can lose a request or a response. *)
From S2P Require Import Prelude GoStrings Errors GoMonad ErrorTransport Tables OrderModel InventoryModel.
From S2P Require Import OrderService OrderServer OrderHandlers InventoryServer.
Import orderServer.
Import InvDo(inv_db).
Open Scope go_scope.

(** ** Clients *)

(** The clients of [api/order/v1] and [api/inventory/v1]: a pointer response is an
    option, an empty one [unit]. *)
Record OrderClient (D : Type) := MkOrderClient {
  CartItemList : Z -> M D (option pb.CartItemListResponse);
  CreateCartItem : pb.CartItemRequest -> M D (option pb.ShopCartInfoResponse);
  UpdateCartItem : pb.CartItemRequest -> M D unit;
  DeleteCartItem : pb.CartItemRequest -> M D unit;
  SubmitOrder : submit.OrderRequest -> M D unit;
  OrderList : pb.OrderFilterRequest -> M D (option pb.OrderListResponse);
  OrderDetail : Z * string -> M D (option pb.OrderInfoDetailResponse);
  OrderStatusLogs : Z * string -> M D (option pb.OrderStatusLogListResponse);
  GetOrderBySn : string -> M D (option pb.OrderInfoDetailResponse);
  UpdateOrderStatus : OrderStatusMsg -> M D unit;
  BeginPaymentEvent : pb.PaymentEventRequest -> M D (option pb.PaymentEventResponse);
  CompletePaymentEvent : pb.CompletePaymentEventRequest -> M D unit;
  ClaimRefundJobs : pb.ClaimRefundJobsRequest -> M D (list pb.RefundJob);
  CompleteRefundJob : pb.CompleteRefundJobRequest -> M D unit;
  ReconcilePayments : pb.ReconcilePaymentsRequest -> M D (option pb.ReconcilePaymentsResponse)
}.
Record InventoryClient (D : Type) := MkInventoryClient {
  Confirm : inventoryServer.SellInfo -> M D unit;
  Release : inventoryServer.SellInfo -> M D unit
}.
Record DataFactory (D : Type) := MkDataFactory {
  Orders : option (OrderClient D);
  Inventory : option (InventoryClient D)
}.
Arguments CartItemList {D}. Arguments CreateCartItem {D}. Arguments UpdateCartItem {D}.
Arguments DeleteCartItem {D}. Arguments SubmitOrder {D}. Arguments OrderList {D}. Arguments OrderDetail {D}.
Arguments OrderStatusLogs {D}. Arguments GetOrderBySn {D}. Arguments UpdateOrderStatus {D}.
Arguments BeginPaymentEvent {D}. Arguments CompletePaymentEvent {D}. Arguments ClaimRefundJobs {D}.
Arguments CompleteRefundJob {D}. Arguments ReconcilePayments {D}.
Arguments Confirm {D}. Arguments Release {D}. Arguments Orders {D}. Arguments Inventory {D}.
Arguments MkDataFactory {D}.

(** ** Payment providers ([payment/provider.go]) *)
Module payment.
Record InitiateRequest := MkInitiateRequest { OrderSN : string; AmountFen : Z; Subject : string }.
Record CallbackRequest := MkCallbackRequest {
  Provider : string; EventID : string; EventType : string; CbOrderSN : string; TradeNo : string; CbAmountFen : Z
}.
Record InitiateResponse := MkInitiateResponse {
  PaymentID : string; RespProvider : string; CheckoutURL : string; ExpiresAt : Z
}.
Record RefundRequest := MkRefundRequest {
  RequestID : string; RfOrderSN : string; RfTradeNo : string; RfAmountFen : Z; RfReason : string
}.
Record RefundResponse := MkRefundResponse { ProviderRefundID : string; RfStatus : string }.
Record Transaction := MkTransaction {
  TxEventID : string; TxOrderSN : string; TxTradeNo : string; TxEventType : string; TxAmountFen : Z; OccurredAt : Z
}.
(** [Provider]; [Refund] answers with a response even when it fails. *)
Record PaymentProvider (D : Type) := MkPaymentProvider {
  Initiate : InitiateRequest -> M D InitiateResponse;
  Refund : RefundRequest -> M D (RefundResponse * option goerr);
  ListTransactions : Z -> Z -> M D (list Transaction)
}.
End payment.
Arguments payment.Initiate {D}. Arguments payment.Refund {D}. Arguments payment.ListTransactions {D}.

(** [options.PaymentOptions]; durations are nanoseconds. *)
Record PaymentOptions := MkPaymentOptions {
  Enabled : bool; OptProvider : string; CheckoutBaseURL : string; RefundURL : string; ReconcileURL : string;
  CallbackSecret : string; CallbackMaxSkew : Z; RequestTimeout : Z; WorkerInterval : Z;
  WorkerBatchTimeout : Z; WorkerBatchSize : Z; MaxAttempts : Z
}.

(** ** Requests *)
Record PayCallbackRequest := MkPayCallbackRequest {
  ReqUserID : Z; ReqOrderSn : string; ReqPayType : string; ReqTradeNo : string; ReqSuccess : bool
}.
Record CartItemReq := MkCartItemReq { ReqGoodsID : Z; ReqNums : Z; ReqChecked : bool }.
Record SubmitOrderRequest := MkSubmitOrderRequest {
  SubOrderSn : string; SubAddress : string; SubName : string; SubMobile : string; SubPost : string
}.
Record OrderListFilter := MkOrderListFilter { FilterPages : Z; FilterPagePerNums : Z }.
Record PaymentInitiation := MkPaymentInitiation {
  InitPaymentID : string; InitProvider : string; InitCheckoutURL : string; InitExpiresAt : Z; InitAmountFen : Z
}.

Module gateway.
Import orderService(seq).

Definition orderStatusPaying : string := "PAYING".
Definition orderStatusWaitBuyerPay : string := "WAIT_BUYER_PAY".
Definition orderStatusTradeSuccess : string := "TRADE_SUCCESS".
Definition orderStatusTradeClosed : string := "TRADE_CLOSED".
Definition orderStatusTradeFinish : string := "TRADE_FINISHED".
Definition defaultOrderPage : Z := 1.
Definition defaultOrderPageSize : Z := 10.

(** Getters of a message that may be nil. *)
Definition GetOrderInfo (d : option pb.OrderInfoDetailResponse) : option pb.OrderInfoResponse := d ≫= pb.OrderInfo.
Definition GetStatus (i : option pb.OrderInfoResponse) : string := match i with Some i => pb.Status i | None => "" end.
Definition GetTotalFen (i : option pb.OrderInfoResponse) : Z := match i with Some i => pb.TotalFen i | None => 0 end.
Definition GetGoods (d : option pb.OrderInfoDetailResponse) : list (option pb.OrderItemResponse) :=
  match d with Some d => pb.Goods d | None => [] end.
Definition GetAccepted (r : option pb.PaymentEventResponse) : bool := match r with Some r => pb.Accepted r | None => false end.
Definition GetCompleted (r : option pb.PaymentEventResponse) : bool := match r with Some r => pb.Completed r | None => false end.
Definition GetId (r : option pb.PaymentEventResponse) : Z := match r with Some r => pb.EvId r | None => 0 end.
Definition GetOrderAmountFen (r : option pb.PaymentEventResponse) : Z :=
  match r with Some r => pb.OrderAmountFen r | None => 0 end.

(** [sellInfoFromOrder] *)
Fixpoint sell_lines (goods : list (option pb.OrderItemResponse)) : option (list inventoryServer.GoodsInvInfo) :=
  match goods with
  | [] => Some []
  | None :: _ => None
  | Some item :: goods =>
    if (pb.GoodsId item <=? 0) || (pb.Nums item <=? 0) then None
    else lines ← sell_lines goods;
         Some (inventoryServer.MkGoodsInvInfo (pb.GoodsId item) (pb.Nums item) 0 0 0 0 0 "" "" "" :: lines)
  end.
Definition sellInfoFromOrder (orderSn : string) (goods : list (option pb.OrderItemResponse))
    : inventoryServer.SellInfo + goerr :=
  match sell_lines goods with
  | None => inr (newCode ErrOrderStatusInvalid "order goods are invalid")
  | Some [] => inr (newCode ErrOrderStatusInvalid "order goods are required")
  | Some lines => inl (inventoryServer.MkSellInfo lines orderSn)
  end.

Definition canApplyPayCallback (currentStatus targetStatus : string) : bool :=
  let currentStatus := TrimSpace currentStatus in
  let targetStatus := TrimSpace targetStatus in
  if seq currentStatus "" || seq currentStatus targetStatus then true
  else if seq currentStatus orderStatusWaitBuyerPay
  then seq targetStatus orderStatusPaying || seq targetStatus orderStatusTradeSuccess
       || seq targetStatus orderStatusTradeClosed
  else if seq currentStatus orderStatusPaying
  then seq targetStatus orderStatusTradeSuccess || seq targetStatus orderStatusTradeClosed
  else if seq currentStatus orderStatusTradeSuccess then seq targetStatus orderStatusTradeFinish
  else false.

Definition paymentEventAllowed (eventType status : string) : bool :=
  if seq eventType "payment_succeeded" || seq eventType "payment_failed"
  then seq status orderStatusWaitBuyerPay || seq status orderStatusPaying
  else if seq eventType "refund_succeeded" || seq eventType "refund_failed"
  then seq status "REFUND_PENDING"
  else false.

Definition normalizeOrderListFilter (filter : option OrderListFilter) : OrderListFilter :=
  match filter with
  | None => MkOrderListFilter defaultOrderPage defaultOrderPageSize
  | Some f =>
    MkOrderListFilter (if FilterPages f <=? 0 then defaultOrderPage else FilterPages f)
      (if FilterPagePerNums f <=? 0 then defaultOrderPageSize else FilterPagePerNums f)
  end.

(** [fmt.Sprintf("%d%08d", nano, userID%100000000)] *)
Definition pad8 (s : string) : string := implode (replicate (8 - slength s) "0"%char) +:+ s.
Definition generateOrderSn (nano userID : Z) : string := itoa nano +:+ pad8 (itoa (userID mod 100000000)).

Section Service.
Context {D : Type}.

Record orderService := MkOrderService {
  data : option (DataFactory D);
  provider : option (payment.PaymentProvider D);
  paymentOpts : option PaymentOptions
}.

Definition invalid_status (what : string) : goerr := newCode ErrOrderStatusInvalid what.
Definition connect (what : string) : goerr := newCode ErrConnectGRPC what.
Definition need {A B} (o : option A) (e : goerr) (k : A -> M D B) : M D B :=
  match o with Some a => k a | None => fail e end.
(** A method called on a nil interface. *)
Definition deref {A B} (o : option A) (k : A -> M D B) : M D B :=
  match o with Some a => k a | None => panic "invalid memory address or nil pointer dereference" end.
Definition need_data {B} (os : option orderService) (k : DataFactory D -> M D B) : M D B :=
  need (os ≫= data) (connect "order data client is not initialized") k.
Definition need_orders {B} (d : DataFactory D) (k : OrderClient D -> M D B) : M D B :=
  need (Orders d) (connect "order grpc client is not initialized") k.
Definition need_response {A} (m : M D (option A)) : M D A :=
  resp <- m ;; need resp (connect "order grpc response is empty") ret.

(** *** Carts and listings *)
Definition CartItemList (os : option orderService) (userID : Z) : M D pb.CartItemListResponse :=
  need_data os (fun d =>
    if userID =? 0 then ret (pb.MkCartItemListResponse 0 [])
    else need_orders d (fun client => need_response (OrderGateway.CartItemList client (wrap32 userID)))).

Definition invalid_cart (userID : Z) (req : option CartItemReq) : bool :=
  (userID =? 0) || match req with Some r => (ReqGoodsID r <=? 0) || (ReqNums r <=? 0) | None => true end.
Definition cart_request (userID : Z) (req : option CartItemReq) : pb.CartItemRequest :=
  match req with
  | Some r => pb.MkCartItemRequest 0 (wrap32 userID) (ReqGoodsID r) (ReqNums r) (ReqChecked r)
  | None => pb.MkCartItemRequest 0 (wrap32 userID) 0 0 false
  end.
Definition cart_not_found : goerr := newCode ErrShopCartItemNotFound "shop cart item not found".

Definition CreateCartItem (os : option orderService) (userID : Z) (req : option CartItemReq)
    : M D pb.ShopCartInfoResponse :=
  need_data os (fun d =>
    fail_if (invalid_cart userID req) cart_not_found ;;;
    need_orders d (fun client => need_response (OrderGateway.CreateCartItem client (cart_request userID req)))).
Definition UpdateCartItem (os : option orderService) (userID : Z) (req : option CartItemReq) : M D unit :=
  need_data os (fun d =>
    fail_if (invalid_cart userID req) cart_not_found ;;;
    need_orders d (fun client => OrderGateway.UpdateCartItem client (cart_request userID req))).
Definition DeleteCartItem (os : option orderService) (userID id : Z) : M D unit :=
  need_data os (fun d =>
    fail_if ((userID =? 0) || (id =? 0)) cart_not_found ;;;
    need_orders d (fun client =>
      OrderGateway.DeleteCartItem client (pb.MkCartItemRequest (wrap32 id) (wrap32 userID) 0 0 false))).

(** [nano] is the time the number is generated at. *)
Definition SubmitOrder (nano : Z) (os : option orderService) (userID : Z) (req : option SubmitOrderRequest)
    : M D string :=
  need_data os (fun d =>
    match req with
    | None => fail (newCode ErrSubmitOrder "order request is required")
    | Some req =>
      fail_if (userID =? 0) (newCode ErrSubmitOrder "order request is required") ;;;
      let address := TrimSpace (SubAddress req) in
      let name := TrimSpace (SubName req) in
      let mobile := TrimSpace (SubMobile req) in
      fail_if (seq address "" || seq name "" || seq mobile "")
        (newCode ErrSubmitOrder "address, name and mobile are required") ;;;
      let sn := TrimSpace (SubOrderSn req) in
      let sn := if seq sn "" then generateOrderSn nano userID else sn in
      need_orders d (fun client =>
        OrderGateway.SubmitOrder client
          (submit.MkOrderRequest sn (wrap32 userID) address name mobile (TrimSpace (SubPost req)) []) ;;;
        ret sn)
    end).

Definition OrderList (os : option orderService) (userID : Z) (filter : option OrderListFilter)
    : M D pb.OrderListResponse :=
  need_data os (fun d =>
    if userID =? 0 then ret (pb.MkOrderListResponse 0 [])
    else need_orders d (fun client =>
      let filter := normalizeOrderListFilter filter in
      need_response (OrderGateway.OrderList client
        (pb.MkOrderFilterRequest (wrap32 userID) (FilterPages filter) (FilterPagePerNums filter))))).

Definition order_not_found : goerr := newCode ErrOrderNotFound "order not found".
Definition OrderDetail (os : option orderService) (userID : Z) (orderSn : string) : M D pb.OrderInfoDetailResponse :=
  need_data os (fun d =>
    let orderSn := TrimSpace orderSn in
    fail_if ((userID =? 0) || seq orderSn "") order_not_found ;;;
    need_orders d (fun client =>
      resp <- need_response (OrderGateway.OrderDetail client (wrap32 userID, orderSn)) ;;
      match pb.OrderInfo resp with
      | None => fail order_not_found
      | Some _ => ret resp
      end)).
Definition OrderStatusLogs (os : option orderService) (userID : Z) (orderSn : string)
    : M D pb.OrderStatusLogListResponse :=
  need_data os (fun d =>
    let orderSn := TrimSpace orderSn in
    fail_if ((userID =? 0) || seq orderSn "") order_not_found ;;;
    need_orders d (fun client => need_response (OrderGateway.OrderStatusLogs client (wrap32 userID, orderSn)))).

(** A status message with the fields the gateway fills in. *)
Definition status_msg (sn status payType tradeNo : string) (payTime : Z) (reason : string) : OrderStatusMsg :=
  MkOrderStatusMsg 0 sn status payType tradeNo payTime reason 0 0 "" "".

(** *** Payment *)
Definition InitiatePayment (os : option orderService) (userID : Z) (orderSN : string) : M D PaymentInitiation :=
  match os with
  | Some (MkOrderService d provider (Some opts)) =>
    fail_if (negb (Enabled opts)) (connect "payment provider is disabled") ;;;
    detail <- OrderDetail os userID orderSN ;;
    let status := TrimSpace (GetStatus (pb.OrderInfo detail)) in
    fail_if (negb (seq status orderStatusWaitBuyerPay) && negb (seq status orderStatusPaying))
      (invalid_status "order cannot be paid in current status") ;;;
    let amount := GetTotalFen (pb.OrderInfo detail) in
    deref provider (fun provider =>
      result <- payment.Initiate provider (payment.MkInitiateRequest orderSN amount "goshop order") ;;
      deref (d ≫= Orders) (fun client =>
        UpdateOrderStatus client (status_msg orderSN orderStatusPaying "" "" 0 "") ;;;
        ret (MkPaymentInitiation (payment.PaymentID result) (payment.RespProvider result)
               (payment.CheckoutURL result) (Unix (payment.ExpiresAt result)) amount)))
  | _ => fail (connect "payment provider is disabled")
  end.

Definition CancelOrder (os : option orderService) (userID : Z) (orderSN : string) : M D unit :=
  detail <- OrderDetail os userID orderSN ;;
  let current := TrimSpace (GetStatus (pb.OrderInfo detail)) in
  fail_if (negb (seq current orderStatusWaitBuyerPay) && negb (seq current orderStatusPaying))
    (invalid_status "order cannot be cancelled in current status") ;;;
  match sellInfoFromOrder orderSN (pb.Goods detail) with
  | inr err => fail err
  | inl sellInfo =>
    deref (os ≫= data) (fun d =>
      deref (Inventory d) (fun stock =>
        Release stock sellInfo ;;;
        deref (Orders d) (fun client =>
          UpdateOrderStatus client (status_msg orderSN orderStatusTradeClosed "" "" 0 "cancelled by customer"))))
  end.

(** [defer]: [after] runs however [body] ended, with its value if it returned; only
    a panic of its own changes the outcome. *)
Definition with_defer {A} (body : M D A) (after : option A -> M D unit) : M D A := fun s =>
  let '(r, s1) := body s in
  match after (match r with Ret a => Some a | _ => None end) s1 with
  | (Panic p, s2) => (Panic p, s2)
  | (_, s2) => (r, s2)
  end.

(** [if err != nil { detail = ..; return false, err }]: what the rest of the callback
    ended with, nothing when it succeeded. *)
Definition step {A} (detail : string) (m : M D A) (k : A -> M D (option (string * goerr)))
    : M D (option (string * goerr)) :=
  r <- attempt m ;;
  match r with inl a => k a | inr err => ret (Some (detail, err)) end.

Definition is_refund (eventType : string) : bool := seq eventType "refund_succeeded" || seq eventType "refund_failed".

(** The body the deferred completion follows. *)
Definition process_event (now : Z) (d : DataFactory D) (orders : OrderClient D) (req : payment.CallbackRequest)
    (orderAmount : Z) : M D (option (string * goerr)) :=
  let isRefund := is_refund (payment.EventType req) in
  let amount := payment.CbAmountFen req in
  let amountMismatch := negb isRefund && negb (amount =? orderAmount) in
  let invalidRefund := isRefund && ((amount <=? 0) || (orderAmount <? amount)) in
  if amountMismatch || invalidRefund
  then ret (Some ("payment amount mismatch", invalid_status "payment amount mismatch"))
  else
    step "load order failed" (GetOrderBySn orders (payment.CbOrderSN req)) (fun orderDetail =>
    let currentStatus := TrimSpace (GetStatus (GetOrderInfo orderDetail)) in
    if negb (paymentEventAllowed (payment.EventType req) currentStatus)
    then ret (Some ("payment event is out of order", invalid_status "payment event is out of order"))
    else
      match sellInfoFromOrder (payment.CbOrderSN req) (GetGoods orderDetail) with
      | inr err => ret (Some ("invalid order items", err))
      | inl sellInfo =>
        let finish target :=
          step "update order status failed"
            (UpdateOrderStatus orders
               (status_msg (payment.CbOrderSN req) target (payment.Provider req) (payment.TradeNo req)
                  (if seq target orderStatusTradeSuccess then Unix now else 0) ""))
            (fun _ => ret None) in
        if seq (payment.EventType req) "payment_succeeded" then
          deref (Inventory d) (fun stock =>
            step "confirm inventory failed" (Confirm stock sellInfo) (fun _ => finish orderStatusTradeSuccess))
        else if seq (payment.EventType req) "payment_failed" then
          deref (Inventory d) (fun stock =>
            step "release inventory failed" (Release stock sellInfo) (fun _ => finish orderStatusTradeClosed))
        else if seq (payment.EventType req) "refund_succeeded" then finish "REFUNDED"
        else if seq (payment.EventType req) "refund_failed" then finish "REFUND_FAILED"
        else ret (Some ("unknown payment event", invalid_status "unknown payment event"))
      end).

Definition invalid_callback (req : payment.CallbackRequest) : bool :=
  seq (payment.Provider req) "" || seq (payment.EventID req) "" || seq (payment.EventType req) ""
  || seq (payment.CbOrderSN req) "" || (payment.CbAmountFen req <? 0).

(** [true] for a callback that was processed before. *)
Definition ProcessPayCallback (now : Z) (os : option orderService) (req : option payment.CallbackRequest) : M D bool :=
  match req with
  | None => fail (invalid_status "payment callback is invalid")
  | Some req =>
    fail_if (invalid_callback req) (invalid_status "payment callback is invalid") ;;;
    deref (os ≫= data) (fun d =>
      deref (Orders d) (fun orders =>
        begin <- BeginPaymentEvent orders
          (pb.MkPaymentEventRequest (payment.Provider req) (payment.EventID req) (payment.CbOrderSN req)
             (payment.TradeNo req) (payment.EventType req) (payment.CbAmountFen req)
             (if is_refund (payment.EventType req) then payment.CbAmountFen req else 0)) ;;
        if negb (GetAccepted begin) then
          if GetCompleted begin then ret true
          else fail (connect "payment callback is already processing")
        else
          r <- with_defer (process_event now d orders req (GetOrderAmountFen begin)) (fun r =>
            attempt (CompletePaymentEvent orders
              (pb.MkCompletePaymentEventRequest (GetId begin)
                 (match r with Some None => true | _ => false end)
                 (match r with
                  | Some None => ""
                  | Some (Some (detail, _)) => detail
                  | None => "callback processing failed"
                  end))) ;;;
            ret tt) ;;
          match r with
          | Some (_, err) => fail err
          | None => ret false
          end))
  end.

Definition SimulatePayCallback (now : Z) (os : option orderService) (req : option PayCallbackRequest) : M D unit :=
  need_data os (fun d =>
    match req with
    | None => fail (invalid_status "pay callback request is required")
    | Some req =>
      let sn := TrimSpace (ReqOrderSn req) in
      let payType := TrimSpace (ReqPayType req) in
      let tradeNo := TrimSpace (ReqTradeNo req) in
      fail_if ((ReqUserID req =? 0) || seq sn "") (invalid_status "user_id and order_sn are required") ;;;
      need_orders d (fun client =>
      need (Inventory d) (connect "inventory grpc client is not initialized") (fun inventoryClient =>
      orderDetail <- OrderGateway.OrderDetail client (wrap32 (ReqUserID req), sn) ;;
      match GetOrderInfo orderDetail with
      | None => fail order_not_found
      | Some info =>
        fail_if (ReqSuccess req && seq tradeNo "") (invalid_status "trade_no is required for paid callback") ;;;
        let targetStatus := if ReqSuccess req then orderStatusTradeSuccess else orderStatusTradeClosed in
        fail_if (negb (canApplyPayCallback (TrimSpace (pb.Status info)) targetStatus))
          (invalid_status "invalid order status transition") ;;;
        match sellInfoFromOrder sn (GetGoods orderDetail) with
        | inr err => fail err
        | inl sellInfo =>
          (if ReqSuccess req then Confirm inventoryClient sellInfo else Release inventoryClient sellInfo) ;;;
          UpdateOrderStatus client
            (if ReqSuccess req then status_msg sn targetStatus payType tradeNo (Unix now) ""
             else status_msg sn targetStatus "" "" 0 "")
        end
      end))
    end).
End Service.
End gateway.

(** ** The services behind the clients *)

(** The two databases a call of the gateway can change. *)
Record world := World { order_tables : order_db; stock_tables : inv_db }.

(** A handler of one service, in the world: it shares the schedule of faults. *)
Definition on_orders {A} (m : M order_db A) : M world A := fun s =>
  let '(r, s') := m (Env (order_tables (e_db s)) (e_faults s)) in
  (r, Env (World (e_db s') (stock_tables (e_db s))) (e_faults s')).
Definition on_stock {A} (m : M inv_db A) : M world A := fun s =>
  let '(r, s') := m (Env (stock_tables (e_db s)) (e_faults s)) in
  (r, Env (World (order_tables (e_db s)) (e_db s')) (e_faults s')).

Section Servers.
Context `{G : grpc_status}.

Definition codes_Unknown : Z := 2.
(** The status the server sends for an error: its own, or [Unknown] with its text. *)
Definition on_wire (e : goerr) : goerr :=
  match FromError e with
  | Some (code, message, details) => Status code message details
  | None => Status codes_Unknown (error_text e) []
  end.
(** The interceptors around a handler: [UnaryErrorInterceptorWithMapper] with
    [grpcerror.Map], and [UnaryCrashInterceptor]. *)
Definition served {D A} (handler : M D A) : M D A := fun s =>
  match handler s with
  | (Ret a, s') => (Ret a, s')
  | (Fail e, s') => (Fail (on_wire (grpcerror.Map e)), s')
  | (Panic _, s') => (Fail (Status codes.Internal "internal server error" []), s')
  end.

(** A unary call: the request may never arrive, the response may be lost. *)
Definition unavailable (msg : string) : goerr := Status codes.Unavailable msg [].
Definition invoke {D A} (handler : M D A) : M D A := fun s =>
  match next_fault s with
  | (Some msg, s1) => (Fail (unavailable msg), s1)
  | (None, s1) =>
    match served handler s1 with
    | (Ret a, s2) =>
      match next_fault s2 with
      | (Some msg, s3) => (Fail (unavailable msg), s3)
      | (None, s3) => (Ret a, s3)
      end
    | r => r
    end
  end.

(** Whether Redis grants the lock of an inventory call. *)
Definition ask_lock {D} : M D (option goerr) := fun s =>
  let '(f, s') := next_fault s in (Ret (Driver <$> f), s').

Definition call_stock {A} (m : option goerr -> M inv_db A) : M world A :=
  invoke (on_stock (lock <- ask_lock ;; m lock)).
Definition call_orders {A} (m : M order_db A) : M world A := invoke (on_orders m).
Definition ptr {D A} (m : M D A) : M D (option A) := a <- m ;; ret (Some a).

Context (format_time : Z -> string).
Context (sql_carts : list (string * bool) -> list ShoppingCartDO.t -> list ShoppingCartDO.t).
Context (sql_orders : list (string * bool) -> list OrderInfoDO.t -> list OrderInfoDO.t).
(** The server's clock when it handles a call of a method, the address of the DTM
    coordinator, and the coordinator's answer to a submitted saga. *)
Context (clock : string -> Z) (grpcServer : option string) (dtm : submit.saga -> M order_db unit).

Definition server_orders : OrderClient world := {|
  CartItemList id := ptr (call_orders (orderHandlers.CartItemList sql_carts (Some id)));
  CreateCartItem r := ptr (call_orders (orderHandlers.CreateCartItem (Some r)));
  UpdateCartItem r := call_orders (orderHandlers.UpdateCartItem (Some r));
  DeleteCartItem r := call_orders (orderHandlers.DeleteCartItem (Some r));
  SubmitOrder r :=
    call_orders (saga <- orderServer.SubmitOrder sql_carts grpcServer (Some r) ;; dtm saga);
  OrderList r := ptr (call_orders (orderHandlers.OrderList format_time sql_orders (Some r)));
  OrderDetail r := ptr (call_orders (orderHandlers.OrderDetail format_time (Some r)));
  OrderStatusLogs r := ptr (call_orders (orderHandlers.OrderStatusLogs (Some r)));
  GetOrderBySn sn := ptr (call_orders (orderHandlers.GetOrderBySn sn));
  UpdateOrderStatus r := call_orders (orderServer.UpdateOrderStatus (clock "UpdateOrderStatus") (Some r));
  BeginPaymentEvent r := ptr (call_orders (orderHandlers.BeginPaymentEvent (clock "BeginPaymentEvent") r));
  CompletePaymentEvent r := call_orders (orderHandlers.CompletePaymentEvent (clock "CompletePaymentEvent") r);
  ClaimRefundJobs r := call_orders (orderHandlers.ClaimRefundJobs (clock "ClaimRefundJobs") r);
  CompleteRefundJob r := call_orders (orderHandlers.CompleteRefundJob (clock "CompleteRefundJob") r);
  ReconcilePayments r :=
    ptr (call_orders (orderHandlers.ReconcilePayments (clock "ReconcilePayments") (clock "ReconcilePayments.finish") r))
|}.

Definition server_stock : InventoryClient world := {|
  Confirm r := call_stock (fun lock => inventoryServer.Confirm lock (Some r));
  Release r := call_stock (fun lock => inventoryServer.Release lock (Some r))
|}.

(** The gateway wired to the two services. *)
Definition wired (provider : option (payment.PaymentProvider world)) (opts : option PaymentOptions)
    : option gateway.orderService :=
  Some (gateway.MkOrderService (Some (MkDataFactory (Some server_orders) (Some server_stock))) provider opts).
End Servers.
