(* ===== verification/OrderHistory.v ===== *)
(** * The history of an order

    The status machine, and the audit trail it leaves: in every state the system
    can reach, the log entries of a live order replay, by allowed transitions only,
    from nothing to the status the order has. *)
From S2P Require Import Prelude GoStrings Errors GoMonad Tables Money OrderModel OrderStore CartStore.
From S2P Require Import PaymentStore OrderService OrderServer.
Import orderService.
Open Scope go_scope.

(** ** The status machine *)

Definition edges : list (string * string) := [
  (OrderStatusWaitBuyerPay, OrderStatusPaying);
  (OrderStatusWaitBuyerPay, OrderStatusTradeSuccess);
  (OrderStatusWaitBuyerPay, OrderStatusTradeClosed);
  (OrderStatusPaying, OrderStatusTradeSuccess);
  (OrderStatusPaying, OrderStatusTradeClosed);
  (OrderStatusTradeSuccess, OrderStatusTradeFinished);
  (OrderStatusTradeSuccess, OrderStatusRefundPending);
  (OrderStatusTradeFinished, OrderStatusRefundPending);
  (OrderStatusRefundPending, OrderStatusRefunded);
  (OrderStatusRefundPending, OrderStatusRefundFailed);
  (OrderStatusRefundFailed, OrderStatusRefundPending)].
Definition edge (a b : string) : Prop := (a, b) ∈ edges.
#[export] Instance edge_dec a b : Decision (edge a b).
Proof. unfold edge. exact _. Defined.

Lemma valid_cases (P : string -> Prop) :
  Forall P validOrderStatuses -> forall st, isValidOrderStatus st = true -> P st.
Proof. intros H st Hv. apply bool_decide_eq_true in Hv. rewrite Forall_forall in H. by apply H. Qed.

Lemma can_transition_edges current next :
  isValidOrderStatus current = true -> isValidOrderStatus next = true ->
  canTransitionOrderStatus current next = bool_decide (current = next \/ edge current next).
Proof.
  revert current. apply (valid_cases (fun c => isValidOrderStatus next = true -> canTransitionOrderStatus c next
    = bool_decide (c = next \/ edge c next))).
  repeat (apply Forall_cons; split; [revert next; apply valid_cases; repeat constructor; vm_compute; reflexivity|]).
  constructor.
Qed.

(** On valid statuses the transition check is exactly the status machine: stay,
    or follow one of its eleven edges. *)
Theorem canTransitionOrderStatus_spec current next :
  isValidOrderStatus current = true -> isValidOrderStatus next = true ->
  canTransitionOrderStatus current next = true <-> current = next \/ edge current next.
Proof. intros Hc Hn. rewrite can_transition_edges by done. apply bool_decide_eq_true. Qed.

Lemma canTransitionOrderStatus_spec_witness :
  canTransitionOrderStatus OrderStatusPaying OrderStatusTradeSuccess = true <->
  OrderStatusPaying = OrderStatusTradeSuccess \/ edge OrderStatusPaying OrderStatusTradeSuccess.
Proof. apply (canTransitionOrderStatus_spec OrderStatusPaying OrderStatusTradeSuccess); vm_compute; reflexivity. Defined.

(** ** Replaying a log *)

Definition legal (from to : string) : bool :=
  bool_decide ((from = "" /\ to = OrderStatusWaitBuyerPay) \/ edge from to).

Fixpoint replay (from : string) (logs : list OrderStatusLogDO.t) : option string :=
  match logs with
  | [] => Some from
  | l :: logs =>
    if bool_decide (OrderStatusLogDO.FromStatus l = from) && legal from (OrderStatusLogDO.ToStatus l)
    then replay (OrderStatusLogDO.ToStatus l) logs else None
  end.

Definition logs_of (id : Z) (logs : list OrderStatusLogDO.t) : list OrderStatusLogDO.t :=
  List.filter (fun l => OrderStatusLogDO.OrderID l =? id) logs.

Definition olive (o : OrderInfoDO.t) : bool := negb (OrderInfoDO.DeletedAt o).

Record hist_ok (d : order_db) : Prop := {
  h_ids : NoDup (OrderInfoDO.ID <$> orderinfo d);
  h_sns : NoDup (OrderInfoDO.OrderSn <$> List.filter olive (orderinfo d));
  h_status : Forall (fun o => olive o = true -> isValidOrderStatus (OrderInfoDO.Status o) = true) (orderinfo d);
  h_replay : Forall (fun o => olive o = true ->
    replay "" (logs_of (OrderInfoDO.ID o) (order_status_logs d)) = Some (OrderInfoDO.Status o)) (orderinfo d);
  h_logs : Forall (fun l => OrderStatusLogDO.OrderID l ∈ OrderInfoDO.ID <$> orderinfo d) (order_status_logs d)
}.

Lemma replay_app from l1 l2 : replay from (l1 ++ l2) = replay from l1 ≫= fun st => replay st l2.
Proof. revert from. induction l1 as [|l l1 IH]; intros from; simpl; [done|]. case_match; [apply IH|done]. Qed.

Lemma logs_of_app id l1 l2 : logs_of id (l1 ++ l2) = logs_of id l1 ++ logs_of id l2.
Proof. apply List.filter_app. Qed.

Lemma sn_is_true sn o : sn_is sn o = true <-> olive o = true /\ OrderInfoDO.OrderSn o = sn.
Proof. unfold sn_is, olive. by bprop. Qed.

(** The live row a number or an id names is unique. *)
Lemma elem_of_filter_olive o l : o ∈ List.filter olive l <-> o ∈ l /\ olive o = true.
Proof. rewrite !list_elem_of_In. apply filter_In. Qed.

Lemma sn_unique d o r :
  hist_ok d -> o ∈ orderinfo d -> r ∈ orderinfo d -> olive o = true -> olive r = true ->
  OrderInfoDO.OrderSn o = OrderInfoDO.OrderSn r -> o = r.
Proof.
  intros Hd Ho Hr Lo Lr E. eapply (NoDup_fmap_eq OrderInfoDO.OrderSn); [apply (h_sns _ Hd)| | |done];
    by apply elem_of_filter_olive.
Qed.

Lemma id_unique d o r :
  hist_ok d -> o ∈ orderinfo d -> r ∈ orderinfo d -> OrderInfoDO.ID o = OrderInfoDO.ID r -> o = r.
Proof. intros Hd Ho Hr E. by eapply (NoDup_fmap_eq OrderInfoDO.ID); [apply (h_ids _ Hd)|..]. Qed.

(** ** The three ways a history moves *)

Lemma hist_frame d d' :
  orderinfo d' = orderinfo d -> order_status_logs d' = order_status_logs d -> hist_ok d -> hist_ok d'.
Proof. intros E1 E2 [H1 H2 H3 H4 H5]. split; rewrite ?E1, ?E2; done. Qed.

Lemma fmap_if_same {A B} (g : A -> B) (p : A -> bool) (f : A -> A) (l : list A) :
  (forall r, g (f r) = g r) -> g <$> ((fun r => if p r then f r else r) <$> l) = g <$> l.
Proof. intros H. rewrite <- list_fmap_compose. apply list_fmap_ext. intros i r _. simpl. by destruct (p r). Qed.

Lemma filter_olive_if (p : OrderInfoDO.t -> bool) f (l : list OrderInfoDO.t) :
  (forall r, olive (f r) = olive r) -> (forall r, OrderInfoDO.OrderSn (f r) = OrderInfoDO.OrderSn r) ->
  OrderInfoDO.OrderSn <$> List.filter olive ((fun r => if p r then f r else r) <$> l) =
  OrderInfoDO.OrderSn <$> List.filter olive l.
Proof.
  intros Hl Hs. induction l as [|r l IH]; [done|]. rewrite fmap_cons. cbn [List.filter].
  assert (olive (if p r then f r else r) = olive r) as -> by (destruct (p r); auto).
  destruct (olive r); rewrite ?fmap_cons, IH; [|done]. f_equal. destruct (p r); auto.
Qed.

(** A live order changes status, with the entry that records it (none when the
    status stays). *)
Lemma hist_move d d' o (p : OrderInfoDO.t -> bool) (f : OrderInfoDO.t -> OrderInfoDO.t) (entry : list OrderStatusLogDO.t) :
  hist_ok d -> o ∈ orderinfo d -> olive o = true ->
  (forall r, r ∈ orderinfo d -> p r = true <-> r = o) ->
  (forall r, OrderInfoDO.ID (f r) = OrderInfoDO.ID r /\ OrderInfoDO.OrderSn (f r) = OrderInfoDO.OrderSn r /\
             olive (f r) = olive r) ->
  isValidOrderStatus (OrderInfoDO.Status (f o)) = true ->
  Forall (fun l => OrderStatusLogDO.OrderID l = OrderInfoDO.ID o) entry ->
  replay (OrderInfoDO.Status o) entry = Some (OrderInfoDO.Status (f o)) ->
  orderinfo d' = (fun r => if p r then f r else r) <$> orderinfo d ->
  order_status_logs d' = order_status_logs d ++ entry -> hist_ok d'.
Proof.
  intros Hd Ho Lo Hp Hf Hv He Hr E1 E2. pose proof Hd as [H1 H2 H3 H4 H5].
  assert (OrderInfoDO.ID <$> orderinfo d' = OrderInfoDO.ID <$> orderinfo d) as Eid.
  { rewrite E1. apply fmap_if_same. intros r. apply Hf. }
  split.
  - by rewrite Eid.
  - rewrite E1, filter_olive_if; [done|intros r; apply Hf..].
  - rewrite E1, Forall_fmap. rewrite Forall_forall in H3 |- *. intros r Hin. simpl.
    destruct (p r) eqn:Ep; [|by apply H3]. apply (Hp r Hin) in Ep as ->. done.
  - rewrite E1, Forall_fmap. rewrite Forall_forall in H4 |- *. intros r Hin. simpl.
    rewrite E2. intros Lr.
    assert (OrderInfoDO.ID (if p r then f r else r) = OrderInfoDO.ID r) as -> by (destruct (p r); [apply Hf|done]).
    rewrite logs_of_app, replay_app. destruct (p r) eqn:Ep.
    + apply (Hp r Hin) in Ep as ->. rewrite H4 by done. simpl.
      assert (logs_of (OrderInfoDO.ID o) entry = entry) as ->; [|done].
      clear -He. induction He as [|l entry Hl _ IH]; [done|]. unfold logs_of in *. simpl. by rewrite Hl, Z.eqb_refl, IH.
    + rewrite H4 by done. simpl. assert (logs_of (OrderInfoDO.ID r) entry = []) as ->; [|done].
      assert (OrderInfoDO.ID r <> OrderInfoDO.ID o) as Hne.
      { intros E. assert (r = o) by (by eapply id_unique). destruct (Hp r Hin) as [_ Hp']. rewrite Hp' in Ep; done. }
      clear -He Hne. induction He as [|l entry Hl _ IH]; [done|]. unfold logs_of in *. simpl.
      rewrite (proj2 (Z.eqb_neq _ _)); [done|congruence].
  - rewrite Eid, E2. apply Forall_app. split; [done|]. eapply Forall_impl; [exact He|]. intros l ->.
    by apply list_elem_of_fmap_2.
Qed.

(** A live order is deleted. *)
Lemma hist_delete d d' (p : OrderInfoDO.t -> bool) (f : OrderInfoDO.t -> OrderInfoDO.t) :
  hist_ok d -> (forall r, OrderInfoDO.ID (f r) = OrderInfoDO.ID r /\ olive (f r) = false) ->
  orderinfo d' = (fun r => if p r then f r else r) <$> orderinfo d ->
  order_status_logs d' = order_status_logs d -> hist_ok d'.
Proof.
  intros [H1 H2 H3 H4 H5] Hf E1 E2.
  assert (OrderInfoDO.ID <$> orderinfo d' = OrderInfoDO.ID <$> orderinfo d) as Eid.
  { rewrite E1. apply fmap_if_same. intros r. apply Hf. }
  split; rewrite ?Eid, ?E2; try done; rewrite E1.
  - eapply sublist_NoDup; [exact H2|]. clear -Hf.
    induction (orderinfo d) as [|r l IH]; [constructor|]. rewrite fmap_cons. cbn [List.filter]. destruct (p r).
    + destruct (Hf r) as [_ ->]. destruct (olive r); [by constructor|done].
    + destruct (olive r); rewrite ?fmap_cons; [by constructor|done].
  - rewrite Forall_fmap. eapply Forall_impl; [exact H3|]. intros r Hr. simpl. destruct (p r); [|done].
    destruct (Hf r) as [_ ->]. done.
  - rewrite Forall_fmap. eapply Forall_impl; [exact H4|]. intros r Hr. simpl. destruct (p r); [|done].
    destruct (Hf r) as [_ ->]. done.
Qed.

(** A new order appears, with its first entry. *)
Lemma hist_create d d' row entry :
  hist_ok d -> olive row = true -> OrderInfoDO.ID row ∉ OrderInfoDO.ID <$> orderinfo d ->
  find (sn_is (OrderInfoDO.OrderSn row)) (orderinfo d) = None ->
  isValidOrderStatus (OrderInfoDO.Status row) = true ->
  OrderStatusLogDO.OrderID entry = OrderInfoDO.ID row ->
  replay "" [entry] = Some (OrderInfoDO.Status row) ->
  orderinfo d' = orderinfo d ++ [row] -> order_status_logs d' = order_status_logs d ++ [entry] -> hist_ok d'.
Proof.
  intros [H1 H2 H3 H4 H5] L Hid Hsn Hv He Hr E1 E2. split; rewrite E1, ?E2.
  - rewrite fmap_app. apply NoDup_app. split; [done|]. split; [|apply NoDup_singleton].
    intros x Hx Hx'%list_elem_of_singleton. by subst.
  - rewrite List.filter_app, fmap_app. apply NoDup_app. split; [done|]. simpl. rewrite L.
    split; [|apply NoDup_singleton].
    intros x (r & -> & [Hr' Lr]%elem_of_filter_olive)%list_elem_of_fmap Hx%list_elem_of_singleton.
    eapply find_none in Hsn; [|by apply list_elem_of_In].
    assert (sn_is (OrderInfoDO.OrderSn row) r = true) by (by apply sn_is_true). congruence.
  - apply Forall_app. split; [done|]. by constructor.
  - apply Forall_app. split.
    + rewrite Forall_forall in H4 |- *. intros r Hin Lr. rewrite logs_of_app, replay_app, H4 by done. simpl.
      unfold logs_of. simpl. rewrite He, (proj2 (Z.eqb_neq _ _)); [done|]. intros E. apply Hid. rewrite E.
      by apply list_elem_of_fmap_2.
    + constructor; [|done]. intros _. rewrite logs_of_app.
      assert (logs_of (OrderInfoDO.ID row) (order_status_logs d) = []) as ->.
      { clear -Hid H5. induction H5 as [|l ls Hl _ IH]; [done|]. unfold logs_of in *. simpl.
        rewrite (proj2 (Z.eqb_neq _ _)); [done|]. intros E. apply Hid. by rewrite <- E. }
      unfold logs_of. simpl. by rewrite He, Z.eqb_refl.
  - rewrite fmap_app. apply Forall_app. split.
    + eapply Forall_impl; [exact H5|]. intros l Hl. apply elem_of_app. by left.
    + constructor; [|done]. rewrite He. apply elem_of_app. right. by left.
Qed.

(** ** What the store operations do to orders and logs *)

Lemma steps_eq_Get sn : steps eq (orders.Get sn).
Proof.
  unfold orders.Get, first_or, dberr, select_first, orders.preload_one. cbv zeta. steps_go.
Qed.

Lemma Get_Ret sn s o s' :
  orders.Get sn s = (Ret o, s') ->
  exists r, find (sn_is (TrimSpace sn)) (orderinfo (e_db s)) = Some r /\
    o = OrderInfoDO.set_goods (orders.goods_of (ordergoods (e_db s)) (OrderInfoDO.ID r)) r /\ e_db s' = e_db s.
Proof.
  intros H. pose proof (steps_eq_Get sn s) as E. rewrite H in E. simpl in E.
  unfold orders.Get, first_or, dberr, orders.preload_one in H. minv.
  match goal with F : select_first _ _ _ = _ |- _ => apply select_first_Ret in F as [-> E1] end.
  destruct (find _ _) as [r|] eqn:Ef; minv. exists r. split_and!; [done|by rewrite E1|done].
Qed.

Lemma Get_not_found sn s e s' :
  orders.Get sn s = (Fail e, s') -> IsCode e ErrOrderNotFound = true -> TrimSpace sn <> "" ->
  find (sn_is (TrimSpace sn)) (orderinfo (e_db s)) = None.
Proof.
  intros H Hc Hne. unfold orders.Get, first_or, dberr, bind, fail_if, wrap_err, select_first, query, stmt,
    orders.preload_one, ret, fail in H. rewrite bool_decide_eq_false_2 in H by done.
  pose proof (next_fault_db s) as E. destruct (next_fault s) as [[m|] s1]; simpl in *.
  - apply Fail_inj in H as <-. by rewrite IsCode_WrapDatabase_driver in Hc.
  - rewrite <- E. destruct (find (sn_is (TrimSpace sn)) (orderinfo (e_db s1))) as [r|]; [|done].
    unfold query, stmt in H. destruct (next_fault _) as [[m|] s2]; simpl in H; [|done].
    apply Fail_inj in H as <-. by rewrite IsCode_WrapDatabase_driver in Hc.
Qed.

Definition norm_update (o : OrderInfoDO.t) : OrderInfoDO.t :=
  OrderInfoDO.set_Status (TrimSpace (OrderInfoDO.Status o)) (OrderInfoDO.set_OrderSn (TrimSpace (OrderInfoDO.OrderSn o)) o).

Lemma orders_Update_Ret o s u s' :
  orders.Update (Some o) s = (Ret u, s') ->
  e_db s' = set_rows t_orderinfo
    ((fun r => if orders.update_target (norm_update o) r then orders.apply_update (norm_update o) r else r)
       <$> orderinfo (e_db s)) (e_db s).
Proof.
  unfold orders.Update. fold (norm_update o). intros H. minv.
  match goal with F : dberr _ _ = _ |- _ => apply wrap_err_Ret, update_where_Ret in F as [_ F] end. done.
Qed.

Lemma log_Create_Ret entry s u s' :
  orderStatusLogs.Create (Some entry) s = (Ret u, s') ->
  exists id, e_db s' = set_rows t_logs (order_status_logs (e_db s) ++
    [OrderStatusLogDO.mk id (OrderStatusLogDO.OrderID entry) (OrderStatusLogDO.OrderSn entry)
       (OrderStatusLogDO.FromStatus entry) (OrderStatusLogDO.ToStatus entry) (OrderStatusLogDO.Reason entry)
       (OrderStatusLogDO.Source entry) (OrderStatusLogDO.Operator entry)]) (e_db s).
Proof.
  unfold orderStatusLogs.Create. intros H. minv.
  match goal with F : dberr _ _ = _ |- _ => apply wrap_err_Ret, insert_row_Ret in F as (_ & _ & F); eexists; exact F end.
Qed.

(** Tables other than these two. *)
Definition frame_of (rows : list OrderInfoDO.t) (logs : list OrderStatusLogDO.t) (d : order_db) : Prop :=
  orderinfo d = rows /\ order_status_logs d = logs.

Definition untouched {A} (m : M order_db A) : Prop :=
  forall rows logs, keeps (frame_of rows logs) m.

Lemma untouched_Ret {A} (m : M order_db A) s a s' :
  untouched m -> m s = (Ret a, s') ->
  orderinfo (e_db s') = orderinfo (e_db s) /\ order_status_logs (e_db s') = order_status_logs (e_db s).
Proof. intros Hm H. by apply (Hm _ _ _ _ _ H). Qed.

Ltac untouched_go :=
  intros rows logs; keeps_go;
  try (apply keeps_stmt; let d := fresh in intros d [? ?]; unfold frame_of; repeat case_match; simpl; done).

Lemma untouched_CreateRefundRequest now r : untouched (orders.CreateRefundRequest now r).
Proof. unfold orders.CreateRefundRequest, dberr, insert_row. untouched_go. Qed.

Lemma untouched_DeleteByGoodsIDs u ids : untouched (shopCarts.DeleteByGoodsIDs u ids).
Proof. unfold shopCarts.DeleteByGoodsIDs, update_where. untouched_go. Qed.

Lemma untouched_RestoreCheckedItems u items : untouched (shopCarts.RestoreCheckedItems u items).
Proof. unfold shopCarts.RestoreCheckedItems, shopCarts.restore_item, dberr, update_where, insert_row. untouched_go. Qed.

(** ** Status updates *)

Lemma check_update_inl now existing order order' :
  check_update now existing order = inl order' ->
  canTransitionOrderStatus (OrderInfoDO.Status existing) (OrderInfoDO.Status (Info order)) = true /\
  OrderInfoDO.ID (Info order') = OrderInfoDO.ID (Info order) /\
  OrderInfoDO.OrderSn (Info order') = OrderInfoDO.OrderSn (Info order) /\
  OrderInfoDO.Status (Info order') = OrderInfoDO.Status (Info order).
Proof.
  unfold check_update. destruct (canTransitionOrderStatus _ _); [|done]. simpl.
  destruct (seq _ OrderStatusTradeSuccess && _); [done|]. destruct (seq _ OrderStatusRefundPending && _); [done|].
  destruct (seq _ OrderStatusRefundPending && _); [done|]. intros [= <-].
  destruct (seq _ OrderStatusTradeSuccess); [|done]. simpl. by destruct (OrderInfoDO.PayTime (Info order)).
Qed.

Lemma valid_trim st : isValidOrderStatus st = true -> TrimSpace st = st.
Proof. revert st. apply (valid_cases (fun st => TrimSpace st = st)). repeat constructor; vm_compute; reflexivity. Qed.

Lemma valid_nonempty st : isValidOrderStatus st = true -> st <> "".
Proof. revert st. apply (valid_cases (fun st => st <> "")). by repeat constructor. Qed.

Lemma transition_legal from to :
  isValidOrderStatus from = true -> isValidOrderStatus to = true ->
  canTransitionOrderStatus from to = true -> from <> to -> legal from to = true.
Proof.
  intros Hf Ht Hc Hne. rewrite can_transition_edges in Hc by done. apply bool_decide_eq_true in Hc.
  apply bool_decide_eq_true. tauto.
Qed.

Lemma find_sn d sn r : find (sn_is sn) (orderinfo d) = Some r ->
  r ∈ orderinfo d /\ olive r = true /\ OrderInfoDO.OrderSn r = sn.
Proof.
  intros [Hin Hs]%find_some. apply sn_is_true in Hs. by rewrite list_elem_of_In.
Qed.

(** The number names one live row. *)
Lemma sn_is_unique d sn r r' :
  hist_ok d -> find (sn_is sn) (orderinfo d) = Some r -> r' ∈ orderinfo d -> sn_is sn r' = true <-> r' = r.
Proof.
  intros Hd (Hr & L & E)%find_sn Hr'. rewrite sn_is_true. split; [|by intros ->].
  intros [L' E']. eapply sn_unique; try done. congruence.
Qed.

(** The entries [Update] writes for a change of status, and their replay. *)
Definition update_entry (id : Z) (existing : OrderInfoDO.t) (order : OrderDTO) : list OrderStatusLogDO.t :=
  if negb (tseq (OrderInfoDO.Status existing) (OrderInfoDO.Status (Info order)))
  then [OrderStatusLogDO.mk id (OrderInfoDO.ID existing) (OrderInfoDO.OrderSn existing)
          (OrderInfoDO.Status existing) (OrderInfoDO.Status (Info order))
          (OrderStatusLogDO.Reason (buildStatusLog existing order))
          (OrderStatusLogDO.Source (buildStatusLog existing order))
          (OrderStatusLogDO.Operator (buildStatusLog existing order))]
  else [].

Lemma update_entry_replay id existing order :
  isValidOrderStatus (OrderInfoDO.Status existing) = true ->
  isValidOrderStatus (OrderInfoDO.Status (Info order)) = true ->
  canTransitionOrderStatus (OrderInfoDO.Status existing) (OrderInfoDO.Status (Info order)) = true ->
  replay (OrderInfoDO.Status existing) (update_entry id existing order) = Some (OrderInfoDO.Status (Info order)).
Proof.
  intros He Ho Hc. unfold update_entry, tseq, seq. rewrite !valid_trim by done.
  destruct (decide (OrderInfoDO.Status existing = OrderInfoDO.Status (Info order))) as [E|E].
  - rewrite bool_decide_eq_true_2 by done. simpl. by rewrite E.
  - rewrite bool_decide_eq_false_2 by done. simpl. rewrite bool_decide_eq_true_2 by done.
    by rewrite transition_legal.
Qed.

(** The tables [Update] leaves: the row of the number rewritten, and one entry per
    change of status. *)
Lemma Update_Ret now dto s u s' :
  Update now (Some dto) s = (Ret u, s') ->
  exists r order id,
    let st := TrimSpace (OrderInfoDO.Status (Info dto)) in
    let target := norm_update (Info order) in
    find (sn_is (TrimSpace (OrderInfoDO.OrderSn (Info dto)))) (orderinfo (e_db s)) = Some r /\
    isValidOrderStatus st = true /\ canTransitionOrderStatus (OrderInfoDO.Status r) st = true /\
    OrderInfoDO.ID (Info order) = OrderInfoDO.ID (Info dto) /\
    OrderInfoDO.OrderSn (Info order) = TrimSpace (OrderInfoDO.OrderSn (Info dto)) /\
    OrderInfoDO.Status (Info order) = st /\
    orderinfo (e_db s') = (fun x => if orders.update_target target x then orders.apply_update target x else x)
      <$> orderinfo (e_db s) /\
    order_status_logs (e_db s') = order_status_logs (e_db s) ++
      update_entry id (OrderInfoDO.set_goods (orders.goods_of (ordergoods (e_db s)) (OrderInfoDO.ID r)) r) order.
Proof.
  intros H. unfold Update in H. cbv zeta in H.
  apply bind_Ret in H as (? & ? & [_ ->]%fail_if_Ret & H).
  apply bind_Ret in H as (? & ? & [Hv ->]%fail_if_Ret & H). apply negb_false_iff in Hv. simpl in Hv.
  apply bind_Ret in H as (ex & s0 & (r & Hr & -> & Hdb)%Get_Ret & H). simpl in Hr. rewrite TrimSpace_idem in Hr.
  destruct (check_update _ _ _) as [order|] eqn:Hc; [|done].
  apply check_update_inl in Hc as (Hcan & Hid & Hsn & Hst). simpl in Hcan, Hid, Hsn, Hst.
  apply manual_txn_Ret in H as (s1 & s2 & Hdb1 & H & Hdb2); [|done].
  apply bind_Ret in H as (? & s3 & H1%orders_Update_Ret & H).
  apply bind_Ret in H as (? & s4 & H2 & H3).
  assert (orderinfo (e_db s2) = orderinfo (e_db s4) /\ order_status_logs (e_db s2) = order_status_logs (e_db s4))
    as [E1 E2].
  { destruct (seq _ OrderStatusRefundPending); [|unfold ret in H3; by simplify_eq].
    eapply untouched_Ret in H3; [done|apply untouched_CreateRefundRequest]. }
  rewrite Hdb1, Hdb in H1. rewrite Hdb2, E1, E2.
  assert (exists id, orderinfo (e_db s4) = orderinfo (e_db s3) /\
    order_status_logs (e_db s4) = order_status_logs (e_db s3) ++
      update_entry id (OrderInfoDO.set_goods (orders.goods_of (ordergoods (e_db s)) (OrderInfoDO.ID r)) r) order)
    as (id & F1 & F2).
  { unfold update_entry. simpl. destruct (negb _).
    - apply wrap_err_Ret, log_Create_Ret in H2 as [id ->]. exists id. done.
    - unfold ret in H2. simplify_eq. exists 0. by rewrite app_nil_r. }
  exists r, order, id. rewrite F1, F2, H1. done.
Qed.

(** A change that carries no id, or the id of the order its number names. *)
Definition own_id (id : Z) (sn : string) (d : order_db) : Prop :=
  id <= 0 \/ forall o, o ∈ orderinfo d -> sn_is (TrimSpace sn) o = true -> OrderInfoDO.ID o = id.
Lemma own_target (order : OrderInfoDO.t) d r x :
  hist_ok d -> own_id (OrderInfoDO.ID order) (OrderInfoDO.OrderSn order) d ->
  find (sn_is (TrimSpace (OrderInfoDO.OrderSn order))) (orderinfo d) = Some r -> x ∈ orderinfo d ->
  orders.update_target (norm_update order) x = true <-> x = r.
Proof.
  intros Hd Hid Hr Hx. rewrite <- (sn_is_unique _ _ r x Hd Hr Hx).
  destruct (Z.ltb_spec 0 (OrderInfoDO.ID order)) as [Hpos|Hle].
  - destruct Hid as [|Hid]; [lia|]. destruct (find_sn _ _ _ Hr) as (Hin & L & Hsn).
    assert (OrderInfoDO.ID r = OrderInfoDO.ID order) as Er by (apply Hid; [done|]; by apply find_some in Hr as [_ ?]).
    unfold orders.update_target. simpl. rewrite (proj2 (Z.ltb_lt _ _) Hpos). rewrite (sn_is_unique _ _ r x Hd Hr Hx).
    split; [|intros ->; unfold olive in L; by rewrite L, Er, Z.eqb_refl].
    intros [_ E%Z.eqb_eq]%andb_true_iff. by apply (NoDup_fmap_eq OrderInfoDO.ID _ _ _ (h_ids _ Hd)); [..|congruence].
  - unfold orders.update_target, sn_is. simpl. rewrite (proj2 (Z.ltb_ge _ _)) by lia. done.
Qed.

Lemma Update_hist now dto s u s' :
  Update now (Some dto) s = (Ret u, s') -> own_id (OrderInfoDO.ID (Info dto)) (OrderInfoDO.OrderSn (Info dto)) (e_db s) ->
  hist_ok (e_db s) -> hist_ok (e_db s').
Proof.
  intros (r & order & id & Hr & Hv & Hcan & Eid & Esn & Est & E1 & E2)%Update_Ret Hid Hd.
  destruct (find_sn _ _ _ Hr) as (Hin & L & Hsn).
  assert (isValidOrderStatus (OrderInfoDO.Status r) = true) as Hvr.
  { pose proof (h_status _ Hd) as Hs. rewrite Forall_forall in Hs. by apply Hs. }
  eapply (hist_move (e_db s) (e_db s') r _ _ _ Hd Hin L); [| | | | |exact E1|exact E2].
  - intros x Hx. apply (own_target _ (e_db s)); [done| |by rewrite Esn, TrimSpace_idem|done].
    rewrite Eid, Esn. unfold own_id. by rewrite TrimSpace_idem.
  - intros x. done.
  - simpl. by rewrite Est, TrimSpace_idem.
  - unfold update_entry. case_match; repeat constructor.
  - simpl. rewrite Est, TrimSpace_idem. rewrite <- Est. apply (update_entry_replay id
      (OrderInfoDO.set_goods (orders.goods_of (ordergoods (e_db s)) (OrderInfoDO.ID r)) r) order); simpl; by rewrite ?Est.
Qed.
Lemma Update_keeps now dto : OrderInfoDO.ID (Info dto) <= 0 -> keeps hist_ok (Update now (Some dto)).
Proof. intros Hid s u s' H Hd. eapply Update_hist; [exact H|by left|done]. Qed.

(** ** Creation *)

Definition line_row (order : Z) (g : OrderGoods.t) (gid : Z) : OrderGoods.t :=
  OrderGoods.mk gid false order (OrderGoods.Goods g) (OrderGoods.GoodsName g) (OrderGoods.GoodsImage g)
    (OrderGoods.GoodsPriceFen g) (OrderGoods.Nums g).

Definition next_order_id (d : order_db) : Z := 1 + fold_right Z.max 0 (OrderInfoDO.ID <$> orderinfo d).
Definition next_goods_id (d : order_db) : Z := 1 + fold_right Z.max 0 (OrderGoods.ID <$> ordergoods d).

Lemma orders_Create_Ret now o s o' s' :
  orders.Create now (Some o) s = (Ret o', s') ->
  let o1 := OrderInfoDO.set_OrderSn (TrimSpace (OrderInfoDO.OrderSn o)) o in
  let id := next_order_id (e_db s) in
  0 < OrderInfoDO.User o /\ OrderInfoDO.ID o' = id /\
  orderinfo (e_db s') = orderinfo (e_db s) ++ [OrderInfoDO.set_row id now o1] /\
  order_status_logs (e_db s') = order_status_logs (e_db s) /\
  shoppingcart (e_db s') = shoppingcart (e_db s) /\
  ordergoods (e_db s') = ordergoods (e_db s) ++
    imap (fun i g => line_row id g (next_goods_id (e_db s) + Z.of_nat i)) (OrderInfoDO.OrderGoods o).
Proof.
  intros H. unfold orders.Create in H. cbv zeta in H.
  apply bind_Ret in H as (? & ? & [Hu ->]%fail_if_Ret & H). bprop. destruct Hu as [Hu _]. simpl in Hu.
  apply wrap_err_Ret, bind_Ret in H as (id & s1 & (_ & Hid & E1)%insert_row_Ret & H).
  simpl in Hid. apply bind_Ret in H as (? & s2 & H2 & H3). unfold ret in H3. simplify_eq.
  cbn [OrderInfoDO.OrderGoods OrderInfoDO.set_OrderSn] in H2. cbv zeta.
  destruct (OrderInfoDO.OrderGoods o) as [|g gs].
  - unfold ret in H2. simplify_eq. rewrite E1. simpl. split_and!; try done. by rewrite app_nil_r.
  - apply insert_rows_Ret in H2. rewrite imap_fmap in H2. rewrite H2, E1. done.
Qed.

(** The order [Create] prices and stores. *)
Definition create_info (dto : OrderDTO) : OrderInfoDO.t :=
  OrderInfoDO.set_Status (normalizeInitialOrderStatus (OrderInfoDO.Status (Info dto)))
    (OrderInfoDO.set_OrderSn (TrimSpace (OrderInfoDO.OrderSn (Info dto))) (Info dto)).

(** What a successful creation stored, from the tables before. *)
Record created (now : Z) (dto : OrderDTO) (goods : list Z -> list GoodsInfo + goerr) (d d' : order_db) : Prop := {
  cr_absent : find (sn_is (OrderInfoDO.OrderSn (create_info dto))) (orderinfo d) = None;
  cr_user : 0 < OrderInfoDO.User (Info dto);
  cr_rows : exists resp total store lines logid,
    let info := create_info dto in
    let id := next_order_id d in
    goods (OrderGoods.Goods <$> OrderInfoDO.OrderGoods info) = inl resp /\
    size (BatchGetGoods resp) = length (OrderInfoDO.OrderGoods info) /\
    price_lines (BatchGetGoods resp) (OrderInfoDO.OrderGoods info) "" 0 = inl (total, store, lines) /\
    orderinfo d' = orderinfo d ++ [OrderInfoDO.set_row id now (OrderInfoDO.set_amount total store lines info)] /\
    ordergoods d' = ordergoods d ++ imap (fun i g => line_row id g (next_goods_id d + Z.of_nat i)) lines /\
    order_status_logs d' = order_status_logs d ++
      [OrderStatusLogDO.mk logid id (OrderInfoDO.OrderSn info) "" (OrderInfoDO.Status info) "order created"
         "order.create" (user_operator (OrderInfoDO.User info))]
}.

Lemma Create_Ret now goods dto s u s' :
  Create now goods (Some dto) s = (Ret u, s') ->
  OrderInfoDO.OrderSn (create_info dto) <> "" /\ hasOrderGoods (OrderInfoDO.OrderGoods (Info dto)) = true /\
  ((exists r, find (sn_is (OrderInfoDO.OrderSn (create_info dto))) (orderinfo (e_db s)) = Some r /\
      sameCreateOrder (OrderInfoDO.set_goods (orders.goods_of (ordergoods (e_db s)) (OrderInfoDO.ID r)) r)
        (create_info dto) = true /\ e_db s' = e_db s) \/
   created now dto goods (e_db s) (e_db s')).
Proof.
  intros H. unfold Create in H. cbv zeta in H.
  match type of H with context [OrderInfoDO.set_Status ?a ?b] =>
    change (OrderInfoDO.set_Status a b) with (create_info dto) in H end.
  apply bind_Ret in H as (? & ? & [Hsn ->]%fail_if_Ret & H). apply bool_decide_eq_false in Hsn.
  apply bind_Ret in H as (? & ? & [Hg ->]%fail_if_Ret & H). apply negb_false_iff in Hg.
  split; [done|]. split; [done|].
  apply bind_Ret in H as ([ex|err] & s0 & Hget%attempt_Ret & H).
  - left. apply Get_Ret in Hget as (r & Hr & -> & Hdb). simpl in Hr. rewrite TrimSpace_idem in Hr.
    exists r. split; [done|]. case_match eqn:Hs; minv. done.
  - right. apply bind_Ret in H as (? & ? & [Hc ->]%fail_if_Ret & H). apply negb_false_iff in Hc.
    pose proof (steps_eq_Get (OrderInfoDO.OrderSn (create_info dto)) s) as Hdb. rewrite Hget in Hdb. simpl in Hdb.
    eapply Get_not_found in Hget as Hnone; [|done|simpl; by rewrite TrimSpace_idem].
    simpl in Hnone. rewrite TrimSpace_idem in Hnone.
    destruct (goods _) as [resp|] eqn:Hgoods; [|done].
    apply bind_Ret in H as (? & ? & [Hsize ->]%fail_if_Ret & H). apply negb_false_iff, bool_decide_eq_true in Hsize.
    destruct (price_lines _ _ _ _) as [[[total store] lines]|] eqn:Hp; [|done].
    apply manual_txn_Ret in H as (s1 & s2 & Hdb1 & H & Hdb2);
      [|intros e s9; unfold rollback_with; by destruct (next_fault s9) as [[]]].
    apply bind_Ret in H as (stored & s3 & H1%wrap_err_Ret%orders_Create_Ret & H).
    destruct H1 as (Hu & Hid & E1 & E2 & E3 & E4). simpl in Hu.
    apply bind_Ret in H as (? & s4 & H2%wrap_err_Ret & [logid H3]%wrap_err_Ret%log_Create_Ret).
    eapply untouched_Ret in H2 as H2'; [|apply untouched_DeleteByGoodsIDs]. destruct H2' as [F1 F2].
    assert (ordergoods (e_db s4) = ordergoods (e_db s3)) as F3.
    { unfold shopCarts.DeleteByGoodsIDs in H2. destruct (_ || _); minv; [done|].
      match goal with F : update_where _ _ _ _ = _ |- _ => apply update_where_Ret in F as [_ ->] end. done. }
    rewrite Hdb1, <- Hdb in *. split; [done|done|]. exists resp, total, store, lines, logid. rewrite Hdb2, H3.
    simpl. rewrite length_fmap in Hsize. simpl in E1.
    rewrite TrimSpace_idem in E1. rewrite F1, F2, F3, E1, E2, E4, Hid. done.
Qed.

Lemma next_order_id_fresh d : next_order_id d ∉ OrderInfoDO.ID <$> orderinfo d.
Proof. apply max_id_fresh. Qed.

(** Orders are created in the initial status, as [CreateOrder] asks for. *)
Lemma Create_keeps now goods dto :
  OrderInfoDO.Status (Info dto) = "" -> keeps hist_ok (Create now goods (Some dto)).
Proof.
  intros Hst s u s' (_ & _ & [(r & _ & _ & ->)|[Hnone _ Hr]])%Create_Ret Hd; [done|].
  destruct Hr as (resp & total & store & lines & logid & _ & _ & _ & E1 & _ & E3).
  assert (OrderInfoDO.Status (create_info dto) = OrderStatusWaitBuyerPay) as Ew.
  { unfold create_info. simpl. by rewrite Hst. }
  eapply (hist_create (e_db s) (e_db s')); [done| | | | | | |exact E1|exact E3]; simpl.
  - done.
  - apply next_order_id_fresh.
  - done.
  - by rewrite Hst.
  - done.
  - by rewrite Hst.
Qed.

Lemma DeleteByOrderSn_keeps sn : keeps hist_ok (orders.DeleteByOrderSn sn).
Proof.
  intros s u s' H Hd. unfold orders.DeleteByOrderSn, first_or, dberr in H. cbv zeta in H.
  case_match; minv; [done|].
  match goal with F : select_first _ _ _ = _ |- _ => apply select_first_Ret in F as [-> E0] end.
  destruct (find _ _) as [r|]; minv; [|by rewrite E0].
  repeat match goal with F : update_where _ _ _ _ = _ |- _ => apply update_where_Ret in F as [_ F] end.
  match goal with
  | F1 : e_db ?a = set_rows t_ordergoods _ _, F2 : e_db s' = set_rows t_orderinfo _ _ |- _ =>
    rewrite F1, E0 in F2; eapply (hist_delete (e_db s) (e_db s')); [done| |by rewrite F2|by rewrite F2]
  end. done.
Qed.

Lemma keeps_frame {A} (m : M order_db A) : untouched m -> keeps hist_ok m.
Proof.
  intros Hm s a s' H Hd. destruct (untouched_Ret _ _ _ _ Hm H) as [E1 E2]. by eapply hist_frame.
Qed.

Lemma keeps_manual_txn {D A} (I : D -> Prop) b c (undo : goerr -> M D A) rescue (body : M D A) :
  (forall e s, is_ret (undo e s).1 = false) -> keeps I body -> keeps I (manual_txn b c undo rescue body).
Proof.
  intros Hu Hb s a s' (s0 & s1 & E0 & E1 & ->)%manual_txn_Ret Hs; [|done]. eapply Hb; [exact E1|]. by rewrite E0.
Qed.

Lemma CreateCom_keeps order : keeps hist_ok (CreateCom order).
Proof.
  unfold CreateCom, wrapf. keeps_go.
  - apply keeps_attempt, steps_eq_Get.
  - apply keeps_manual_txn; [done|]. keeps_go.
    + apply keeps_frame, untouched_RestoreCheckedItems.
    + apply DeleteByOrderSn_keeps.
Qed.

(** ** The refund workflow *)

Lemma updateRefundOrderStatus_keeps sn from to reason :
  isValidOrderStatus to = true -> edge from to ->
  keeps hist_ok (payments.updateRefundOrderStatus sn from to reason).
Proof.
  intros Hv He s u s' H Hd. unfold payments.updateRefundOrderStatus, must_first in H.
  apply bind_Ret in H as (r & s0 & [Hr Hdb]%first_or_fail_Ret%select_first_Ret & H).
  symmetry in Hr. simpl in Hr. destruct (find_sn _ _ _ Hr) as (Hin & L & Hsn).
  destruct (payments.seq (OrderInfoDO.Status r) to); [unfold ret in H; simplify_eq; by rewrite Hdb|].
  apply bind_Ret in H as (? & ? & [Hf ->]%fail_if_Ret & H). apply negb_false_iff, bool_decide_eq_true in Hf.
  apply bind_Ret in H as (? & s1 & [_ E1]%update_where_Ret & H).
  apply bind_Ret in H as (? & s2 & (_ & _ & E2)%insert_row_Ret & H). unfold ret in H. simplify_eq.
  rewrite E1, Hdb in E2. eapply (hist_move (e_db s) (e_db s') r); [done|done|done| | | | | | by rewrite E2|by rewrite E2].
  - intros y Hy. simpl. fold (olive y). split.
    + rewrite andb_true_iff, Z.eqb_eq. intros [_ E]. by eapply id_unique.
    + intros ->. by rewrite L, Z.eqb_refl.
  - done.
  - done.
  - by repeat constructor.
  - simpl. rewrite bool_decide_eq_true_2 by done. unfold legal. rewrite bool_decide_eq_true_2; [done|tauto].
Qed.

Lemma edge_refunded : edge payments.OrderStatusRefundPendingDB payments.OrderStatusRefundedDB.
Proof. by apply (bool_decide_unpack _). Qed.
Lemma edge_refund_failed : edge payments.OrderStatusRefundPendingDB payments.OrderStatusRefundFailedDB.
Proof. by apply (bool_decide_unpack _). Qed.
Lemma edge_refund_retry : edge payments.OrderStatusRefundFailedDB payments.OrderStatusRefundPendingDB.
Proof. by apply (bool_decide_unpack _). Qed.

Lemma keeps_set_outbox id f : keeps hist_ok (payments.set_outbox id f).
Proof. apply keeps_frame. unfold payments.set_outbox, update_where. untouched_go. Qed.
Lemma keeps_update_refunds p f : keeps hist_ok (update_where t_refunds p f).
Proof. apply keeps_frame. unfold update_where. untouched_go. Qed.
Lemma keeps_update_events p f : keeps hist_ok (update_where t_events p f).
Proof. apply keeps_frame. unfold update_where. untouched_go. Qed.
Lemma keeps_select {R} (t : table order_db R) p : keeps hist_ok (select_first t p).
Proof. apply keeps_query. Qed.

Ltac keeps_refund :=
  repeat (keeps_step || lazymatch goal with
    | |- keeps _ (must_first _) => unfold must_first
    | |- keeps _ (payments.set_outbox _ _) => apply keeps_set_outbox
    | |- keeps _ (update_where t_refunds _ _) => apply keeps_update_refunds
    | |- keeps _ (update_where t_events _ _) => apply keeps_update_events
    | |- keeps _ (select_first _ _) => apply keeps_select
    | |- keeps _ (payments.updateRefundOrderStatus _ _ payments.OrderStatusRefundedDB _) =>
        apply updateRefundOrderStatus_keeps; [done|apply edge_refunded]
    | |- keeps _ (payments.updateRefundOrderStatus _ _ payments.OrderStatusRefundFailedDB _) =>
        apply updateRefundOrderStatus_keeps; [done|apply edge_refund_failed]
    | |- keeps _ (payments.updateRefundOrderStatus _ _ payments.OrderStatusRefundPendingDB _) =>
        apply updateRefundOrderStatus_keeps; [done|apply edge_refund_retry]
    end).

Lemma CompleteRefundJob_keeps now id success p r st detail n :
  keeps hist_ok (payments.CompleteRefundJob now id success p r st detail n).
Proof. unfold payments.CompleteRefundJob, db_txn. keeps_refund. Qed.

Lemma RetryDeadRefundJob_keeps now id : keeps hist_ok (payments.RetryDeadRefundJob now id).
Proof. unfold payments.RetryDeadRefundJob, db_txn. keeps_refund. Qed.

Lemma CompletePaymentEvent_keeps now id ok detail : keeps hist_ok (payments.CompletePaymentEvent now id ok detail).
Proof.
  unfold payments.CompletePaymentEvent, db_txn. keeps_refund.
  all: apply keeps_frame; unfold payments.update_last_refund; untouched_go.
Qed.

Lemma BeginPaymentEvent_keeps now e : keeps hist_ok (payments.BeginPaymentEvent now e).
Proof.
  unfold payments.BeginPaymentEvent, db_txn, first_or. keeps_refund.
  apply keeps_frame. unfold insert_row. untouched_go.
Qed.

Lemma ClaimRefundJobs_keeps now l m t : keeps hist_ok (payments.ClaimRefundJobs now l m t).
Proof.
  unfold payments.ClaimRefundJobs, db_txn. keeps_refund.
  - unfold select_where. keeps_go.
  - apply keeps_frame. unfold update_where. untouched_go.
Qed.

(** ** Every call, with any faults *)

Ltac atomic_go :=
  repeat lazymatch goal with
  | |- atomic (transaction _) => apply atomic_transaction
  | |- atomic (wrap_err _ _) => apply atomic_wrap_err
  | |- atomic (ret _) => apply atomic_ret
  | |- atomic (fail _) => apply atomic_fail
  | |- atomic (manual_txn _ _ _ _ _) => apply atomic_manual_txn
  | |- atomic (bind _ _) => apply atomic_bind; [|intros ?]
  | |- atomic (match ?x with _ => _ end) => destruct x
  | |- atomic (let _ := _ in _) => cbv zeta
  | |- steps eq (fail_if _ _) => apply steps_fail_if; exact _
  | |- steps eq (attempt _) => apply steps_attempt
  | |- steps eq (orders.Get _) => apply steps_eq_Get
  end.

Lemma atomic_Update now order : atomic (Update now order).
Proof. unfold Update. atomic_go. done. Qed.
Lemma atomic_Create_order now goods order : atomic (Create now goods order).
Proof.
  unfold Create. atomic_go. intros err s9. unfold rollback_with.
  pose proof (next_fault_db s9) as E. by destruct (next_fault s9) as [[]].
Qed.
Lemma atomic_CreateCom order : atomic (CreateCom order).
Proof. unfold CreateCom. atomic_go. done. Qed.
Lemma atomic_CompleteRefundJob now id ok p r st detail n : atomic (payments.CompleteRefundJob now id ok p r st detail n).
Proof. unfold payments.CompleteRefundJob, db_txn. atomic_go. Qed.
Lemma atomic_RetryDeadRefundJob now id : atomic (payments.RetryDeadRefundJob now id).
Proof. unfold payments.RetryDeadRefundJob, db_txn. atomic_go. Qed.
Lemma atomic_CompletePaymentEvent now id ok detail : atomic (payments.CompletePaymentEvent now id ok detail).
Proof. unfold payments.CompletePaymentEvent, db_txn. atomic_go. Qed.
Lemma atomic_BeginPaymentEvent now e : atomic (payments.BeginPaymentEvent now e).
Proof. unfold payments.BeginPaymentEvent, db_txn. atomic_go. Qed.
Lemma atomic_ClaimRefundJobs now l m t : atomic (payments.ClaimRefundJobs now l m t).
Proof. unfold payments.ClaimRefundJobs, db_txn. atomic_go. Qed.

(** The invariant as a preorder on tables, to go through the sweep. *)
Definition hist_pres (d d' : order_db) : Prop := hist_ok d -> hist_ok d'.
#[export] Instance hist_pres_preorder : PreOrder hist_pres.
Proof. split; unfold hist_pres; [by intros d|]. intros d1 d2 d3 H1 H2 H. auto. Qed.

Lemma always_steps {A} (m : M order_db A) : atomic m -> keeps hist_ok m -> steps hist_pres m.
Proof. intros Ha Hk s Hs. by apply (always_intro hist_ok m Ha Hk s). Qed.

Lemma sweep_one_hist now guard dto :
  OrderInfoDO.ID (Info dto) <= 0 -> steps hist_pres (lifecycle.sweep_one now guard dto).
Proof.
  intros Hid. unfold lifecycle.sweep_one. steps_go. apply always_steps; [apply atomic_Update|by apply Update_keeps].
Qed.

Lemma sweep_hist c now release : steps hist_pres (lifecycle.runLifecycleSweep c now release).
Proof.
  unfold lifecycle.runLifecycleSweep, lifecycle.processExpiredOrdersOnce, lifecycle.processFinishedOrdersOnce,
    orders.ListCloseCandidates, orders.ListFinishCandidates, dberr, select_where, orders.preload. steps_go.
  all: by apply sweep_one_hist.
Qed.

Import orderServer.

(** The calls that reach the order tables. *)
Inductive ocall :=
  | OCreateOrder (now : Z) (goods : list Z -> list GoodsInfo + goerr) (req : option submit.OrderRequest)
  | OCreateOrderCom (req : option submit.OrderRequest)
  | OUpdateOrderStatus (now : Z) (msg : OrderStatusMsg)
  | OSweep (c : lifecycle.LifecycleConfig) (now : Z) (release : string -> list (Z * Z) -> option goerr)
  | OBeginPayment (now : Z) (e : PaymentEventDO.t)
  | OCompletePayment (now id : Z) (ok : bool) (detail : string)
  | OClaimRefunds (now limit maxAttempts lockTimeout : Z)
  | OCompleteRefund (now id : Z) (ok : bool) (provider refundID status detail : string) (maxAttempts : Z)
  | ORetryRefund (now id : Z).

Definition run_ocall (c : ocall) (s : env order_db) : env order_db :=
  match c with
  | OCreateOrder now goods req => (CreateOrder now goods req s).2
  | OCreateOrderCom req => (CreateOrderCom req s).2
  | OUpdateOrderStatus now msg => (UpdateOrderStatus now (Some msg) s).2
  | OSweep c now release => (lifecycle.runLifecycleSweep c now release s).2
  | OBeginPayment now e => (BeginPaymentEvent now e s).2
  | OCompletePayment now id ok detail => (payments.CompletePaymentEvent now id ok detail s).2
  | OClaimRefunds now l m t => (payments.ClaimRefundJobs now l m t s).2
  | OCompleteRefund now id ok p r st detail n => (CompleteRefundJob now id ok p r st detail n s).2
  | ORetryRefund now id => (payments.RetryDeadRefundJob now id s).2
  end.

(** A status message names its order by number alone, or also by that order's own id;
    [OrderLimits.update_by_id_skips_check] shows what one with another id does. *)
Definition by_number (c : ocall) (d : order_db) : Prop :=
  match c with OUpdateOrderStatus _ msg => own_id (MsgId msg) (MsgOrderSn msg) d | _ => True end.

Inductive oreachable : order_db -> Prop :=
  | oreach_init : oreachable empty_order_db
  | oreach_call d c faults :
      oreachable d -> by_number c d -> oreachable (e_db (run_ocall c (Env d faults))).

Lemma oreachable_hist d : oreachable d -> hist_ok d.
Proof.
  induction 1 as [|d c faults _ Hd Hc].
  { split; simpl; try apply Forall_nil_2; apply NoDup_nil_2. }
  destruct c; cbn [run_ocall].
  - unfold CreateOrder. destruct req as [req|]; [|done].
    apply (always_steps _ (atomic_Create_order _ _ _)); [by apply Create_keeps|done].
  - unfold CreateOrderCom. destruct req as [req|]; [|done].
    by apply (always_steps _ (atomic_CreateCom _) (CreateCom_keeps _)).
  - unfold UpdateOrderStatus. set (dto := status_dto msg).
    pose proof (atomic_Update now (Some dto) (Env d faults)) as Ha.
    destruct (Update now (Some dto) (Env d faults)) as [[u|e|p] s'] eqn:E; cbn [fst snd e_db is_ret] in *; [|by rewrite Ha..].
    eapply (Update_hist _ _ _ _ _ E); [|exact Hd]. cbn [by_number] in Hc. unfold dto, own_id in *.
    cbn [status_dto Info OrderInfoDO.ID OrderInfoDO.OrderSn e_db].
    destruct (Z.ltb_spec 0 (MsgId msg)); [exact Hc|by left].
  - by apply sweep_hist.
  - by apply (always_steps _ (atomic_BeginPaymentEvent _ _) (BeginPaymentEvent_keeps _ _)).
  - by apply (always_steps _ (atomic_CompletePaymentEvent _ _ _ _) (CompletePaymentEvent_keeps _ _ _ _)).
  - by apply (always_steps _ (atomic_ClaimRefundJobs _ _ _ _) (ClaimRefundJobs_keeps _ _ _ _)).
  - unfold CompleteRefundJob.
    by apply (always_steps _ (atomic_CompleteRefundJob _ _ _ _ _ _ _ _) (CompleteRefundJob_keeps _ _ _ _ _ _ _ _)).
  - by apply (always_steps _ (atomic_RetryDeadRefundJob _ _) (RetryDeadRefundJob_keeps _ _)).
Qed.

(** The calls that follow, each with its own faults. *)
Definition run_ocalls (later : list (ocall * list (option string))) (d : order_db) : order_db :=
  fold_left (fun d c => e_db (run_ocall c.1 (Env d c.2))) later d.
