(* ===== verification/OrderProperties.v ===== *)
(** * What the order service guarantees

    The audit trail of every reachable order, what a status update and a creation
    do and cannot do, and the places where the code does less than its callers may
    expect. *)
From S2P Require Import Prelude GoStrings Errors GoMonad Tables Money OrderModel OrderStore CartStore.
From S2P Require Import PaymentStore OrderService OrderServer OrderHistory.
Import orderService orderServer.
Open Scope go_scope.

(** ** A concrete run the witnesses use *)

Definition demo_goods (ids : list Z) : list GoodsInfo + goerr :=
  inl ((fun id => MkGoodsInfo id "tea" (1000 + id) "tea.png" "s1") <$> ids).
Definition demo_req (sn : string) : submit.OrderRequest :=
  submit.MkOrderRequest sn 5 "addr" "name" "1380000" "post" [(7, 3); (8, 1)].
Definition demo_paid (sn : string) : OrderStatusMsg :=
  MkOrderStatusMsg 0 sn "TRADE_SUCCESS" "alipay" "T-1" 0 "" 0 0 "" "".
Definition demo_od1 : order_db := e_db (CreateOrder 100 demo_goods (Some (demo_req "S1")) (Env empty_order_db [])).2.
Definition demo_od2 : order_db := e_db (UpdateOrderStatus 200 (Some (demo_paid "S1")) (Env demo_od1 [])).2.
Definition demo_refund (corr : string) : OrderStatusMsg :=
  MkOrderStatusMsg 0 "S1" "REFUND_PENDING" "" "" 0 "broken" 9 4000 corr "".

Lemma demo_oreach1 : oreachable demo_od1.
Proof. apply (oreach_call _ (OCreateOrder 100 demo_goods (Some (demo_req "S1"))) [] oreach_init). done. Qed.
Lemma demo_oreach2 : oreachable demo_od2.
Proof. apply (oreach_call _ (OUpdateOrderStatus 200 (demo_paid "S1")) [] demo_oreach1). by left. Qed.

#[local] Opaque demo_od1 demo_od2.

(** ** The audit trail *)

(** C3: in every state that calls, sweeps and refund steps reach one after
    another, in whatever order and whichever statements fail, each live order has
    a valid status and a number no other live order has, and its log entries
    replay from nothing to exactly that status through allowed transitions only.
    (Status messages name their order by number, alone or with that order's own
    id, [by_number]; [OrderLimits.update_by_id_skips_check] shows what one with
    another order's id does.  Calls that overlap are not covered: [Create] and
    [Update] look the order up outside a transaction.) *)
Theorem order_history d o :
  oreachable d -> o ∈ orderinfo d -> OrderInfoDO.DeletedAt o = false ->
  isValidOrderStatus (OrderInfoDO.Status o) = true /\
  replay "" (logs_of (OrderInfoDO.ID o) (order_status_logs d)) = Some (OrderInfoDO.Status o) /\
  forall o', o' ∈ orderinfo d -> OrderInfoDO.DeletedAt o' = false ->
    OrderInfoDO.OrderSn o' = OrderInfoDO.OrderSn o -> o' = o.
Proof.
  intros Hd%oreachable_hist Ho Hl. assert (olive o = true) as L by (unfold olive; by rewrite Hl).
  split; [|split].
  - pose proof (h_status _ Hd) as H. rewrite Forall_forall in H. by apply H.
  - pose proof (h_replay _ Hd) as H. rewrite Forall_forall in H. by apply H.
  - intros o' Ho' Hl' E. eapply sn_unique; try done. unfold olive. by rewrite Hl'.
Qed.

Lemma order_history_witness :
  exists o, o ∈ orderinfo demo_od2 /\ OrderInfoDO.Status o = OrderStatusTradeSuccess /\
    replay "" (logs_of (OrderInfoDO.ID o) (order_status_logs demo_od2)) = Some (OrderInfoDO.Status o).
Proof.
  destruct (orderinfo demo_od2) as [|o l] eqn:E; [by vm_compute in E|]. exists o.
  assert (o ∈ orderinfo demo_od2) as Hin by (rewrite E; left).
  assert (OrderInfoDO.DeletedAt o = false /\ OrderInfoDO.Status o = OrderStatusTradeSuccess) as [E1 E2]
    by (vm_compute in E; injection E as <- _; split; reflexivity).
  rewrite <- E. split; [exact Hin|]. split; [exact E2|].
  apply (order_history demo_od2 o); [apply demo_oreach2|exact Hin|exact E1].
Defined.

(** Statuses an order cannot be in before it was paid. *)
Definition after_payment (st : string) : bool :=
  bool_decide (st ∈ [OrderStatusTradeSuccess; OrderStatusTradeFinished; OrderStatusRefundPending;
                     OrderStatusRefundFailed; OrderStatusRefunded]).

Lemma edge_after_payment a b :
  edge a b -> after_payment b = true -> b = OrderStatusTradeSuccess \/ after_payment a = true.
Proof.
  assert (Forall (fun ab => after_payment ab.2 = true -> ab.2 = OrderStatusTradeSuccess \/ after_payment ab.1 = true)
    edges) as H.
  { unfold edges. repeat (apply Forall_cons_2; [cbn [fst snd]; intros Hb; vm_compute in Hb;
      (discriminate Hb || (by left) || (right; vm_compute; reflexivity))|]). apply Forall_nil_2. }
  rewrite Forall_forall in H. intros He. by apply (H (a, b)).
Qed.

Lemma replay_paid from logs st :
  replay from logs = Some st -> after_payment st = true -> after_payment from = false ->
  exists l, l ∈ logs /\ OrderStatusLogDO.ToStatus l = OrderStatusTradeSuccess.
Proof.
  revert from. induction logs as [|l logs IH]; intros from; simpl; [congruence|].
  case_match eqn:E; [|done]. intros Hr Hs Hf. apply andb_true_iff in E as [_ El].
  apply bool_decide_eq_true in El.
  destruct (after_payment (OrderStatusLogDO.ToStatus l)) eqn:Ep.
  - exists l. split; [left|]. destruct El as [[_ Ew]|He]; [by rewrite Ew in Ep|].
    destruct (edge_after_payment _ _ He Ep); [done|congruence].
  - destruct (IH _ Hr Hs Ep) as (l' & ? & ?). exists l'. split; [by right|done].
Qed.

(** No order is refunded, being refunded or finished without having been paid:
    its log has an entry to [TRADE_SUCCESS]. *)
Theorem refund_only_after_payment d o :
  oreachable d -> o ∈ orderinfo d -> OrderInfoDO.DeletedAt o = false ->
  after_payment (OrderInfoDO.Status o) = true ->
  exists l, l ∈ order_status_logs d /\ OrderStatusLogDO.OrderID l = OrderInfoDO.ID o /\
    OrderStatusLogDO.ToStatus l = OrderStatusTradeSuccess.
Proof.
  intros Hd%oreachable_hist Ho Hl Hp. assert (olive o = true) as L by (unfold olive; by rewrite Hl).
  pose proof (h_replay _ Hd) as H. rewrite Forall_forall in H. specialize (H o Ho L).
  destruct (replay_paid _ _ _ H Hp) as (l & Hin & Ht); [done|].
  apply list_elem_of_In, filter_In in Hin as [Hin Hid]. exists l. rewrite list_elem_of_In. split; [done|].
  split; [by apply Z.eqb_eq|done].
Qed.

Definition demo_od3 : order_db := e_db (UpdateOrderStatus 300 (Some (demo_refund "c-1")) (Env demo_od2 [])).2.
Lemma demo_oreach3 : oreachable demo_od3.
Proof. apply (oreach_call _ (OUpdateOrderStatus 300 (demo_refund "c-1")) [] demo_oreach2). by left. Qed.

Lemma refund_only_after_payment_witness :
  exists o l, o ∈ orderinfo demo_od3 /\ OrderInfoDO.Status o = OrderStatusRefundPending /\
    l ∈ order_status_logs demo_od3 /\ OrderStatusLogDO.ToStatus l = OrderStatusTradeSuccess.
Proof.
  destruct (orderinfo demo_od3) as [|o rest] eqn:E; [by vm_compute in E|].
  assert (o ∈ orderinfo demo_od3) as Hin by (rewrite E; left).
  assert (OrderInfoDO.DeletedAt o = false /\ OrderInfoDO.Status o = OrderStatusRefundPending) as [E1 E2]
    by (vm_compute in E; injection E as <- _; split; reflexivity).
  destruct (refund_only_after_payment demo_od3 o) as (l & Hl & _ & Ht);
    [apply demo_oreach3|exact Hin|exact E1|rewrite E2; reflexivity|].
  exists o, l. rewrite <- E. exact (conj Hin (conj E2 (conj Hl Ht))).
Defined.

(** ** Creation: the amount *)

(** Prices and quantities as the wire types hold them. *)
Definition typed_goods (m : gmap Z GoodsInfo) : Prop := map_Forall (fun _ g => is_int64 (ShopPriceFen g)) m.
Definition typed_items (items : list OrderGoods.t) : Prop := Forall (fun i => is_int32 (OrderGoods.Nums i)) items.

Definition price_of (m : gmap Z GoodsInfo) (g : Z) : Z := ShopPriceFen (default no_goods (m !! g)).
Definition line_total (m : gmap Z GoodsInfo) (items : list OrderGoods.t) : Z :=
  sumZ (fun i => price_of m (OrderGoods.Goods i) * OrderGoods.Nums i) items.

(** What pricing keeps of a line, and what it fills in. *)
Definition priced (m : gmap Z GoodsInfo) (i l : OrderGoods.t) : Prop :=
  OrderGoods.Goods l = OrderGoods.Goods i /\ OrderGoods.Nums l = OrderGoods.Nums i /\
  OrderGoods.GoodsPriceFen l = price_of m (OrderGoods.Goods i).

Lemma price_of_int64 m g : typed_goods m -> is_int64 (price_of m g).
Proof.
  intros H. unfold price_of. destruct (m !! g) as [x|] eqn:E; simpl; [by apply (H g x)|]. unfold_int. lia.
Qed.

Lemma int32_int64 z : is_int32 z -> is_int64 z.
Proof. unfold_int. lia. Qed.

Lemma seq_true a b : seq a b = true <-> a = b.
Proof. apply bool_decide_eq_true. Qed.
Lemma seq_false a b : seq a b = false <-> a <> b.
Proof. apply bool_decide_eq_false. Qed.

Lemma price_lines_spec m items store amount total store' lines :
  typed_goods m -> typed_items items -> is_int64 amount ->
  price_lines m items store amount = inl (total, store', lines) ->
  total = amount + line_total m items /\ is_int64 total /\ Forall2 (priced m) items lines /\
  (store <> "" -> store' = store) /\
  Forall (fun i => store' = TrimSpace (GoodsStoreID (default no_goods (m !! OrderGoods.Goods i))) /\ store' <> "") items.
Proof.
  intros Hm. revert store amount total store' lines.
  induction items as [|i items IH]; intros store amount total store' lines Ht Ha H; simpl in H.
  { simplify_eq. unfold line_total. simpl. split_and!; [lia|done|constructor|done|constructor]. }
  inversion_clear Ht as [|? ? Hi Ht'].
  destruct (seq (TrimSpace _) "") eqn:E0; [done|]. apply seq_false in E0.
  destruct (negb (seq store "") && _) eqn:E1; [done|].
  destruct (money.Multiply _ _) as [line|] eqn:Em; [|done].
  destruct (money.Add amount line) as [amount'|] eqn:Ea; [|done].
  destruct (price_lines m items _ amount') as [[[t st] ls]|] eqn:Ep; [|done].
  injection H as <- <- <-.
  apply Multiply_inl in Em as [-> Hl]; [|by apply price_of_int64|by apply int32_int64].
  apply Add_inl in Ea as [-> Ha']; [|done|done].
  apply IH in Ep as (-> & Htot & Hls & Hst & Hstores); [|done|done].
  assert (store = "" \/ store = TrimSpace (GoodsStoreID (default no_goods (m !! OrderGoods.Goods i)))) as Hs.
  { apply andb_false_iff in E1. rewrite !negb_false_iff, !seq_true in E1. tauto. }
  assert (st = TrimSpace (GoodsStoreID (default no_goods (m !! OrderGoods.Goods i)))) as Est.
  { destruct (seq store "") eqn:Es; [by apply Hst|]. apply seq_false in Es. rewrite Hst by done. tauto. }
  split_and!.
  - unfold line_total. simpl. unfold price_of, money.NewFen. lia.
  - done.
  - constructor; [done|done].
  - intros Hne. destruct Hs as [-> | ->]; [done|]. done.
  - constructor; [rewrite Est; done|done].
Qed.

(** C18: a successful creation of a new order stores, under the number and user of
    the request and in the initial status, exactly the sum of catalog price times
    quantity over its lines, without overflow, every line with the catalog price,
    and one store that all its goods belong to. *)
Theorem Create_amount now goods req s s' :
  find (sn_is (TrimSpace (submit.ReqOrderSn req))) (orderinfo (e_db s)) = None ->
  (forall resp, goods (fst <$> submit.OrderItems req) = inl resp -> typed_goods (BatchGetGoods resp)) ->
  typed_items (OrderInfoDO.OrderGoods (order_of req)) ->
  CreateOrder now goods (Some req) s = (Ret tt, s') ->
  exists o resp lines,
    orderinfo (e_db s') = orderinfo (e_db s) ++ [o] /\
    goods (fst <$> submit.OrderItems req) = inl resp /\
    OrderInfoDO.OrderSn o = TrimSpace (submit.ReqOrderSn req) /\ OrderInfoDO.User o = submit.UserId req /\
    OrderInfoDO.Status o = OrderStatusWaitBuyerPay /\
    OrderInfoDO.OrderMountFen o = line_total (BatchGetGoods resp) (OrderInfoDO.OrderGoods (order_of req)) /\
    is_int64 (OrderInfoDO.OrderMountFen o) /\
    Forall2 (priced (BatchGetGoods resp)) (OrderInfoDO.OrderGoods (order_of req)) lines /\
    ordergoods (e_db s') = ordergoods (e_db s) ++
      imap (fun i g => line_row (OrderInfoDO.ID o) g (next_goods_id (e_db s) + Z.of_nat i)) lines /\
    Forall (fun g => OrderInfoDO.StoreID o = TrimSpace (GoodsStoreID (default no_goods (BatchGetGoods resp !! g.1)))
                     /\ OrderInfoDO.StoreID o <> "") (submit.OrderItems req).
Proof.
  intros Hnone Hgoods Hitems (_ & _ & [(r & Hr & _)|Hc])%Create_Ret.
  { simpl in Hr. congruence. }
  destruct Hc as [_ _ (resp & total & store & lines & logid & Hresp & Hsize & Hp & E1 & E2 & E3)].
  simpl in Hp. change (OrderInfoDO.OrderGoods (create_info (bare_dto (order_of req))))
    with (OrderInfoDO.OrderGoods (order_of req)) in Hresp.
  assert (fst <$> submit.OrderItems req = OrderGoods.Goods <$> OrderInfoDO.OrderGoods (order_of req)) as Eids.
  { simpl. rewrite <- list_fmap_compose. done. }
  rewrite <- Eids in Hresp. assert (is_int64 0) as H0 by (unfold_int; lia).
  destruct (price_lines_spec _ _ _ _ _ _ _ (Hgoods _ Hresp) Hitems H0 Hp)
    as (Etot & Hi & Hl & _ & Hst).
  eexists _, resp, lines. split; [exact E1|]. split; [exact Hresp|].
  simpl. split_and!; try done.
  simpl in Hst. rewrite Forall_fmap in Hst. exact Hst.
Qed.

Lemma Create_amount_witness :
  exists o, orderinfo demo_od1 = [o] /\ OrderInfoDO.OrderMountFen o = 3 * 1007 + 1008.
Proof.
  destruct (Create_amount 100 demo_goods (demo_req "S1") (Env empty_order_db []) (Env demo_od1 []))
    as (o & resp & lines & E & Hresp & _ & _ & _ & Ef & _).
  - vm_compute. reflexivity.
  - intros resp H. injection H as <-. unfold typed_goods.
    match goal with |- map_Forall ?P ?m => assert (bool_decide (map_Forall P m) = true) as Hb by
      (vm_compute; reflexivity); apply bool_decide_eq_true in Hb; exact Hb end.
  - repeat constructor; simpl; unfold_int; lia.
  - vm_compute. reflexivity.
  - exists o. split; [exact E|]. rewrite Ef. injection Hresp as <-. vm_compute. reflexivity.
Defined.

(** ** Creation: retries *)

Definition wanted (g : Z) (items : list OrderGoods.t) : Z :=
  sumZ (fun i => if OrderGoods.Goods i =? g then OrderGoods.Nums i else 0) items.
Definition valid_items (items : list OrderGoods.t) : bool :=
  forallb (fun i => (0 <? OrderGoods.Goods i) && (0 <? OrderGoods.Nums i)) items.

Lemma aggregate_go_valid items m : is_Some (aggregate_go items m) <-> valid_items items = true.
Proof.
  revert m. induction items as [|i items IH]; intros m; simpl; [by split; eauto|].
  destruct (Z.leb_spec (OrderGoods.Goods i) 0), (Z.leb_spec (OrderGoods.Nums i) 0); simpl;
    rewrite ?(proj2 (Z.ltb_lt _ _)), ?(proj2 (Z.ltb_ge _ _)) by lia; simpl; [..|apply IH];
    split; try done; by intros [? ?].
Qed.

Lemma wanted_nonneg g items : valid_items items = true -> 0 <= wanted g items.
Proof.
  intros H. apply sumZ_nonneg, Forall_forall. intros i Hi%list_elem_of_In.
  unfold valid_items in H. rewrite forallb_forall in H. specialize (H i Hi). case_match; blia.
Qed.

(** The map the code aggregates into, on lists whose totals fit in 64 bits. *)
Lemma aggregate_go_spec items m m' :
  valid_items items = true -> (forall g, 0 <= default 0 (m !! g)) ->
  (forall g, default 0 (m !! g) + wanted g items <= int64_max) -> aggregate_go items m = Some m' ->
  forall g, default 0 (m' !! g) = default 0 (m !! g) + wanted g items /\
    (is_Some (m' !! g) <-> is_Some (m !! g) \/ 0 < wanted g items).
Proof.
  revert m. induction items as [|i items IH]; intros m Hv Hpos Hsum H g; simpl in H.
  { simplify_eq. unfold wanted. simpl. split; [lia|]. split; [tauto|intros [?|?]; [done|lia]]. }
  simpl in Hv. apply andb_true_iff in Hv as [Hi Hv]. bprop. destruct Hi as [Hi1 Hi2].
  rewrite (proj2 (Z.leb_gt _ _)), (proj2 (Z.leb_gt _ _)) in H by lia. simpl in H.
  assert (forall g, wanted g (i :: items) = (if OrderGoods.Goods i =? g then OrderGoods.Nums i else 0) + wanted g items)
    as Ew by done.
  assert (wrap64 (default 0 (m !! OrderGoods.Goods i) + OrderGoods.Nums i)
          = default 0 (m !! OrderGoods.Goods i) + OrderGoods.Nums i) as Ewrap.
  { apply wrap64_id. specialize (Hsum (OrderGoods.Goods i)). rewrite Ew, Z.eqb_refl in Hsum.
    pose proof (wanted_nonneg (OrderGoods.Goods i) items Hv). specialize (Hpos (OrderGoods.Goods i)). unfold_int. lia. }
  rewrite Ewrap in H. rewrite Ew. pose proof (wanted_nonneg g items Hv) as Hw.
  assert (forall g', default 0 (<[OrderGoods.Goods i := default 0 (m !! OrderGoods.Goods i) + OrderGoods.Nums i]> m !! g')
    = default 0 (m !! g') + (if OrderGoods.Goods i =? g' then OrderGoods.Nums i else 0)) as El.
  { intros g'. destruct (Z.eqb_spec (OrderGoods.Goods i) g') as [<-|Hne];
      [by rewrite lookup_insert_eq|rewrite lookup_insert_ne by done; lia]. }
  pose proof (IH _ Hv ltac:(intros g'; rewrite El; specialize (Hpos g'); case_match; lia)
    ltac:(intros g'; rewrite El; specialize (Hsum g'); rewrite Ew in Hsum; lia) H g) as [E1 E2].
  rewrite E1, El. split; [lia|]. rewrite E2, lookup_insert_is_Some.
  destruct (Z.eqb_spec (OrderGoods.Goods i) g) as [<-|Hne]; [split; [intros _; right; lia|tauto]|].
  rewrite Z.add_0_l. tauto.
Qed.

(** The quantities of a list add up within 64 bits. *)
Definition fits64 (items : list OrderGoods.t) : Prop := sumZ OrderGoods.Nums items <= int64_max.

Lemma wanted_le g items : valid_items items = true -> wanted g items <= sumZ OrderGoods.Nums items.
Proof.
  induction items as [|i items IH]; simpl; [done|]. intros [Hi Hv]%andb_true_iff. specialize (IH Hv).
  unfold wanted in *. simpl. case_match; blia.
Qed.

Lemma aggregate_spec items :
  fits64 items ->
  match aggregateOrderGoods items with
  | Some m => valid_items items = true /\ items <> [] /\
      forall g, default 0 (m !! g) = wanted g items /\ (is_Some (m !! g) <-> 0 < wanted g items)
  | None => valid_items items = false \/ items = []
  end.
Proof.
  intros Hf. unfold aggregateOrderGoods. destruct (decide (items = [])) as [->|Hne]; [by right|].
  rewrite bool_decide_eq_false_2 by done. destruct (aggregate_go items ∅) as [m|] eqn:E.
  - assert (valid_items items = true) as Hv by (eapply aggregate_go_valid; eauto).
    assert (forall g, default 0 ((∅ : gmap Z Z) !! g) + wanted g items <= int64_max) as Hsum.
    { intros g'. rewrite lookup_empty. simpl. pose proof (wanted_le g' items Hv). unfold fits64 in Hf. lia. }
    pose proof (aggregate_go_spec items ∅ m Hv ltac:(intros; by rewrite lookup_empty) Hsum E) as H.
    assert (forall g, default 0 (m !! g) = wanted g items /\ (is_Some (m !! g) <-> 0 < wanted g items)) as H'.
    { intros g. destruct (H g) as [H1 H2]. rewrite lookup_empty in H1, H2. simpl in H1. split; [done|].
      rewrite H2. split; [intros [[? ?]|?]; done|tauto]. }
    rewrite bool_decide_eq_true_2; [done|]. destruct items as [|i items]; [done|].
    destruct (H' (OrderGoods.Goods i)) as [_ [_ H2]].
    assert (0 < wanted (OrderGoods.Goods i) (i :: items)) as Hp.
    { simpl in Hv. apply andb_true_iff in Hv as [Hi Hv]. unfold wanted. simpl. rewrite Z.eqb_refl.
      pose proof (wanted_nonneg (OrderGoods.Goods i) items Hv) as Hn. unfold wanted in Hn. blia. }
    destruct (H2 Hp) as [n Hn]. destruct (decide (size m = 0%nat)) as [Hm|Hm]; [|lia].
    apply map_size_empty_iff in Hm as ->. by rewrite lookup_empty in Hn.
  - left. destruct (valid_items items) eqn:Hv; [|done].
    assert (is_Some (aggregate_go items ∅)) as [? E'] by (by apply aggregate_go_valid). congruence.
Qed.

(** Two lists of lines that ask for the same quantity of every goods. *)
Definition same_wanted (a b : list OrderGoods.t) : Prop := forall g, wanted g a = wanted g b.

Lemma map_eq_size_sub (m1 m2 : gmap Z Z) :
  (forall k v, m1 !! k = Some v -> m2 !! k = Some v) -> size m1 = size m2 -> m1 = m2.
Proof.
  intros Hs Hz. apply map_subseteq_size_eq; [by apply map_subseteq_spec|lia].
Qed.

Lemma sameOrderGoods_true a b :
  fits64 a -> fits64 b ->
  sameOrderGoods a b = true <->
  valid_items a = true /\ valid_items b = true /\ a <> [] /\ b <> [] /\ same_wanted a b.
Proof.
  intros Ha%aggregate_spec Hb%aggregate_spec. unfold sameOrderGoods.
  destruct (aggregateOrderGoods a) as [ma|]; [|split; [done|]; intros (? & ? & ? & ? & _); destruct Ha; congruence].
  destruct (aggregateOrderGoods b) as [mb|]; [|split; [done|]; intros (? & ? & ? & ? & _); destruct Hb; congruence].
  destruct Ha as (Va & Na & Ha), Hb as (Vb & Nb & Hb).
  rewrite andb_true_iff, bool_decide_eq_true, forallb_forall. split.
  - intros [Hz Hl]. split_and!; try done. intros g. assert (ma = mb) as <-; [|by rewrite <- (proj1 (Ha g)), (proj1 (Hb g))].
    apply map_eq_size_sub; [|done]. intros k v Hk.
    specialize (Hl (k, v)). rewrite <- list_elem_of_In, elem_of_map_to_list in Hl. specialize (Hl Hk).
    apply Z.eqb_eq in Hl. simpl in Hl. destruct (mb !! k) as [w|] eqn:Ek; simpl in Hl; [by subst|].
    destruct (Ha k) as [E1 [E2 _]]. rewrite Hk in E1, E2. simpl in E1. specialize (E2 (mk_is_Some _ _ eq_refl)). lia.
  - intros (_ & _ & _ & _ & Hs). assert (ma = mb) as <-.
    { apply map_eq. intros k. destruct (Ha k) as [A1 A2], (Hb k) as [B1 B2]. rewrite Hs in A1, A2.
      destruct (ma !! k) as [x|], (mb !! k) as [y|]; simpl in *; try congruence; exfalso.
      - assert (is_Some (@None Z)) as [? ?] by (apply B2, A2; eauto). done.
      - assert (is_Some (@None Z)) as [? ?] by (apply A2, B2; eauto). done. }
    split; [done|]. intros [k v] Hkv. apply list_elem_of_In, elem_of_map_to_list in Hkv. simpl. rewrite Hkv. simpl.
    apply Z.eqb_refl.
Qed.
