(* ===== verification/OrderRetry.v ===== *)
(** * Retried and compensated creations

    The saga coordinator delivers [CreateOrder] and [CreateOrderCom] at least once.
    This file shows what the second delivery and the compensation do: a retry with
    the same data is accepted and changes nothing, one with other data is refused,
    and the compensation takes the order back and refills the cart. *)
From S2P Require Import Prelude GoStrings Errors GoMonad Tables Money OrderModel OrderStore CartStore.
From S2P Require Import PaymentStore OrderService OrderServer OrderHistory OrderProperties.
Import orderService orderServer.
Open Scope go_scope.

(** ** Lines belong to orders *)

Definition order_ids (d : order_db) : list Z := OrderInfoDO.ID <$> orderinfo d.
Definition owned (d : order_db) : Prop := Forall (fun g => OrderGoods.Order g ∈ order_ids d) (ordergoods d).

(** Ids stay, and every line stays with an order. *)
Definition own_pres (d d' : order_db) : Prop := order_ids d ⊆ order_ids d' /\ (owned d -> owned d').
#[export] Instance own_pres_preorder : PreOrder own_pres.
Proof.
  split; [by intros d; split|]. intros d1 d2 d3 [A1 B1] [A2 B2]. split; [by etrans|auto].
Qed.

Lemma own_frame d d' : orderinfo d' = orderinfo d -> ordergoods d' = ordergoods d -> own_pres d d'.
Proof. intros E1 E2. unfold own_pres, owned, order_ids. by rewrite E1, E2. Qed.

Lemma own_map_orders (f : OrderInfoDO.t -> OrderInfoDO.t) (p : OrderInfoDO.t -> bool) d :
  (forall o, OrderInfoDO.ID (f o) = OrderInfoDO.ID o) ->
  own_pres d (set_rows t_orderinfo ((fun o => if p o then f o else o) <$> orderinfo d) d).
Proof.
  intros Hf. assert (forall d', ordergoods d' = ordergoods d -> order_ids d' = order_ids d -> own_pres d d') as H.
  { intros d' E1 E2. unfold own_pres, owned. by rewrite E1, E2. }
  apply H; [done|]. unfold order_ids. simpl. rewrite <- list_fmap_compose. apply list_fmap_ext.
  intros _ o _. simpl. case_match; [apply Hf|done].
Qed.

Lemma own_map_goods (f : OrderGoods.t -> OrderGoods.t) (p : OrderGoods.t -> bool) d :
  (forall o, OrderGoods.Order (f o) = OrderGoods.Order o) ->
  own_pres d (set_rows t_ordergoods ((fun o => if p o then f o else o) <$> ordergoods d) d).
Proof.
  intros Hf. split; [done|]. unfold owned. simpl. rewrite Forall_fmap.
  intros H. eapply Forall_impl; [exact H|]. intros g. simpl.
  case_match; [by rewrite Hf|done].
Qed.

Ltac own_go :=
  repeat (steps_step || lazymatch goal with
    | |- steps own_pres (must_first _) => unfold must_first
    | |- steps own_pres (select_first _ _) => apply steps_query; exact _
    | |- steps own_pres (select_where _ _) => apply steps_query; exact _
    | |- steps own_pres (manual_txn _ _ _ _ _) => apply steps_manual_txn; [exact _|done|]
    | |- steps own_pres (update_where t_orderinfo _ _) =>
        apply steps_stmt; [exact _|intros ?; apply own_map_orders; done]
    | |- steps own_pres (update_where t_ordergoods _ _) =>
        apply steps_stmt; [exact _|intros ?; apply own_map_goods; done]
    | |- steps own_pres (update_where _ _ _) => apply steps_stmt; [exact _|intros ?; apply own_frame; done]
    | |- steps own_pres (insert_row _ _ _ _) =>
        apply steps_stmt; [exact _|intros ?; case_match; apply own_frame; done]
    | |- steps own_pres (stmt _) => apply steps_stmt; [exact _|intros ?; repeat case_match; apply own_frame; done]
    end).

Lemma own_orders_Create now o : steps own_pres (orders.Create now (Some o)).
Proof.
  unfold orders.Create, dberr. cbv zeta. apply steps_bind; [exact _|apply steps_fail_if; exact _|intros _].
  apply steps_wrap_err. intros s. unfold bind.
  destruct (insert_row _ _ _ _ s) as [[id|e|p] s1] eqn:E1.
  - apply insert_row_Ret in E1 as (_ & _ & E1).
    assert (own_pres (e_db s) (e_db s1) /\ id ∈ order_ids (e_db s1)) as [H1 Hid].
    { rewrite E1. unfold own_pres, owned, order_ids. simpl. rewrite !fmap_app.
      split; [|apply elem_of_app; right; left]. split; [intros y Hy; apply elem_of_app; by left|].
      intros Ho. eapply Forall_impl; [exact Ho|]. intros y Hy. apply elem_of_app. by left. }
    etrans; [exact H1|]. simpl. destruct (OrderInfoDO.OrderGoods o) as [|g gs]; [done|].
    destruct (insert_rows _ _ _ s1) as [[u|e|p] s2] eqn:E2.
    + apply insert_rows_Ret in E2. cbn [fst snd ret]. rewrite E2. split; [done|]. unfold owned. cbn [ordergoods set_rows t_ordergoods]. intros Ho.
      apply Forall_app. split; [done|]. apply Forall_forall. intros row Hrow. apply elem_of_lookup_imap in Hrow as (i & mk & -> & Hmk).
      destruct i as [|i]; simpl in Hmk; [by simplify_eq|].
      apply list_lookup_fmap_Some in Hmk as (y & -> & _). done.
    + simpl. pose proof (next_fault_db s1) as Ef. unfold insert_rows, stmt in E2.
      destruct (next_fault s1) as [[m|] s3]; simplify_eq. simpl in Ef. by rewrite Ef.
    + unfold insert_rows, stmt in E2. by destruct (next_fault s1) as [[m|] s3].
  - unfold insert_row, stmt in E1. pose proof (next_fault_db s) as Ef.
    destruct (next_fault s) as [[m|] s3]; simpl in *; [simplify_eq; simpl; by rewrite Ef|].
    destruct (existsb _ _); simplify_eq. simpl. by rewrite Ef.
  - unfold insert_row, stmt in E1. destruct (next_fault s) as [[m|] s3]; [done|]. simpl in E1.
    by destruct (existsb _ _).
Qed.

Lemma own_Update now order : steps own_pres (Update now order).
Proof.
  unfold Update, wrapf, createStatusLog, orderStatusLogs.Create, orders.CreateRefundRequest, orders.Update, dberr.
  own_go; try (eapply steps_weaken; [|apply steps_eq_Get]; by intros ? ? ->).
Qed.

Lemma own_Create now goods order : steps own_pres (Create now goods order).
Proof.
  unfold Create, wrapf, createStatusLog, orderStatusLogs.Create, shopCarts.DeleteByGoodsIDs, dberr.
  repeat (own_go; try lazymatch goal with
    | |- steps _ (orders.Create _ _) => apply own_orders_Create
    | |- steps _ (orders.Get _) => eapply steps_weaken; [|apply steps_eq_Get]; by intros ? ? ->
    | |- steps _ (manual_txn _ _ _ _ _) => apply steps_manual_txn; [exact _|..];
        [intros err s9; unfold rollback_with; pose proof (next_fault_db s9) as E; by destruct (next_fault s9) as [[]]|]
    end).
Qed.

Lemma own_CreateCom order : steps own_pres (CreateCom order).
Proof.
  unfold CreateCom, wrapf, shopCarts.RestoreCheckedItems, shopCarts.restore_item, orders.DeleteByOrderSn, first_or, dberr.
  own_go; try (eapply steps_weaken; [|apply steps_eq_Get]; by intros ? ? ->).
Qed.

Lemma own_sweep c now release : steps own_pres (lifecycle.runLifecycleSweep c now release).
Proof.
  unfold lifecycle.runLifecycleSweep, lifecycle.processExpiredOrdersOnce, lifecycle.processFinishedOrdersOnce,
    orders.ListCloseCandidates, orders.ListFinishCandidates, dberr, orders.preload, lifecycle.sweep_one.
  own_go; apply own_Update.
Qed.

Lemma own_BeginPaymentEvent now e : steps own_pres (payments.BeginPaymentEvent now e).
Proof. unfold payments.BeginPaymentEvent, db_txn, first_or. own_go. Qed.
Lemma own_CompletePaymentEvent now id ok detail : steps own_pres (payments.CompletePaymentEvent now id ok detail).
Proof. unfold payments.CompletePaymentEvent, db_txn, payments.update_last_refund. own_go. Qed.
Lemma own_ClaimRefundJobs now l m t : steps own_pres (payments.ClaimRefundJobs now l m t).
Proof. unfold payments.ClaimRefundJobs, db_txn. own_go. Qed.
Lemma own_CompleteRefundJob now id ok p r st detail n :
  steps own_pres (payments.CompleteRefundJob now id ok p r st detail n).
Proof.
  unfold payments.CompleteRefundJob, payments.updateRefundOrderStatus, payments.set_outbox, db_txn. own_go.
Qed.
Lemma own_RetryDeadRefundJob now id : steps own_pres (payments.RetryDeadRefundJob now id).
Proof.
  unfold payments.RetryDeadRefundJob, payments.updateRefundOrderStatus, payments.set_outbox, db_txn. own_go.
Qed.

Lemma oreachable_owned d : oreachable d -> owned d.
Proof.
  induction 1 as [|d c faults _ Hd _]; [apply Forall_nil_2|].
  assert (own_pres d (e_db (run_ocall c (Env d faults)))) as [_ H]; [|auto].
  destruct c; cbn [run_ocall].
  - unfold CreateOrder. destruct req; [exact (own_Create _ _ _ (Env d faults))|done].
  - unfold CreateOrderCom. destruct req; [exact (own_CreateCom _ (Env d faults))|done].
  - exact (own_Update _ _ (Env d faults)).
  - exact (own_sweep _ _ _ (Env d faults)).
  - exact (own_BeginPaymentEvent _ _ (Env d faults)).
  - exact (own_CompletePaymentEvent _ _ _ _ (Env d faults)).
  - exact (own_ClaimRefundJobs _ _ _ _ (Env d faults)).
  - exact (own_CompleteRefundJob _ _ _ _ _ _ _ _ (Env d faults)).
  - exact (own_RetryDeadRefundJob _ _ (Env d faults)).
Qed.

(** ** Reading back what a creation stored *)

Definition shape (g : OrderGoods.t) : Z * Z := (OrderGoods.Goods g, OrderGoods.Nums g).

Lemma price_lines_shape m items store amount total store' lines :
  price_lines m items store amount = inl (total, store', lines) -> shape <$> lines = shape <$> items.
Proof.
  revert store amount total store' lines. induction items as [|i items IH]; intros store amount total store' lines;
    simpl; [by intros [= _ _ <-]|].
  destruct (seq (TrimSpace _) ""); [done|]. destruct (negb _ && _); [done|].
  destruct (money.Multiply _ _) as [line|]; [|done]. destruct (money.Add _ _) as [amount'|]; [|done].
  destruct (price_lines _ _ _ _) as [[[t st] ls]|] eqn:Ep; [|done]. intros [= <- <- <-].
  simpl. f_equal. by eapply IH.
Qed.

Lemma stored_lines d lines :
  owned d ->
  shape <$> orders.goods_of (ordergoods d ++ imap (fun i g => line_row (next_order_id d) g (next_goods_id d + Z.of_nat i)) lines)
    (next_order_id d) = shape <$> lines.
Proof.
  intros Ho. unfold orders.goods_of. rewrite List.filter_app.
  assert (forall l f, Forall (fun g => f g = false) l -> List.filter f l = @nil OrderGoods.t) as Hnil.
  { intros l f. induction 1 as [|g l Hg _ IH]; simpl; [done|]. by rewrite Hg. }
  rewrite Hnil.
  - simpl. generalize (next_goods_id d) as n. induction lines as [|g lines IH]; intros n; simpl; [done|].
    rewrite Z.eqb_refl. simpl. f_equal. etrans; [|apply (IH (n + 1))].
    do 2 f_equal. apply imap_ext. intros i y _. simpl.
    f_equal. lia.
  - eapply Forall_impl; [exact Ho|]. intros g Hg. simpl. apply andb_false_iff. right. apply Z.eqb_neq. intros E.
    cbv beta in Hg. rewrite E in Hg. by apply next_order_id_fresh in Hg.
Qed.

Lemma shape_wanted a b : shape <$> a = shape <$> b -> same_wanted a b.
Proof.
  intros E g. revert b E. induction a as [|x a IH]; intros [|y b]; simpl; try done. intros [= E1 E2 E3].
  unfold wanted in *. simpl. by rewrite E1, E2, (IH b).
Qed.

Lemma shape_valid a b : shape <$> a = shape <$> b -> valid_items a = valid_items b.
Proof.
  revert b. induction a as [|x a IH]; intros [|y b]; simpl; try done. intros [= E1 E2 E3].
  by rewrite E1, E2, (IH b).
Qed.
Lemma shape_sum a b : shape <$> a = shape <$> b -> sumZ OrderGoods.Nums a = sumZ OrderGoods.Nums b.
Proof.
  revert b. induction a as [|x a IH]; intros [|y b]; simpl; try done. intros [= E1 E2 E3]. by rewrite E2, (IH b).
Qed.

Lemma hasOrderGoods_true items :
  fits64 items -> hasOrderGoods items = true <-> valid_items items = true /\ items <> [].
Proof.
  intros H%aggregate_spec. unfold hasOrderGoods. destruct (aggregateOrderGoods items).
  - destruct H as (? & ? & _). done.
  - split; [done|]. intros [? ?]. destruct H; congruence.
Qed.

(** Reads on a database that answers. *)
Lemma Get_clean sn d r :
  TrimSpace sn <> "" -> find (sn_is (TrimSpace sn)) (orderinfo d) = Some r ->
  orders.Get sn (Env d []) =
    (Ret (OrderInfoDO.set_goods (orders.goods_of (ordergoods d) (OrderInfoDO.ID r)) r), Env d []).
Proof.
  intros Hne Hr. unfold orders.Get, first_or. cbv zeta.
  erewrite bind_run; [|by apply fail_if_run, bool_decide_eq_false].
  erewrite bind_run; [|apply wrap_err_run, query_run]. cbn [rows t_orderinfo]. rewrite Hr.
  done.
Qed.

(** [Create] for a number that is taken. *)
Definition conflict : goerr := newCode ErrOrderConflict "order_sn already exists with different order data".

Lemma Create_existing now goods dto d r :
  OrderInfoDO.OrderSn (create_info dto) <> "" -> hasOrderGoods (OrderInfoDO.OrderGoods (Info dto)) = true ->
  find (sn_is (OrderInfoDO.OrderSn (create_info dto))) (orderinfo d) = Some r ->
  Create now goods (Some dto) (Env d []) =
    (if sameCreateOrder (OrderInfoDO.set_goods (orders.goods_of (ordergoods d) (OrderInfoDO.ID r)) r) (create_info dto)
     then Ret tt else Fail conflict, Env d []).
Proof.
  intros Hsn Hg Hr. unfold Create. cbv zeta.
  erewrite bind_run; [|by apply fail_if_run, bool_decide_eq_false].
  erewrite bind_run; [|apply fail_if_run, negb_false_iff; exact Hg].
  match goal with |- context [sameCreateOrder _ ?i] => change i with (create_info dto) end.
  erewrite bind_run; [|apply attempt_run, Get_clean; simpl; rewrite TrimSpace_idem; [done|exact Hr]].
  cbv beta iota. by destruct (sameCreateOrder _ _).
Qed.

(** ** A second delivery *)

(** Two requests for the same order: as the code compares them. *)
Definition same_request (a b : submit.OrderRequest) : Prop :=
  submit.UserId a = submit.UserId b /\
  TrimSpace (submit.ReqAddress a) = TrimSpace (submit.ReqAddress b) /\
  TrimSpace (submit.ReqName a) = TrimSpace (submit.ReqName b) /\
  TrimSpace (submit.ReqMobile a) = TrimSpace (submit.ReqMobile b) /\
  TrimSpace (submit.ReqPost a) = TrimSpace (submit.ReqPost b) /\
  same_wanted (OrderInfoDO.OrderGoods (order_of a)) (OrderInfoDO.OrderGoods (order_of b)).

Definition ask (r : submit.OrderRequest) : list OrderGoods.t := OrderInfoDO.OrderGoods (order_of r).

Lemma same_create_request id now total store lines got req req' :
  fits64 (ask req) -> fits64 (ask req') -> valid_items (ask req) = true -> ask req <> [] ->
  valid_items (ask req') = true -> ask req' <> [] ->
  TrimSpace (submit.ReqOrderSn req') = TrimSpace (submit.ReqOrderSn req) ->
  shape <$> got = shape <$> ask req ->
  sameCreateOrder
    (OrderInfoDO.set_goods got (OrderInfoDO.set_row id now
       (OrderInfoDO.set_amount total store lines (create_info (bare_dto (order_of req))))))
    (create_info (bare_dto (order_of req'))) = true <-> same_request req req'.
Proof.
  intros F F' V N V' N' Esn Eg. unfold sameCreateOrder, tseq, seq. rewrite !andb_true_iff, !bool_decide_eq_true, Z.eqb_eq.
  simpl. fold (ask req'). rewrite !TrimSpace_idem, Esn. change (TrimSpace "") with "".
  rewrite sameOrderGoods_true; [| |done].
  2: { unfold fits64. rewrite (shape_sum _ _ Eg). done. }
  rewrite (shape_valid _ _ Eg). unfold same_request. fold (ask req) (ask req').
  assert (got <> []) as Ng by (intros ->; by destruct (ask req)).
  pose proof (shape_wanted _ _ Eg) as Hw. unfold same_wanted in *.
  assert ((forall g, wanted g got = wanted g (ask req')) <-> (forall g, wanted g (ask req) = wanted g (ask req'))) as Hq.
  { split; intros H g; [by rewrite <- Hw|by rewrite Hw]. }
  rewrite Hq, orb_true_r. simpl. tauto.
Qed.

Lemma find_snoc {A} (p : A -> bool) l y : find p l = None -> p y = true -> find p (l ++ [y]) = Some y.
Proof. induction l as [|z l IH]; simpl; [by intros _ ->|]. destruct (p z); [done|exact IH]. Qed.

(** What a successful first creation left: the row, with its lines. *)
Lemma created_stored now goods req d d' :
  owned d -> created now (bare_dto (order_of req)) goods d d' ->
  exists total store lines,
    let row := OrderInfoDO.set_row (next_order_id d) now
                 (OrderInfoDO.set_amount total store lines (create_info (bare_dto (order_of req)))) in
    orderinfo d' = orderinfo d ++ [row] /\
    find (sn_is (TrimSpace (submit.ReqOrderSn req))) (orderinfo d') = Some row /\
    shape <$> orders.goods_of (ordergoods d') (next_order_id d) = shape <$> ask req /\
    ordergoods d' = ordergoods d ++ imap (fun i g => line_row (next_order_id d) g (next_goods_id d + Z.of_nat i)) lines.
Proof.
  intros Ho [Hnone _ (resp & total & store & lines & logid & _ & _ & Hp & E1 & E2 & _)].
  exists total, store, lines. cbv zeta. split; [exact E1|]. split; [|split; [|exact E2]].
  - rewrite E1. apply find_snoc; [exact Hnone|]. unfold sn_is. simpl. by apply bool_decide_eq_true.
  - rewrite E2, stored_lines by done. by apply price_lines_shape in Hp.
Qed.

Lemma CreateOrder_created now goods req s s' :
  find (sn_is (TrimSpace (submit.ReqOrderSn req))) (orderinfo (e_db s)) = None ->
  CreateOrder now goods (Some req) s = (Ret tt, s') ->
  TrimSpace (submit.ReqOrderSn req) <> "" /\ hasOrderGoods (ask req) = true /\
  created now (bare_dto (order_of req)) goods (e_db s) (e_db s').
Proof.
  intros Hnone (Hsn & Hg & [(r & Hr & _)|Hc])%Create_Ret; [simpl in Hr; congruence|done].
Qed.

(** ** An order that is still there *)

(** What a retry compares with: the live order [id] with these columns and lines. *)
Definition columns (o : OrderInfoDO.t) : Z * string * string * string * string * string * string :=
  (OrderInfoDO.User o, OrderInfoDO.OrderSn o, OrderInfoDO.Address o, OrderInfoDO.SignerName o,
   OrderInfoDO.SingerMobile o, OrderInfoDO.Post o, OrderInfoDO.StoreID o).
Definition stored (r : OrderInfoDO.t) (lines : list OrderGoods.t) (d : order_db) : Prop :=
  (exists o, o ∈ orderinfo d /\ OrderInfoDO.ID o = OrderInfoDO.ID r /\ olive o = true /\ columns o = columns r) /\
  orders.goods_of (ordergoods d) (OrderInfoDO.ID r) = lines.
Definition stays_stored (r : OrderInfoDO.t) (lines : list OrderGoods.t) (d d' : order_db) : Prop :=
  stored r lines d -> stored r lines d'.
#[local] Instance stays_stored_preorder r lines : PreOrder (stays_stored r lines).
Proof. unfold stays_stored. split; red; auto. Qed.

Lemma stored_frame r lines d d' : orderinfo d' = orderinfo d -> ordergoods d' = ordergoods d -> stays_stored r lines d d'.
Proof. intros E1 E2. unfold stays_stored, stored. by rewrite E1, E2. Qed.
Lemma stored_update r lines d (p : OrderInfoDO.t -> bool) f :
  (forall o, OrderInfoDO.ID (f o) = OrderInfoDO.ID o /\ olive (f o) = olive o /\ columns (f o) = columns o) ->
  stays_stored r lines d (set_rows t_orderinfo ((fun o => if p o then f o else o) <$> orderinfo d) d).
Proof.
  intros Hf [(o & Ho & Eid & L & Ec) Hl]. split; [|done]. exists (if p o then f o else o).
  split; [cbn; apply list_elem_of_fmap; by exists o|]. destruct (p o); [|done].
  destruct (Hf o) as (-> & -> & ->). done.
Qed.

Ltac stored_go :=
  repeat (steps_step || lazymatch goal with
    | |- steps _ (must_first _) => unfold must_first
    | |- steps _ (select_first _ _) => apply steps_query; exact _
    | |- steps _ (select_where _ _) => apply steps_query; exact _
    | |- steps _ (orders.Get _) => eapply steps_weaken; [|apply steps_eq_Get]; by intros ? ? ->
    | |- steps _ (manual_txn _ _ _ _ _) => apply steps_manual_txn; [exact _|done|]
    | |- steps _ (update_where t_orderinfo _ _) => apply steps_stmt; [exact _|intros ?; apply stored_update; done]
    | |- steps _ (update_where _ _ _) => apply steps_stmt; [exact _|intros ?; apply stored_frame; done]
    | |- steps _ (insert_row _ _ _ _) => apply steps_stmt; [exact _|intros ?; case_match; apply stored_frame; done]
    | |- steps _ (stmt _) => apply steps_stmt; [exact _|intros ?; repeat case_match; apply stored_frame; done]
    end).

Lemma stored_Update r lines now order : steps (stays_stored r lines) (Update now order).
Proof.
  unfold Update, wrapf, createStatusLog, orderStatusLogs.Create, orders.CreateRefundRequest, orders.Update, dberr. stored_go.
Qed.
Lemma stored_sweep r lines c now release : steps (stays_stored r lines) (lifecycle.runLifecycleSweep c now release).
Proof.
  unfold lifecycle.runLifecycleSweep, lifecycle.processExpiredOrdersOnce, lifecycle.processFinishedOrdersOnce,
    orders.ListCloseCandidates, orders.ListFinishCandidates, dberr, orders.preload, lifecycle.sweep_one.
  stored_go; apply stored_Update.
Qed.

Lemma stored_Create r lines now goods req d faults :
  stays_stored r lines d (e_db (CreateOrder now goods req (Env d faults)).2).
Proof.
  unfold CreateOrder. destruct req as [req|]; [|done]. set (dto := bare_dto (order_of req)).
  pose proof (atomic_Create_order now goods (Some dto) (Env d faults)) as Ha.
  destruct (Create now goods (Some dto) (Env d faults)) as [[u|e|m] s'] eqn:E; cbn [fst snd is_ret] in *;
    [|by rewrite Ha..].
  apply Create_Ret in E as (_ & _ & [(_ & _ & _ & ->)|[_ _ (resp & total & store & ls & logid & _ & _ & _ & E1 & E2 & _)]]); [done|].
  cbn [e_db] in E1, E2. intros [(o & Ho & Eid & L & Ec) Hl]. split.
  - exists o. rewrite E1. split; [apply elem_of_app; by left|done].
  - rewrite E2. unfold orders.goods_of in *. rewrite List.filter_app, Hl.
    assert (next_order_id d <> OrderInfoDO.ID r) as Hne.
    { intros E. apply (next_order_id_fresh d). rewrite E, <- Eid. by apply list_elem_of_fmap_2. }
    rewrite (filter_nil _ (imap _ _)); [apply app_nil_r|]. intros g (i & y & -> & _)%elem_of_lookup_imap. cbn.
    by destruct (Z.eqb_spec (next_order_id d) (OrderInfoDO.ID r)).
Qed.

Lemma goods_of_deleted (l : list OrderGoods.t) id other :
  other <> id ->
  orders.goods_of ((fun g => if negb (OrderGoods.DeletedAt g) && (OrderGoods.Order g =? other) then orders.delete_goods g else g)
    <$> l) id = orders.goods_of l id.
Proof.
  intros Hne. unfold orders.goods_of. induction l as [|g l IH]; [done|]. rewrite fmap_cons. cbn [List.filter].
  rewrite IH. destruct (OrderGoods.DeletedAt g) eqn:Eg; cbn [negb andb]; [by rewrite Eg|].
  destruct (Z.eqb_spec (OrderGoods.Order g) other) as [Eo|]; [|by rewrite Eg].
  cbn. rewrite Eo. by destruct (Z.eqb_spec other id).
Qed.
(** A compensation of another number finds another order. *)
Lemma stored_Com r lines order d faults :
  hist_ok d -> TrimSpace (OrderInfoDO.OrderSn (Info order)) <> OrderInfoDO.OrderSn r ->
  stays_stored r lines d (e_db (CreateCom (Some order) (Env d faults)).2).
Proof.
  intros Hd Hsn Hst. pose proof (atomic_CreateCom (Some order) (Env d faults)) as Ha.
  destruct (CreateCom (Some order) (Env d faults)) as [[u|e|m] s'] eqn:E; cbn [fst snd is_ret] in *;
    [|by rewrite Ha..].
  unfold CreateCom in E. destruct (seq _ ""); [by injection E as _ <-|].
  apply bind_Ret in E as ([ex|err] & s0 & Hget%attempt_Ret & E).
  2: { pose proof (steps_eq_Get (OrderInfoDO.OrderSn (Info order)) (Env d faults)) as Hdb. rewrite Hget in Hdb. cbn in Hdb.
       destruct (IsCode err _); [|done]. injection E as _ <-. by rewrite <- Hdb. }
  apply Get_Ret in Hget as (x & Hx & -> & Edb). cbn [e_db] in Hx, Edb. apply find_sn in Hx as (Hin & Lx & Ex).
  apply manual_txn_Ret in E as (s1 & s2 & E1 & E & ->); [|done]. rewrite <- E1 in Edb.
  apply bind_Ret in E as (n & s3 & Hcart%wrap_err_Ret & E%wrap_err_Ret).
  assert (orderinfo (e_db s3) = orderinfo d /\ ordergoods (e_db s3) = ordergoods d) as [Eo Eg].
  { rewrite <- Edb. match type of Hcart with ?m s1 = _ => assert (steps (fun d d' => orderinfo d' = orderinfo d /\ ordergoods d' = ordergoods d) m) as H end;
      [|specialize (H s1); by rewrite Hcart in H].
    assert (PreOrder (fun d d' : order_db => orderinfo d' = orderinfo d /\ ordergoods d' = ordergoods d)) as Hpre
      by (split; [done|intros ? ? ? [] []; split; congruence]).
    unfold shopCarts.RestoreCheckedItems, shopCarts.restore_item, first_or, dberr.
    repeat (steps_step || lazymatch goal with
      | |- steps _ (select_first _ _) => apply steps_query; exact _
      | |- steps _ (update_where _ _ _) => apply steps_stmt; [exact _|done]
      | |- steps _ (insert_row _ _ _ _) => apply steps_stmt; [exact _|intros ?; by case_match]
      | |- steps _ (stmt _) => apply steps_stmt; [exact _|intros ?; by repeat case_match]
      end). }
  unfold orders.DeleteByOrderSn, first_or in E. cbn [OrderInfoDO.set_goods OrderInfoDO.OrderSn] in E.
  destruct (bool_decide _).
  { unfold ret in E. injection E as _ <-. revert Hst. by apply stored_frame. }
  apply bind_Ret in E as (y & s4 & [-> E4]%wrap_err_Ret%select_first_Ret & E). cbn [rows t_orderinfo] in E. rewrite Eo in E.
  destruct (find _ _) as [y|] eqn:Hy; [|unfold ret in E; injection E as _ <-; rewrite E4; revert Hst; by apply stored_frame].
  apply find_sn in Hy as (Hyin & Ly & Ey).
  apply bind_Ret in E as (n5 & s5 & [_ E5]%wrap_err_Ret%update_where_Ret & E).
  apply bind_Ret in E as (n6 & s6 & [_ E6]%wrap_err_Ret%update_where_Ret & E). unfold ret in E. injection E as _ <-.
  destruct Hst as [(o & Ho & Eid & L & Ec) Hl].
  assert (OrderInfoDO.ID y <> OrderInfoDO.ID r) as Hne.
  { intros E. assert (y = o) as -> by (apply (NoDup_fmap_eq OrderInfoDO.ID _ _ _ (h_ids _ Hd)); [done..|congruence]).
    destruct Hsn. unfold columns in Ec. injection Ec as _ Esn _ _ _ _ _. rewrite <- Esn, Ey, Ex. by rewrite TrimSpace_idem. }
  rewrite E6, E5, E4. cbn [set_rows t_orderinfo t_ordergoods rows orderinfo ordergoods]. rewrite Eo, Eg. split; cbn [orderinfo ordergoods].
  - exists o. split; [|done]. apply list_elem_of_fmap. exists o. split; [|done]. rewrite Eid.
    destruct (Z.eqb_spec (OrderInfoDO.ID r) (OrderInfoDO.ID y)); [congruence|]. by rewrite andb_false_r.
  - rewrite <- Hl. by apply goods_of_deleted.
Qed.
(** Calls that follow the rules and do not compensate the creation of order [sn]. *)
Definition compensates (sn : string) (c : ocall) : Prop :=
  match c with OCreateOrderCom (Some req) => TrimSpace (submit.ReqOrderSn req) = sn | _ => False end.
Fixpoint spares (sn : string) (later : list (ocall * list (option string))) (d : order_db) : Prop :=
  match later with
  | [] => True
  | (c, faults) :: later => by_number c d /\ ~ compensates sn c /\ spares sn later (e_db (run_ocall c (Env d faults)))
  end.

Lemma stored_CompleteRefundJob r lines now id ok p n st detail m :
  steps (stays_stored r lines) (payments.CompleteRefundJob now id ok p n st detail m).
Proof. unfold payments.CompleteRefundJob, payments.updateRefundOrderStatus, payments.set_outbox, db_txn. stored_go. Qed.
Lemma run_ocall_stored r lines c d faults :
  hist_ok d -> ~ compensates (OrderInfoDO.OrderSn r) c -> stays_stored r lines d (e_db (run_ocall c (Env d faults))).
Proof.
  intros Hd Hc. destruct c; cbn [run_ocall compensates] in *.
  - apply stored_Create.
  - unfold CreateOrderCom. destruct req as [req|]; [|done]. apply stored_Com; [done|].
    cbn [bare_dto Info order_of OrderInfoDO.OrderSn]. exact Hc.
  - exact (stored_Update _ _ _ _ (Env d faults)).
  - exact (stored_sweep _ _ _ _ _ (Env d faults)).
  - assert (steps (stays_stored r lines) (payments.BeginPaymentEvent now (Some (norm_event e)))) as H; [|exact (H (Env d faults))].
    unfold payments.BeginPaymentEvent, db_txn, first_or. stored_go.
  - assert (steps (stays_stored r lines) (payments.CompletePaymentEvent now id ok detail)) as H; [|exact (H (Env d faults))].
    unfold payments.CompletePaymentEvent, db_txn, payments.update_last_refund. stored_go.
  - assert (steps (stays_stored r lines) (payments.ClaimRefundJobs now limit maxAttempts lockTimeout)) as H; [|exact (H (Env d faults))].
    unfold payments.ClaimRefundJobs, db_txn. stored_go.
  - unfold CompleteRefundJob. exact (stored_CompleteRefundJob _ _ _ _ _ _ _ _ _ _ (Env d faults)).
  - assert (steps (stays_stored r lines) (payments.RetryDeadRefundJob now id)) as H; [|exact (H (Env d faults))].
    unfold payments.RetryDeadRefundJob, payments.updateRefundOrderStatus, payments.set_outbox, db_txn. stored_go.
Qed.
Lemma run_ocalls_stored r lines later d :
  oreachable d -> spares (OrderInfoDO.OrderSn r) later d -> stored r lines d ->
  oreachable (run_ocalls later d) /\ stored r lines (run_ocalls later d).
Proof.
  revert d. induction later as [|[c faults] later IH]; intros d Hd Hs Hst; [done|]. destruct Hs as (Hb & Hc & Hs).
  unfold run_ocalls. cbn [fold_left fst snd]. apply IH; [by apply oreach_call|done|].
  by apply (run_ocall_stored r lines c d faults); [apply oreachable_hist| |].
Qed.

(** What a retry sees of the stored order. *)
Lemma same_columns r lines o info :
  columns o = columns r ->
  sameCreateOrder (OrderInfoDO.set_goods lines o) info = sameCreateOrder (OrderInfoDO.set_goods lines r) info.
Proof.
  intros Ec. unfold columns in Ec. injection Ec as E1 E2 E3 E4 E5 E6 E7. unfold sameCreateOrder.
  cbn [OrderInfoDO.set_goods OrderInfoDO.User OrderInfoDO.OrderSn OrderInfoDO.Address OrderInfoDO.SignerName
    OrderInfoDO.SingerMobile OrderInfoDO.Post OrderInfoDO.StoreID OrderInfoDO.OrderGoods].
  by rewrite E1, E2, E3, E4, E5, E6, E7.
Qed.
Lemma find_unique_sn sn d o :
  hist_ok d -> o ∈ orderinfo d -> olive o = true -> OrderInfoDO.OrderSn o = sn -> find (sn_is sn) (orderinfo d) = Some o.
Proof.
  intros Hd Ho L E. assert (sn_is sn o = true) as Hs by (by apply sn_is_true).
  destruct (find (sn_is sn) (orderinfo d)) as [x|] eqn:Hf; [f_equal|].
  - symmetry. by apply (sn_is_unique d sn x o Hd Hf Ho).
  - apply list_elem_of_In in Ho. apply (find_none _ _ Hf) in Ho. congruence.
Qed.
(** A delivery for a number that is taken writes nothing, whatever fails. *)
Lemma Create_taken now goods dto d r faults :
  find (sn_is (OrderInfoDO.OrderSn (create_info dto))) (orderinfo d) = Some r ->
  e_db (Create now goods (Some dto) (Env d faults)).2 = d.
Proof.
  intros Hr. pose proof (atomic_Create_order now goods (Some dto) (Env d faults)) as Ha.
  destruct (Create now goods (Some dto) (Env d faults)) as [[u|e|m] s'] eqn:E; cbn [fst snd is_ret e_db] in *;
    [|by rewrite Ha..].
  apply Create_Ret in E as (_ & _ & [(_ & _ & _ & ->)|[Hn _ _]]); [done|]. cbn [e_db] in Hn. congruence.
Qed.

(** C16: retries of a creation.  After [CreateOrder] created an order, and whatever
    calls follow that do not compensate it, a further delivery of its number changes
    nothing, whichever statements fail and whatever the goods service answers now; and
    when nothing fails and its items are well-formed (some, with positive ids and
    quantities, that add up within 64 bits), it succeeds exactly when it asks for the
    same order (user, address, signer, phone, post and the quantity of every goods) and
    is answered with a conflict otherwise. *)
Theorem CreateOrder_retry d faults s' now goods req later now' goods' req' :
  oreachable d -> find (sn_is (TrimSpace (submit.ReqOrderSn req))) (orderinfo d) = None ->
  fits64 (ask req) -> CreateOrder now goods (Some req) (Env d faults) = (Ret tt, s') ->
  spares (TrimSpace (submit.ReqOrderSn req)) later (e_db s') ->
  TrimSpace (submit.ReqOrderSn req') = TrimSpace (submit.ReqOrderSn req) ->
  let d' := run_ocalls later (e_db s') in
  (forall faults', e_db (CreateOrder now' goods' (Some req') (Env d' faults')).2 = d') /\
  (fits64 (ask req') -> valid_items (ask req') = true -> ask req' <> [] ->
   exists r, CreateOrder now' goods' (Some req') (Env d' []) = (r, Env d' []) /\
     (r = Ret tt <-> same_request req req') /\ (r = Ret tt \/ r = Fail conflict)).
Proof.
  intros Hd Hnone F H Hsp Esn d'.
  assert (oreachable (e_db s')) as Hd1.
  { pose proof (oreach_call d (OCreateOrder now goods (Some req)) faults Hd I) as Hr. cbn [run_ocall] in Hr. by rewrite H in Hr. }
  destruct (CreateOrder_created now goods req (Env d faults) s' Hnone H) as (Hsn & [V N]%hasOrderGoods_true & Hc); [|done].
  destruct (created_stored _ _ _ _ _ (oreachable_owned _ Hd) Hc) as (total & store & lines & _ & Hf & Hl & _). cbn [e_db] in Hf, Hl.
  set (row := OrderInfoDO.set_row _ _ _) in Hf. set (got := orders.goods_of _ _) in Hl.
  destruct (run_ocalls_stored row got later (e_db s') Hd1) as [Hd' [(o & Ho & Eid & L & Ec) Hlines]]; [exact Hsp| |].
  { split; [|done]. exists row. apply find_sn in Hf as (? & ? & _). done. }
  fold d' in Hd', Ho, Hlines.
  assert (find (sn_is (TrimSpace (submit.ReqOrderSn req))) (orderinfo d') = Some o) as Hfo.
  { unfold columns in Ec. injection Ec as _ Eo _ _ _ _ _. apply find_unique_sn; [by apply oreachable_hist|done|done|].
    rewrite Eo. done. }
  split; [intros faults'; unfold CreateOrder; apply Create_taken with (r := o); simpl; by rewrite Esn|].
  intros F' V' N'. unfold CreateOrder. erewrite Create_existing; [|by rewrite <- Esn in Hsn| |simpl; rewrite Esn; exact Hfo].
  2: { apply hasOrderGoods_true; done. }
  eexists. split; [reflexivity|]. rewrite Eid, Hlines.
  pose proof (same_create_request (next_order_id d) now total store lines got req req' F F' V N V' N' Esn Hl) as Hq.
  fold row in Hq. rewrite <- (same_columns row got o) in Hq by done.
  destruct (sameCreateOrder _ _).
  - split; [|by left]. split; [intros _; by apply Hq|done].
  - split; [|by right]. split; [done|]. intros Hs. by apply Hq in Hs.
Qed.

#[local] Opaque demo_od1.

(** The order is paid before its creation is delivered again. *)
Lemma CreateOrder_retry_witness :
  let d' := run_ocalls [(OUpdateOrderStatus 200 (demo_paid "S1"), [])] demo_od1 in
  exists r, CreateOrder 500 (fun _ => inr conflict) (Some (submit.MkOrderRequest "S1 " 5 "addr" "name" "1380000" "post"
      [(8, 1); (7, 2); (7, 1)])) (Env d' []) = (r, Env d' []) /\ r = Ret tt.
Proof.
  destruct (CreateOrder_retry empty_order_db [] (Env demo_od1 []) 100 demo_goods (demo_req "S1")
    [(OUpdateOrderStatus 200 (demo_paid "S1"), [])] 500 (fun _ => inr conflict)
    (submit.MkOrderRequest "S1 " 5 "addr" "name" "1380000" "post" [(8, 1); (7, 2); (7, 1)]))
    as [_ (r & E & Hr & _)]; [apply oreach_init|reflexivity|vm_compute; discriminate| vm_compute; reflexivity
    |split_and!; [by left|intros []|exact I]|reflexivity|vm_compute; discriminate|reflexivity|discriminate|].
  exists r. cbn [e_db] in E. split; [exact E|]. apply Hr. unfold same_request.
  split_and!; [reflexivity..|]. intros g. unfold wanted. cbn -[Z.eqb Z.add].
  destruct (7 =? g), (8 =? g); reflexivity.
Defined.

(** ** Compensation *)

(** The cart of [u] holds [n] or more of goods [g], checked. *)
Definition cart_has (u g n : Z) (carts : list ShoppingCartDO.t) : Prop :=
  exists c, c ∈ carts /\ ShoppingCartDO.DeletedAt c = false /\ ShoppingCartDO.User c = u /\
    ShoppingCartDO.Goods c = g /\ n <= ShoppingCartDO.Nums c /\ ShoppingCartDO.Checked c = true.

Definition restored (u : Z) (item : OrderGoods.t) : list ShoppingCartDO.t -> list ShoppingCartDO.t :=
  fmap (fun c => if shopCarts.of_user_goods u (OrderGoods.Goods item) c
                 then shopCarts.restore_nums (OrderGoods.Nums item) c else c).

Lemma cart_has_restored u g n item carts : cart_has u g n carts -> cart_has u g n (restored u item carts).
Proof.
  intros (c & Hc & E1 & E2 & E3 & E4 & E5). eexists. split; [apply list_elem_of_fmap_2, Hc|].
  case_match; simpl; split_and!; try done. lia.
Qed.

Lemma cart_has_app u g n carts more : cart_has u g n carts -> cart_has u g n (carts ++ more).
Proof. intros (c & Hc & H). exists c. split; [apply elem_of_app; by left|done]. Qed.

Lemma restored_has u item carts :
  existsb (shopCarts.of_user_goods u (OrderGoods.Goods item)) carts = true ->
  cart_has u (OrderGoods.Goods item) (OrderGoods.Nums item) (restored u item carts).
Proof.
  intros (c & Hin & Hc)%existsb_exists. eexists. split; [apply list_elem_of_fmap_2, list_elem_of_In, Hin|].
  rewrite Hc. unfold shopCarts.of_user_goods in Hc. bprop. simpl. split_and!; try done; [tauto..|lia].
Qed.

Lemma count_zero {A} (p : A -> bool) l : (0 <? Z.of_nat (length (List.filter p l))) = existsb p l.
Proof.
  induction l as [|y l IH]; simpl; [done|]. destruct (p y); simpl; [|exact IH].
  apply Z.ltb_lt. lia.
Qed.

Definition restores (u : Z) (item : OrderGoods.t) (carts carts' : list ShoppingCartDO.t) : Prop :=
  (forall g n, cart_has u g n carts -> cart_has u g n carts') /\
  (0 < OrderGoods.Goods item -> 0 < OrderGoods.Nums item ->
   cart_has u (OrderGoods.Goods item) (OrderGoods.Nums item) carts').

Lemma existsb_false_all {A} (l : list A) : existsb (fun _ => false) l = false.
Proof. by induction l. Qed.

Lemma insert_cart_run d mk :
  exists id, insert_row t_shoppingcart ShoppingCartDO.ID (fun _ => false) mk (Env d []) =
    (Ret id, Env (set_rows t_shoppingcart (shoppingcart d ++ [mk id]) d) []).
Proof. unfold insert_row, stmt. cbn. rewrite existsb_false_all. by eexists. Qed.

Lemma restore_item_clean u item d :
  wrap32 u = u ->
  exists carts, shopCarts.restore_item u item (Env d []) = (Ret tt, Env (set_rows t_shoppingcart carts d) []) /\
    restores u item (shoppingcart d) carts.
Proof.
  intros Hw. unfold shopCarts.restore_item.
  destruct (_ || _) eqn:Eb.
  { exists (shoppingcart d). split; [by destruct d|]. split; [done|]. apply orb_true_iff in Eb. blia. }
  erewrite bind_run; [|apply wrap_err_run, update_where_run]. cbn [rows t_shoppingcart]. rewrite count_zero.
  destruct (existsb _ _) eqn:Ex.
  - exists (restored u item (shoppingcart d)). split; [done|]. split; [|intros _ _; by apply restored_has].
    intros g n. apply cart_has_restored.
  - destruct (insert_cart_run (set_rows t_shoppingcart (restored u item (shoppingcart d)) d)
      (fun id => ShoppingCartDO.mk id false (wrap32 u) (OrderGoods.Goods item) (OrderGoods.Nums item) true)) as [id E].
    eexists. split; [erewrite bind_run; [reflexivity|exact (wrap_err_run _ _ _ _ _ E)]|]. split.
    + intros g n H. by apply cart_has_app, cart_has_restored.
    + intros _ _. eexists. split; [apply elem_of_app; right; left|]. by rewrite Hw.
Qed.

Lemma for_each_restore u items d :
  wrap32 u = u ->
  exists carts, for_each items (shopCarts.restore_item u) (Env d []) = (Ret tt, Env (set_rows t_shoppingcart carts d) []) /\
    (forall g n, cart_has u g n (shoppingcart d) -> cart_has u g n carts) /\
    forall item, item ∈ items -> restores u item (shoppingcart d) carts.
Proof.
  intros Hw. revert d. induction items as [|item items IH]; intros d; cbn [for_each].
  { exists (shoppingcart d). split_and!; [by destruct d|done|]. intros item Hin. by apply not_elem_of_nil in Hin. }
  destruct (restore_item_clean u item d Hw) as (c1 & E1 & H1). erewrite bind_run by exact E1.
  destruct (IH (set_rows t_shoppingcart c1 d)) as (c2 & E2 & H2 & H3). exists c2. split; [exact E2|].
  cbn in H2, H3. destruct H1 as [H1 H1']. split; [by auto|].
  intros y [->|Hy]%elem_of_cons; split; auto. by apply H3.
Qed.

Lemma RestoreCheckedItems_clean u items d :
  u <> 0 -> wrap32 u = u ->
  exists carts, shopCarts.RestoreCheckedItems u items (Env d []) = (Ret tt, Env (set_rows t_shoppingcart carts d) []) /\
    forall item, item ∈ items -> restores u item (shoppingcart d) carts.
Proof.
  intros Hu Hw. unfold shopCarts.RestoreCheckedItems. rewrite (proj2 (Z.eqb_neq u 0) Hu).
  destruct (for_each_restore u items d Hw) as (carts & E & _ & H). by eauto.
Qed.

(** Deleting the rows [p] of a table whose live rows are [l] and others that all
    satisfy [p] leaves the live rows of [l]. *)
Lemma delete_restores {A} (alive p : A -> bool) (del : A -> A) l more :
  (forall y, alive (del y) = false) -> Forall (fun y => p y = false) l -> Forall (fun y => p y = true) more ->
  List.filter alive ((fun y => if alive y && p y then del y else y) <$> (l ++ more)) = List.filter alive l.
Proof.
  intros Hd Hl Hm. rewrite fmap_app, List.filter_app.
  assert (List.filter alive ((fun y => if alive y && p y then del y else y) <$> more) = []) as ->.
  { induction Hm as [|y more Hy _ IH]; simpl; [done|]. rewrite Hy, andb_true_r.
    destruct (alive y) eqn:E; [by rewrite Hd|by rewrite E]. }
  rewrite app_nil_r. induction Hl as [|y l Hy _ IH]; simpl; [done|]. rewrite Hy, andb_false_r.
  destruct (alive y); [f_equal; exact IH|exact IH].
Qed.

Definition live_goods (g : OrderGoods.t) : bool := negb (OrderGoods.DeletedAt g).

(** [DeleteByOrderSn] of an order whose row is [r]. *)
Definition deleted (r : OrderInfoDO.t) (d : order_db) : order_db :=
  set_rows t_orderinfo ((fun o => if olive o && (OrderInfoDO.ID o =? OrderInfoDO.ID r) then OrderInfoDO.delete o else o)
    <$> orderinfo d)
    (set_rows t_ordergoods ((fun g => if live_goods g && (OrderGoods.Order g =? OrderInfoDO.ID r)
       then orders.delete_goods g else g) <$> ordergoods d) d).

Lemma DeleteByOrderSn_clean sn r d :
  TrimSpace sn <> "" -> find (sn_is (TrimSpace sn)) (orderinfo d) = Some r ->
  orders.DeleteByOrderSn sn (Env d []) = (Ret tt, Env (deleted r d) []).
Proof.
  intros Hne Hr. unfold orders.DeleteByOrderSn, first_or. cbv zeta. rewrite bool_decide_eq_false_2 by done.
  erewrite bind_run; [|apply wrap_err_run, query_run]. cbn [rows t_orderinfo]. rewrite Hr.
  erewrite bind_run; [|apply wrap_err_run, update_where_run].
  erewrite bind_run; [|apply wrap_err_run, update_where_run]. done.
Qed.

Lemma Get_absent_clean sn d :
  TrimSpace sn <> "" -> find (sn_is (TrimSpace sn)) (orderinfo d) = None ->
  exists e, orders.Get sn (Env d []) = (Fail e, Env d []) /\ IsCode e ErrOrderNotFound = true.
Proof.
  intros Hne Hr. unfold orders.Get, first_or. cbv zeta. eexists.
  erewrite bind_run; [|by apply fail_if_run, bool_decide_eq_false].
  erewrite bind_run; [|apply wrap_err_run, query_run]. cbn [rows t_orderinfo]. rewrite Hr.
  split; [done|]. by vm_compute.
Qed.

(** The number is free again. *)
Lemma deleted_gone sn r d :
  (forall o, o ∈ orderinfo d -> sn_is sn o = true -> o = r) -> find (sn_is sn) (orderinfo (deleted r d)) = None.
Proof.
  intros Hu. destruct (find _ _) as [o|] eqn:E; [|done]. exfalso.
  apply find_some in E as [Hin Hs]. apply list_elem_of_In in Hin. cbn in Hin.
  apply list_elem_of_fmap in Hin as (o' & -> & Hin').
  destruct (olive o' && _) eqn:Eb; [done|]. pose proof Hs as Hs'. apply Hu in Hs as ->; [|done].
  rewrite Z.eqb_refl, andb_true_r in Eb. apply sn_is_true in Hs' as [L _]. congruence.
Qed.

Lemma CreateCom_clean sn r d :
  TrimSpace sn <> "" -> find (sn_is (TrimSpace sn)) (orderinfo d) = Some r ->
  0 < OrderInfoDO.User r -> is_int32 (OrderInfoDO.User r) ->
  exists carts, CreateCom (Some (bare_dto (OrderInfoDO.named sn ""))) (Env d []) =
      (Ret tt, Env (deleted r (set_rows t_shoppingcart carts d)) []) /\
    forall item, item ∈ orders.goods_of (ordergoods d) (OrderInfoDO.ID r) ->
      restores (OrderInfoDO.User r) item (shoppingcart d) carts.
Proof.
  intros Hne Hr Hp Hi. unfold CreateCom. cbn [Info bare_dto OrderInfoDO.OrderSn OrderInfoDO.named].
  unfold seq at 1. rewrite bool_decide_eq_false_2 by done.
  erewrite bind_run; [|by apply attempt_run, Get_clean]. cbv beta iota.
  assert (wrapu64 (OrderInfoDO.User r) = OrderInfoDO.User r) as Eu by (apply wrapu64_id; unfold_int; lia).
  destruct (RestoreCheckedItems_clean (OrderInfoDO.User r) (orders.goods_of (ordergoods d) (OrderInfoDO.ID r)) d)
    as (carts & E & H); [lia|by apply wrap32_id|].
  exists carts. split; [|done]. apply manual_txn_run.
  cbn [OrderInfoDO.User OrderInfoDO.OrderGoods OrderInfoDO.set_goods OrderInfoDO.OrderSn]. rewrite Eu.
  erewrite bind_run; [|apply wrap_err_run, E]. apply wrap_err_run.
  destruct (find_sn _ _ _ Hr) as (_ & _ & Esn). apply DeleteByOrderSn_clean.
  - by rewrite Esn, TrimSpace_idem.
  - rewrite Esn, TrimSpace_idem. exact Hr.
Qed.

(** A compensation that comes again, or without an order, does nothing. *)
Lemma CreateCom_absent sn d :
  find (sn_is (TrimSpace sn)) (orderinfo d) = None ->
  CreateCom (Some (bare_dto (OrderInfoDO.named sn ""))) (Env d []) = (Ret tt, Env d []).
Proof.
  intros Hn. unfold CreateCom. cbn [Info bare_dto OrderInfoDO.OrderSn OrderInfoDO.named]. unfold seq at 1.
  destruct (decide (TrimSpace sn = "")); [by rewrite bool_decide_eq_true_2|rewrite bool_decide_eq_false_2 by done].
  destruct (Get_absent_clean sn d) as (e & E & Hc); [done..|].
  erewrite bind_run; [|apply attempt_Fail, E]. cbv beta iota. by rewrite Hc.
Qed.

(** The compensation of an order that is not there in any state. *)
Definition live_orders (d : order_db) : list OrderInfoDO.t := List.filter olive (orderinfo d).
Definition live_lines (d : order_db) : list OrderGoods.t := List.filter live_goods (ordergoods d).

(** C17: the saga's compensation undoes the creation.  After [CreateOrder] created
    an order, [CreateOrderCom] of the same number succeeds; the live orders and lines
    are again those before the creation; every goods of the order is back in the
    user's cart, checked, with at least the ordered quantity; and a repeated
    compensation changes nothing. *)
Theorem CreateOrderCom_undoes d faults s' now goods req :
  oreachable d -> find (sn_is (TrimSpace (submit.ReqOrderSn req))) (orderinfo d) = None ->
  is_int32 (submit.UserId req) -> fits64 (ask req) ->
  CreateOrder now goods (Some req) (Env d faults) = (Ret tt, s') ->
  exists d2, CreateOrderCom (Some req) (Env (e_db s') []) = (Ret tt, Env d2 []) /\
    live_orders d2 = live_orders d /\ live_lines d2 = live_lines d /\
    Forall (fun it => cart_has (submit.UserId req) it.1 it.2 (shoppingcart d2)) (submit.OrderItems req) /\
    CreateOrderCom (Some req) (Env d2 []) = (Ret tt, Env d2 []).
Proof.
  intros Hd Hnone Hu F H. pose proof (oreachable_owned _ Hd) as Ho. apply oreachable_hist in Hd.
  destruct (CreateOrder_created now goods req (Env d faults) s' Hnone H) as (Hsn & [V N]%hasOrderGoods_true & Hc); [|done].
  destruct (created_stored _ _ _ _ _ Ho Hc) as (total & store & lines & E1 & Hf & Hl & E2).
  destruct Hc as [_ Hup _]. cbn in Hup, E1, E2.
  set (row := OrderInfoDO.set_row _ _ _) in *.
  destruct (CreateCom_clean (submit.ReqOrderSn req) row (e_db s')) as (carts & Ec & Hcarts); [done|exact Hf|done|done|].
  eexists. split; [exact Ec|]. split; [|split; [|split]].
  - unfold live_orders, deleted. cbn [orderinfo set_rows t_orderinfo t_shoppingcart t_ordergoods]. rewrite E1.
    apply (delete_restores olive (fun o => OrderInfoDO.ID o =? OrderInfoDO.ID row)); [done| |].
    + apply Forall_forall. intros o Hin. apply Z.eqb_neq. intros E. apply (next_order_id_fresh d).
      change (next_order_id d) with (OrderInfoDO.ID row). rewrite <- E. by apply list_elem_of_fmap_2.
    + repeat constructor. apply Z.eqb_refl.
  - unfold live_lines, deleted. cbn [ordergoods set_rows t_orderinfo t_shoppingcart t_ordergoods]. rewrite E2.
    apply (delete_restores live_goods (fun g => OrderGoods.Order g =? OrderInfoDO.ID row)); [done| |].
    + eapply Forall_impl; [exact Ho|]. intros g Hg. cbv beta in Hg |- *. apply Z.eqb_neq. intros E.
      rewrite E in Hg. by apply next_order_id_fresh in Hg.
    + apply Forall_forall. intros g (i & y & -> & _)%elem_of_lookup_imap. apply Z.eqb_refl.
  - apply Forall_forall. intros it Hit. cbn [shoppingcart deleted set_rows t_orderinfo t_shoppingcart t_ordergoods].
    assert (it ∈ shape <$> orders.goods_of (ordergoods (e_db s')) (OrderInfoDO.ID row)) as Hin.
    { change (OrderInfoDO.ID row) with (next_order_id d). rewrite Hl. unfold ask, order_of. cbn.
      rewrite <- list_fmap_compose. apply list_elem_of_fmap. exists it. by destruct it. }
    apply list_elem_of_fmap in Hin as (item & -> & Hitem).
    assert (valid_items (orders.goods_of (ordergoods (e_db s')) (OrderInfoDO.ID row)) = true) as Hv.
    { etrans; [exact (shape_valid _ _ Hl)|exact V]. }
    unfold valid_items in Hv. rewrite forallb_forall in Hv. apply list_elem_of_In in Hitem as Hitem'.
    specialize (Hv item Hitem'). apply (Hcarts item Hitem); blia.
  - apply CreateCom_absent, deleted_gone. cbn [orderinfo set_rows t_shoppingcart]. rewrite E1.
    intros o [Hin|Hin]%elem_of_app Hs; [|by apply list_elem_of_singleton in Hin].
    apply list_elem_of_In in Hin. by rewrite (find_none _ _ Hnone o Hin) in Hs.
Qed.

Lemma CreateOrderCom_undoes_witness :
  exists d2, CreateOrderCom (Some (demo_req "S1")) (Env demo_od1 []) = (Ret tt, Env d2 []) /\
    live_orders d2 = [] /\ cart_has 5 7 3 (shoppingcart d2).
Proof.
  destruct (CreateOrderCom_undoes empty_order_db [] (Env demo_od1 []) 100 demo_goods (demo_req "S1"))
    as (d2 & E & Ho & _ & Hc & _); [apply oreach_init|reflexivity|unfold_int; simpl; lia|vm_compute; discriminate
    |vm_compute; reflexivity|].
  exists d2. cbn [e_db] in E. split; [exact E|]. split; [rewrite Ho; reflexivity|].
  exact (Forall_inv Hc).
Defined.
