(* ===== verification/PaymentProperties.v ===== *)
(** * What the payment and refund workflow guarantees

    Payment events are recorded and processed once, refund jobs are claimed by one
    worker at a time and given up after a bounded number of attempts, and a
    reconciliation run reports no mismatch exactly when the statement and the
    recorded events agree. *)
From S2P Require Import Prelude GoStrings Errors GoMonad Tables OrderModel OrderStore CartStore.
From S2P Require Import PaymentStore OrderService OrderServer OrderHistory OrderProperties.
Import orderService orderServer.
Open Scope go_scope.

(** ** Methods as relations on tables

    A method that is all or nothing and relates the tables by [R] when it returns
    relates them by [R] in every run. *)
Section Always.
Context (R : order_db -> order_db -> Prop) `{!PreOrder R}.

Definition keeps_rel {A} (m : M order_db A) : Prop :=
  forall s a s', m s = (Ret a, s') -> R (e_db s) (e_db s').

Lemma steps_atomic {A} (m : M order_db A) : atomic m -> keeps_rel m -> steps R m.
Proof.
  intros Ha Hk s. specialize (Ha s). destruct (m s) as [[a|e|p] s'] eqn:E; simpl in *;
    [by eapply Hk|by rewrite Ha..].
Qed.

Lemma keeps_rel_steps {A} (m : M order_db A) : steps R m -> keeps_rel m.
Proof. intros H s a s' E. specialize (H s). by rewrite E in H. Qed.
End Always.

(** ** Payment events *)

Definition event_key (e : PaymentEventDO.t) : string * string := (PaymentEventDO.Provider e, PaymentEventDO.EventID e).

(** Ids and provider keys name one event each. *)
Definition events_ok (d : order_db) : Prop :=
  NoDup (PaymentEventDO.ID <$> payment_events d) /\ NoDup (event_key <$> payment_events d).

(** An event keeps what the provider sent; a completed one does not change at all. *)
Definition event_forward (e e' : PaymentEventDO.t) : Prop :=
  PaymentEventDO.ID e' = PaymentEventDO.ID e /\ event_key e' = event_key e /\
  PaymentEventDO.OrderSN e' = PaymentEventDO.OrderSN e /\
  PaymentEventDO.OrderAmountFen e' = PaymentEventDO.OrderAmountFen e /\
  PaymentEventDO.ProviderAmountFen e' = PaymentEventDO.ProviderAmountFen e /\
  (PaymentEventDO.Status e = "completed" -> e' = e).

Lemma event_forward_refl e : event_forward e e.
Proof. repeat split; done. Qed.
Lemma event_forward_trans e1 e2 e3 : event_forward e1 e2 -> event_forward e2 e3 -> event_forward e1 e3.
Proof.
  intros (A1 & A2 & A3 & A4 & A5 & A6) (B1 & B2 & B3 & B4 & B5 & B6). unfold event_forward.
  split_and!; try congruence. intros H. pose proof (A6 H) as ->. by apply B6.
Qed.

Definition events_pres (d d' : order_db) : Prop :=
  events_ok d -> events_ok d' /\
    forall e, e ∈ payment_events d -> exists e', e' ∈ payment_events d' /\ event_forward e e'.

#[export] Instance events_pres_preorder : PreOrder events_pres.
Proof.
  split.
  - intros d Hd. split; [done|]. intros e He. exists e. split; [done|apply event_forward_refl].
  - intros d1 d2 d3 H12 H23 H1. destruct (H12 H1) as [H2 F12]. destruct (H23 H2) as [H3 F23].
    split; [done|]. intros e He. destruct (F12 e He) as (e2 & He2 & Fe). destruct (F23 e2 He2) as (e3 & He3 & Fe3).
    exists e3. split; [done|]. by eapply event_forward_trans.
Qed.

Lemma events_frame d d' : payment_events d' = payment_events d -> events_pres d d'.
Proof.
  intros E. unfold events_pres, events_ok. rewrite E. intros H. split; [done|].
  intros e He. exists e. split; [done|apply event_forward_refl].
Qed.

(** Changing one event that is not completed. *)
Lemma events_update (d d' : order_db) ev (f : PaymentEventDO.t -> PaymentEventDO.t) :
  ev ∈ payment_events d -> PaymentEventDO.Status ev <> "completed" ->
  (forall e, PaymentEventDO.Status e <> "completed" -> event_forward e (f e)) ->
  payment_events d' = (fun e => if payments.by_id (PaymentEventDO.ID ev) e then f e else e) <$> payment_events d ->
  events_pres d d'.
Proof.
  intros Hin Hst Hf E [Hid Hkey].
  assert (forall e, e ∈ payment_events d ->
    event_forward e (if payments.by_id (PaymentEventDO.ID ev) e then f e else e)) as Hfw.
  { intros e He. unfold payments.by_id. case_match eqn:Eb; [|apply event_forward_refl].
    apply Hf. assert (e = ev) as ->; [|done]. apply (NoDup_fmap_eq PaymentEventDO.ID (payment_events d)); [done..|blia]. }
  assert (forall (B : Type) (g : PaymentEventDO.t -> B),
    (forall e e', event_forward e e' -> g e' = g e) -> g <$> payment_events d' = g <$> payment_events d) as Hg.
  { intros B g Hg. rewrite E, <- list_fmap_compose. apply list_fmap_ext. intros i e He%list_elem_of_lookup_2.
    simpl. by apply Hg, Hfw. }
  split.
  - unfold events_ok. rewrite (Hg _ PaymentEventDO.ID), (Hg _ event_key); [done|by intros ? ? (?&?&?)..].
  - intros e He. eexists. split; [rewrite E; by apply list_elem_of_fmap_2|by apply Hfw].
Qed.

(** What [BeginPaymentEvent] did when it returned. *)
Inductive began (now : Z) (e : PaymentEventDO.t) (d d' : order_db) : PaymentEventDO.t -> OrderInfoDO.t -> bool -> Prop :=
  | began_new id o :
      find (payments.same_event e) (payment_events d) = None ->
      find (sn_is (PaymentEventDO.OrderSN e)) (orderinfo d) = Some o ->
      id = 1 + fold_right Z.max 0 (PaymentEventDO.ID <$> payment_events d) ->
      d' = set_rows t_events (payment_events d ++ [payments.accept now (OrderInfoDO.OrderMountFen o) id e]) d ->
      began now e d d' (payments.accept now (OrderInfoDO.OrderMountFen o) id e) o true
  | began_again x o :
      find (payments.same_event e) (payment_events d) = Some x -> PaymentEventDO.Status x = "failed" ->
      find (sn_is (PaymentEventDO.OrderSN x)) (orderinfo d) = Some o ->
      d' = set_rows t_events ((fun y => if payments.by_id (PaymentEventDO.ID x) y
             then PaymentEventDO.set_status "processing" "" y else y) <$> payment_events d) d ->
      began now e d d' (PaymentEventDO.set_status "processing" "" x) o true
  | began_seen x o :
      find (payments.same_event e) (payment_events d) = Some x -> PaymentEventDO.Status x <> "failed" ->
      find (sn_is (PaymentEventDO.OrderSN x)) (orderinfo d) = Some o -> d' = d ->
      began now e d d' x o false.

Ltac txn_inv H :=
  apply wrap_err_Ret, transaction_Ret in H as (? & ? & ? & H & ?).

Lemma must_first_Ret {R} (t : table order_db R) p s r s' :
  must_first (select_first t p) s = (Ret r, s') -> find p (rows t (e_db s)) = Some r /\ e_db s' = e_db s.
Proof. intros [E1 E2]%first_or_fail_Ret%select_first_Ret. by split. Qed.

Lemma BeginPaymentEvent_Ret now e s ev o acc s' :
  payments.BeginPaymentEvent now (Some e) s = (Ret (ev, o, acc), s') -> began now e (e_db s) (e_db s') ev o acc.
Proof.
  intros H. unfold payments.BeginPaymentEvent in H. apply bind_Ret in H as (? & ? & [_ ->]%fail_if_Ret & H).
  apply wrap_err_Ret, transaction_Ret in H as (s0 & s1 & <- & H & ->). unfold first_or in H.
  apply bind_Ret in H as (found & s2 & [Hf E2]%select_first_Ret & H). simpl in Hf. symmetry in Hf.
  destruct found as [y|].
  - apply bind_Ret in H as (r & s3 & Hr & H). apply bind_Ret in H as (o' & s4 & [Ho E4]%must_first_Ret & H).
    unfold ret in H. injection H as <- <- <- <-. rewrite E4. simpl in Ho.
    destruct (payments.seq _ _) eqn:Es.
    + apply bool_decide_eq_true in Es. apply bind_Ret in Hr as (? & ? & [_ E3]%update_where_Ret & Hr).
      unfold ret in Hr. injection Hr as <- <-. rewrite E3 in Ho |- *. simpl in Ho. rewrite E2 in Ho |- *.
      by eapply began_again.
    + apply bool_decide_eq_false in Es. unfold ret in Hr. injection Hr as <- <-. rewrite E2 in Ho |- *.
      by eapply began_seen.
  - apply bind_Ret in H as (o' & s4 & [Ho E4]%must_first_Ret & H). simpl in Ho. cbv zeta in H.
    apply bind_Ret in H as (id & s5 & (_ & Hid & E5)%insert_row_Ret & H).
    unfold ret in H. injection H as <- <- <- <-. rewrite E2 in Ho. simpl in Hid, E5. rewrite E4, E2 in Hid, E5.
    by eapply began_new.
Qed.

Lemma same_event_key e y : payments.same_event e y = true <-> event_key y = event_key e.
Proof.
  unfold payments.same_event, payments.seq, event_key. rewrite andb_true_iff, !bool_decide_eq_true.
  split; [by intros [-> ->]|by intros [= -> ->]].
Qed.

Lemma events_BeginPaymentEvent now e : steps events_pres (payments.BeginPaymentEvent now (Some e)).
Proof.
  apply steps_atomic; [exact _|apply atomic_BeginPaymentEvent|]. intros s [[ev o] acc] s' H%BeginPaymentEvent_Ret.
  destruct H as [id o Hn _ Hid ->|y o Hf Hst _ E|y o _ _ _ ->]; [| |done].
  - intros [Hi Hk]. split.
    + split; cbn; rewrite fmap_app; apply NoDup_snoc; try done.
      * simpl. rewrite Hid. apply max_id_fresh.
      * intros (y & Ey & Hy)%list_elem_of_fmap. apply list_elem_of_In in Hy.
        apply (find_none _ _ Hn) in Hy. by rewrite (proj2 (same_event_key e y)) in Hy.
    + intros y Hy. exists y. split; [cbn; apply elem_of_app; by left|apply event_forward_refl].
  - apply find_some in Hf as [Hin _]. apply list_elem_of_In in Hin.
    eapply (events_update _ _ y); [exact Hin|by rewrite Hst| |by rewrite E].
    intros z Hz. repeat split; try done.
Qed.

Lemma events_CompletePaymentEvent now id ok detail : steps events_pres (payments.CompletePaymentEvent now id ok detail).
Proof.
  apply steps_atomic; [exact _|apply atomic_CompletePaymentEvent|]. intros s [] s' H.
  unfold payments.CompletePaymentEvent in H. apply wrap_err_Ret, transaction_Ret in H as (s0 & s1 & <- & H & ->).
  apply bind_Ret in H as (ev & s2 & [[Hin Hp]%find_some E2]%must_first_Ret & H). apply list_elem_of_In in Hin.
  apply andb_true_iff in Hp as [_ Hst%bool_decide_eq_true].
  apply bind_Ret in H as (? & s3 & [_ E3]%update_where_Ret & H). cbn in E3, Hin. rewrite E2 in E3.
  assert (payment_events (e_db s1) = payment_events (e_db s3)) as E.
  { destruct (ok && _); [|by unfold ret in H; injection H as <-]. unfold payments.update_last_refund in H.
    apply stmt_Ret in H. by destruct (payments.last_id _ _); injection H as <-. }
  eapply (events_update _ _ ev); [exact Hin|by rewrite Hst| |rewrite E, E3; reflexivity].
  intros z Hz. destruct ok; repeat split; done.
Qed.

(** Every other statement leaves the events alone. *)
Ltac frame_go R frame :=
  repeat (steps_step || lazymatch goal with
    | |- steps R (must_first _) => unfold must_first
    | |- steps R (select_first _ _) => apply steps_query; exact _
    | |- steps R (select_where _ _) => apply steps_query; exact _
    | |- steps R (orders.Get _) => eapply steps_weaken; [|apply steps_eq_Get]; by intros ? ? ->
    | |- steps R (manual_txn _ _ _ _ _) => apply steps_manual_txn; [exact _|..];
        [let e := fresh in let s := fresh in let E := fresh in
         intros e s; try done; unfold rollback_with; pose proof (next_fault_db s) as E;
         by destruct (next_fault s) as [[]]|]
    | |- steps R (update_where _ _ _) => apply steps_stmt; [exact _|intros ?; apply frame; done]
    | |- steps R (insert_rows _ _ _) => apply steps_stmt; [exact _|intros ?; apply frame; done]
    | |- steps R (insert_row _ _ _ _) => apply steps_stmt; [exact _|intros ?; case_match; apply frame; done]
    | |- steps R (stmt _) => apply steps_stmt; [exact _|intros ?; repeat case_match; apply frame; done]
    end).

Section OrderCalls.
Context (R : order_db -> order_db -> Prop) `{!PreOrder R}.
Hypothesis frame : forall d d', payment_events d' = payment_events d ->
  order_refund_outbox d' = order_refund_outbox d -> order_refund_requests d' = order_refund_requests d -> R d d'.

(** The calls that touch neither payment events nor refunds. *)
Lemma frame_Create now goods order : steps R (Create now goods order).
Proof.
  unfold Create, wrapf, createStatusLog, orderStatusLogs.Create, shopCarts.DeleteByGoodsIDs, orders.Create, dberr.
  frame_go R frame.
Qed.

Lemma frame_CreateCom order : steps R (CreateCom order).
Proof.
  unfold CreateCom, wrapf, shopCarts.RestoreCheckedItems, shopCarts.restore_item, orders.DeleteByOrderSn, first_or, dberr.
  frame_go R frame.
Qed.
End OrderCalls.

(** Every call, for a relation that looks at the payment events alone: only the two
    calls that write them have to be checked. *)
Section EventCalls.
Context (R : order_db -> order_db -> Prop) `{!PreOrder R}.
Hypothesis frame : forall d d', payment_events d' = payment_events d -> R d d'.

Lemma quiet_Update now order : steps R (Update now order).
Proof.
  unfold Update, wrapf, createStatusLog, orderStatusLogs.Create, orders.CreateRefundRequest, orders.Update, dberr.
  frame_go R frame.
Qed.
Lemma quiet_sweep c now release : steps R (lifecycle.runLifecycleSweep c now release).
Proof.
  unfold lifecycle.runLifecycleSweep, lifecycle.processExpiredOrdersOnce, lifecycle.processFinishedOrdersOnce,
    orders.ListCloseCandidates, orders.ListFinishCandidates, dberr, orders.preload, lifecycle.sweep_one.
  frame_go R frame; apply quiet_Update.
Qed.
Lemma quiet_ClaimRefundJobs now l m t : steps R (payments.ClaimRefundJobs now l m t).
Proof. unfold payments.ClaimRefundJobs, db_txn. frame_go R frame. Qed.
Lemma quiet_CompleteRefundJob now id ok p r st detail n :
  steps R (payments.CompleteRefundJob now id ok p r st detail n).
Proof.
  unfold payments.CompleteRefundJob, payments.updateRefundOrderStatus, payments.set_outbox, db_txn.
  frame_go R frame.
Qed.
Lemma quiet_RetryDeadRefundJob now id : steps R (payments.RetryDeadRefundJob now id).
Proof.
  unfold payments.RetryDeadRefundJob, payments.updateRefundOrderStatus, payments.set_outbox, db_txn.
  frame_go R frame.
Qed.

Lemma run_ocall_rel c d faults :
  (forall now e, c = OBeginPayment now e -> steps R (payments.BeginPaymentEvent now (Some (norm_event e)))) ->
  (forall now id ok detail, c = OCompletePayment now id ok detail -> steps R (payments.CompletePaymentEvent now id ok detail)) ->
  R d (e_db (run_ocall c (Env d faults))).
Proof.
  intros Hb Hc. assert (forall d d', payment_events d' = payment_events d -> order_refund_outbox d' = order_refund_outbox d ->
    order_refund_requests d' = order_refund_requests d -> R d d') as frame' by (intros; by apply frame).
  destruct c; cbn [run_ocall].
  - unfold CreateOrder. destruct req; [exact (frame_Create _ frame' _ _ _ (Env d faults))|done].
  - unfold CreateOrderCom. destruct req; [exact (frame_CreateCom _ frame' _ (Env d faults))|done].
  - exact (quiet_Update _ _ (Env d faults)).
  - exact (quiet_sweep _ _ _ (Env d faults)).
  - exact (Hb _ _ eq_refl (Env d faults)).
  - exact (Hc _ _ _ _ eq_refl (Env d faults)).
  - exact (quiet_ClaimRefundJobs _ _ _ _ (Env d faults)).
  - exact (quiet_CompleteRefundJob _ _ _ _ _ _ _ _ (Env d faults)).
  - exact (quiet_RetryDeadRefundJob _ _ (Env d faults)).
Qed.
End EventCalls.

Lemma run_ocall_events c d faults : events_pres d (e_db (run_ocall c (Env d faults))).
Proof.
  apply (run_ocall_rel events_pres events_frame); intros; subst c;
    [apply events_BeginPaymentEvent|apply events_CompletePaymentEvent].
Qed.

Lemma oreachable_events d : oreachable d -> events_ok d.
Proof.
  induction 1 as [|d c faults _ Hd _]; [split; apply NoDup_nil_2|]. by apply run_ocall_events.
Qed.

(** The event with a key is the one [BeginPaymentEvent] finds. *)
Lemma find_event d e y :
  events_ok d -> y ∈ payment_events d -> event_key y = event_key e ->
  find (payments.same_event e) (payment_events d) = Some y.
Proof.
  intros [_ Hk] Hy E. destruct (find _ _) as [z|] eqn:Ef.
  - apply find_some in Ef as [Hz Hs]. apply list_elem_of_In in Hz. apply same_event_key in Hs. f_equal.
    apply (NoDup_fmap_eq event_key (payment_events d)); [done..|congruence].
  - apply list_elem_of_In in Hy. apply (find_none _ _ Ef) in Hy. by rewrite (proj2 (same_event_key e y)) in Hy.
Qed.

Lemma began_event now e d d' ev o acc :
  events_ok d -> began now e d d' ev o acc ->
  ev ∈ payment_events d' /\ event_key ev = event_key e /\
  find (sn_is (PaymentEventDO.OrderSN ev)) (orderinfo d') = Some o /\
  (acc = true -> PaymentEventDO.Status ev = "processing").
Proof.
  intros Hd [id o' Hn Ho Hid ->|y o' Hf Hst Ho ->|y o' Hf Hst Ho ->]; cbn.
  - split_and!; try done. apply elem_of_app. right. left.
  - apply find_some in Hf as [Hin Hs]. apply list_elem_of_In in Hin. apply same_event_key in Hs.
    split_and!; try done. apply list_elem_of_fmap. exists y. unfold payments.by_id. by rewrite Z.eqb_refl.
  - apply find_some in Hf as [Hin Hs]. apply list_elem_of_In in Hin. apply same_event_key in Hs. done.
Qed.

(** The checks a payment event has to pass. *)
Definition event_valid (e : PaymentEventDO.t) : bool :=
  negb (payments.seq (PaymentEventDO.Provider e) "" || payments.seq (PaymentEventDO.EventID e) ""
        || payments.seq (PaymentEventDO.OrderSN e) "" || payments.seq (PaymentEventDO.EventType e) ""
        || (PaymentEventDO.ProviderAmountFen e <? 0)).

Lemma BeginPaymentEvent_seen_clean now e d y o :
  event_valid e = true -> find (payments.same_event e) (payment_events d) = Some y ->
  PaymentEventDO.Status y <> "failed" -> find (sn_is (PaymentEventDO.OrderSN y)) (orderinfo d) = Some o ->
  payments.BeginPaymentEvent now (Some e) (Env d []) = (Ret (y, o, false), Env d []).
Proof.
  intros Hv Hf Hst Ho. unfold payments.BeginPaymentEvent.
  erewrite bind_run; [|apply fail_if_run, negb_true_iff, Hv]. apply wrap_err_run, transaction_run. unfold first_or.
  erewrite bind_run; [|apply query_run]. cbn [rows t_events]. rewrite Hf. unfold payments.seq.
  rewrite bool_decide_eq_false_2 by done. erewrite bind_run; [|reflexivity].
  erewrite bind_run; [reflexivity|]. unfold must_first, first_or_fail. erewrite bind_run; [|apply query_run].
  cbn [rows t_orderinfo]. by rewrite Ho.
Qed.

Lemma run_ocalls_events later d : events_pres d (run_ocalls later d).
Proof.
  revert d. induction later as [|c later IH]; intros d; [done|]. unfold run_ocalls. simpl.
  etrans; [apply run_ocall_events|apply IH].
Qed.

(** ** Who processes an event *)

(** A call that reports the processing of event [id] as failed. *)
Definition reports_failure (id : Z) (c : ocall) : bool :=
  match c with OCompletePayment _ id' ok _ => (id' =? id) && negb ok | _ => false end.

(** Event [id] is recorded and not failed, and stays so. *)
Definition taken (id : Z) (d : order_db) : Prop :=
  exists e, e ∈ payment_events d /\ PaymentEventDO.ID e = id /\ PaymentEventDO.Status e <> "failed".
Definition stays_taken (id : Z) (d d' : order_db) : Prop := events_ok d -> events_ok d' /\ (taken id d -> taken id d').
#[local] Instance stays_taken_preorder id : PreOrder (stays_taken id).
Proof.
  split; [done|]. intros d1 d2 d3 H12 H23 H1. destruct (H12 H1) as [H2 F2]. destruct (H23 H2) as [H3 F3]. auto.
Qed.
Lemma taken_frame id d d' : payment_events d' = payment_events d -> stays_taken id d d'.
Proof. intros E. unfold stays_taken, events_ok, taken. rewrite E. auto. Qed.

Lemma taken_Begin id now e : steps (stays_taken id) (payments.BeginPaymentEvent now (Some e)).
Proof.
  intros s Hok. pose proof (events_BeginPaymentEvent now e s Hok) as [Hok' _]. split; [done|].
  pose proof (atomic_BeginPaymentEvent now (Some e) s) as Ha.
  destruct (payments.BeginPaymentEvent now (Some e) s) as [[[[ev o] acc]|err|p] s'] eqn:E; cbn [fst snd is_ret] in *;
    [|by rewrite Ha..].
  apply BeginPaymentEvent_Ret in E. intros (x & Hx & Ex & Hs).
  destruct E as [n o' _ _ _ ->|y o' _ _ _ ->|y o' _ _ _ ->]; [| |by exists x].
  - exists x. split; [cbn; apply elem_of_app; by left|done].
  - destruct (payments.by_id (PaymentEventDO.ID y) x) eqn:Eb.
    + exists (PaymentEventDO.set_status "processing" "" x). split; [|done]. cbn. apply list_elem_of_fmap. exists x. by rewrite Eb.
    + exists x. split; [|done]. cbn. apply list_elem_of_fmap. exists x. by rewrite Eb.
Qed.
Lemma taken_Complete id now id' ok detail :
  (id' =? id) && negb ok = false -> steps (stays_taken id) (payments.CompletePaymentEvent now id' ok detail).
Proof.
  intros Hno s Hok. pose proof (events_CompletePaymentEvent now id' ok detail s Hok) as [Hok' Hfw]. split; [done|].
  pose proof (atomic_CompletePaymentEvent now id' ok detail s) as Ha.
  destruct (payments.CompletePaymentEvent now id' ok detail s) as [[[]|err|p] s'] eqn:E; cbn [fst snd is_ret] in *;
    [|by rewrite Ha..].
  unfold payments.CompletePaymentEvent in E. apply wrap_err_Ret, transaction_Ret in E as (s0 & s1 & E0 & E & E1).
  apply bind_Ret in E as (ev & s2 & [[Hin Hp]%find_some E2]%must_first_Ret & E).
  apply andb_true_iff in Hp as [Eid%Z.eqb_eq _].
  apply bind_Ret in E as (n & s3 & [_ E3]%update_where_Ret & E).
  assert (payment_events (e_db s1) = payment_events (e_db s3)) as Ee.
  { destruct (ok && _); [|by unfold ret in E; injection E as <-]. unfold payments.update_last_refund in E.
    apply stmt_Ret in E. by destruct (payments.last_id _ _); injection E as <-. }
  intros (x & Hx & Ex & Hs). unfold taken. rewrite E1, Ee, E3, E2. cbn [t_events rows set_rows payment_events]. rewrite E0.
  eexists. split; [by apply list_elem_of_fmap_2|]. unfold payments.by_id. rewrite Eid.
  destruct (Z.eqb_spec (PaymentEventDO.ID x) id') as [Ei|]; [|done]. destruct ok; [done|].
  rewrite <- Ei, Ex, Z.eqb_refl in Hno. done.
Qed.
Lemma run_ocalls_taken id later d :
  Forall (fun c => reports_failure id c.1 = false) later -> stays_taken id d (run_ocalls later d).
Proof.
  revert d. induction later as [|c later IH]; intros d Hl; [done|]. apply Forall_cons in Hl as [Hc Hl]. unfold run_ocalls. simpl.
  etrans; [|by apply IH]. apply (run_ocall_rel (stays_taken id) (taken_frame id)).
  - intros now e _. apply taken_Begin.
  - intros now id' ok detail E. apply taken_Complete. by rewrite E in Hc.
Qed.

(** C19: a payment event is handed out to one processor at a time.  Once
    [BeginPaymentEvent] accepted it, and as long as nobody reports its processing as
    failed ([CompletePaymentEvent] without success), no delivery with its provider and
    event id is accepted again or writes anything, whatever its other fields, whatever
    calls ran in between and whichever statements failed; and a valid delivery right
    after it is answered with the record and its order. *)
Theorem payment_event_once d faults now e ev o s' :
  oreachable d -> BeginPaymentEvent now e (Env d faults) = (Ret (ev, o, true), s') ->
  (forall later, Forall (fun c => reports_failure (PaymentEventDO.ID ev) c.1 = false) later ->
   let d' := run_ocalls later (e_db s') in
   forall now' e' faults' ev' o' acc s2, event_key (norm_event e') = event_key (norm_event e) ->
     BeginPaymentEvent now' e' (Env d' faults') = (Ret (ev', o', acc), s2) -> acc = false /\ e_db s2 = d') /\
  (forall now' e', event_key (norm_event e') = event_key (norm_event e) -> event_valid (norm_event e') = true ->
     BeginPaymentEvent now' e' (Env (e_db s') []) = (Ret (ev, o, false), Env (e_db s') [])).
Proof.
  intros Hd%oreachable_events H. pose proof (events_BeginPaymentEvent now (norm_event e) (Env d faults) Hd) as [Hd' _].
  unfold BeginPaymentEvent in H. rewrite H in Hd'. apply BeginPaymentEvent_Ret in H.
  destruct (began_event _ _ _ _ _ _ _ Hd H) as (Hin & Hke & Ho & Hst). specialize (Hst eq_refl). cbn [snd] in Hd'. split.
  - intros later Hl d' now' e' faults' ev' o' acc s2 Hk Hb.
    destruct (run_ocalls_taken _ later (e_db s') Hl Hd') as [Hok Ht].
    destruct Ht as (x & Hx & Ex & Hns); [exists ev; split_and!; [done|done|by rewrite Hst]|].
    destruct (run_ocalls_events later (e_db s') Hd') as [_ Hfw]. destruct (Hfw ev Hin) as (y & Hy & Fid & Fk & _).
    assert (y = x) as -> by (apply (NoDup_fmap_eq PaymentEventDO.ID _ _ _ (proj1 Hok)); [done..|congruence]).
    assert (find (payments.same_event (norm_event e')) (payment_events d') = Some x) as Hf
      by (apply find_event; [done|done|congruence]).
    apply BeginPaymentEvent_Ret in Hb. cbn [e_db] in Hb.
    destruct Hb as [n o1 Hn _ _ _|z o1 Hf' Hs _ _|z o1 Hf' Hs _ Hdb]; [congruence|congruence|done].
  - intros now' e' Hk Hv. apply BeginPaymentEvent_seen_clean; [done| |by rewrite Hst|done].
    apply find_event; [done|done|congruence].
Qed.

Definition demo_event (id : string) : PaymentEventDO.t :=
  PaymentEventDO.mk 0 " Alipay" id "S1" "T-1" "payment_succeeded" 0 4029 0 "" "" 0 None.
Definition demo_pay1 : order_db := e_db (BeginPaymentEvent 300 (demo_event "e-1") (Env demo_od1 [])).2.
Definition demo_pay2 : order_db := e_db (payments.CompletePaymentEvent 310 1 true "" (Env demo_pay1 [])).2.

Lemma demo_pay_reach : oreachable demo_pay2.
Proof.
  exact (oreach_call demo_pay1 (OCompletePayment 310 1 true "") []
    (oreach_call demo_od1 (OBeginPayment 300 (demo_event "e-1")) [] demo_oreach1 I) I).
Qed.
#[local] Opaque demo_od1 demo_pay1 demo_pay2.

Lemma payment_event_once_witness :
  exists ev o, BeginPaymentEvent 300 (demo_event "e-1") (Env demo_od1 []) = (Ret (ev, o, true), Env demo_pay1 []) /\
    BeginPaymentEvent 305 (demo_event "e-1 ") (Env demo_pay1 []) = (Ret (ev, o, false), Env demo_pay1 []) /\
    let d' := run_ocalls [(OClaimRefunds 301 5 3 1, []); (OCompletePayment 302 7 false "other", []);
                          (OCompletePayment 303 1 true "", [])] demo_pay1 in
    forall ev' o' acc s2, BeginPaymentEvent 305 (demo_event "e-1") (Env d' []) = (Ret (ev', o', acc), s2) -> acc = false.
Proof.
  destruct (BeginPaymentEvent 300 (demo_event "e-1") (Env demo_od1 [])) as [[[[ev o] acc]|e|p] s'] eqn:E;
    [|by vm_compute in E..].
  assert (acc = true /\ PaymentEventDO.ID ev = 1 /\ s' = Env demo_pay1 []) as (-> & Eid & ->)
    by (vm_compute in E; injection E as <- <- <- <-; split_and!; vm_compute; reflexivity).
  exists ev, o. split; [reflexivity|].
  destruct (payment_event_once demo_od1 [] 300 (demo_event "e-1") ev o (Env demo_pay1 []) demo_oreach1 E) as [Hlater Hnow].
  split; [apply Hnow; vm_compute; reflexivity|]. intros d' ev' o' acc s2 Hb.
  refine (proj1 (Hlater [(OClaimRefunds 301 5 3 1, []); (OCompletePayment 302 7 false "other", []);
                         (OCompletePayment 303 1 true "", [])] _ 305 (demo_event "e-1") [] ev' o' acc s2 eq_refl Hb)).
  rewrite Eid. repeat constructor.
Defined.

(** C20: a completed payment event is final: whatever calls follow, with whatever
    faults, it is still recorded exactly as it was, and every delivery of it is
    answered with that record and not accepted. *)
Theorem completed_event_final d later e :
  oreachable d -> e ∈ payment_events d -> PaymentEventDO.Status e = "completed" ->
  let d' := run_ocalls later d in
  e ∈ payment_events d' /\
  forall now e' faults ev o acc s, event_key (norm_event e') = event_key e ->
    BeginPaymentEvent now e' (Env d' faults) = (Ret (ev, o, acc), s) -> acc = false /\ ev = e /\ e_db s = d'.
Proof.
  intros Hd%oreachable_events He Hst d'. destruct (run_ocalls_events later d Hd) as [Hd' Hfw].
  destruct (Hfw e He) as (e1 & He1 & F). assert (e1 = e) as -> by (apply F; exact Hst). fold d' in He1, Hd'.
  split; [done|]. intros now e' faults ev o acc s Hk H. apply BeginPaymentEvent_Ret in H. simpl in H.
  pose proof (find_event d' (norm_event e') e Hd' He1 (eq_sym Hk)) as Hf.
  destruct H as [id o Hn _ _ _|y o Hf' Hs _ _|y o Hf' Hs _ Hdb].
  - congruence.
  - assert (y = e) as -> by congruence. congruence.
  - assert (y = e) as -> by congruence. done.
Qed.

Lemma completed_event_final_witness :
  exists e, e ∈ payment_events demo_pay2 /\ PaymentEventDO.Status e = "completed" /\
    e ∈ payment_events (run_ocalls [(OBeginPayment 400 (demo_event "e-1"), []);
      (OCompletePayment 410 1 false "late", [])] demo_pay2).
Proof.
  destruct (payment_events demo_pay2) as [|e l] eqn:E; [by vm_compute in E|].
  assert (e ∈ payment_events demo_pay2) as Hin by (rewrite E; left).
  assert (PaymentEventDO.Status e = "completed") as Hst by (vm_compute in E; injection E as <- _; reflexivity).
  exists e. rewrite <- E. split; [exact Hin|]. split; [exact Hst|].
  apply (completed_event_final demo_pay2 _ e); [apply demo_pay_reach|exact Hin|exact Hst].
Defined.
