(* ===== verification/RefundProperties.v ===== *)
(** * The refund outbox

    Every refund request has one outbox entry; a worker claims it for a while,
    completes it, puts it back with a growing delay, or gives it up.  This file
    shows the invariant of the outbox, that a completed entry is final, that two
    workers never hold one entry, and the bounds of the delays. *)
From S2P Require Import Prelude GoStrings Errors GoMonad Tables OrderModel OrderStore CartStore.
From S2P Require Import PaymentStore OrderService OrderServer OrderHistory OrderProperties PaymentProperties.
Import orderService orderServer.
Open Scope go_scope.

Import RefundOutboxDO.

Definition outbox_statuses : list string := ["pending"; "processing"; "retry"; "completed"; "dead"].

(** One entry: a known status, locked exactly while it is processed. *)
Definition entry_ok (o : t) : Prop :=
  Status o ∈ outbox_statuses /\ 0 <= Attempts o /\ (is_Some (LockedAt o) <-> Status o = "processing").

Record outbox_ok (d : order_db) : Prop := {
  ob_ids : NoDup (ID <$> order_refund_outbox d);
  ob_requests : NoDup (RefundRequestID <$> order_refund_outbox d);
  ob_entries : Forall entry_ok (order_refund_outbox d);
  ob_refunds : Forall (fun o => RefundRequestID o ∈ RefundRequestDO.ID <$> order_refund_requests d) (order_refund_outbox d)
}.

(** An entry keeps its request; a completed one does not change. *)
Definition entry_forward (o o' : t) : Prop :=
  ID o' = ID o /\ RefundRequestID o' = RefundRequestID o /\ (Status o = "completed" -> o' = o).

Lemma entry_forward_refl o : entry_forward o o.
Proof. done. Qed.
Lemma entry_forward_trans a b c : entry_forward a b -> entry_forward b c -> entry_forward a c.
Proof.
  intros (A1 & A2 & A3) (B1 & B2 & B3). split_and!; try congruence. intros H. pose proof (A3 H) as ->. by apply B3.
Qed.

Definition outbox_pres (d d' : order_db) : Prop :=
  outbox_ok d -> outbox_ok d' /\
    forall o, o ∈ order_refund_outbox d -> exists o', o' ∈ order_refund_outbox d' /\ entry_forward o o'.

#[export] Instance outbox_pres_preorder : PreOrder outbox_pres.
Proof.
  split.
  - intros d Hd. split; [done|]. intros o Ho. by exists o.
  - intros d1 d2 d3 H12 H23 H1. destruct (H12 H1) as [H2 F12]. destruct (H23 H2) as [H3 F23].
    split; [done|]. intros o Ho. destruct (F12 o Ho) as (o2 & Ho2 & Fo). destruct (F23 o2 Ho2) as (o3 & Ho3 & Fo3).
    exists o3. split; [done|]. by eapply entry_forward_trans.
Qed.

Definition refund_ids (d : order_db) : list Z := RefundRequestDO.ID <$> order_refund_requests d.

Lemma outbox_frame d d' :
  order_refund_outbox d' = order_refund_outbox d -> refund_ids d ⊆ refund_ids d' -> outbox_pres d d'.
Proof.
  intros E Hr [H1 H2 H3 H4]. split; [split; rewrite E; try done|].
  - eapply Forall_impl; [exact H4|]. intros o. apply Hr.
  - intros o Ho. exists o. by rewrite E.
Qed.

Lemma outbox_frame_refunds d p f :
  (forall r, RefundRequestDO.ID (f r) = RefundRequestDO.ID r) ->
  outbox_pres d (set_rows t_refunds ((fun r : RefundRequestDO.t => if p r : bool then f r else r) <$> order_refund_requests d) d).
Proof.
  intros Hf. apply outbox_frame; [done|]. unfold refund_ids. cbn. rewrite <- list_fmap_compose.
  assert (RefundRequestDO.ID ∘ (fun r => if p r then f r else r) <$> order_refund_requests d
    = RefundRequestDO.ID <$> order_refund_requests d) as ->; [|done].
  apply list_fmap_ext. intros i r _. simpl. destruct (p r); [apply Hf|done].
Qed.

(** Updating entries none of which is completed. *)
Lemma outbox_update d d' (f : t -> t) id :
  (forall o, o ∈ order_refund_outbox d -> ID o = id -> Status o <> "completed") ->
  (forall o, entry_ok o -> entry_ok (f o)) ->
  (forall o, ID (f o) = ID o /\ RefundRequestID (f o) = RefundRequestID o) ->
  refund_ids d' = refund_ids d ->
  order_refund_outbox d' = (fun o => if payments.job_id id o then f o else o) <$> order_refund_outbox d ->
  outbox_pres d d'.
Proof.
  intros Hnc Hok Hid Er E [H1 H2 H3 H4].
  assert (forall (B : Type) (g : t -> B), (forall o, g (f o) = g o) ->
    g <$> order_refund_outbox d' = g <$> order_refund_outbox d) as Hg.
  { intros B g Hg. rewrite E, <- list_fmap_compose. apply list_fmap_ext. intros i o _. simpl. by case_match. }
  split; [split|].
  - rewrite (Hg _ ID); [done|apply Hid].
  - rewrite (Hg _ RefundRequestID); [done|apply Hid].
  - rewrite E, Forall_fmap. eapply Forall_impl; [exact H3|]. intros o Ho. simpl. case_match; auto.
  - unfold refund_ids in Er. rewrite Er, E, Forall_fmap. eapply Forall_impl; [exact H4|]. intros o Ho. simpl.
    case_match; [|done]. by rewrite (proj2 (Hid o)).
  - intros o Ho. eexists. split; [rewrite E; by apply list_elem_of_fmap_2|].
    unfold payments.job_id. case_match eqn:Eb; [|done]. destruct (Hid o). split_and!; try done.
    intros Hc. exfalso. apply (Hnc o); [done|blia|done].
Qed.

(** ** The calls that write the outbox *)
Section KeepsRel.
Context (R : order_db -> order_db -> Prop) `{!PreOrder R}.

Lemma keeps_rel_bind {A B} (m : M order_db A) (k : A -> M order_db B) :
  keeps_rel R m -> (forall a, keeps_rel R (k a)) -> keeps_rel R (bind m k).
Proof. intros Hm Hk s b s' (a & s1 & H1 & H2)%bind_Ret. etrans; [by eapply Hm|by eapply Hk]. Qed.
Lemma keeps_rel_wrap_err {A} f (m : M order_db A) : keeps_rel R m -> keeps_rel R (wrap_err f m).
Proof. intros Hm s a s' H%wrap_err_Ret. by eapply Hm. Qed.
Lemma keeps_rel_manual_txn {A} b c (undo : goerr -> M order_db A) rescue (body : M order_db A) :
  (forall e s, is_ret (undo e s).1 = false) -> keeps_rel R body -> keeps_rel R (manual_txn b c undo rescue body).
Proof. intros Hu Hb s a s' (s0 & s1 & <- & H & ->)%manual_txn_Ret; [|done]. by eapply Hb. Qed.
End KeepsRel.

Lemma outbox_stmt_frame {A} (f : order_db -> outcome A * order_db) :
  (forall d, order_refund_outbox (f d).2 = order_refund_outbox d /\ refund_ids (f d).2 = refund_ids d) ->
  steps outbox_pres (stmt f).
Proof.
  intros H. apply steps_stmt; [exact _|]. intros d. destruct (H d) as [E1 E2]. apply outbox_frame; [done|by rewrite E2].
Qed.

(** Statements on the other tables. *)
Ltac other_go :=
  repeat (steps_step || lazymatch goal with
    | |- steps _ (must_first _) => unfold must_first
    | |- steps _ (select_first _ _) => apply steps_query; exact _
    | |- steps _ (select_where _ _) => apply steps_query; exact _
    | |- steps _ (orders.Get _) => eapply steps_weaken; [|apply steps_eq_Get]; by intros ? ? ->
    | |- steps _ (update_where t_refunds _ _) =>
        apply steps_stmt; [exact _|intros ?; apply outbox_frame_refunds; done]
    | |- steps _ (update_where _ _ _) => apply outbox_stmt_frame; done
    | |- steps _ (insert_row _ _ _ _) => apply outbox_stmt_frame; intros ?; by case_match
    end).

Ltac rel_bind :=
  repeat lazymatch goal with |- keeps_rel _ (bind _ _) => apply keeps_rel_bind; [exact _| |intros ?] end.

Lemma outbox_CreateRefundRequest now r : keeps_rel outbox_pres (orders.CreateRefundRequest now r).
Proof.
  intros s [] s' H. unfold orders.CreateRefundRequest in H. destruct r as [r|]; [|done].
  apply bind_Ret in H as (? & ? & [_ ->]%fail_if_Ret & H).
  apply bind_Ret in H as (id & s1 & (_ & _ & E1)%wrap_err_Ret%insert_row_Ret & H).
  apply bind_Ret in H as (oid & s2 & (Hdup & Hoid & E2)%wrap_err_Ret%insert_row_Ret & H).
  unfold ret in H. injection H as <-. cbn in Hdup, Hoid, E2. rewrite E1 in Hdup, Hoid, E2. cbn in Hdup, Hoid, E2.
  rewrite E2. intros [H1 H2 H3 H4]. split; [split|]; cbn.
  - rewrite fmap_app. apply NoDup_snoc; [done|]. cbn. rewrite Hoid. apply max_id_fresh.
  - rewrite fmap_app. apply NoDup_snoc; [done|]. cbn. intros (o & Eo & Ho)%list_elem_of_fmap.
    assert (existsb (fun y => RefundRequestID y =? id) (order_refund_outbox (e_db s)) = true) as Hb; [|congruence].
    apply existsb_exists. exists o. split; [by apply list_elem_of_In|]. rewrite <- Eo. apply Z.eqb_refl.
  - apply Forall_app. split; [done|]. constructor; [|constructor].
    split; [left|split; [cbn; lia|]]. cbn. split; [by intros [? ?]|done].
  - rewrite fmap_app. apply Forall_app. split.
    + eapply Forall_impl; [exact H4|]. intros o Ho. apply elem_of_app. by left.
    + constructor; [|constructor]. cbn. apply elem_of_app. right. left.
  - intros o Ho. exists o. split; [apply elem_of_app; by left|done].
Qed.

Lemma outbox_Update now order : steps outbox_pres (Update now order).
Proof.
  apply steps_atomic; [exact _|apply atomic_Update|]. unfold Update. destruct order as [order|]; [|by intros s a s' H].
  cbv zeta. rel_bind.
  1-3: apply keeps_rel_steps; other_go.
  destruct (check_update _ _ _); [|by intros s a' s' H].
  apply keeps_rel_manual_txn; [done|]. rel_bind.
  - apply keeps_rel_steps. unfold orders.Update, dberr. other_go.
  - apply keeps_rel_steps. unfold wrapf, createStatusLog, orderStatusLogs.Create, dberr. other_go.
  - case_match; [apply outbox_CreateRefundRequest|]. apply keeps_rel_steps, steps_ret. exact _.
Qed.

(** Statements that leave the outbox and the ids of the requests alone. *)
Definition same_outbox (d d' : order_db) : Prop :=
  order_refund_outbox d' = order_refund_outbox d /\ refund_ids d' = refund_ids d.
#[export] Instance same_outbox_preorder : PreOrder same_outbox.
Proof. split; [done|]. intros d1 d2 d3 [A1 A2] [B1 B2]. split; congruence. Qed.

Lemma same_outbox_refunds p st provider refund failure now :
  steps same_outbox (update_where t_refunds p (RefundRequestDO.update st provider refund failure now)).
Proof.
  apply steps_stmt; [exact _|]. intros d. split; [done|]. unfold refund_ids. cbn. rewrite <- list_fmap_compose.
  apply list_fmap_ext. intros i r _. simpl. by case_match.
Qed.

Ltac same_go :=
  repeat (steps_step || lazymatch goal with
    | |- steps _ (must_first _) => unfold must_first
    | |- steps _ (select_first _ _) => apply steps_query; exact _
    | |- steps _ (update_where t_refunds _ _) => apply same_outbox_refunds
    | |- steps _ (update_where _ _ _) => apply steps_stmt; [exact _|done]
    | |- steps _ (insert_row _ _ _ _) => apply steps_stmt; [exact _|intros ?; by case_match]
    end).

Lemma same_updateRefund sn from to reason : steps same_outbox (payments.updateRefundOrderStatus sn from to reason).
Proof. unfold payments.updateRefundOrderStatus. same_go. Qed.

Lemma same_Ret {A} (m : M order_db A) s a s' :
  steps same_outbox m -> m s = (Ret a, s') -> same_outbox (e_db s) (e_db s').
Proof. intros Hm H. specialize (Hm s). by rewrite H in Hm. Qed.

(** An entry the code found by its id and changed. *)
Lemma outbox_found d s1 u s2 o (f : t -> t) :
  o ∈ order_refund_outbox d -> Status o <> "completed" ->
  same_outbox d (e_db s1) -> payments.set_outbox (ID o) f s1 = (Ret u, s2) ->
  (forall y, entry_ok y -> entry_ok (f y)) -> (forall y, ID (f y) = ID y /\ RefundRequestID (f y) = RefundRequestID y) ->
  outbox_pres d (e_db s2).
Proof.
  intros Hin Hst [E1 E2] H Hok Hid Hd. unfold payments.set_outbox in H.
  apply bind_Ret in H as (? & ? & [_ E]%update_where_Ret & H). unfold ret in H. injection H as <- <-.
  refine (outbox_update d _ f (ID o) _ Hok Hid _ _ Hd).
  - intros y Hy Ey. assert (y = o) as ->; [|done].
    apply (NoDup_fmap_eq ID (order_refund_outbox d)); [apply (ob_ids _ Hd)|done..].
  - by rewrite E.
  - rewrite E. cbn. by rewrite E1.
Qed.

Lemma entry_update st attempts available err now o :
  st ∈ outbox_statuses -> st <> "processing" -> 0 <= attempts ->
  entry_ok (RefundOutboxDO.update st attempts available None err now o).
Proof. intros H1 H2 H3. split; [done|]. split; [done|]. cbn. split; [by intros [? ?]|done]. Qed.

Ltac entry_go :=
  let y := fresh in let H := fresh in
  intros y H; apply entry_update; [by apply (bool_decide_unpack _)|done|first [apply H|lia]].

Lemma outbox_CompleteRefundJob now id ok p r st detail n :
  steps outbox_pres (payments.CompleteRefundJob now id ok p r st detail n).
Proof.
  apply steps_atomic; [exact _|apply atomic_CompleteRefundJob|]. intros s [] s' H.
  unfold payments.CompleteRefundJob in H. apply bind_Ret in H as (? & ? & [_ ->]%fail_if_Ret & H).
  apply wrap_err_Ret, transaction_Ret in H as (s0 & s1 & <- & H & ->).
  apply bind_Ret in H as (o & s2 & [[Hin Hp]%find_some E2]%must_first_Ret & H). apply list_elem_of_In in Hin.
  apply andb_true_iff in Hp as [_ Hst%bool_decide_eq_true]. cbv zeta in H.
  assert (Status o <> "completed") as Hne by (by rewrite Hst).
  assert (same_outbox (e_db s0) (e_db s2)) as Hs by (by rewrite E2).
  destruct ok; [|destruct (payments.refundFailureDecision _ _ _) as [at_|]].
  - apply bind_Ret in H as (? & s3 & H3 & H). apply same_Ret in H3; [|apply same_outbox_refunds].
    apply bind_Ret in H as (? & s4 & H4 & H). apply same_Ret in H4; [|same_go].
    apply bind_Ret in H as (? & s5 & H5 & H). apply same_Ret in H5; [|same_go; apply same_updateRefund].
    eapply outbox_found; [exact Hin|exact Hne| |exact H|entry_go|done].
    etrans; [exact Hs|]. etrans; [exact H3|]. by etrans.
  - by eapply outbox_found; [exact Hin|exact Hne|exact Hs|exact H|entry_go|done].
  - apply bind_Ret in H as (? & s3 & H3 & H). apply same_Ret in H3; [|apply same_outbox_refunds].
    apply bind_Ret in H as (? & s4 & H4 & H). apply same_Ret in H4; [|same_go].
    apply bind_Ret in H as (? & s5 & H5 & H). apply same_Ret in H5; [|same_go; apply same_updateRefund].
    eapply outbox_found; [exact Hin|exact Hne| |exact H|entry_go|done].
    etrans; [exact Hs|]. etrans; [exact H3|]. by etrans.
Qed.

Lemma outbox_RetryDeadRefundJob now id : steps outbox_pres (payments.RetryDeadRefundJob now id).
Proof.
  apply steps_atomic; [exact _|apply atomic_RetryDeadRefundJob|]. intros s job s' H.
  unfold payments.RetryDeadRefundJob in H. apply bind_Ret in H as (? & ? & [_ ->]%fail_if_Ret & H).
  apply wrap_err_Ret, transaction_Ret in H as (s0 & s1 & <- & H & ->).
  apply bind_Ret in H as (o & s2 & [[Hin Hp]%find_some E2]%must_first_Ret & H). apply list_elem_of_In in Hin.
  apply andb_true_iff in Hp as [_ Hst%bool_decide_eq_true].
  assert (same_outbox (e_db s0) (e_db s2)) as Hs by (by rewrite E2).
  apply bind_Ret in H as (? & s3 & H3 & H). apply same_Ret in H3; [|same_go].
  apply bind_Ret in H as (? & s4 & H4 & H). apply same_Ret in H4; [|same_go].
  apply bind_Ret in H as (? & s5 & H5 & H). apply same_Ret in H5; [|same_go].
  apply bind_Ret in H as (? & s6 & H6 & H). apply same_Ret in H6; [|same_go; apply same_updateRefund].
  apply bind_Ret in H as (? & s7 & H7 & H). unfold ret in H. injection H as <- <-.
  eapply outbox_found; [exact Hin|by rewrite Hst| |exact H7|entry_go|done].
  etrans; [exact Hs|]. etrans; [exact H3|]. etrans; [exact H4|]. by etrans.
Qed.

(** The loop of [ClaimRefundJobs]. *)
Definition claim_one (now : Z) (outbox : t) : M order_db RefundJob.t :=
  update_where t_outbox (payments.job_id (ID outbox)) (payments.claim now) ;;;
  joined <- query (payments.refund_rows (RefundRequestID outbox)) ;;
  match joined with
  | [(r, o)] =>
    ret (RefundJob.mk (ID outbox) (RefundRequestDO.ID r) (RefundRequestDO.OrderSN r)
           (OrderInfoDO.TradeNo o) (RefundRequestDO.AmountFen r) (RefundRequestDO.Reason r)
           (RefundRequestDO.CorrelationID r) (Attempts outbox + 1))
  | _ => fail (Errorf "refund request %d has no order" [itoa (RefundRequestID outbox)] None)
  end.

Definition claimed_rows (now id : Z) : list t -> list t :=
  fmap (fun o => if payments.job_id id o then payments.claim now o else o).

Lemma claim_one_Ret now o s j s' :
  claim_one now o s = (Ret j, s') ->
  RefundJob.OutboxID j = ID o /\ RefundJob.Attempts j = Attempts o + 1 /\
  order_refund_outbox (e_db s') = claimed_rows now (ID o) (order_refund_outbox (e_db s)) /\
  refund_ids (e_db s') = refund_ids (e_db s).
Proof.
  intros H. unfold claim_one in H. apply bind_Ret in H as (? & s1 & [_ E1]%update_where_Ret & H).
  apply bind_Ret in H as (l & s2 & [_ E2]%query_Ret & H).
  destruct l as [|[r y] [|]]; try done. unfold ret in H. injection H as <- <-. rewrite E2, E1. done.
Qed.

(** No completed entry has the id of one of [l]. *)
Definition none_completed (l : list t) (rows : list t) : Prop :=
  Forall (fun o => forall y, y ∈ rows -> ID y = ID o -> Status y <> "completed") l.

Lemma claimed_lookup now id rows y :
  y ∈ claimed_rows now id rows -> exists z, z ∈ rows /\ ID y = ID z /\ (y = z \/ y = payments.claim now z).
Proof.
  intros (z & -> & Hz)%list_elem_of_fmap. exists z. split; [done|]. case_match; [by split; [|right]|by split; [|left]].
Qed.

Lemma none_completed_claim now id l rows : none_completed l rows -> none_completed l (claimed_rows now id rows).
Proof.
  intros H. eapply Forall_impl; [exact H|]. intros o Ho y Hy Ey.
  destruct (claimed_lookup _ _ _ _ Hy) as (z & Hz & Ez & [-> | ->]); [by apply Ho|done].
Qed.

Lemma entry_claim now o : entry_ok o -> entry_ok (payments.claim now o).
Proof.
  intros (_ & H & _). split; [by apply (bool_decide_unpack _)|]. split; cbn; [lia|]. split; [done|by eauto].
Qed.

Lemma claim_one_outbox now o l s j s' :
  none_completed (o :: l) (order_refund_outbox (e_db s)) -> claim_one now o s = (Ret j, s') ->
  outbox_pres (e_db s) (e_db s') /\ none_completed l (order_refund_outbox (e_db s')).
Proof.
  intros Hn (_ & _ & E1 & E2)%claim_one_Ret. apply Forall_cons in Hn as [Hn Hl].
  split; [|rewrite E1; by apply none_completed_claim].
  apply (outbox_update _ _ (payments.claim now) (ID o)); [|apply entry_claim|done|done|done].
  intros y Hy Ey. by apply Hn.
Qed.

Lemma map_claim_outbox now l s js s' :
  none_completed l (order_refund_outbox (e_db s)) -> map_each l (claim_one now) s = (Ret js, s') ->
  outbox_pres (e_db s) (e_db s').
Proof.
  revert s js. induction l as [|o l IH]; intros s js Hn H; simpl in H.
  { unfold ret in H. by injection H as _ <-. }
  apply bind_Ret in H as (j & s1 & H1 & H). apply bind_Ret in H as (js' & s2 & H2 & H).
  unfold ret in H. injection H as _ <-. destruct (claim_one_outbox _ _ _ _ _ _ Hn H1) as [Hp Hn'].
  etrans; [exact Hp|]. by eapply IH.
Qed.

Lemma ClaimRefundJobs_Ret now limit max timeout s js s' :
  payments.ClaimRefundJobs now limit max timeout s = (Ret js, s') ->
  exists s0 s1, e_db s0 = e_db s /\ e_db s' = e_db s1 /\
    map_each (page 0 (payments.claim_limit limit) (List.filter
      (payments.claimable now (payments.claim_attempts max) (payments.claim_timeout timeout))
      (order_refund_outbox (e_db s)))) (claim_one now) s0 = (Ret js, s1).
Proof.
  intros H. unfold payments.ClaimRefundJobs in H. apply wrap_err_Ret, transaction_Ret in H as (s0 & s1 & <- & H & ->).
  apply bind_Ret in H as (l & s2 & [-> E2]%select_where_Ret & H). cbn [rows t_outbox] in H.
  exists s2, s1. done.
Qed.

Lemma page_subseteq {A} (offset limit : Z) (l : list A) y : y ∈ page offset limit l -> y ∈ l.
Proof.
  unfold page. intros H. assert (y ∈ (if 0 <? offset then drop (Z.to_nat offset) l else l)) as H'.
  { destruct (0 <=? limit); [|done]. apply list_elem_of_lookup in H as [i Hi]. rewrite lookup_take_Some in Hi.
    apply list_elem_of_lookup. exists i. apply Hi. }
  destruct (0 <? offset); [|done]. apply list_elem_of_lookup in H' as [i Hi]. rewrite lookup_drop in Hi.
  apply list_elem_of_lookup. by eexists.
Qed.

Lemma claimable_not_completed now max timeout o : payments.claimable now max timeout o = true -> Status o <> "completed".
Proof.
  intros H E. unfold payments.claimable in H. rewrite E in H.
  change (payments.seq "completed" "pending") with false in H. change (payments.seq "completed" "retry") with false in H.
  change (payments.seq "completed" "processing") with false in H. simpl in H. by rewrite andb_false_r in H.
Qed.

Lemma claim_found now limit max timeout rows o :
  o ∈ page 0 (payments.claim_limit limit) (List.filter (payments.claimable now max timeout) rows) ->
  o ∈ rows /\ payments.claimable now max timeout o = true.
Proof. intros [Ho Hc]%page_subseteq%list_elem_of_In%filter_In. by rewrite list_elem_of_In. Qed.

Lemma outbox_ClaimRefundJobs now limit max timeout : steps outbox_pres (payments.ClaimRefundJobs now limit max timeout).
Proof.
  apply steps_atomic; [exact _|apply atomic_ClaimRefundJobs|].
  intros s js s' (s0 & s1 & E0 & -> & H)%ClaimRefundJobs_Ret Hd. rewrite <- E0 in H, Hd |- *.
  refine (map_claim_outbox _ _ _ _ _ _ H Hd). apply Forall_forall.
  intros o [Ho Hc]%claim_found y Hy Ey. assert (y = o) as ->; [|by eapply claimable_not_completed].
  apply (NoDup_fmap_eq ID (order_refund_outbox (e_db s0))); [apply (ob_ids _ Hd)|done..].
Qed.

Lemma outbox_CompletePaymentEvent now id ok detail : steps outbox_pres (payments.CompletePaymentEvent now id ok detail).
Proof.
  unfold payments.CompletePaymentEvent, db_txn. other_go. unfold payments.update_last_refund.
  apply steps_stmt; [exact _|]. intros d. cbn. case_match; [|done]. apply outbox_frame_refunds. done.
Qed.

Lemma outbox_sweep c now release : steps outbox_pres (lifecycle.runLifecycleSweep c now release).
Proof.
  unfold lifecycle.runLifecycleSweep, lifecycle.processExpiredOrdersOnce, lifecycle.processFinishedOrdersOnce,
    orders.ListCloseCandidates, orders.ListFinishCandidates, dberr, orders.preload, lifecycle.sweep_one.
  other_go; apply outbox_Update.
Qed.

Lemma run_ocall_outbox c d faults : outbox_pres d (e_db (run_ocall c (Env d faults))).
Proof.
  assert (forall d d', payment_events d' = payment_events d -> order_refund_outbox d' = order_refund_outbox d ->
    order_refund_requests d' = order_refund_requests d -> outbox_pres d d') as frame.
  { intros d1 d2 _ E1 E2. apply outbox_frame; [done|]. unfold refund_ids. by rewrite E2. }
  destruct c; cbn [run_ocall].
  - unfold CreateOrder. destruct req; [exact (frame_Create _ frame _ _ _ (Env d faults))|done].
  - unfold CreateOrderCom. destruct req; [exact (frame_CreateCom _ frame _ (Env d faults))|done].
  - exact (outbox_Update _ _ (Env d faults)).
  - exact (outbox_sweep _ _ _ (Env d faults)).
  - assert (steps outbox_pres (payments.BeginPaymentEvent now (Some (norm_event e)))) as H; [|exact (H (Env d faults))].
    unfold payments.BeginPaymentEvent, db_txn, first_or. other_go.
  - exact (outbox_CompletePaymentEvent _ _ _ _ (Env d faults)).
  - exact (outbox_ClaimRefundJobs _ _ _ _ (Env d faults)).
  - exact (outbox_CompleteRefundJob _ _ _ _ _ _ _ _ (Env d faults)).
  - exact (outbox_RetryDeadRefundJob _ _ (Env d faults)).
Qed.

Lemma run_ocalls_outbox later d : outbox_pres d (run_ocalls later d).
Proof.
  revert d. induction later as [|c later IH]; intros d; [done|]. unfold run_ocalls. simpl.
  etrans; [apply run_ocall_outbox|apply IH].
Qed.

Lemma oreachable_outbox d : oreachable d -> outbox_ok d.
Proof.
  induction 1 as [|d c faults _ Hd _]; [|by apply run_ocall_outbox].
  split; try apply NoDup_nil_2; apply Forall_nil_2.
Qed.

(** C21: in every reachable state of the refund outbox each refund request has at
    most one entry and each entry a request, entries have distinct ids, a known
    status and a non-negative number of attempts, and an entry is locked exactly
    while it is processed. *)
Theorem refund_outbox_ok d :
  oreachable d ->
  NoDup (ID <$> order_refund_outbox d) /\ NoDup (RefundRequestID <$> order_refund_outbox d) /\
  forall o, o ∈ order_refund_outbox d ->
    Status o ∈ outbox_statuses /\ 0 <= Attempts o /\ (is_Some (LockedAt o) <-> Status o = "processing") /\
    exists r, r ∈ order_refund_requests d /\ RefundRequestDO.ID r = RefundRequestID o.
Proof.
  intros [H1 H2 H3 H4]%oreachable_outbox. split; [done|]. split; [done|]. intros o Ho.
  rewrite Forall_forall in H3. rewrite Forall_forall in H4.
  destruct (H3 o Ho) as (A & B & C). split_and!; try done. specialize (H4 o Ho).
  apply list_elem_of_fmap in H4 as (r & E & Hr). by exists r.
Qed.

Definition demo_rf1 : order_db := e_db (payments.ClaimRefundJobs 400 0 0 0 (Env demo_od3 [])).2.
Definition demo_rf2 : order_db := e_db (CompleteRefundJob 410 1 true "alipay" "R-1" "refunded" "" 0 (Env demo_rf1 [])).2.

Lemma demo_rf_reach1 : oreachable demo_rf1.
Proof. exact (oreach_call demo_od3 (OClaimRefunds 400 0 0 0) [] demo_oreach3 I). Qed.
Lemma demo_rf_reach2 : oreachable demo_rf2.
Proof. exact (oreach_call demo_rf1 (OCompleteRefund 410 1 true "alipay" "R-1" "refunded" "" 0) [] demo_rf_reach1 I). Qed.
#[local] Opaque demo_od3 demo_rf1 demo_rf2.

Lemma refund_outbox_ok_witness :
  exists o r, o ∈ order_refund_outbox demo_rf1 /\ Status o = "processing" /\ is_Some (LockedAt o) /\
    r ∈ order_refund_requests demo_rf1 /\ RefundRequestDO.ID r = RefundRequestID o.
Proof.
  destruct (order_refund_outbox demo_rf1) as [|o l] eqn:E; [by vm_compute in E|].
  assert (o ∈ order_refund_outbox demo_rf1) as Hin by (rewrite E; left).
  assert (Status o = "processing") as Hst by (vm_compute in E; injection E as <- _; reflexivity).
  destruct (refund_outbox_ok demo_rf1) as (_ & _ & H); [apply demo_rf_reach1|].
  destruct (H o Hin) as (_ & _ & Hl & r & Hr & Er). exists o, r. rewrite <- E.
  split; [exact Hin|]. split; [exact Hst|]. split; [by apply Hl|]. split; [exact Hr|exact Er].
Defined.

(** The ids of the jobs a claim handed out. *)
Lemma map_claim_jobs now l s js s' :
  map_each l (claim_one now) s = (Ret js, s') -> RefundJob.OutboxID <$> js = ID <$> l.
Proof.
  revert s js s'. induction l as [|o l IH]; intros s js s' H; simpl in H; [unfold ret in H; by injection H as <- _|].
  apply bind_Ret in H as (j & s1 & (E & _)%claim_one_Ret & H). apply bind_Ret in H as (js' & s2 & H2 & H).
  unfold ret in H. injection H as <- _. simpl. f_equal; [done|by eapply IH].
Qed.

Lemma claim_jobs now limit max timeout s js s' j :
  payments.ClaimRefundJobs now limit max timeout s = (Ret js, s') -> j ∈ js ->
  exists o, o ∈ order_refund_outbox (e_db s) /\ ID o = RefundJob.OutboxID j /\
    payments.claimable now (payments.claim_attempts max) (payments.claim_timeout timeout) o = true.
Proof.
  intros (s0 & s1 & _ & _ & H%map_claim_jobs)%ClaimRefundJobs_Ret Hj.
  assert (RefundJob.OutboxID j ∈ RefundJob.OutboxID <$> js) as Hin by (by apply list_elem_of_fmap_2).
  rewrite H in Hin. apply list_elem_of_fmap in Hin as (o & E & [Ho Hc]%claim_found). by exists o.
Qed.

(** A completed refund is never handed out again: whatever calls follow, with
    whatever faults, its entry stays exactly as it is and no claim returns it. *)
Theorem completed_refund_final d later o :
  oreachable d -> o ∈ order_refund_outbox d -> Status o = "completed" ->
  let d' := run_ocalls later d in
  o ∈ order_refund_outbox d' /\
  forall now limit max timeout faults js s j,
    payments.ClaimRefundJobs now limit max timeout (Env d' faults) = (Ret js, s) -> j ∈ js ->
    RefundJob.OutboxID j <> ID o.
Proof.
  intros Hd%oreachable_outbox Ho Hst d'. destruct (run_ocalls_outbox later d Hd) as [Hd' Hfw].
  destruct (Hfw o Ho) as (o' & Ho' & F). assert (o' = o) as -> by (apply F; exact Hst).
  split; [done|]. intros now limit max timeout faults js s j H Hj E.
  destruct (claim_jobs _ _ _ _ _ _ _ _ H Hj) as (y & Hy & Ey & Hc). simpl in Hy.
  assert (y = o) as ->.
  { apply (NoDup_fmap_eq ID (order_refund_outbox d')); [apply (ob_ids _ Hd')|done|done|congruence]. }
  by apply claimable_not_completed in Hc.
Qed.

Lemma completed_refund_final_witness :
  exists o, o ∈ order_refund_outbox demo_rf2 /\ Status o = "completed" /\
    o ∈ order_refund_outbox (run_ocalls [(OClaimRefunds 999999999999 5 3 1, []);
      (OCompleteRefund 410 1 false "" "" "" "late" 0, []); (ORetryRefund 500 1, [])] demo_rf2).
Proof.
  destruct (order_refund_outbox demo_rf2) as [|o l] eqn:E; [by vm_compute in E|].
  assert (o ∈ order_refund_outbox demo_rf2) as Hin by (rewrite E; left).
  assert (Status o = "completed") as Hst by (vm_compute in E; injection E as <- _; reflexivity).
  exists o. rewrite <- E. split; [exact Hin|]. split; [exact Hst|].
  apply (completed_refund_final demo_rf2 _ o); [apply demo_rf_reach2|exact Hin|exact Hst].
Defined.

(** ** One worker at a time *)

Definition held_since (now id : Z) (rows : list t) : Prop :=
  forall y, y ∈ rows -> ID y = id -> Status y = "processing" /\ LockedAt y = Some now.

Lemma held_claimed now id id' rows : held_since now id rows -> held_since now id (claimed_rows now id' rows).
Proof.
  intros H y Hy Ey. destruct (claimed_lookup _ _ _ _ Hy) as (z & Hz & Ez & [-> | ->]); [by apply H|done].
Qed.

Lemma held_own now id rows : held_since now id (claimed_rows now id rows).
Proof.
  intros y (z & -> & Hz)%list_elem_of_fmap. unfold payments.job_id. destruct (Z.eqb_spec (ID z) id); done.
Qed.

Lemma map_claim_held now l s js s' :
  map_each l (claim_one now) s = (Ret js, s') ->
  (forall id, held_since now id (order_refund_outbox (e_db s)) -> held_since now id (order_refund_outbox (e_db s'))) /\
  forall o, o ∈ l -> held_since now (ID o) (order_refund_outbox (e_db s')).
Proof.
  revert s js s'. induction l as [|o l IH]; intros s js s' H; simpl in H.
  { unfold ret in H. injection H as _ <-. split; [done|]. intros o Ho. by apply not_elem_of_nil in Ho. }
  apply bind_Ret in H as (j & s1 & (_ & _ & E1 & _)%claim_one_Ret & H). apply bind_Ret in H as (js' & s2 & H2 & H).
  unfold ret in H. injection H as _ <-. destruct (IH _ _ _ H2) as [Hk Hl]. rewrite E1 in Hk. split.
  - intros id Hid. by apply Hk, held_claimed.
  - intros y [->|Hy]%elem_of_cons; [apply Hk, held_own|by apply Hl].
Qed.

Lemma map_claim_ids now l s js s' :
  map_each l (claim_one now) s = (Ret js, s') -> ID <$> order_refund_outbox (e_db s') = ID <$> order_refund_outbox (e_db s).
Proof.
  revert s js s'. induction l as [|o l IH]; intros s js s' H; simpl in H; [unfold ret in H; by injection H as _ <-|].
  apply bind_Ret in H as (j & s1 & (_ & _ & E1 & _)%claim_one_Ret & H). apply bind_Ret in H as (js' & s2 & H2 & H).
  unfold ret in H. injection H as _ <-. rewrite (IH _ _ _ H2), E1. unfold claimed_rows. rewrite <- list_fmap_compose.
  apply list_fmap_ext. intros i y _. simpl. by case_match.
Qed.

Lemma held_not_claimable now now' max timeout o :
  Status o = "processing" -> LockedAt o = Some now -> now' - timeout <= now ->
  payments.claimable now' max timeout o = false.
Proof.
  intros Hst Hl Ht. unfold payments.claimable. rewrite Hst, Hl.
  change (payments.seq "processing" "pending") with false. change (payments.seq "processing" "retry") with false.
  change (payments.seq "processing" "processing") with true. simpl. rewrite andb_false_r. simpl.
  apply Z.ltb_ge. lia.
Qed.

(** ** What leaves a held entry alone *)

(** Entry [o] survives as it is. *)
Definition untouched (o : t) (d d' : order_db) : Prop := o ∈ order_refund_outbox d -> o ∈ order_refund_outbox d'.
#[local] Instance untouched_preorder o : PreOrder (untouched o).
Proof. unfold untouched. split; red; auto. Qed.

(** Statements that do not update the entry. *)
Ltac untouched_go :=
  repeat (steps_step || lazymatch goal with
    | |- steps _ (must_first _) => unfold must_first
    | |- steps _ (select_first _ _) => apply steps_query; exact _
    | |- steps _ (select_where _ _) => apply steps_query; exact _
    | |- steps _ (orders.Get _) => eapply steps_weaken; [|apply steps_eq_Get]; by intros ? ? ->
    | |- steps _ (manual_txn _ _ _ _ _) => apply steps_manual_txn; [exact _|..];
        [let e := fresh in let s := fresh in let E := fresh in
         intros e s; try done; unfold rollback_with; pose proof (next_fault_db s) as E;
         by destruct (next_fault s) as [[]]|]
    | |- steps _ (insert_row t_outbox _ _ _) =>
        apply steps_stmt; [exact _|intros ? ?; case_match; [done|]; cbn; apply elem_of_app; by left]
    | |- steps _ (insert_row _ _ _ _) => apply steps_stmt; [exact _|intros ? ?; by case_match]
    | |- steps _ (update_where t_outbox _ _) => fail
    | |- steps _ (update_where _ _ _) => apply steps_stmt; [exact _|by intros ? ?]
    end).

Lemma untouched_Update o now order : steps (untouched o) (Update now order).
Proof.
  unfold Update, wrapf, createStatusLog, orderStatusLogs.Create, orders.CreateRefundRequest, orders.Update, dberr.
  untouched_go.
Qed.
Lemma untouched_sweep o c now release : steps (untouched o) (lifecycle.runLifecycleSweep c now release).
Proof.
  unfold lifecycle.runLifecycleSweep, lifecycle.processExpiredOrdersOnce, lifecycle.processFinishedOrdersOnce,
    orders.ListCloseCandidates, orders.ListFinishCandidates, dberr, orders.preload, lifecycle.sweep_one.
  untouched_go; apply untouched_Update.
Qed.
Lemma untouched_other o id f : ID o <> id -> steps (untouched o) (update_where t_outbox (payments.job_id id) f).
Proof.
  intros Hid. apply steps_stmt; [exact _|]. intros d Ho. cbn. apply list_elem_of_fmap. exists o. split; [|done].
  unfold payments.job_id. destruct (Z.eqb_spec (ID o) id); done.
Qed.
Lemma untouched_Complete o now id ok p r st detail n :
  ID o <> id -> steps (untouched o) (payments.CompleteRefundJob now id ok p r st detail n).
Proof.
  intros Hid s Ho. pose proof (atomic_CompleteRefundJob now id ok p r st detail n s) as Ha.
  destruct (payments.CompleteRefundJob now id ok p r st detail n s) as [[[]|e|m] s'] eqn:E; cbn [fst snd is_ret] in *;
    [|by rewrite Ha..].
  unfold payments.CompleteRefundJob in E. apply bind_Ret in E as (u & s9 & [_ ->]%fail_if_Ret & E).
  apply wrap_err_Ret, transaction_Ret in E as (s0 & s1 & E0 & E & ->). rewrite <- E0 in Ho.
  apply bind_Ret in E as (y & s2 & [[_ Hp]%find_some E2]%must_first_Ret & E).
  apply andb_true_iff in Hp as [Ey%Z.eqb_eq _]. rewrite <- E2 in Ho. rewrite <- Ey in Hid.
  revert Ho. change (untouched o (e_db s2) (e_db s1)).
  match type of E with ?m s2 = _ => assert (steps (untouched o) m) as H end; [|specialize (H s2); by rewrite E in H].
  unfold payments.updateRefundOrderStatus, payments.set_outbox. untouched_go; by apply untouched_other.
Qed.
Lemma untouched_Retry o now id :
  Status o = "processing" -> forall s, outbox_ok (e_db s) ->
  untouched o (e_db s) (e_db (payments.RetryDeadRefundJob now id s).2).
Proof.
  intros Hst s Hok Ho. pose proof (atomic_RetryDeadRefundJob now id s) as Ha.
  destruct (payments.RetryDeadRefundJob now id s) as [[job|e|m] s'] eqn:E; cbn [fst snd is_ret] in *; [|by rewrite Ha..].
  unfold payments.RetryDeadRefundJob in E. apply bind_Ret in E as (u & s9 & [_ ->]%fail_if_Ret & E).
  apply wrap_err_Ret, transaction_Ret in E as (s0 & s1 & E0 & E & ->). rewrite <- E0 in Ho, Hok.
  apply bind_Ret in E as (y & s2 & [[Hin Hp]%find_some E2]%must_first_Ret & E). apply list_elem_of_In in Hin.
  apply andb_true_iff in Hp as [Ey%Z.eqb_eq Hs%bool_decide_eq_true].
  assert (ID o <> ID y) as Hid.
  { intros Eo. assert (o = y) as -> by (by apply (NoDup_fmap_eq ID _ _ _ (ob_ids _ Hok))). congruence. }
  rewrite <- E2 in Ho. revert Ho. change (untouched o (e_db s2) (e_db s1)).
  match type of E with ?m s2 = _ => assert (steps (untouched o) m) as H end; [|specialize (H s2); by rewrite E in H].
  unfold payments.updateRefundOrderStatus, payments.set_outbox. untouched_go; by apply untouched_other.
Qed.
Lemma map_claim_untouched o now l s js s' :
  map_each l (claim_one now) s = (Ret js, s') -> ID o ∉ ID <$> l -> untouched o (e_db s) (e_db s').
Proof.
  revert s js s'. induction l as [|y l IH]; intros s js s' H Hn; simpl in H; [unfold ret in H; by injection H as _ <-|].
  apply bind_Ret in H as (j & s1 & (_ & _ & E1 & _)%claim_one_Ret & H). apply bind_Ret in H as (js' & s2 & H2 & H).
  unfold ret in H. injection H as _ <-. cbn in Hn. apply not_elem_of_cons in Hn as [Hy Hl].
  intros Ho. apply (IH _ _ _ H2 Hl). rewrite E1. apply list_elem_of_fmap. exists o. split; [|done].
  unfold payments.job_id. destruct (Z.eqb_spec (ID o) (ID y)); done.
Qed.
Lemma untouched_Claim o now now' limit max timeout s :
  Status o = "processing" -> LockedAt o = Some now -> now' - payments.claim_timeout timeout <= now -> outbox_ok (e_db s) ->
  untouched o (e_db s) (e_db (payments.ClaimRefundJobs now' limit max timeout s).2).
Proof.
  intros Hst Hl Ht Hok Ho. pose proof (atomic_ClaimRefundJobs now' limit max timeout s) as Ha.
  destruct (payments.ClaimRefundJobs now' limit max timeout s) as [[js|e|m] s'] eqn:E; cbn [fst snd is_ret] in *;
    [|by rewrite Ha..].
  apply ClaimRefundJobs_Ret in E as (s0 & s1 & E0 & -> & E). refine (map_claim_untouched o _ _ _ _ _ E _ _); [|by rewrite E0].
  intros (y & Ey & [Hy Hc]%claim_found)%list_elem_of_fmap.
  assert (o = y) as <- by (by apply (NoDup_fmap_eq ID _ _ _ (ob_ids _ Hok))). by rewrite (held_not_claimable now) in Hc.
Qed.

(** A call that neither ends the processing of job [id] nor comes after its lock timeout
    of the claim at [now]. *)
Definition leaves_held (now id : Z) (c : ocall) : Prop :=
  match c with
  | OCompleteRefund _ id' _ _ _ _ _ _ => id' <> id
  | OClaimRefunds now' _ _ timeout => now' - payments.claim_timeout timeout <= now
  | _ => True
  end.
Lemma run_ocall_untouched o now c d faults :
  Status o = "processing" -> LockedAt o = Some now -> leaves_held now (ID o) c -> outbox_ok d ->
  untouched o d (e_db (run_ocall c (Env d faults))).
Proof.
  intros Hst Hl Hc Hok.
  assert (forall d d', payment_events d' = payment_events d -> order_refund_outbox d' = order_refund_outbox d ->
    order_refund_requests d' = order_refund_requests d -> untouched o d d') as frame
    by (intros d1 d2 _ E _; unfold untouched; by rewrite E).
  destruct c; cbn [run_ocall leaves_held] in *.
  - unfold CreateOrder. destruct req; [exact (frame_Create _ frame _ _ _ (Env d faults))|done].
  - unfold CreateOrderCom. destruct req; [exact (frame_CreateCom _ frame _ (Env d faults))|done].
  - exact (untouched_Update _ _ _ (Env d faults)).
  - exact (untouched_sweep _ _ _ _ (Env d faults)).
  - assert (steps (untouched o) (payments.BeginPaymentEvent now0 (Some (norm_event e)))) as H; [|exact (H (Env d faults))].
    unfold payments.BeginPaymentEvent, db_txn, first_or. untouched_go.
  - assert (steps (untouched o) (payments.CompletePaymentEvent now0 id ok detail)) as H; [|exact (H (Env d faults))].
    unfold payments.CompletePaymentEvent, db_txn, payments.update_last_refund. untouched_go.
    apply steps_stmt; [exact _|]. intros d0 H. by case_match.
  - exact (untouched_Claim o now now0 _ _ _ (Env d faults) Hst Hl Hc Hok).
  - exact (untouched_Complete o _ _ _ _ _ _ _ _ (not_eq_sym Hc) (Env d faults)).
  - exact (untouched_Retry o _ _ Hst (Env d faults) Hok).
Qed.
Lemma run_ocalls_untouched o now later d :
  Status o = "processing" -> LockedAt o = Some now -> Forall (fun c => leaves_held now (ID o) c.1) later -> outbox_ok d ->
  untouched o d (run_ocalls later d).
Proof.
  intros Hst Hl. revert d. induction later as [|c later IH]; intros d Hc Hok; [done|]. apply Forall_cons in Hc as [Hc Hr].
  unfold run_ocalls. simpl. etrans; [by apply (run_ocall_untouched o now)|]. apply IH; [done|]. by apply run_ocall_outbox.
Qed.

(** C22: a claimed refund is held by one worker.  After a claim returned a job, and as
    long as nobody completes that job and no claim comes later than its own lock timeout
    after this one, no claim returns the job again: whatever other calls run in between,
    whichever statements fail, and whatever limits the claims have.  (The lock is not a
    fence: a worker whose lock has expired can still complete its job.) *)
Theorem claims_exclusive d now limit max timeout faults js s' j later now' limit' max' timeout' faults' js' s2 j' :
  oreachable d -> payments.ClaimRefundJobs now limit max timeout (Env d faults) = (Ret js, s') -> j ∈ js ->
  Forall (fun c => leaves_held now (RefundJob.OutboxID j) c.1) later ->
  payments.ClaimRefundJobs now' limit' max' timeout' (Env (run_ocalls later (e_db s')) faults') = (Ret js', s2) ->
  now' - payments.claim_timeout timeout' <= now -> j' ∈ js' ->
  RefundJob.OutboxID j <> RefundJob.OutboxID j'.
Proof.
  intros Hd%oreachable_outbox H Hj Hl H' Ht Hj' E.
  pose proof (outbox_ClaimRefundJobs now limit max timeout (Env d faults) Hd) as [Hd' _]. rewrite H in Hd'. cbn [snd] in Hd'.
  apply ClaimRefundJobs_Ret in H as (s0 & s1 & E0 & E1 & H). rewrite E1 in *.
  assert (RefundJob.OutboxID j ∈ RefundJob.OutboxID <$> js) as Hin by (by apply list_elem_of_fmap_2).
  rewrite (map_claim_jobs _ _ _ _ _ H) in Hin. apply list_elem_of_fmap in Hin as (y & Ey & Hy).
  assert (exists o, o ∈ order_refund_outbox (e_db s1) /\ ID o = ID y) as (o & Ho & Eo).
  { apply claim_found in Hy as [Hin _]. pose proof (map_claim_ids _ _ _ _ _ H) as Ei.
    assert (ID y ∈ ID <$> order_refund_outbox (e_db s1)) as (o & ? & ?)%list_elem_of_fmap; [|by exists o].
    rewrite Ei. apply list_elem_of_fmap_2. by rewrite E0. }
  destruct (proj2 (map_claim_held _ _ _ _ _ H) y Hy o Ho Eo) as [Hst Hlock].
  assert (o ∈ order_refund_outbox (run_ocalls later (e_db s1))) as Hkept.
  { apply (run_ocalls_untouched o now); [done|done| |done|done]. by rewrite Eo, <- Ey. }
  destruct (claim_jobs _ _ _ _ _ _ _ _ H' Hj') as (z & Hz & Ez & Hc). cbn [e_db] in Hz.
  assert (z = o) as ->.
  { apply (NoDup_fmap_eq ID (order_refund_outbox (run_ocalls later (e_db s1)))); [|done|done|congruence].
    apply ob_ids. by apply run_ocalls_outbox. }
  by rewrite (held_not_claimable now now') in Hc.
Qed.

(** Between the two claims another worker claims and another job is completed. *)
Lemma claims_exclusive_witness :
  exists js, payments.ClaimRefundJobs 400 0 0 0 (Env demo_od3 []) = (Ret js, Env demo_rf1 []) /\ js <> [] /\
    let d' := run_ocalls [(OClaimRefunds 450 1 0 0, []); (OCompleteRefund 460 7 true "" "" "" "" 0, [])] demo_rf1 in
    forall j j' js' s2, payments.ClaimRefundJobs 500 0 0 0 (Env d' []) = (Ret js', s2) -> j ∈ js -> j' ∈ js' ->
      RefundJob.OutboxID j <> RefundJob.OutboxID j'.
Proof.
  destruct (payments.ClaimRefundJobs 400 0 0 0 (Env demo_od3 [])) as [[js|e|p] s'] eqn:E; [|by vm_compute in E..].
  assert (js <> [] /\ (forall j, j ∈ js -> RefundJob.OutboxID j = 1) /\ s' = Env demo_rf1 []) as (Hne & Hid & ->).
  { vm_compute in E. injection E as <- <-. split; [discriminate|]. split; [|vm_compute; reflexivity].
    intros j ->%list_elem_of_singleton. reflexivity. }
  exists js. split; [reflexivity|]. split; [exact Hne|]. intros d' j j' js' s2 H2 Hj Hj'.
  apply (claims_exclusive demo_od3 400 0 0 0 [] js (Env demo_rf1 []) j
    [(OClaimRefunds 450 1 0 0, []); (OCompleteRefund 460 7 true "" "" "" "" 0, [])] 500 0 0 0 [] js' s2);
    [exact demo_oreach3|exact E|exact Hj| |exact H2|vm_compute; discriminate|exact Hj'].
  rewrite (Hid j Hj). repeat constructor; vm_compute; discriminate.
Defined.

(** ** Retries *)

(** A failed attempt is retried after two to the number of attempts seconds, at
    least one and at most 1024 seconds later and never sooner for a later attempt,
    and is given up exactly when the attempts have reached their limit, which is
    never less than one. *)
Theorem refund_backoff attempts maxAttempts now :
  0 <= attempts ->
  match payments.refundFailureDecision attempts maxAttempts now with
  | None => payments.claim_attempts maxAttempts <= attempts
  | Some at_ =>
      attempts < payments.claim_attempts maxAttempts /\ now + Second <= at_ <= now + 1024 * Second /\
      (attempts <= 10 -> at_ = now + 2 ^ attempts * Second) /\
      forall at', payments.refundFailureDecision (attempts + 1) maxAttempts now = Some at' -> at_ <= at'
  end /\ 0 < payments.claim_attempts maxAttempts.
Proof.
  intros Ha. split; [|unfold payments.claim_attempts; case_match; blia].
  unfold payments.refundFailureDecision. cbv zeta.
  assert (forall a b, 0 <= a <= b -> Z.shiftl 1 (Z.min a 10) <= Z.shiftl 1 (Z.min b 10)) as Hmono.
  { intros a b H. rewrite !Z.shiftl_1_l. apply Z.pow_le_mono_r; lia. }
  destruct (Z.leb_spec (payments.claim_attempts maxAttempts) attempts); [done|]. unfold Second.
  pose proof (Hmono 0 attempts ltac:(lia)) as H0.
  pose proof (Hmono attempts (attempts + 1) ltac:(lia)) as H1.
  assert (Z.shiftl 1 (Z.min attempts 10) <= 1024) as H2.
  { rewrite Z.shiftl_1_l. change 1024 with (2 ^ 10). apply Z.pow_le_mono_r; lia. }
  change (Z.shiftl 1 (Z.min 0 10)) with 1 in H0. split; [done|]. split; [lia|]. split.
  - intros Hle. rewrite Z.min_l, Z.shiftl_1_l by lia. done.
  - intros at'. case_match; [done|]. intros [= <-]. lia.
Qed.

Lemma refund_backoff_witness :
  payments.refundFailureDecision 3 0 0 = Some (8 * Second) /\ payments.refundFailureDecision 8 0 0 = None.
Proof.
  pose proof (refund_backoff 3 0 0 ltac:(lia)) as [H _]. pose proof (refund_backoff 8 0 0 ltac:(lia)) as [H' _].
  change (payments.refundFailureDecision 3 0 0) with (Some (8 * Second)) in H.
  change (payments.refundFailureDecision 8 0 0) with (@None Z) in H'. split; reflexivity.
Defined.
