(* ===== verification/Reconciliation.v ===== *)
(** * Reconciliation with the payment provider

    [ReconcilePayments] compares the provider's statement of a period with the
    events recorded in it.  This file relates the counts it reports and the items it
    stores to the agreement of the two, and the two formulations of the amount test
    used by the event listings to each other. *)
From S2P Require Import Prelude GoStrings Errors GoMonad Tables OrderModel OrderStore CartStore.
From S2P Require Import PaymentStore OrderService OrderServer OrderHistory OrderProperties PaymentProperties.
Import payments.
Open Scope go_scope.

Import PaymentEventDO.

(** ** What it means to agree *)

(** The fields the comparison looks at. *)
Definition same_transaction (a b : t) : Prop :=
  EventID a = EventID b /\ OrderSN a = OrderSN b /\ TradeNo a = TradeNo b /\ EventType a = EventType b /\
  ProviderAmountFen a = ProviderAmountFen b.

Definition in_window (provider : string) (from to : Z) (e : t) : bool :=
  seq (Provider e) provider && (from <=? ReceivedAt e) && (ReceivedAt e <? to).
Definition recorded (provider : string) (from to : Z) (d : order_db) : list t :=
  List.filter (in_window provider from to) (payment_events d).

(** Statement and records are the same transactions. *)
Definition agree (statement locals : list t) : Prop :=
  (forall r, r ∈ statement -> exists l, l ∈ locals /\ same_transaction l r) /\
  (forall l, l ∈ locals -> exists r, r ∈ statement /\ same_transaction l r).

Lemma index_events_lookup (l : list t) (m : gmap string t) (k : string) :
  NoDup (EventID <$> l) -> (forall e, e ∈ l -> m !! EventID e = None) ->
  fold_left (fun m e => <[EventID e := e]> m) l m !! k =
  match find (fun e => bool_decide (EventID e = k)) l with Some e => Some e | None => m !! k end.
Proof.
  revert m. induction l as [|e l IH]; intros m Hn Hm; simpl; [done|].
  apply NoDup_cons in Hn as [Hne Hn]. rewrite IH; [|done|].
  - destruct (decide (EventID e = k)) as [<-|Hk].
    + rewrite bool_decide_eq_true_2 by done. destruct (find _ l) as [e'|] eqn:E; [|by rewrite lookup_insert_eq].
      apply find_some in E as [Hin He]. apply bool_decide_eq_true in He. exfalso. apply Hne. rewrite <- He.
      apply list_elem_of_fmap_2. by apply list_elem_of_In.
    + rewrite bool_decide_eq_false_2 by done. by rewrite lookup_insert_ne.
  - intros e' He'. rewrite lookup_insert_ne; [apply Hm; by right|]. intros E. apply Hne. rewrite E.
    by apply list_elem_of_fmap_2.
Qed.

Lemma index_events_Some l k e :
  NoDup (EventID <$> l) -> index_events l !! k = Some e <-> e ∈ l /\ EventID e = k.
Proof.
  intros Hn. unfold index_events. rewrite index_events_lookup; [|done|intros; apply lookup_empty].
  rewrite lookup_empty. split.
  - destruct (find _ l) eqn:E; [|done]. intros [= <-]. apply find_some in E as [Hin He].
    apply bool_decide_eq_true in He. by rewrite list_elem_of_In.
  - intros [Hin <-]. destruct (find _ l) as [e'|] eqn:E.
    + apply find_some in E as [Hin' He%bool_decide_eq_true]. f_equal. apply list_elem_of_In in Hin'.
      by apply (NoDup_fmap_eq EventID l).
    + apply list_elem_of_In in Hin. apply (find_none _ _ E) in Hin. by apply bool_decide_eq_false in Hin.
Qed.

(** One transaction of the statement is matched exactly when a record agrees. *)
Lemma reconcile_remote_matched now run locals r :
  NoDup (EventID <$> locals) ->
  PaymentReconciliationItemDO.Result (reconcile_remote now run (index_events locals) r) = "matched" <->
  exists l, l ∈ locals /\ same_transaction l r.
Proof.
  intros Hn. unfold reconcile_remote. destruct (index_events locals !! EventID r) as [l|] eqn:E.
  - apply index_events_Some in E as [Hl El]; [|done].
    assert (seq (OrderSN l) (OrderSN r) && seq (TradeNo l) (TradeNo r) && seq (EventType l) (EventType r)
      && (ProviderAmountFen l =? ProviderAmountFen r) = true <-> same_transaction l r) as Hs.
    { rewrite !andb_true_iff. unfold seq, same_transaction. rewrite !bool_decide_eq_true, Z.eqb_eq. tauto. }
    destruct (_ && _ && _ && _); simpl.
    + split; [intros _; exists l; split; [done|by apply Hs]|done].
    + split; [done|]. intros (l' & Hl' & H). assert (l' = l) as ->; [|by apply Hs in H].
      apply (NoDup_fmap_eq EventID locals); [done..|]. destruct H as [-> _]. done.
  - simpl. split; [done|]. intros (l & Hl & El & _).
    assert (index_events locals !! EventID r = Some l) as H by (apply index_events_Some; done). congruence.
Qed.

Lemma count_zero_all {A} (p : A -> bool) l :
  Z.of_nat (length (List.filter p l)) = 0 <-> Forall (fun y => p y = false) l.
Proof.
  induction l as [|y l IH]; simpl; [by split|]. rewrite Forall_cons. destruct (p y); simpl.
  - split; [lia|]. by intros [? _].
  - rewrite IH. tauto.
Qed.

Lemma reconcile_items_agree now run statement locals :
  NoDup (EventID <$> locals) -> NoDup (EventID <$> statement) ->
  reconcile_mismatches (reconcile_items now run statement locals) = 0 <-> agree statement locals.
Proof.
  intros Hl Hr. unfold reconcile_mismatches, reconcile_items. rewrite count_zero_all, Forall_app, !Forall_fmap.
  rewrite (Forall_forall _ statement). split.
  - intros [H1 H2]. assert (forall r, r ∈ statement -> exists l, l ∈ locals /\ same_transaction l r) as Ha.
    { intros r Hin. specialize (H1 r Hin). apply negb_false_iff, bool_decide_eq_true in H1.
      by apply reconcile_remote_matched in H1. }
    split; [done|]. intros l Hin.
    destruct (decide (EventID l ∈ EventID <$> statement)) as [Hs|Hs].
    + apply list_elem_of_fmap in Hs as (r & E & Hin'). exists r. split; [done|].
      destruct (Ha r Hin') as (l' & Hl' & H). assert (l' = l) as <-; [|done].
      apply (NoDup_fmap_eq EventID locals); [done..|]. destruct H as [-> _]. done.
    + exfalso. rewrite Forall_forall in H2. assert (Hf : l ∈ List.filter (fun e => negb (bool_decide
        (EventID e ∈ (list_to_set (EventID <$> statement) : gset string)))) locals).
      { apply list_elem_of_In, filter_In. split; [by apply list_elem_of_In|].
        apply negb_true_iff, bool_decide_eq_false. by rewrite elem_of_list_to_set. }
      specialize (H2 l Hf). discriminate H2.
  - intros [H1 H2]. split.
    + intros r Hin. apply negb_false_iff, bool_decide_eq_true. by apply reconcile_remote_matched, H1.
    + apply Forall_forall. intros l Hin%list_elem_of_In%filter_In. destruct Hin as [Hin Hn]. exfalso.
      apply negb_true_iff, bool_decide_eq_false in Hn. apply Hn. apply list_elem_of_In in Hin.
      destruct (H2 l Hin) as (r & Hin' & E & _). apply elem_of_list_to_set. rewrite E. by apply list_elem_of_fmap_2.
Qed.

(** ** What a run stores *)

Definition unnumbered (i : PaymentReconciliationItemDO.t) : PaymentReconciliationItemDO.t := with_item_id i 0.

Lemma batches_concat {A} fuel n (l : list A) : (0 < n)%nat -> (length l <= fuel)%nat -> concat (batches fuel n l) = l.
Proof.
  intros Hn. revert l. induction fuel as [|fuel IH]; intros l Hl; destruct l as [|y l]; simpl in *; try done; [lia|].
  destruct n as [|n]; [lia|]. simpl. f_equal. rewrite IH; [apply take_drop|]. rewrite length_drop. lia.
Qed.

Lemma store_batches bs s u s' :
  for_each bs (fun batch => insert_rows t_items PaymentReconciliationItemDO.ID (with_item_id <$> batch)) s = (Ret u, s') ->
  exists new, reconciliation_items (e_db s') = reconciliation_items (e_db s) ++ new /\
    unnumbered <$> new = unnumbered <$> concat bs /\ reconciliation_runs (e_db s') = reconciliation_runs (e_db s) /\
    payment_events (e_db s') = payment_events (e_db s).
Proof.
  revert s. induction bs as [|b bs IH]; intros s H; simpl in H.
  { unfold ret in H. injection H as _ <-. exists []. by rewrite app_nil_r. }
  apply bind_Ret in H as (? & s1 & E1%insert_rows_Ret & H). apply IH in H as (new & E2 & E3 & E4 & E5).
  rewrite E1 in E2, E4, E5. cbn in E2, E4, E5. eexists. split; [rewrite E2, <- app_assoc; reflexivity|].
  split_and!; [|done|done]. rewrite fmap_app, E3. simpl. rewrite fmap_app. f_equal.
  generalize (1 + fold_right Z.max 0 (PaymentReconciliationItemDO.ID <$> reconciliation_items (e_db s))) as n.
  clear. induction b as [|i b IH]; intros n; [done|]. simpl. f_equal. etrans; [|apply (IH (n + 1))]. f_equal.
  apply imap_ext. intros j mk _. simpl. f_equal. lia.
Qed.

Lemma recorded_unique d provider from to : events_ok d -> NoDup (EventID <$> recorded provider from to d).
Proof.
  intros [_ Hk]. apply NoDup_fmap_2_strong.
  - intros a b [Ha Hpa]%list_elem_of_In%filter_In [Hb Hpb]%list_elem_of_In%filter_In E.
    unfold in_window, seq in Hpa, Hpb. apply andb_true_iff in Hpa as [[Hpa _]%andb_true_iff _].
    apply andb_true_iff in Hpb as [[Hpb _]%andb_true_iff _]. apply bool_decide_eq_true in Hpa, Hpb.
    apply (NoDup_fmap_eq event_key (payment_events d)); [done|by apply list_elem_of_In..|].
    unfold event_key. congruence.
  - apply NoDup_ListNoDup, List.NoDup_filter, NoDup_ListNoDup. by eapply NoDup_fmap_1.
Qed.

Lemma unnumbered_items now run statement locals :
  unnumbered <$> reconcile_items now run statement locals = reconcile_items now run statement locals.
Proof.
  unfold reconcile_items. rewrite fmap_app, <- !list_fmap_compose. f_equal; apply list_fmap_ext; intros i e _; simpl.
  - unfold reconcile_remote. destruct (index_events locals !! EventID e) as [l|]; [|done]. by destruct (_ && _).
Qed.

Lemma ReconcilePayments_Ret now finished provider from to statement s run s' :
  ReconcilePayments now finished provider from to statement s = (Ret run, s') ->
  let provider := ToLower (TrimSpace provider) in
  let items := reconcile_items now (PaymentReconciliationRunDO.ID run) statement (recorded provider from to (e_db s)) in
  NoDup (EventID <$> statement) /\
  run = run_finished finished (Z.of_nat (length items)) (reconcile_mismatches items)
          (PaymentReconciliationRunDO.mk (PaymentReconciliationRunDO.ID run) provider from to now None 0 0 "processing") /\
  (exists new, reconciliation_items (e_db s') = reconciliation_items (e_db s) ++ new /\ unnumbered <$> new = items) /\
  reconciliation_runs (e_db s') = ((fun r => if PaymentReconciliationRunDO.ID r =? PaymentReconciliationRunDO.ID run
     then run_finished finished (Z.of_nat (length items)) (reconcile_mismatches items) r else r)
     <$> reconciliation_runs (e_db s) ++ [PaymentReconciliationRunDO.mk (PaymentReconciliationRunDO.ID run) provider from to now None 0 0 "processing"]) /\
  PaymentReconciliationRunDO.ID run = 1 + fold_right Z.max 0 (PaymentReconciliationRunDO.ID <$> reconciliation_runs (e_db s)).
Proof.
  intros H. unfold ReconcilePayments in H. cbv zeta in H |- *.
  do 3 apply bind_Ret in H as (? & ? & [_ ->]%fail_if_Ret & H).
  apply bind_Ret in H as (? & ? & [Hn ->]%fail_if_Ret & H). apply negb_false_iff, bool_decide_eq_true in Hn.
  apply wrap_err_Ret, transaction_Ret in H as (s0 & s1 & <- & H & ->).
  apply bind_Ret in H as (id & s2 & (_ & Hid & E2)%insert_row_Ret & H).
  apply bind_Ret in H as (locals & s3 & [-> E3]%select_where_Ret & H).
  apply bind_Ret in H as ([] & s4 & (new & E4 & Enew & E5 & E6)%store_batches & H).
  apply bind_Ret in H as (? & s5 & [_ E7]%update_where_Ret & H). unfold ret in H. injection H as <- <-.
  rewrite E2 in Enew, E7. cbn [rows t_events set_rows t_runs payment_events] in Enew, E7.
  cbn [PaymentReconciliationRunDO.ID run_finished]. rewrite batches_concat, unnumbered_items in Enew by lia.
  split; [done|]. split; [by rewrite E2|]. split; [|split].
  - exists new. split; [|exact Enew]. rewrite E7. cbn. rewrite E4, E3, E2. done.
  - rewrite E7. cbn. rewrite E5, E3, E2. done.
  - exact Hid.
Qed.

(** C37: a reconciliation run reports no mismatch exactly when the provider's statement
    and the events recorded for the period are the same transactions; it counts and
    stores one item per transaction of the statement and per record missing from
    it, all of them under its own id, and reports as mismatches exactly the stored
    items that are not matched. *)
Theorem ReconcilePayments_agree now finished provider from to statement d faults run s' :
  oreachable d ->
  ReconcilePayments now finished provider from to statement (Env d faults) = (Ret run, s') ->
  let locals := recorded (ToLower (TrimSpace provider)) from to d in
  (PaymentReconciliationRunDO.MismatchCount run = 0 <-> agree statement locals) /\
  exists new, reconciliation_items (e_db s') = reconciliation_items d ++ new /\
    PaymentReconciliationRunDO.CheckedCount run = Z.of_nat (length new) /\
    PaymentReconciliationRunDO.MismatchCount run =
      Z.of_nat (length (List.filter (fun i => negb (seq (PaymentReconciliationItemDO.Result i) "matched")) new)) /\
    Forall (fun i => PaymentReconciliationItemDO.RunID i = PaymentReconciliationRunDO.ID run) new /\
    (length statement <= length new <= length statement + length locals)%nat.
Proof.
  intros Hd%oreachable_events H locals. apply ReconcilePayments_Ret in H. cbv zeta in H.
  cbn [e_db] in H. fold locals in H.
  destruct H as (Hn & Erun & (new & Enew & Eitems) & _). rewrite Erun at 1. cbn [PaymentReconciliationRunDO.MismatchCount run_finished].
  split; [apply reconcile_items_agree; [by apply recorded_unique|done]|].
  exists new. split; [exact Enew|].
  assert (length new = length (reconcile_items now (PaymentReconciliationRunDO.ID run) statement locals)) as El.
  { rewrite <- Eitems. by rewrite length_fmap. }
  split_and!.
  - rewrite Erun, El. done.
  - rewrite Erun. cbn. unfold reconcile_mismatches. rewrite <- Eitems. f_equal.
    by rewrite filter_fmap_length.
  - assert (Forall (fun i => PaymentReconciliationItemDO.RunID i = PaymentReconciliationRunDO.ID run) (unnumbered <$> new)) as Hf.
    { rewrite Eitems. unfold reconcile_items. apply Forall_app. split; apply Forall_fmap, Forall_forall; intros e _; [|done].
      simpl. unfold reconcile_remote. destruct (index_events locals !! EventID e) as [l|]; [|done].
      by destruct (_ && _). }
    by rewrite Forall_fmap in Hf.
  - rewrite El. unfold reconcile_items. rewrite length_app, !length_fmap. lia.
  - rewrite El. unfold reconcile_items. rewrite length_app, !length_fmap.
    pose proof (List.filter_length_le (fun e => negb (bool_decide (EventID e ∈ (list_to_set (EventID <$> statement) : gset string)))) locals).
    lia.
Qed.

Lemma ReconcilePayments_agree_witness :
  exists run s', ReconcilePayments 900 901 "ALIPAY" 0 1000
      [mk 0 "" "e-1" "S1" "T-1" "payment_succeeded" 0 4029 0 "" "" 0 None] (Env demo_pay2 []) = (Ret run, s') /\
    PaymentReconciliationRunDO.MismatchCount run = 0.
Proof.
  destruct (ReconcilePayments 900 901 "ALIPAY" 0 1000
      [mk 0 "" "e-1" "S1" "T-1" "payment_succeeded" 0 4029 0 "" "" 0 None] (Env demo_pay2 [])) as [[run|e|p] s'] eqn:E;
    [|by vm_compute in E..].
  exists run, s'. split; [reflexivity|].
  destruct (ReconcilePayments_agree _ _ _ _ _ _ demo_pay2 [] run s' demo_pay_reach E) as [H _]. apply H.
  assert (exists l, recorded (ToLower (TrimSpace "ALIPAY")) 0 1000 demo_pay2 = [l] /\
    same_transaction l (mk 0 "" "e-1" "S1" "T-1" "payment_succeeded" 0 4029 0 "" "" 0 None)) as (l & -> & Hl).
  { eexists. split; [vm_compute; reflexivity|]. repeat split. }
  split.
  - intros r ->%list_elem_of_singleton. exists l. split; [left|exact Hl].
  - intros y ->%list_elem_of_singleton. eexists. split; [left|exact Hl].
Defined.

(** ** The amount test of the listings *)

(** The amount test written in Go for an order's trace counts exactly the events
    that the SQL predicate of the listing selects. *)
Theorem countTraceMismatches_sql items :
  orderServer.countTraceMismatches items = Z.of_nat (length (List.filter mismatch_sql items)).
Proof.
  unfold orderServer.countTraceMismatches.
  assert (forall l n, fold_left (fun total item =>
    if (negb (orderService.seq (EventType item) "refund_succeeded") && negb (ProviderAmountFen item =? OrderAmountFen item)) ||
       (orderService.seq (EventType item) "refund_succeeded" &&
        (negb (RefundAmountFen item =? ProviderAmountFen item) || (OrderAmountFen item <? RefundAmountFen item)))
    then total + 1 else total) l n = n + Z.of_nat (length (List.filter mismatch_sql l))) as H; [|by rewrite H].
  induction l as [|e l IH]; intros n; [simpl; lia|]. cbn [fold_left List.filter]. rewrite IH.
  change orderService.seq with seq. change (_ || _) with (mismatch_sql e). destruct (mismatch_sql e); simpl length; lia.
Qed.
