(* ===== verification/OrderLimits.v ===== *)
(** * Where the order service does less than its callers may expect

    Concrete runs of the handlers, evaluated, that show behaviour the status machine
    and the refund limits do not rule out. *)
From S2P Require Import Prelude GoStrings Errors GoMonad Tables OrderModel OrderStore CartStore.
From S2P Require Import PaymentStore OrderService OrderServer OrderHistory OrderProperties.
Import orderService orderServer.
Open Scope go_scope.

Definition status_msg (id : Z) (sn status trade : string) : OrderStatusMsg :=
  MkOrderStatusMsg id sn status "alipay" trade 0 "" 0 0 "" "".

Definition order_status (sn : string) (d : order_db) : option string :=
  OrderInfoDO.Status <$> find (sn_is sn) (orderinfo d).

(** Two orders, the first of them closed. *)
Definition two_orders : order_db :=
  e_db ((CreateOrder 100 demo_goods (Some (demo_req "S1")) ;;;
         CreateOrder 101 demo_goods (Some (demo_req "S2")) ;;;
         UpdateOrderStatus 102 (Some (status_msg 0 "S1" "TRADE_CLOSED" ""))) (Env empty_order_db [])).2.

(** A status message with an id is checked against the order its number names
    but written to the order its id names: a message for the open order S2 with the
    id of the closed order S1 reopens S1 as paid and leaves S2 unpaid, although no
    transition leads from closed to paid. *)
Theorem update_by_id_skips_check :
  let r := UpdateOrderStatus 103 (Some (status_msg 1 "S2" "TRADE_SUCCESS" "T-2")) (Env two_orders []) in
  order_status "S1" two_orders = Some OrderStatusTradeClosed /\
  canTransitionOrderStatus OrderStatusTradeClosed OrderStatusTradeSuccess = false /\
  r.1 = Ret tt /\ order_status "S1" (e_db r.2) = Some OrderStatusTradeSuccess /\
  order_status "S2" (e_db r.2) = Some OrderStatusWaitBuyerPay.
Proof. vm_compute. done. Qed.

(** The limit on a refund is per request: an order that is being refunded accepts
    a second request under another correlation id, and the requests together exceed
    the amount that was paid. *)
Theorem second_refund_exceeds_total :
  let r := UpdateOrderStatus 400 (Some (demo_refund "c-2")) (Env demo_od3 []) in
  r.1 = Ret tt /\ length (order_refund_outbox (e_db r.2)) = 2%nat /\
  Forall (fun x => RefundRequestDO.OrderSN x = "S1") (order_refund_requests (e_db r.2)) /\
  OrderInfoDO.OrderMountFen <$> find (sn_is "S1") (orderinfo (e_db r.2)) = Some 4029 /\
  4029 < sumZ RefundRequestDO.AmountFen (order_refund_requests (e_db r.2)).
Proof. vm_compute. repeat split; try done. repeat constructor. Qed.

(** An order that was compensated and created again under its number, paid, and
    asked to be refunded. *)
Definition recreated : order_db :=
  e_db ((CreateOrder 100 demo_goods (Some (demo_req "S1")) ;;;
         CreateOrderCom (Some (demo_req "S1")) ;;;
         CreateOrder 110 demo_goods (Some (demo_req "S1")) ;;;
         UpdateOrderStatus 120 (Some (demo_paid "S1")) ;;;
         UpdateOrderStatus 130 (Some (demo_refund "c-1"))) (Env empty_order_db [])).2.

(** The join of a refund with its order counts deleted orders of the same number,
    so the refund of an order created again after a compensation can never be
    claimed, and blocks every claim of the batch it is in. *)
Theorem recreated_order_blocks_claims :
  length (order_refund_outbox recreated) = 1%nat /\
  is_ret (payments.ClaimRefundJobs 400 0 0 0 (Env recreated [])).1 = false /\
  e_db (payments.ClaimRefundJobs 400 0 0 0 (Env recreated [])).2 = recreated.
Proof. vm_compute. done. Qed.
