(* ===== verification/GatewayLaws.v ===== *)
(** * What the gateway relies on, and that the two services provide it

    [client_laws] is the contract of the clients: reading an order changes nothing,
    and a call that settles stock or updates a status either makes its step or
    changes nothing, where an error can follow either.  The operations of the
    gateway are proved against this contract; the last part proves that the order
    and the inventory service satisfy it behind a network that loses messages. *)
From S2P Require Import Prelude GoStrings Errors GoMonad ErrorTransport Tables OrderModel InventoryModel.
From S2P Require Import OrderStore OrderService OrderServer OrderHandlers OrderHistory PaymentProperties.
From S2P Require Import InventoryService InventoryStock InventoryProtocol InventoryServer OrderGateway.
Import orderServer.
Import InvDo(inv_db).
Open Scope go_scope.

(** A call that makes the step [R], or none, and certainly makes it when it returns. *)
Definition did {D A} (R : D -> D -> Prop) (m : M D A) (s : env D) : Prop :=
  match m s with
  | (Ret _, s') => R (e_db s) (e_db s')
  | (Fail _, s') => e_db s' = e_db s \/ R (e_db s) (e_db s')
  | (Panic _, _) => False
  end.

(** Two calls in a row, seen from the first state. *)
Definition two_steps {D} (R1 R2 : D -> D -> Prop) (ok : bool) (d d' : D) : Prop :=
  (ok = false /\ d' = d) \/
  exists d1, R1 d d1 /\ ((ok = false /\ d' = d1) \/ R2 d1 d').

Lemma did_then {D A B} (R1 R2 : D -> D -> Prop) (m : M D A) (k : M D B) (s : env D) :
  did R1 m s -> (forall s1, R1 (e_db s) (e_db s1) -> did R2 k s1) ->
  two_steps R1 R2 (is_ret ((m ;;; k) s).1) (e_db s) (e_db ((m ;;; k) s).2).
Proof.
  unfold did, bind, two_steps. intros H1 H2. destruct (m s) as [[a|e|p] s1]; [| |done].
  - right. exists (e_db s1). split; [done|]. specialize (H2 s1 H1).
    destruct (k s1) as [[b|e|p] s2]; simpl; [by right| |done]. destruct H2 as [->|H2]; [by left|by right].
  - simpl. destruct H1 as [->|H1]; [by left|]. right. exists (e_db s1). split; [done|by left].
Qed.

(** What a run ends with: whether it returned a value, and the state it leaves. *)
Definition ends {D A} (P : bool -> D -> Prop) (m : M D A) (s : env D) : Prop := P (is_ret (m s).1) (e_db (m s).2).
Lemma ends_fail_if {D B} (P : bool -> D -> Prop) b e (k : M D B) s :
  P false (e_db s) -> (b = false -> ends P k s) -> ends P (fail_if b e ;;; k) s.
Proof. intros H0 H1. destruct b; [done|]. by apply H1. Qed.
Lemma ends_read {D A B} (P : bool -> D -> Prop) (m : M D A) (k : A -> M D B) s :
  steps eq m -> P false (e_db s) ->
  (forall a s1, m s = (Ret a, s1) -> e_db s1 = e_db s -> ends P (k a) s1) -> ends P (bind m k) s.
Proof.
  intros Hm H0 Hk. specialize (Hm s). unfold ends, bind in *.
  destruct (m s) as [[a|e|p] s1]; cbn in *; [by apply Hk|by rewrite <- Hm..].
Qed.

(** ** The contract *)
Class client_contract (D : Type) := {
  good : D -> Prop;
  ready : D -> Prop;
  viewed : Z * string -> D -> pb.OrderInfoDetailResponse -> Prop;
  settled : bool -> inventoryServer.SellInfo -> D -> D -> Prop;
  updated : OrderStatusMsg -> D -> D -> Prop
}.
Class client_laws {D} (K : client_contract D) (O : OrderClient D) (S : InventoryClient D) : Prop := {
  view_reads : forall r, steps eq (OrderGateway.OrderDetail O r);
  view_law : forall r s detail s',
    OrderGateway.OrderDetail O r s = (Ret (Some detail), s') -> viewed r (e_db s) detail;
  view_returns : forall r s p s', OrderGateway.OrderDetail O r s <> (Panic p, s');
  settle_law : forall (paid : bool) i s,
    good (e_db s) -> did (settled paid i) (if paid then Confirm S i else Release S i) s;
  settled_ready : forall paid i d d', settled paid i d d' -> good d -> ready d';
  update_law : forall m s, MsgId m <= 0 -> ready (e_db s) -> did (updated m) (OrderGateway.UpdateOrderStatus O m) s
}.

Section Operations.
Context {D : Type} `{K : client_contract D} (O : OrderClient D) (S : InventoryClient D) `{L : !client_laws K O S}.
Context (provider : option (payment.PaymentProvider D)) (opts : option PaymentOptions).
Definition svc : option gateway.orderService :=
  Some (gateway.MkOrderService (Some (MkDataFactory (Some O) (Some S))) provider opts).

(** The stock is settled for the order's own lines, then its status is updated. *)
Definition settle_then_update (paid : bool) (user : Z) (sn key : string) (can : string -> bool) (msg : OrderStatusMsg)
    (d : D) (ok : bool) (d' : D) : Prop :=
  (ok = false /\ d' = d) \/
  exists detail info i,
    viewed (wrap32 user, sn) d detail /\ pb.OrderInfo detail = Some info /\
    can (TrimSpace (pb.Status info)) = true /\
    gateway.sellInfoFromOrder key (pb.Goods detail) = inl i /\
    two_steps (settled paid i) (updated msg) ok d d'.

Definition callback_target (paid : bool) : string :=
  if paid then gateway.orderStatusTradeSuccess else gateway.orderStatusTradeClosed.
Definition callback_msg (now : Z) (req : PayCallbackRequest) : OrderStatusMsg :=
  let target := callback_target (ReqSuccess req) in
  if ReqSuccess req
  then gateway.status_msg (TrimSpace (ReqOrderSn req)) target (TrimSpace (ReqPayType req))
         (TrimSpace (ReqTradeNo req)) (Unix now) ""
  else gateway.status_msg (TrimSpace (ReqOrderSn req)) target "" "" 0 "".

Lemma msg_id now req : MsgId (callback_msg now req) <= 0.
Proof. unfold callback_msg. by destruct (ReqSuccess req). Qed.

Lemma settle_update_did (paid : bool) i msg s :
  good (e_db s) -> MsgId msg <= 0 ->
  let m := (if paid then Confirm S i else Release S i) ;;; OrderGateway.UpdateOrderStatus O msg in
  two_steps (settled paid i) (updated msg) (is_ret (m s).1) (e_db s) (e_db (m s).2).
Proof.
  intros Hg Hm. apply did_then; [by apply settle_law|]. intros s1 H1. apply update_law; [done|].
  by eapply settled_ready.
Qed.

Lemma SimulatePayCallback_result now req s :
  good (e_db s) ->
  ends (settle_then_update (ReqSuccess req) (ReqUserID req) (TrimSpace (ReqOrderSn req)) (TrimSpace (ReqOrderSn req))
          (fun current => gateway.canApplyPayCallback current (callback_target (ReqSuccess req)))
          (callback_msg now req) (e_db s))
    (gateway.SimulatePayCallback now svc (Some req)) s.
Proof.
  intros Hg. set (P := settle_then_update _ _ _ _ _ _ (e_db s)). assert (P false (e_db s)) as H0 by (by left).
  unfold gateway.SimulatePayCallback, gateway.need_data, gateway.need, gateway.need_orders.
  cbn [svc mbind option_bind gateway.data Orders Inventory]. unfold gateway.need.
  apply ends_fail_if; [done|intros _]. apply ends_read; [apply view_reads|done|].
  intros detail s1 Ed E. destruct detail as [detail|]; cbn [gateway.GetOrderInfo mbind option_bind];
    [|unfold ends; cbn; by rewrite E].
  destruct (pb.OrderInfo detail) as [info|] eqn:Ei; [|unfold ends; cbn; by rewrite E].
  apply ends_fail_if; [by rewrite E|intros _]. apply ends_fail_if; [by rewrite E|intros Hc%negb_false_iff].
  unfold gateway.GetGoods.
  destruct (gateway.sellInfoFromOrder _ _) as [i|err] eqn:Es; [|unfold ends; cbn; by rewrite E].
  right. exists detail, info, i. apply view_law in Ed as Hv. split_and!; try done.
  rewrite <- E. apply (settle_update_did (ReqSuccess req) i (callback_msg now req)); [by rewrite E|apply msg_id].
Qed.

Lemma OrderDetail_reads user sn : steps eq (gateway.OrderDetail svc user sn).
Proof.
  unfold gateway.OrderDetail, gateway.need_data, gateway.need, gateway.need_orders.
  cbn [svc mbind option_bind gateway.data Orders]. unfold gateway.need, gateway.need_response.
  steps_go; [apply view_reads|]. unfold gateway.need. steps_go.
Qed.
Lemma OrderDetail_Ret user sn s detail s1 :
  gateway.OrderDetail svc user sn s = (Ret detail, s1) ->
  viewed (wrap32 user, TrimSpace sn) (e_db s) detail /\ is_Some (pb.OrderInfo detail).
Proof.
  unfold gateway.OrderDetail, gateway.need_data, gateway.need, gateway.need_orders.
  cbn [svc mbind option_bind gateway.data Orders]. unfold gateway.need, gateway.need_response.
  intros H. minv. match goal with H : gateway.need ?o _ _ _ = _ |- _ => destruct o; unfold gateway.need in H; minv end.
  match goal with H : match ?o with _ => _ end _ = _ |- _ => destruct o eqn:Ei; minv end.
  split; [|by rewrite Ei]. by eapply view_law.
Qed.

Definition can_cancel (current : string) : bool :=
  orderService.seq current gateway.orderStatusWaitBuyerPay || orderService.seq current gateway.orderStatusPaying.
Definition cancel_msg (sn : string) : OrderStatusMsg :=
  gateway.status_msg sn gateway.orderStatusTradeClosed "" "" 0 "cancelled by customer".

Lemma CancelOrder_result user sn s :
  good (e_db s) ->
  ends (settle_then_update false user (TrimSpace sn) sn can_cancel (cancel_msg sn) (e_db s))
    (gateway.CancelOrder svc user sn) s.
Proof.
  intros Hg. set (P := settle_then_update _ _ _ _ _ _ (e_db s)). assert (P false (e_db s)) as H0 by (by left).
  unfold gateway.CancelOrder. apply ends_read; [apply OrderDetail_reads|done|].
  intros detail s1 [Hv [info Ei]]%OrderDetail_Ret E. rewrite Ei. cbn [gateway.GetStatus].
  apply ends_fail_if; [by rewrite E|]. rewrite <- negb_orb. intros Hc%negb_false_iff.
  destruct (gateway.sellInfoFromOrder _ _) as [i|err] eqn:Es; [|unfold ends; cbn; by rewrite E].
  right. exists detail, info, i. split_and!; try done.
  cbn [svc mbind option_bind gateway.data gateway.deref Orders Inventory].
  rewrite <- E. apply (settle_update_did false i (cancel_msg sn)); [by rewrite E|done].
Qed.
End Operations.

(** ** Calls across the network *)
Lemma atomic_on_orders {A} (m : M order_db A) : atomic m -> atomic (on_orders m).
Proof.
  intros H [[o k] f]. specialize (H (Env o f)). unfold on_orders. cbn in *.
  destruct (m (Env o f)) as [r s']. cbn in *. intros Hr. by rewrite H.
Qed.
Lemma atomic_on_stock {A} (m : M inv_db A) : atomic m -> atomic (on_stock m).
Proof.
  intros H [[o k] f]. specialize (H (Env k f)). unfold on_stock. cbn in *.
  destruct (m (Env k f)) as [r s']. cbn in *. intros Hr. by rewrite H.
Qed.
Lemma on_orders_Ret {A} (m : M order_db A) s a s' :
  on_orders m s = (Ret a, s') ->
  m (Env (order_tables (e_db s)) (e_faults s)) = (Ret a, Env (order_tables (e_db s')) (e_faults s')) /\
  stock_tables (e_db s') = stock_tables (e_db s).
Proof. unfold on_orders. destruct (m _) as [r [d f]]. intros [= -> <-]. done. Qed.
Lemma on_stock_Ret {A} (m : M inv_db A) s a s' :
  on_stock m s = (Ret a, s') ->
  m (Env (stock_tables (e_db s)) (e_faults s)) = (Ret a, Env (stock_tables (e_db s')) (e_faults s')) /\
  order_tables (e_db s') = order_tables (e_db s).
Proof. unfold on_stock. destruct (m _) as [r [d f]]. intros [= -> <-]. done. Qed.

Lemma steps_ask_lock {D} : steps eq (@ask_lock D).
Proof. intros s. unfold ask_lock. pose proof (next_fault_db s) as E. by destruct (next_fault s). Qed.

Section Network.
Context `{G : grpc_status}.

Lemma steps_invoke {D A} (R : D -> D -> Prop) `{!PreOrder R} (m : M D A) : steps R m -> steps R (invoke m).
Proof.
  intros H s. unfold invoke, served. pose proof (next_fault_db s) as E.
  destruct (next_fault s) as [[msg|] s1]; cbn in *; rewrite <- E; [done|]. specialize (H s1).
  destruct (m s1) as [[a|e|p] s2]; cbn in *; [|done..]. pose proof (next_fault_db s2) as E2.
  by destruct (next_fault s2) as [[msg|] s3]; cbn in *; rewrite E2.
Qed.
Lemma invoke_Ret {D A} (m : M D A) s a s' :
  invoke m s = (Ret a, s') ->
  exists s1 s2, e_db s1 = e_db s /\ m s1 = (Ret a, s2) /\ e_db s' = e_db s2.
Proof.
  unfold invoke, served. pose proof (next_fault_db s) as E.
  destruct (next_fault s) as [[msg|] s1]; [done|]. destruct (m s1) as [[b|e|p] s2] eqn:Em; [|done..].
  pose proof (next_fault_db s2) as E2. destruct (next_fault s2) as [[msg|] s3]; [done|].
  intros [= -> ->]. eauto.
Qed.
Lemma invoke_no_panic {D A} (m : M D A) s p s' : invoke m s <> (Panic p, s').
Proof.
  unfold invoke, served. destruct (next_fault s) as [[msg|] s1]; [done|].
  destruct (m s1) as [[b|e|q] s2]; try done. by destruct (next_fault s2) as [[msg|] s3].
Qed.
(** An atomic handler behind the network: done, or not done. *)
Lemma invoke_did {D A} (R : D -> D -> Prop) (m : M D A) s :
  atomic m -> (forall s1 a s2, m s1 = (Ret a, s2) -> e_db s1 = e_db s -> R (e_db s) (e_db s2)) ->
  did R (invoke m) s.
Proof.
  intros Ha Hr. unfold did, invoke, served. pose proof (next_fault_db s) as E.
  destruct (next_fault s) as [[msg|] s1]; cbn in *; [by left|]. specialize (Ha s1).
  destruct (m s1) as [[a|e|p] s2] eqn:Em; cbn in *; [|left; by rewrite Ha..].
  specialize (Hr _ _ _ Em E). pose proof (next_fault_db s2) as E2.
  destruct (next_fault s2) as [[msg|] s3]; cbn in *; rewrite E2; [by right|done].
Qed.

(** ** The two services satisfy the contract *)

(** The row of a number after an update of its status. *)
Definition status_moved (sn status : string) (d d' : order_db) : Prop :=
  hist_ok d' /\
  exists r r', find (sn_is sn) (orderinfo d) = Some r /\ find (sn_is sn) (orderinfo d') = Some r' /\
    OrderInfoDO.ID r' = OrderInfoDO.ID r /\ OrderInfoDO.User r' = OrderInfoDO.User r /\
    ordergoods d' = ordergoods d /\
    orderService.canTransitionOrderStatus (OrderInfoDO.Status r) status = true /\ OrderInfoDO.Status r' = status.

Definition stock_step (paid : bool) (i : inventoryServer.SellInfo) (d : inv_db) : option inv_db :=
  (if paid then spec_confirm else spec_release) (inventoryServer.SellOrderSn i) (inventoryServer.details_of i) d.

#[export] Instance world_contract : client_contract world := {
  good w := hist_ok (order_tables w) /\ inv_ok (stock_tables w);
  ready w := hist_ok (order_tables w);
  viewed r w detail := exists fmt row,
    find (sn_is (TrimSpace r.2)) (orderinfo (order_tables w)) = Some row /\
    wrapu64 (OrderInfoDO.User row) = wrapu64 r.1 /\
    detail = orderToDetailResponse fmt
      (OrderInfoDO.set_goods (orders.goods_of (ordergoods (order_tables w)) (OrderInfoDO.ID row)) row);
  settled paid i w w' :=
    stock_step paid i (stock_tables w) = Some (stock_tables w') /\ order_tables w' = order_tables w;
  updated m w w' :=
    status_moved (TrimSpace (MsgOrderSn m)) (TrimSpace (MsgStatus m)) (order_tables w) (order_tables w') /\
    stock_tables w' = stock_tables w
}.

Lemma find_fmap {A} (p : A -> bool) (f : A -> A) (l : list A) :
  (forall x, p (f x) = p x) -> find p (f <$> l) = f <$> find p l.
Proof.
  intros Hf. induction l as [|x l IH]; [done|]. cbn. rewrite Hf. by destruct (p x).
Qed.

Lemma atomic_UpdateOrderStatus now m : atomic (orderServer.UpdateOrderStatus now m).
Proof. destruct m; [apply atomic_Update|apply atomic_fail]. Qed.

Definition same_lines (d d' : order_db) : Prop := ordergoods d' = ordergoods d.
#[local] Instance same_lines_preorder : PreOrder same_lines.
Proof. split; [done|]. intros d1 d2 d3 E1 E2. unfold same_lines in *. congruence. Qed.
Lemma lines_Update now order : steps same_lines (orderService.Update now order).
Proof.
  assert (forall d d', ordergoods d' = ordergoods d -> same_lines d d') as frame by done.
  unfold orderService.Update, orderService.wrapf, orderService.createStatusLog, orderStatusLogs.Create,
    orders.CreateRefundRequest, orders.Update, dberr.
  frame_go same_lines frame.
Qed.

Lemma UpdateOrderStatus_moved now m s u s' :
  MsgId m <= 0 -> hist_ok (e_db s) -> orderServer.UpdateOrderStatus now (Some m) s = (Ret u, s') ->
  status_moved (TrimSpace (MsgOrderSn m)) (TrimSpace (MsgStatus m)) (e_db s) (e_db s').
Proof.
  intros Hm Hd H. split.
  { eapply Update_keeps; [|exact H|done]. cbn. by rewrite (proj2 (Z.ltb_ge _ _)). }
  pose proof (lines_Update now (Some (status_dto m)) s) as Hl.
  change (orderService.Update now (Some (status_dto m))) with (orderServer.UpdateOrderStatus now (Some m)) in Hl.
  rewrite H in Hl. apply Update_Ret in H as (r & order & id & Hr & Hv & Hcan & Eid & Esn & Est & E1 & _).
  simpl in Hr, Hv, Hcan, Eid, Esn, Est. set (target := norm_update (orderService.Info order)) in *.
  exists r, (if orders.update_target target r then orders.apply_update target r else r).
  rewrite E1, find_fmap, Hr by (intros x; by destruct (orders.update_target target x)).
  assert (orders.update_target target r = true) as Hu.
  { apply find_sn in Hr as (_ & L & E). unfold orders.update_target, target. simpl.
    rewrite Eid, Esn, (proj2 (Z.ltb_ge 0 (MsgId m)) Hm). cbn [Z.ltb Z.compare]. rewrite TrimSpace_idem, E.
    rewrite bool_decide_eq_true_2 by done. unfold olive in L. by rewrite L. }
  rewrite Hu. split_and!; try done; simpl; [by rewrite Hu|by rewrite Est, TrimSpace_idem].
Qed.

Context (format_time : Z -> string).
Context (sql_carts : list (string * bool) -> list ShoppingCartDO.t -> list ShoppingCartDO.t).
Context (sql_orders : list (string * bool) -> list OrderInfoDO.t -> list OrderInfoDO.t).
Context (clock : string -> Z) (grpcServer : option string) (dtm : submit.saga -> M order_db unit).

Lemma steps_on_orders {A} (m : M order_db A) : steps eq m -> steps eq (on_orders m).
Proof.
  intros H [[o k] f]. specialize (H (Env o f)). unfold on_orders. cbn in *.
  destruct (m (Env o f)) as [r s']. cbn in *. by rewrite H.
Qed.
Lemma steps_eq_Detail r : steps eq (orderHandlers.OrderDetail format_time (Some r)).
Proof. destruct r as [u sn]. unfold orderHandlers.OrderDetail, orderService.Get. steps_go. apply steps_eq_Get. Qed.
Lemma Detail_Ret r s detail s' :
  orderHandlers.OrderDetail format_time (Some r) s = (Ret detail, s') ->
  exists row, find (sn_is (TrimSpace r.2)) (orderinfo (e_db s)) = Some row /\
    wrapu64 (OrderInfoDO.User row) = wrapu64 r.1 /\
    detail = orderToDetailResponse format_time
      (OrderInfoDO.set_goods (orders.goods_of (ordergoods (e_db s)) (OrderInfoDO.ID row)) row).
Proof.
  destruct r as [u sn]. unfold orderHandlers.OrderDetail, orderService.Get. intros H. minv.
  match goal with H : orders.Get _ _ = _ |- _ => apply Get_Ret in H as (row & Hr & -> & _) end.
  exists row. simpl in *. split_and!; try done. by blia.
Qed.

#[export] Instance servers_lawful :
  client_laws world_contract (server_orders format_time sql_carts sql_orders clock grpcServer dtm) server_stock.
Proof.
  split.
  - intros r. cbn. unfold ptr. steps_go. apply steps_invoke; [exact _|]. apply steps_on_orders, steps_eq_Detail.
  - intros r s detail s' H. cbn in H. unfold ptr in H. minv.
    match goal with H : call_orders _ _ = _ |- _ =>
      apply invoke_Ret in H as (s1 & s2 & E1 & [H _]%on_orders_Ret & _) end.
    apply Detail_Ret in H as (row & Hr & Hu & ->). simpl in *. rewrite E1 in Hr |- *. eauto.
  - intros r s p s' H. cbn in H. unfold ptr, bind, call_orders in H.
    destruct (invoke _ s) as [[a|e|q] s1] eqn:E; [done|done|]. by apply invoke_no_panic in E.
  - intros paid i s [Hh Hi].
    assert (forall (m : option goerr -> M inv_db unit) f, (forall lock, atomic (m lock)) ->
      (forall lock s u s', inv_ok (e_db s) -> m lock s = (Ret u, s') -> f (e_db s) = Some (e_db s')) ->
      did (fun w w' => f (stock_tables w) = Some (stock_tables w') /\ order_tables w' = order_tables w)
        (call_stock m) s) as Hcall.
    { intros m f Ha Hf. apply invoke_did.
      - apply atomic_on_stock, atomic_bind; [apply steps_ask_lock|done].
      - intros s1 a s2 [H E]%on_stock_Ret Es. rewrite Es in *. split; [|done].
        apply bind_Ret in H as (lock & s3 & Hl & H). pose proof (steps_ask_lock (Env (stock_tables (e_db s)) (e_faults s1))) as E3.
        rewrite Hl in E3. cbn in E3. rewrite E3. by eapply (Hf _ _ _ _ ltac:(by rewrite <- E3)) in H. }
    destruct paid; cbn; apply Hcall; intros lock; [apply atomic_Confirm|intros ???; apply Confirm_Ret|
      apply atomic_Reback|intros ???; apply Reback_Ret].
  - intros paid i w w' [_ E] [Hh _]. cbn. by rewrite E.
  - intros m s Hm Hr. unfold server_orders, OrderGateway.UpdateOrderStatus, call_orders. apply invoke_did; [apply atomic_on_orders, atomic_UpdateOrderStatus|].
    intros s1 a s2 [H E]%on_orders_Ret Es. rewrite Es in *. split; [|done].
    by apply UpdateOrderStatus_moved in H.
Qed.
End Network.
