(* ===== verification/GatewayProperties.v ===== *)
(** * The API gateway on top of the order and the inventory service

    What a payment callback and a cancellation do to the two databases together,
    under every fault of statement, commit and network; that a repeated callback
    completes an interrupted one; and what the two services do not prevent. *)
From S2P Require Import Prelude GoStrings Errors GoMonad ErrorTransport Tables OrderModel InventoryModel.
From S2P Require Import OrderStore PaymentStore OrderService OrderServer OrderHandlers OrderHistory OrderProperties OrderRetry.
From S2P Require Import PaymentProperties.
From S2P Require Import InventoryService InventoryStock InventoryProtocol InventoryServer InventoryLedger.
From S2P Require Import OrderGateway GatewayLaws.
Import orderServer.
Import InvDo(inv_db).
Open Scope go_scope.

(** The lines of an order, as the inventory service receives them. *)
Definition stock_lines (goods : list OrderGoods.t) : list InvDo.GoodsDetail :=
  (fun g => InvDo.MkGoodsDetail (OrderGoods.Goods g) (OrderGoods.Nums g)) <$> goods.
Definition lines_of (d : order_db) (row : OrderInfoDO.t) : list InvDo.GoodsDetail :=
  stock_lines (orders.goods_of (ordergoods d) (OrderInfoDO.ID row)).

Lemma sell_lines_eq goods :
  gateway.sell_lines (orderGoodsToResponse goods) =
  if forallb (fun g => (0 <? OrderGoods.Goods g) && (0 <? OrderGoods.Nums g)) goods
  then Some ((fun g => inventoryServer.MkGoodsInvInfo (OrderGoods.Goods g) (OrderGoods.Nums g) 0 0 0 0 0 "" "" "") <$> goods)
  else None.
Proof.
  induction goods as [|g goods IH]; [done|]. cbn [orderGoodsToResponse fmap list_fmap gateway.sell_lines forallb].
  cbn [pb.GoodsId pb.Nums]. rewrite !Z.leb_antisym. destruct (0 <? OrderGoods.Goods g); [|done].
  destruct (0 <? OrderGoods.Nums g); [|done]. cbn [negb orb andb].
  change (fmap _ goods) with (orderGoodsToResponse goods) at 1. rewrite IH. by destruct (forallb _ goods).
Qed.

Lemma sellInfo_lines sn goods i :
  gateway.sellInfoFromOrder sn (orderGoodsToResponse goods) = inl i ->
  inventoryServer.SellOrderSn i = sn /\ inventoryServer.details_of i = stock_lines goods.
Proof.
  unfold gateway.sellInfoFromOrder. rewrite sell_lines_eq. destruct (forallb _ _); [|done].
  destruct goods as [|g goods]; [done|]. cbn. intros [= <-]. split; [done|]. unfold inventoryServer.details_of, stock_lines.
  cbn. f_equal. rewrite <- list_fmap_compose. done.
Qed.

Section Composed.
Context `{G : grpc_status} (format_time : Z -> string).
Context (sql_carts : list (string * bool) -> list ShoppingCartDO.t -> list ShoppingCartDO.t).
Context (sql_orders : list (string * bool) -> list OrderInfoDO.t -> list OrderInfoDO.t).
Context (clock : string -> Z) (grpcServer : option string) (dtm : submit.saga -> M order_db unit).
Context (provider : option (payment.PaymentProvider world)) (opts : option PaymentOptions).
Notation api := (wired format_time sql_carts sql_orders clock grpcServer dtm provider opts).

(** The world after an operation settled the stock of order [sn] of user [user] and
    then moved its status to [status], from the world [w]. *)
Definition settles (paid : bool) (user : Z) (sn status : string) (w : world) (ok : bool) (w' : world) : Prop :=
  (ok = false /\ w' = w) \/
  exists row,
    find (sn_is (TrimSpace sn)) (orderinfo (order_tables w)) = Some row /\
    wrapu64 (OrderInfoDO.User row) = wrapu64 (wrap32 user) /\
    (if paid then spec_confirm else spec_release) sn (lines_of (order_tables w) row) (stock_tables w)
      = Some (stock_tables w') /\
    ((ok = false /\ order_tables w' = order_tables w) \/
     status_moved (TrimSpace sn) status (order_tables w) (order_tables w')).

Lemma settle_settles paid user sn key can msg w ok w' :
  TrimSpace key = TrimSpace sn -> TrimSpace (MsgOrderSn msg) = TrimSpace sn ->
  settle_then_update paid user sn key can msg w ok w' ->
  settles paid user key (TrimSpace (MsgStatus msg)) w ok w'.
Proof.
  intros Ek Em [[-> ->]|(detail & info & i & Hv & _ & _ & Hi & H)]; [by left|].
  destruct Hv as (fmt & row & Hr & Hu & ->). cbn [fst snd] in Hr, Hu. cbn [orderToDetailResponse pb.Goods] in Hi.
  apply sellInfo_lines in Hi as [E1 E2].
  destruct H as [[-> ->]|(w1 & [Hs Eo] & H)]; [by left|]. right. exists row. rewrite Ek.
  unfold stock_step in Hs. rewrite E1, E2 in Hs.
  destruct H as [[-> ->]|[Hm Es]]; (split_and!; [done|done| |]).
  - exact Hs.
  - by left.
  - rewrite Es. exact Hs.
  - right. by rewrite <- Eo, <- Em.
Qed.

Lemma pay_callback_result now req w faults :
  hist_ok (order_tables w) -> inv_ok (stock_tables w) ->
  let run := gateway.SimulatePayCallback now api (Some req) (Env w faults) in
  settles (ReqSuccess req) (ReqUserID req) (TrimSpace (ReqOrderSn req)) (callback_target (ReqSuccess req)) w
    (is_ret run.1) (e_db run.2).
Proof.
  intros Ho Hs. pose proof (SimulatePayCallback_result
    (server_orders format_time sql_carts sql_orders clock grpcServer dtm) server_stock provider opts now req (Env w faults)) as H.
  cbv zeta. eapply settle_settles in H; [| | |by split].
  - assert (TrimSpace (MsgStatus (callback_msg now req)) = callback_target (ReqSuccess req)) as E
      by (unfold callback_msg; destruct (ReqSuccess req); reflexivity).
    rewrite E in H. exact H.
  - done.
  - unfold callback_msg. destruct (ReqSuccess req); cbn [MsgOrderSn gateway.status_msg]; by rewrite TrimSpace_idem.
Qed.

(** C4: a payment callback, from states that calls reach ([oreachable],
    [reachable]) and under every fault: either nothing happened, or the stock of
    the order's own lines was settled as the inventory service specifies
    ([spec_confirm], [spec_release] for a failed payment) and the order was not
    touched, or it was and then the order moved to the status the callback asks
    for by an allowed transition with its entry in the log.  When the callback
    returns success, the last.  The specification of a confirmation answers a
    record that was already settled, a released one included, with success and no
    change; [paid_order_without_stock] shows what that means after a half-done
    cancellation. *)
Theorem pay_callback_settles now req w faults :
  oreachable (order_tables w) -> reachable (stock_tables w) ->
  let run := gateway.SimulatePayCallback now api (Some req) (Env w faults) in
  settles (ReqSuccess req) (ReqUserID req) (TrimSpace (ReqOrderSn req)) (callback_target (ReqSuccess req)) w
    (is_ret run.1) (e_db run.2).
Proof. intros Ho Hs. apply pay_callback_result; [by apply oreachable_hist|apply reachable_ledger in Hs; apply Hs]. Qed.

(** The same of a cancellation, which releases the stock and closes the order. *)
Theorem cancel_settles user sn w faults :
  oreachable (order_tables w) -> reachable (stock_tables w) ->
  let run := gateway.CancelOrder api user sn (Env w faults) in
  settles false user sn gateway.orderStatusTradeClosed w (is_ret run.1) (e_db run.2).
Proof.
  intros Ho Hs. pose proof (CancelOrder_result
    (server_orders format_time sql_carts sql_orders clock grpcServer dtm) server_stock provider opts user sn (Env w faults)) as H.
  cbv zeta. eapply settle_settles in H.
  - exact H.
  - by rewrite TrimSpace_idem.
  - by rewrite TrimSpace_idem.
  - split; [by apply oreachable_hist|apply reachable_ledger in Hs; apply Hs].
Qed.
End Composed.

(** ** A callback that is delivered again *)

Lemma orders_Update_clean order d r :
  OrderInfoDO.ID order <= 0 -> TrimSpace (OrderInfoDO.OrderSn order) <> "" -> TrimSpace (OrderInfoDO.Status order) <> "" ->
  find (sn_is (TrimSpace (OrderInfoDO.OrderSn order))) (orderinfo d) = Some r ->
  exists d', orders.Update (Some order) (Env d []) = (Ret tt, Env d' []).
Proof.
  intros Hid Hsn Hst Hr. unfold orders.Update. fold (norm_update order). eexists.
  erewrite bind_run; [|apply fail_if_run; simpl; rewrite (bool_decide_eq_false_2 _ Hsn); apply andb_false_r].
  erewrite bind_run; [|apply fail_if_run; simpl; by apply bool_decide_eq_false].
  erewrite bind_run; [|apply wrap_err_run, update_where_run]. apply fail_if_run, Z.eqb_neq.
  apply find_some in Hr as [Hin Hs]. rewrite sn_is_true in Hs. destruct Hs as [L E].
  assert (r ∈ List.filter (orders.update_target (norm_update order)) (rows t_orderinfo d)) as Hf.
  { apply list_elem_of_In, filter_In. split; [done|]. unfold orders.update_target. simpl.
    rewrite (proj2 (Z.ltb_ge _ _)) by done. unfold olive in L. rewrite L, E. by apply bool_decide_eq_true. }
  destruct (List.filter _ _); [by apply elem_of_nil in Hf|]. simpl. lia.
Qed.

Lemma createStatusLog_clean entry d :
  TrimSpace (OrderStatusLogDO.OrderSn entry) <> "" -> TrimSpace (OrderStatusLogDO.ToStatus entry) <> "" ->
  exists d', orderService.createStatusLog entry (Env d []) = (Ret tt, Env d' []).
Proof.
  intros H1 H2. unfold orderService.createStatusLog, orderStatusLogs.Create. eexists.
  erewrite bind_run; [|apply fail_if_run; by rewrite !bool_decide_eq_false_2]. unfold bind, dberr, wrap_err, insert_row, stmt.
  cbn [next_fault e_faults e_db].
  assert (forall l : list OrderStatusLogDO.t, existsb (fun _ => false) l = false) as -> by (by induction l). done.
Qed.

Lemma UpdateOrderStatus_clean now m d r :
  let st := TrimSpace (MsgStatus m) in
  MsgId m <= 0 -> TrimSpace (MsgOrderSn m) <> "" -> orderService.isValidOrderStatus st = true ->
  st <> orderService.OrderStatusRefundPending ->
  (st = orderService.OrderStatusTradeSuccess -> TrimSpace (MsgTradeNo m) <> "") ->
  find (sn_is (TrimSpace (MsgOrderSn m))) (orderinfo d) = Some r ->
  orderService.canTransitionOrderStatus (OrderInfoDO.Status r) st = true ->
  exists d', orderServer.UpdateOrderStatus now (Some m) (Env d []) = (Ret tt, Env d' []).
Proof.
  intros st Hid Hsn Hv Hrp Htr Hr Hcan. unfold orderServer.UpdateOrderStatus, orderService.Update. cbv zeta.
  set (o := orderService.with_info _ _).
  assert (OrderInfoDO.ID (orderService.Info o) <= 0) as Eid by (simpl; by rewrite (proj2 (Z.ltb_ge _ _))).
  assert (OrderInfoDO.Status (orderService.Info o) = st) as Est by done.
  assert (OrderInfoDO.OrderSn (orderService.Info o) = TrimSpace (MsgOrderSn m)) as Esn by done.
  assert (st <> "") as Hst by (intros E; by rewrite E in Hv).
  erewrite bind_run; [|apply fail_if_run; unfold orderService.seq; by rewrite Est, Esn, !bool_decide_eq_false_2].
  erewrite bind_run; [|apply fail_if_run; by rewrite Est, Hv].
  erewrite bind_run; [|apply Get_clean; rewrite Esn, TrimSpace_idem; [done|exact Hr]].
  set (existing := OrderInfoDO.set_goods _ r).
  assert (exists o', orderService.check_update now existing o = inl o') as [o' Ho'].
  { unfold orderService.check_update, orderService.seq. rewrite Est. change (OrderInfoDO.Status existing) with (OrderInfoDO.Status r).
    rewrite Hcan. cbn [negb]. rewrite (bool_decide_eq_false_2 (st = orderService.OrderStatusRefundPending)) by done. cbn [andb].
    destruct (bool_decide (st = orderService.OrderStatusTradeSuccess) && _) eqn:Et; [|eauto]. exfalso.
    apply andb_true_iff in Et as [Et1%bool_decide_eq_true Et2%bool_decide_eq_true]. by apply (Htr Et1). }
  rewrite Ho'. apply check_update_inl in Ho' as (_ & Fid & Fsn & Fst). rewrite Est in Fst. rewrite Esn in Fsn.
  destruct (orders_Update_clean (orderService.Info o') d r) as [d1 E1].
  { by rewrite Fid. } { by rewrite Fsn, TrimSpace_idem. }
  { rewrite Fst. unfold st. by rewrite TrimSpace_idem. } { by rewrite Fsn, TrimSpace_idem. }
  destruct (find_sn _ _ _ Hr) as (_ & _ & Er).
  destruct (createStatusLog_clean (orderService.buildStatusLog existing o') d1) as [d2 E2].
  { change (TrimSpace (OrderInfoDO.OrderSn r) <> ""). by rewrite Er, TrimSpace_idem. }
  { change (TrimSpace (OrderInfoDO.Status (orderService.Info o')) <> ""). rewrite Fst. unfold st. by rewrite TrimSpace_idem. }
  exists (if negb (orderService.tseq (OrderInfoDO.Status existing) (OrderInfoDO.Status (orderService.Info o'))) then d2 else d1).
  apply manual_txn_run. rewrite (bind_run _ _ _ _ _ E1).
  unfold orderService.seq at 1. rewrite (bool_decide_eq_false_2 (_ = orderService.OrderStatusRefundPending)) by (by rewrite Fst).
  destruct (negb _); [|done]. erewrite bind_run; [|apply wrap_err_run; exact E2]. done.
Qed.

(** A confirmation settles the record, and a settled record is confirmed again without
    a change. *)
Lemma confirmed_record sn l d d' rec :
  inv_ok d -> spec_confirm sn l d = Some d' -> InvDo.stockselldetail d !! TrimSpace sn = Some rec ->
  InvDo.Status rec = inventoryService.stockSellStatusReserved ->
  InvDo.stockselldetail d' !! TrimSpace sn = Some (with_status inventoryService.stockSellStatusConfirmed rec).
Proof.
  intros Hok H Hrec Hres. unfold spec_confirm in H. rewrite Hrec, Hres in H.
  destruct (inventoryService.validateStockOperation sn l); [done|].
  cbn [Z.eqb inventoryService.stockSellStatusReserved Pos.eqb] in H. destruct (decide _); [|done]. injection H as <-.
  destruct (ok_records _ Hok _ _ Hrec) as [Hk _]. simpl. rewrite Hk. apply lookup_insert_eq.
Qed.
Lemma confirm_settled sn l d rec :
  inventoryService.validateStockOperation sn l = None -> InvDo.stockselldetail d !! TrimSpace sn = Some rec ->
  InvDo.Status rec <> inventoryService.stockSellStatusReserved -> spec_confirm sn l d = Some d.
Proof. intros Hv Hrec Hst. unfold spec_confirm. rewrite Hv, Hrec. by rewrite (proj2 (Z.eqb_neq _ _) Hst). Qed.

(** A release that changed the tables leaves a released record. *)
Lemma released_record sn l d d' :
  inv_ok d -> TrimSpace sn = sn -> spec_release sn l d = Some d' -> d' <> d ->
  inventoryService.validateStockOperation sn l = None /\
  exists rec, InvDo.stockselldetail d' !! sn = Some rec /\ InvDo.Status rec = inventoryService.stockSellStatusReleased.
Proof.
  intros Hok Hsn H Hne. unfold spec_release in H. rewrite Hsn in H.
  destruct (inventoryService.validateStockOperation sn l); [done|]. split; [done|].
  destruct (InvDo.stockselldetail d !! sn) as [rec|] eqn:Hrec.
  - destruct (InvDo.Status rec =? _); [|congruence]. destruct (decide _); [|done]. injection H as <-.
    destruct (ok_records _ Hok _ _ Hrec) as [Hk _]. simpl. rewrite Hk. eexists. split; [apply lookup_insert_eq|done].
  - destruct (decide _); [|done]. injection H as <-. eexists. split; [apply lookup_insert_eq|done].
Qed.

Section Retry.
Context `{G : grpc_status} (format_time : Z -> string).
Context (sql_carts : list (string * bool) -> list ShoppingCartDO.t -> list ShoppingCartDO.t).
Context (sql_orders : list (string * bool) -> list OrderInfoDO.t -> list OrderInfoDO.t).
Context (clock : string -> Z) (grpcServer : option string) (dtm : submit.saga -> M order_db unit).
Context (provider : option (payment.PaymentProvider world)) (opts : option PaymentOptions).
Notation api := (wired format_time sql_carts sql_orders clock grpcServer dtm provider opts).

Lemma invoke_run {A} (m : M world A) w a w' : m (Env w []) = (Ret a, Env w' []) -> invoke m (Env w []) = (Ret a, Env w' []).
Proof. intros H. unfold invoke, served. cbn. by rewrite H. Qed.
Lemma on_orders_run {A} (m : M order_db A) w a d' :
  m (Env (order_tables w) []) = (Ret a, Env d' []) ->
  on_orders m (Env w []) = (Ret a, Env (World d' (stock_tables w)) []).
Proof. intros H. unfold on_orders. cbn. by rewrite H. Qed.
Lemma on_stock_run {A} (m : M inv_db A) w a d' :
  m (Env (stock_tables w) []) = (Ret a, Env d' []) ->
  on_stock m (Env w []) = (Ret a, Env (World (order_tables w) d') []).
Proof. intros H. unfold on_stock. cbn. by rewrite H. Qed.

Lemma Detail_clean u sn d row :
  wrapu64 u <> 0 -> TrimSpace sn <> "" -> find (sn_is (TrimSpace sn)) (orderinfo d) = Some row ->
  wrapu64 (OrderInfoDO.User row) = wrapu64 u ->
  orderHandlers.OrderDetail format_time (Some (u, sn)) (Env d []) =
    (Ret (orderToDetailResponse format_time
            (OrderInfoDO.set_goods (orders.goods_of (ordergoods d) (OrderInfoDO.ID row)) row)), Env d []).
Proof.
  intros Hu Hsn Hr Eu. unfold orderHandlers.OrderDetail, orderService.Get.
  erewrite bind_run; [reflexivity|].
  erewrite bind_run; [|apply fail_if_run; unfold orderService.seq; by rewrite (proj2 (Z.eqb_neq _ _) Hu), bool_decide_eq_false_2].
  erewrite bind_run; [|by apply Get_clean]. erewrite bind_run; [done|apply fail_if_run; simpl].
  by rewrite Eu, Z.eqb_refl.
Qed.

(** A paid callback for an order whose stock the inventory service can confirm, and the
    world in which it is first delivered. *)
Context (req : PayCallbackRequest) (w0 : world) (row0 : OrderInfoDO.t) (stock1 : inv_db).
Notation sn := (TrimSpace (ReqOrderSn req)).
Notation lines := (lines_of (order_tables w0) row0).
Context (Hpaid : ReqSuccess req = true) (Htrade : TrimSpace (ReqTradeNo req) <> "").
Context (Huser : wrapu64 (wrap32 (ReqUserID req)) <> 0 /\ ReqUserID req <> 0).
Context (Hledger : ledger_ok (stock_tables w0)) (Htyped : typed_lines lines).
Context (Hvalid : inventoryService.validateStockOperation sn lines = None).
Context (Hconfirm : spec_confirm sn lines (stock_tables w0) = Some stock1).
Context (confirm_again : spec_confirm sn lines stock1 = Some stock1).

(** Where the deliveries can leave the two databases. *)
Record payable (w : world) : Prop := {
  p_hist : hist_ok (order_tables w);
  p_row : exists row, find (sn_is sn) (orderinfo (order_tables w)) = Some row /\
    wrapu64 (OrderInfoDO.User row) = wrapu64 (wrap32 (ReqUserID req)) /\ lines_of (order_tables w) row = lines /\
    OrderInfoDO.Status row ∈ [orderService.OrderStatusWaitBuyerPay; orderService.OrderStatusPaying;
                              orderService.OrderStatusTradeSuccess];
  p_stock : stock_tables w = stock_tables w0 \/ stock_tables w = stock1
}.

Lemma payable_stock w : payable w -> inv_ok (stock_tables w) /\ spec_confirm sn lines (stock_tables w) = Some stock1.
Proof.
  intros [_ _ [->| ->]]; (split; [|done || apply confirm_again]); [apply Hledger|].
  eapply spec_confirm_ledger; [exact Hledger|exact Hconfirm].
Qed.

(** Every delivery keeps to these worlds, and one that returns ends in the last. *)
Lemma payable_attempt now w faults :
  payable w ->
  let run := gateway.SimulatePayCallback now api (Some req) (Env w faults) in
  payable (e_db run.2) /\
  (is_ret run.1 = true -> stock_tables (e_db run.2) = stock1 /\
     exists row, find (sn_is sn) (orderinfo (order_tables (e_db run.2))) = Some row /\
       OrderInfoDO.Status row = orderService.OrderStatusTradeSuccess).
Proof.
  intros Hw. destruct (payable_stock w Hw) as [Hok Hspec].
  pose proof (pay_callback_result format_time sql_carts sql_orders clock grpcServer dtm provider opts now req w faults
    (p_hist _ Hw) Hok) as H. cbv zeta in *. rewrite Hpaid in H. destruct (gateway.SimulatePayCallback _ _ _ _) as [r s'].
  cbn [fst snd] in *. destruct H as [[-> ->]|(row & Hr & Hu & Hs & H)]; [done|].
  rewrite TrimSpace_idem in Hr. destruct Hw as [Hh (row' & Hr' & Hu' & Hl & Hst) Hstk].
  rewrite Hr in Hr'. injection Hr' as <-. rewrite Hl, Hspec in Hs. injection Hs as Hs.
  destruct H as [[-> Eo]|[Hh' (r0 & r1 & F0 & F1 & Eid & Eu & Eg & _ & Est)]].
  - split; [|done]. split; [by rewrite Eo|rewrite Eo; eauto 10|by right].
  - rewrite TrimSpace_idem in F0, F1. rewrite Hr in F0. injection F0 as <-. split.
    + split; [done| |by right]. exists r1. split_and!; [done|by rewrite Eu| |].
      * unfold lines_of in *. by rewrite Eg, Eid.
      * rewrite Est. by right; right; left.
    + intros _. split; [done|]. exists r1. split; [done|]. by rewrite Est.
Qed.

Lemma payable_goods w row :
  lines_of (order_tables w) row = lines ->
  exists i, gateway.sellInfoFromOrder sn (orderGoodsToResponse
      (orders.goods_of (ordergoods (order_tables w)) (OrderInfoDO.ID row))) = inl i /\
    inventoryServer.SellOrderSn i = sn /\ inventoryServer.details_of i = lines.
Proof.
  intros Hl. unfold gateway.sellInfoFromOrder. unfold lines_of at 1 in Hl. set (goods := orders.goods_of _ _) in *.
  apply validateStockOperation_None in Hvalid as Hv. destruct Hv as (_ & Hne & Hpos).
  rewrite <- Hl in Hne, Hpos. unfold stock_lines in Hne, Hpos. rewrite Forall_fmap in Hpos.
  rewrite sell_lines_eq. assert (forallb (fun g => (0 <? OrderGoods.Goods g) && (0 <? OrderGoods.Nums g)) goods = true) as ->.
  { apply forallb_forall. intros g Hg%list_elem_of_In. rewrite Forall_forall in Hpos. specialize (Hpos g Hg). simpl in Hpos.
    apply andb_true_iff. split; apply Z.ltb_lt; lia. }
  destruct goods as [|g goods]; [done|]. eexists. split; [reflexivity|]. split; [done|]. rewrite <- Hl.
  unfold inventoryServer.details_of, stock_lines. cbn. f_equal. rewrite <- list_fmap_compose. done.
Qed.

(** A delivery without faults returns. *)
Lemma payable_clean now w :
  payable w -> exists w', gateway.SimulatePayCallback now api (Some req) (Env w []) = (Ret tt, Env w' []).
Proof.
  intros Hw. destruct (payable_stock w Hw) as [Hok Hspec]. destruct Hw as [Hh (row & Hr & Hu & Hl & Hst) _].
  destruct (payable_goods w row Hl) as (i & Hi & E1 & E2).
  assert (sn <> "") as Hsn. { apply validateStockOperation_None in Hvalid as [H _]. by rewrite TrimSpace_idem in H. }
  destruct (Confirm_clean sn lines (stock_tables w) Hok Htyped _ Hspec) as [[] Ec].
  set (msg := gateway.status_msg sn gateway.orderStatusTradeSuccess (TrimSpace (ReqPayType req))
                (TrimSpace (ReqTradeNo req)) (Unix now) "").
  destruct (UpdateOrderStatus_clean (clock "UpdateOrderStatus") msg (order_tables w) row) as [d' Eu]; try done.
  { simpl. by rewrite TrimSpace_idem. } { simpl. by rewrite TrimSpace_idem. } { simpl. by rewrite TrimSpace_idem. }
  { rewrite !elem_of_cons, elem_of_nil in Hst. destruct Hst as [->|[->|[->|[]]]]; vm_compute; reflexivity. }
  exists (World d' stock1).
  unfold gateway.SimulatePayCallback, gateway.need_data, gateway.need, gateway.need_orders.
  cbn [wired mbind option_bind gateway.data Orders Inventory]. unfold gateway.need.
  erewrite bind_run; [|apply fail_if_run; unfold orderService.seq; rewrite (proj2 (Z.eqb_neq _ _)) by (by apply Huser);
    by apply bool_decide_eq_false].
  erewrite bind_run; [|cbn [server_orders OrderGateway.OrderDetail]; unfold ptr; erewrite bind_run;
    [reflexivity|apply invoke_run, on_orders_run, Detail_clean; [by apply Huser|by rewrite TrimSpace_idem|
      by rewrite TrimSpace_idem|done]]].
  cbn [gateway.GetOrderInfo mbind option_bind orderToDetailResponse pb.OrderInfo gateway.GetGoods pb.Goods].
  rewrite Hpaid. erewrite bind_run; [|apply fail_if_run; by apply bool_decide_eq_false].
  erewrite bind_run; [|apply fail_if_run; change (pb.Status _) with (OrderInfoDO.Status row)].
  2: { rewrite !elem_of_cons, elem_of_nil in Hst. destruct Hst as [->|[->|[->|[]]]]; vm_compute; reflexivity. }
  change (OrderInfoDO.OrderGoods (OrderInfoDO.set_goods ?l row)) with l. rewrite Hi.
  erewrite bind_run; [|cbn [server_stock Confirm]; apply invoke_run, on_stock_run; unfold inventoryServer.Confirm;
    rewrite E1, E2; erewrite bind_run; [exact Ec|reflexivity]].
  cbn [server_orders OrderGateway.UpdateOrderStatus]. apply invoke_run, (on_orders_run _ (World _ _)). exact Eu.
Qed.
End Retry.

(** A user id within 32 bits passes the conversions of the calls. *)
Lemma user_id_kept u : 0 < u <= int32_max -> wrapu64 (wrap32 u) <> 0 /\ u <> 0.
Proof. intros Hu. split; [|lia]. unfold_int. rewrite (wrap32_id u), wrapu64_id; unfold_int; lia. Qed.

Definition redelivered `{G : grpc_status} (format_time : Z -> string) sql_carts sql_orders clock grpcServer dtm provider opts
    (req : PayCallbackRequest) (attempts : list (Z * list (option string))) (w : world) : world :=
  fold_left (fun w (a : Z * list (option string)) => e_db (gateway.SimulatePayCallback a.1
      (wired format_time sql_carts sql_orders clock grpcServer dtm provider opts) (Some req) (Env w a.2)).2) attempts w.


(** ** What the composition does not give *)

(** C40: What a cancellation that got half way leaves.  [CancelOrder] releases the stock and
    then closes the order, in two calls, and nothing undoes the first when the second
    fails; and the inventory service answers the confirmation of a released order with
    success.  So whenever a cancellation of an order that waits for its payment changed
    the stock but not the orders, a paid callback delivered without faults returns
    success, the order is paid, and the stock is as the cancellation left it: the lines
    released and on sale again, the reservation's record released. *)
Theorem paid_order_without_stock `{G : grpc_status} format_time sql_carts sql_orders clock grpcServer dtm provider opts
    req faults now w row :
  let api := wired format_time sql_carts sql_orders clock grpcServer dtm provider opts in
  let sn := TrimSpace (ReqOrderSn req) in
  let w1 := e_db (gateway.CancelOrder api (ReqUserID req) sn (Env w faults)).2 in
  oreachable (order_tables w) -> reachable (stock_tables w) ->
  find (sn_is sn) (orderinfo (order_tables w)) = Some row ->
  OrderInfoDO.Status row = orderService.OrderStatusWaitBuyerPay \/ OrderInfoDO.Status row = orderService.OrderStatusPaying ->
  typed_lines (lines_of (order_tables w) row) ->
  order_tables w1 = order_tables w -> stock_tables w1 <> stock_tables w ->
  ReqSuccess req = true -> TrimSpace (ReqTradeNo req) <> "" -> 0 < ReqUserID req <= int32_max ->
  exists w2 row' rec,
    gateway.SimulatePayCallback now api (Some req) (Env w1 []) = (Ret tt, Env w2 []) /\
    find (sn_is sn) (orderinfo (order_tables w2)) = Some row' /\
    OrderInfoDO.Status row' = orderService.OrderStatusTradeSuccess /\
    spec_release sn (lines_of (order_tables w) row) (stock_tables w) = Some (stock_tables w2) /\
    InvDo.stockselldetail (stock_tables w2) !! sn = Some rec /\ InvDo.Status rec = inventoryService.stockSellStatusReleased.
Proof.
  intros api sn w1 Ho Hs Hr Hst Ht Eo Hne Hpaid Htr Hu. apply reachable_ledger in Hs as Hl.
  assert (TrimSpace sn = sn) as Esn by apply TrimSpace_idem.
  pose proof (user_id_kept _ Hu) as Huser.
  pose proof (cancel_settles format_time sql_carts sql_orders clock grpcServer dtm provider opts (ReqUserID req) sn w faults Ho Hs) as H.
  cbv zeta in H. fold api w1 in H. destruct H as [[_ E]|(row0 & Hr0 & Eu & Hrel & _)]; [by rewrite E in Hne|].
  rewrite Esn, Hr in Hr0. injection Hr0 as <-.
  destruct (released_record _ _ _ _ (ledger_wf _ Hl) Esn Hrel Hne) as (Hv & rec & Hrec & Hrs).
  assert (ledger_ok (stock_tables w1)) as Hl1 by (eapply spec_release_ledger; [exact Hl|exact Ht|exact Hrel]).
  rewrite <- Eo in Hr, Ht, Hrel, Hv.
  assert (spec_confirm sn (lines_of (order_tables w1) row) (stock_tables w1) = Some (stock_tables w1)) as Hc.
  { eapply confirm_settled; [exact Hv|by rewrite Esn|by rewrite Hrs]. }
  assert (payable req w1 row (stock_tables w1) w1) as Hp.
  { split; [rewrite Eo; by apply oreachable_hist| |by left]. exists row. split_and!; [done..|].
    destruct Hst as [->| ->]; [left|right; left]. }
  destruct (payable_clean format_time sql_carts sql_orders clock grpcServer dtm provider opts
    req w1 row (stock_tables w1) Hpaid Htr Huser Hl1 Ht Hv Hc Hc now w1 Hp) as [w2 Hrun].
  destruct (payable_attempt format_time sql_carts sql_orders clock grpcServer dtm provider opts
    req w1 row (stock_tables w1) Hpaid Hl1 Hc Hc now w1 [] Hp) as [_ Hlast]. rewrite Hrun in Hlast.
  destruct (Hlast eq_refl) as [E2 (row' & Hr' & Est)]. cbn [snd e_db] in E2, Hr'.
  exists w2, row', rec. rewrite E2, <- Eo. by split_and!.
Qed.

Section Unimplemented.
Context `{G : grpc_status} (format_time : Z -> string).
Context (sql_carts : list (string * bool) -> list ShoppingCartDO.t -> list ShoppingCartDO.t).
Context (sql_orders : list (string * bool) -> list OrderInfoDO.t -> list OrderInfoDO.t).
Context (clock : string -> Z) (grpcServer : option string) (dtm : submit.saga -> M order_db unit).
Context (provider : option (payment.PaymentProvider world)) (opts : option PaymentOptions).
Notation orders_client := (server_orders format_time sql_carts sql_orders clock grpcServer dtm).
Notation api := (wired format_time sql_carts sql_orders clock grpcServer dtm provider opts).

Lemma GetOrderBySn_fails sn s :
  exists e s', GetOrderBySn orders_client sn s = (Fail e, s') /\ e_db s' = e_db s.
Proof.
  cbn [server_orders GetOrderBySn]. unfold ptr, bind, call_orders, invoke, served, on_orders, orderHandlers.GetOrderBySn, fail.
  pose proof (next_fault_db s) as E. destruct (next_fault s) as [[msg|] s1]; cbn in *; [eauto|].
  eexists _, _. split; [reflexivity|]. rewrite <- E. by destruct (e_db s1).
Qed.

Lemma process_event_fails now d req amount s :
  exists detail e s', gateway.process_event now d orders_client req amount s = (Ret (Some (detail, e)), s') /\ e_db s' = e_db s.
Proof.
  unfold gateway.process_event. cbv zeta. destruct (_ || _); [do 3 eexists; split; [reflexivity|done]|].
  destruct (GetOrderBySn_fails (payment.CbOrderSN req) s) as (e & s' & E & Es).
  unfold gateway.step. erewrite bind_run by (apply attempt_Fail; exact E). do 3 eexists. split; [reflexivity|done].
Qed.

(** Orders, their lines and their log, and the whole stock. *)
Definition same_orders (w w' : world) : Prop :=
  stock_tables w' = stock_tables w /\ orderinfo (order_tables w') = orderinfo (order_tables w) /\
  ordergoods (order_tables w') = ordergoods (order_tables w) /\
  order_status_logs (order_tables w') = order_status_logs (order_tables w).
#[local] Instance same_orders_preorder : PreOrder same_orders.
Proof. split; [done|]. intros w1 w2 w3 (?&?&?&?) (?&?&?&?). unfold same_orders. intuition congruence. Qed.
Definition order_part (d d' : order_db) : Prop :=
  orderinfo d' = orderinfo d /\ ordergoods d' = ordergoods d /\ order_status_logs d' = order_status_logs d.
#[local] Instance order_part_preorder : PreOrder order_part.
Proof. split; [done|]. intros w1 w2 w3 (?&?&?) (?&?&?). unfold order_part. intuition congruence. Qed.
Lemma order_part_frame d d' :
  orderinfo d' = orderinfo d -> ordergoods d' = ordergoods d -> order_status_logs d' = order_status_logs d -> order_part d d'.
Proof. done. Qed.

Lemma steps_call_orders {A} (m : M order_db A) : steps order_part m -> steps same_orders (call_orders m).
Proof.
  intros H. apply steps_invoke; [exact _|]. intros [[o k] f]. specialize (H (Env o f)). unfold on_orders. cbn in *.
  destruct (m (Env o f)) as [r s']. cbn in *. done.
Qed.
Lemma part_Begin now r : steps order_part (orderHandlers.BeginPaymentEvent now r).
Proof.
  unfold orderHandlers.BeginPaymentEvent, orderServer.BeginPaymentEvent, payments.BeginPaymentEvent, db_txn, first_or.
  frame_go order_part order_part_frame.
Qed.
Lemma part_Complete now r : steps order_part (orderHandlers.CompletePaymentEvent now r).
Proof.
  unfold orderHandlers.CompletePaymentEvent, payments.CompletePaymentEvent, db_txn, payments.update_last_refund.
  frame_go order_part order_part_frame.
Qed.

(** C38: With the order server as it is, which does not implement [GetOrderBySn], no
    callback of the payment provider is ever carried out: whatever it says, in every
    state and under every fault, [ProcessPayCallback] does not accept it, and the
    orders, their log and the stock stay as they are. *)
Theorem callbacks_never_accepted now req w faults :
  let run := gateway.ProcessPayCallback now api req (Env w faults) in
  run.1 <> Ret false /\ same_orders w (e_db run.2).
Proof.
  set (Q := fun x : outcome bool * env world => x.1 <> Ret false /\ same_orders w (e_db x.2)).
  change (Q (gateway.ProcessPayCallback now api req (Env w faults))).
  unfold gateway.ProcessPayCallback. destruct req as [req|]; [|done].
  unfold bind at 1, fail_if. destruct (gateway.invalid_callback req); [done|]. unfold ret at 1. cbv beta iota.
  cbn [wired mbind option_bind gateway.data gateway.deref Orders].
  set (b := pb.MkPaymentEventRequest _ _ _ _ _ _ _).
  assert (steps same_orders (OrderGateway.BeginPaymentEvent orders_client b)) as Hb.
  { cbn [server_orders OrderGateway.BeginPaymentEvent]. unfold ptr. steps_go. apply steps_call_orders, part_Begin. }
  specialize (Hb (Env w faults)). unfold bind at 1.
  destruct (OrderGateway.BeginPaymentEvent orders_client b (Env w faults)) as [[begin|e|p] s1]; cbn [fst snd e_db] in *; [|done..].
  destruct (negb (gateway.GetAccepted begin)). { by destruct (gateway.GetCompleted begin). }
  unfold bind at 1, gateway.with_defer.
  destruct (process_event_fails now (MkDataFactory (Some orders_client) (Some server_stock)) req
    (gateway.GetOrderAmountFen begin) s1) as (detail & e & s2 & E & Es). rewrite E. cbv beta iota.
  set (c := pb.MkCompletePaymentEventRequest _ _ _).
  assert (steps same_orders (attempt (OrderGateway.CompletePaymentEvent orders_client c) ;;; ret tt)) as Hc.
  { steps_go. cbn [server_orders OrderGateway.CompletePaymentEvent]. apply steps_call_orders, part_Complete. }
  specialize (Hc s2). rewrite Es in Hc.
  destruct ((attempt (OrderGateway.CompletePaymentEvent orders_client c) ;;; ret tt) s2) as [[u|e'|p] s3]; cbn in *;
    (split; [done|]; by etrans).
Qed.
End Unimplemented.

(** ** A concrete world *)
Definition demo_stock : inv_db :=
  e_db (inventoryService.Sell None "S1" [InvDo.MkGoodsDetail 7 3; InvDo.MkGoodsDetail 8 1] (Env demo_db0 [])).2.
Definition demo_world : world := World demo_od1 demo_stock.
Definition demo_api : option (@gateway.orderService world) :=
  wired (G := demo_status) (fun _ => "") (fun _ l => l) (fun _ l => l) (fun _ => 1000) (Some "dtm") (fun _ => ret tt) None None.
Definition demo_pay : PayCallbackRequest := MkPayCallbackRequest 5 " S1" "alipay" "T-1" true.

Lemma demo_stock_reachable : reachable demo_stock.
Proof. apply (reach_call _ (CSell None "S1" [InvDo.MkGoodsDetail 7 3; InvDo.MkGoodsDetail 8 1]) [] demo_reachable0).
  repeat constructor; simpl; unfold_int; lia. Qed.

Lemma pay_callback_settles_witness :
  exists row, find (sn_is "S1") (orderinfo (order_tables demo_world)) = Some row /\
    spec_confirm "S1" (lines_of (order_tables demo_world) row) (stock_tables demo_world)
      = Some (stock_tables (e_db (gateway.SimulatePayCallback 2000 demo_api (Some demo_pay) (Env demo_world [])).2)).
Proof.
  pose proof (pay_callback_settles (G := demo_status) (fun _ => "") (fun _ l => l) (fun _ l => l) (fun _ => 1000) (Some "dtm")
    (fun _ => ret tt) None None 2000 demo_pay demo_world [] demo_oreach1 demo_stock_reachable) as H.
  destruct H as [[H _]|(row & Hr & _ & Hs & _)].
  - exfalso. vm_compute in H. discriminate H.
  - exists row. split; [exact Hr|exact Hs].
Defined.

Lemma cancel_settles_witness :
  exists row, find (sn_is "S1") (orderinfo (order_tables demo_world)) = Some row /\
    spec_release "S1" (lines_of (order_tables demo_world) row) (stock_tables demo_world)
      = Some (stock_tables (e_db (gateway.CancelOrder demo_api 5 "S1" (Env demo_world [])).2)).
Proof.
  pose proof (cancel_settles (G := demo_status) (fun _ => "") (fun _ l => l) (fun _ l => l) (fun _ => 1000) (Some "dtm")
    (fun _ => ret tt) None None 5 "S1" demo_world [] demo_oreach1 demo_stock_reachable) as H.
  destruct H as [[H _]|(row & Hr & _ & Hs & _)].
  - exfalso. vm_compute in H. discriminate H.
  - exists row. split; [exact Hr|exact Hs].
Defined.

Lemma demo_row : exists row, find (sn_is "S1") (orderinfo demo_od1) = Some row /\ OrderInfoDO.User row = 5 /\
  OrderInfoDO.Status row = orderService.OrderStatusWaitBuyerPay /\
  lines_of demo_od1 row = [InvDo.MkGoodsDetail 7 3; InvDo.MkGoodsDetail 8 1].
Proof. eexists. split; [vm_compute; reflexivity|]. vm_compute. done. Qed.


(** The answer of the release arrives, and the request to close the order is lost. *)
Lemma paid_order_without_stock_witness :
  let w1 := e_db (gateway.CancelOrder demo_api 5 "S1" (Env demo_world (replicate 12 None ++ [Some "timeout"]))).2 in
  InvDo.Available <$> InvDo.inventory (stock_tables w1) = InvDo.Available <$> InvDo.inventory demo_db0 /\
  exists w2 row' rec,
    gateway.SimulatePayCallback 2000 demo_api (Some demo_pay) (Env w1 []) = (Ret tt, Env w2 []) /\
    find (sn_is "S1") (orderinfo (order_tables w2)) = Some row' /\
    OrderInfoDO.Status row' = orderService.OrderStatusTradeSuccess /\
    InvDo.stockselldetail (stock_tables w2) !! "S1" = Some rec /\ InvDo.Status rec = inventoryService.stockSellStatusReleased.
Proof.
  intros w1. split; [vm_compute; reflexivity|]. destruct demo_row as (row & Hr & _ & Hst & Hl).
  destruct (paid_order_without_stock (G := demo_status) (fun _ => "") (fun _ l => l) (fun _ l => l) (fun _ => 1000) (Some "dtm")
    (fun _ => ret tt) None None demo_pay (replicate 12 None ++ [Some "timeout"]) 2000 demo_world row)
    as (w2 & row' & rec & Hrun & Hr' & Es & _ & Hrec & Erec).
  - exact demo_oreach1.
  - exact demo_stock_reachable.
  - exact Hr.
  - by left.
  - change (lines_of (order_tables demo_world) row) with (lines_of demo_od1 row). rewrite Hl.
    repeat constructor; simpl; unfold_int; lia.
  - vm_compute. reflexivity.
  - vm_compute. discriminate.
  - reflexivity.
  - vm_compute. discriminate.
  - vm_compute. split; [reflexivity|discriminate].
  - exists w2, row', rec. split_and!; [exact Hrun|exact Hr'|exact Es|exact Hrec|exact Erec].
Defined.
