(* ===== verification/UserModel.v ===== *)
(** * User data: [app/user/srv/internal/data/v1] and its tables

    One module per table row, with the source's field names.  Accounts carry the
    deletion mark GORM filters on; times are nanoseconds since the epoch; a hash of
    a refresh token is the string of its bytes. *)
From S2P Require Import Prelude GoStrings Errors GoMonad Tables.

Module UserDO.
Record t := mk {
  ID : Z; DeletedAt : bool; IsDeleted : bool; Username : option string; Mobile : string;
  Email : option string; Password : string; NickName : string; Birthday : option Z; Gender : string;
  Role : Z; Status : string; MobileVerified : bool; EmailVerified : bool; LastLoginAt : option Z
}.
#[global] Instance eq_dec : EqDecision t.
Proof. solve_decision. Defined.
Definition set_LastLoginAt (v : option Z) (r : t) : t :=
  mk (ID r) (DeletedAt r) (IsDeleted r) (Username r) (Mobile r) (Email r) (Password r) (NickName r)
  (Birthday r) (Gender r) (Role r) (Status r) (MobileVerified r) (EmailVerified r) v.
Definition set_Status (v : string) (r : t) : t :=
  mk (ID r) (DeletedAt r) (IsDeleted r) (Username r) (Mobile r) (Email r) (Password r) (NickName r)
  (Birthday r) (Gender r) (Role r) v (MobileVerified r) (EmailVerified r) (LastLoginAt r).
Definition set_ID (v : Z) (r : t) : t :=
  mk v (DeletedAt r) (IsDeleted r) (Username r) (Mobile r) (Email r) (Password r) (NickName r) (Birthday r)
  (Gender r) (Role r) (Status r) (MobileVerified r) (EmailVerified r) (LastLoginAt r).
(** [Delete]: the three columns of a removal. *)
Definition deleted (status : string) (r : t) : t :=
  mk (ID r) true true (Username r) (Mobile r) (Email r) (Password r) (NickName r) (Birthday r) (Gender r)
  (Role r) status (MobileVerified r) (EmailVerified r) (LastLoginAt r).
(** [Update]: the profile, and the name when one is given. *)
Definition set_profile (name email : option string) (nick : string) (birthday : option Z) (gender : string) (r : t) : t :=
  mk (ID r) (DeletedAt r) (IsDeleted r) name (Mobile r) email (Password r) nick birthday gender (Role r)
  (Status r) (MobileVerified r) (EmailVerified r) (LastLoginAt r).
End UserDO.

Module UserSessionDO.
Record t := mk {
  ID : string; UserID : Z; PrincipalType : string; RefreshTokenHash : string; DeviceID : string;
  DeviceName : string; ClientIP : string; Location : string; CreatedAt : Z; LastUsedAt : Z;
  ExpiresAt : Z; RevokedAt : option Z
}.
#[global] Instance eq_dec : EqDecision t.
Proof. solve_decision. Defined.
Definition set_PrincipalType (v : string) (r : t) : t :=
  mk (ID r) (UserID r) v (RefreshTokenHash r) (DeviceID r) (DeviceName r) (ClientIP r) (Location r)
  (CreatedAt r) (LastUsedAt r) (ExpiresAt r) (RevokedAt r).
Definition revoke (at_ : Z) (r : t) : t :=
  mk (ID r) (UserID r) (PrincipalType r) (RefreshTokenHash r) (DeviceID r) (DeviceName r) (ClientIP r)
  (Location r) (CreatedAt r) (LastUsedAt r) (ExpiresAt r) (Some at_).
Definition rotate (next : string) (expires used : Z) (r : t) : t :=
  mk (ID r) (UserID r) (PrincipalType r) next (DeviceID r) (DeviceName r) (ClientIP r) (Location r)
  (CreatedAt r) used expires (RevokedAt r).
End UserSessionDO.

Module DeviceBlacklistDO.
Record t := mk {
  UserID : Z; DeviceID : string; CreatedAt : Z
}.
#[global] Instance eq_dec : EqDecision t.
Proof. solve_decision. Defined.
End DeviceBlacklistDO.

Module BreakGlassApprovalDO.
Record t := mk {
  ID : string; RequesterUserID : Z; ApproverUserID : Z; Status : string; Reason : string;
  RequestID : string; CreatedAt : Z; ApprovedAt : option Z; ExpiresAt : Z; UsedAt : option Z
}.
#[global] Instance eq_dec : EqDecision t.
Proof. solve_decision. Defined.
Definition approve (approver : Z) (request : string) (now : Z) (r : t) : t :=
  mk (ID r) (RequesterUserID r) approver "approved" (Reason r) request (CreatedAt r) (Some now) (ExpiresAt
  r) (UsedAt r).
Definition use (request : string) (now : Z) (r : t) : t :=
  mk (ID r) (RequesterUserID r) (ApproverUserID r) "used" (Reason r) request (CreatedAt r) (ApprovedAt r)
  (ExpiresAt r) (Some now).
End BreakGlassApprovalDO.

Module RoleDO.
Record t := mk {
  ID : Z; Name : string; Description : string
}.
#[global] Instance eq_dec : EqDecision t.
Proof. solve_decision. Defined.
Definition set_Description (v : string) (r : t) : t :=
  mk (ID r) (Name r) v.
End RoleDO.

Module UserRoleDO.
Record t := mk {
  ID : Z; UserID : Z; RoleID : Z
}.
#[global] Instance eq_dec : EqDecision t.
Proof. solve_decision. Defined.
End UserRoleDO.

Module RolePermissionDO.
Record t := mk {
  ID : Z; RoleID : Z; Permission : string
}.
#[global] Instance eq_dec : EqDecision t.
Proof. solve_decision. Defined.
End RolePermissionDO.

Module RoleDomainDO.
Record t := mk {
  ID : Z; RoleID : Z; Domain : string
}.
#[global] Instance eq_dec : EqDecision t.
Proof. solve_decision. Defined.
End RoleDomainDO.

Module UserResourceScopeDO.
Record t := mk {
  ID : Z; UserID : Z; Domain : string; StoreID : string; TeamID : string; ResourceType : string;
  ResourceID : string; CreatedAt : Z
}.
#[global] Instance eq_dec : EqDecision t.
Proof. solve_decision. Defined.
Definition set_ID (v : Z) (r : t) : t :=
  mk v (UserID r) (Domain r) (StoreID r) (TeamID r) (ResourceType r) (ResourceID r) (CreatedAt r).
End UserResourceScopeDO.

Module UserAuditLogDO.
Record t := mk {
  ID : Z; UserID : Z; ActorUserID : Z; ActorPrincipalType : string; Action : string;
  FromStatus : string; ToStatus : string; Detail : string; CreatedAt : Z
}.
#[global] Instance eq_dec : EqDecision t.
Proof. solve_decision. Defined.
End UserAuditLogDO.

Module AdminAuditLogDO.
Record t := mk {
  ID : Z; TargetUserID : Z; ActorUserID : Z; ActorPrincipalType : string; Action : string;
  Detail : string; CorrelationID : option string; RequestID : string; TargetType : string;
  TargetID : string; Domain : string; StoreID : string; TeamID : string; CreatedAt : Z
}.
#[global] Instance eq_dec : EqDecision t.
Proof. solve_decision. Defined.
End AdminAuditLogDO.

(** [accountdeletion.Requested], the payload of a deletion event; its JSON text is the
    record itself. *)
Module Requested.
Record t := mk { EventID : string; UserID : Z; RequestedAt : Z }.
#[global] Instance eq_dec : EqDecision t.
Proof. solve_decision. Defined.
End Requested.

Module AccountDeletionOutboxEventDO.
Record t := mk {
  ID : string; EventType : string; UserID : Z; Payload : Requested.t; Status : string; RetryCount : Z;
  AvailableAt : Z; LockedAt : option Z; PublishedAt : option Z; LastError : string; CreatedAt : Z;
  UpdatedAt : Z
}.
#[global] Instance eq_dec : EqDecision t.
Proof. solve_decision. Defined.
End AccountDeletionOutboxEventDO.

(** ** The database of the user service *)
Record user_db := MkUserDb {
  users : list UserDO.t;
  user_sessions : list UserSessionDO.t;
  user_device_blacklist : list DeviceBlacklistDO.t;
  break_glass_approvals : list BreakGlassApprovalDO.t;
  roles : list RoleDO.t;
  user_roles : list UserRoleDO.t;
  role_permissions : list RolePermissionDO.t;
  role_domains : list RoleDomainDO.t;
  user_resource_scopes : list UserResourceScopeDO.t;
  user_audit_logs : list UserAuditLogDO.t;
  admin_audit_logs : list AdminAuditLogDO.t;
  user_account_deletion_outbox : list AccountDeletionOutboxEventDO.t
}.

Definition t_user : table user_db UserDO.t := Table users (fun l d =>
  MkUserDb l (user_sessions d) (user_device_blacklist d) (break_glass_approvals d) (roles d) (user_roles d)
  (role_permissions d) (role_domains d) (user_resource_scopes d) (user_audit_logs d) (admin_audit_logs d)
  (user_account_deletion_outbox d)).
Definition t_sessions : table user_db UserSessionDO.t := Table user_sessions (fun l d =>
  MkUserDb (users d) l (user_device_blacklist d) (break_glass_approvals d) (roles d) (user_roles d)
  (role_permissions d) (role_domains d) (user_resource_scopes d) (user_audit_logs d) (admin_audit_logs d)
  (user_account_deletion_outbox d)).
Definition t_blacklist : table user_db DeviceBlacklistDO.t := Table user_device_blacklist (fun l d =>
  MkUserDb (users d) (user_sessions d) l (break_glass_approvals d) (roles d) (user_roles d)
  (role_permissions d) (role_domains d) (user_resource_scopes d) (user_audit_logs d) (admin_audit_logs d)
  (user_account_deletion_outbox d)).
Definition t_approvals : table user_db BreakGlassApprovalDO.t := Table break_glass_approvals (fun l d =>
  MkUserDb (users d) (user_sessions d) (user_device_blacklist d) l (roles d) (user_roles d)
  (role_permissions d) (role_domains d) (user_resource_scopes d) (user_audit_logs d) (admin_audit_logs d)
  (user_account_deletion_outbox d)).
Definition t_roles : table user_db RoleDO.t := Table roles (fun l d =>
  MkUserDb (users d) (user_sessions d) (user_device_blacklist d) (break_glass_approvals d) l (user_roles d)
  (role_permissions d) (role_domains d) (user_resource_scopes d) (user_audit_logs d) (admin_audit_logs d)
  (user_account_deletion_outbox d)).
Definition t_user_roles : table user_db UserRoleDO.t := Table user_roles (fun l d =>
  MkUserDb (users d) (user_sessions d) (user_device_blacklist d) (break_glass_approvals d) (roles d) l
  (role_permissions d) (role_domains d) (user_resource_scopes d) (user_audit_logs d) (admin_audit_logs d)
  (user_account_deletion_outbox d)).
Definition t_role_permissions : table user_db RolePermissionDO.t := Table role_permissions (fun l d =>
  MkUserDb (users d) (user_sessions d) (user_device_blacklist d) (break_glass_approvals d) (roles d)
  (user_roles d) l (role_domains d) (user_resource_scopes d) (user_audit_logs d) (admin_audit_logs d)
  (user_account_deletion_outbox d)).
Definition t_role_domains : table user_db RoleDomainDO.t := Table role_domains (fun l d =>
  MkUserDb (users d) (user_sessions d) (user_device_blacklist d) (break_glass_approvals d) (roles d)
  (user_roles d) (role_permissions d) l (user_resource_scopes d) (user_audit_logs d) (admin_audit_logs d)
  (user_account_deletion_outbox d)).
Definition t_scopes : table user_db UserResourceScopeDO.t := Table user_resource_scopes (fun l d =>
  MkUserDb (users d) (user_sessions d) (user_device_blacklist d) (break_glass_approvals d) (roles d)
  (user_roles d) (role_permissions d) (role_domains d) l (user_audit_logs d) (admin_audit_logs d)
  (user_account_deletion_outbox d)).
Definition t_audit : table user_db UserAuditLogDO.t := Table user_audit_logs (fun l d =>
  MkUserDb (users d) (user_sessions d) (user_device_blacklist d) (break_glass_approvals d) (roles d)
  (user_roles d) (role_permissions d) (role_domains d) (user_resource_scopes d) l (admin_audit_logs d)
  (user_account_deletion_outbox d)).
Definition t_admin_audit : table user_db AdminAuditLogDO.t := Table admin_audit_logs (fun l d =>
  MkUserDb (users d) (user_sessions d) (user_device_blacklist d) (break_glass_approvals d) (roles d)
  (user_roles d) (role_permissions d) (role_domains d) (user_resource_scopes d) (user_audit_logs d) l
  (user_account_deletion_outbox d)).
Definition t_deletion_outbox : table user_db AccountDeletionOutboxEventDO.t := Table user_account_deletion_outbox (fun l d =>
  MkUserDb (users d) (user_sessions d) (user_device_blacklist d) (break_glass_approvals d) (roles d)
  (user_roles d) (role_permissions d) (role_domains d) (user_resource_scopes d) (user_audit_logs d)
  (admin_audit_logs d) l).

Definition empty_user_db : user_db := MkUserDb [] [] [] [] [] [] [] [] [] [] [] [].

#[export] Instance t_user_lawful : LawfulTable t_user.
Proof. split; [done|by intros []]. Qed.
#[export] Instance t_sessions_lawful : LawfulTable t_sessions.
Proof. split; [done|by intros []]. Qed.
#[export] Instance t_blacklist_lawful : LawfulTable t_blacklist.
Proof. split; [done|by intros []]. Qed.
#[export] Instance t_approvals_lawful : LawfulTable t_approvals.
Proof. split; [done|by intros []]. Qed.
#[export] Instance t_roles_lawful : LawfulTable t_roles.
Proof. split; [done|by intros []]. Qed.
#[export] Instance t_user_roles_lawful : LawfulTable t_user_roles.
Proof. split; [done|by intros []]. Qed.
#[export] Instance t_role_permissions_lawful : LawfulTable t_role_permissions.
Proof. split; [done|by intros []]. Qed.
#[export] Instance t_role_domains_lawful : LawfulTable t_role_domains.
Proof. split; [done|by intros []]. Qed.
#[export] Instance t_scopes_lawful : LawfulTable t_scopes.
Proof. split; [done|by intros []]. Qed.
#[export] Instance t_audit_lawful : LawfulTable t_audit.
Proof. split; [done|by intros []]. Qed.
#[export] Instance t_admin_audit_lawful : LawfulTable t_admin_audit.
Proof. split; [done|by intros []]. Qed.
#[export] Instance t_deletion_outbox_lawful : LawfulTable t_deletion_outbox.
Proof. split; [done|by intros []]. Qed.
