(* ===== verification/AccountDeletion.v ===== *)
(** * The order service's review of account deletions

    [app/order/srv/internal/data/v1/db/account_deletion.go] and the same rule in
    [app/order/srv/internal/service/v1/account_deletion_review.go].  A request is
    decided once: the decision is recorded under the request's id together with the
    event that announces it.  The tables of the review sit beside the order tables,
    which it only reads. *)
From S2P Require Import Prelude GoStrings Errors GoMonad Tables OrderModel OrderService UserModel.
Open Scope go_scope.

Module AccountDeletionInboxDO.
Record t := mk { RequestID : string; UserID : Z; Decision : string; Reason : string; CreatedAt : Z }.
End AccountDeletionInboxDO.

(** [accountdeletion.Decision], the payload of the event; its JSON text is the record
    itself. *)
Module Decision.
Record t := mk {
  EventID : string; RequestID : string; UserID : Z; Confirmed : bool; Reason : string; DecidedAt : Z
}.
End Decision.

Module AccountDeletionOutboxDO.
Record t := mk {
  ID : string; RequestID : string; EventType : string; UserID : Z; Payload : Decision.t; Status : string;
  RetryCount : Z; AvailableAt : Z; LockedAt : option Z; PublishedAt : option Z; LastError : string; CreatedAt : Z; UpdatedAt : Z
}.
End AccountDeletionOutboxDO.

Record review_db := MkReviewDb {
  r_orders : order_db;
  inbox : list AccountDeletionInboxDO.t;
  outbox : list AccountDeletionOutboxDO.t
}.
Definition t_inbox : table review_db AccountDeletionInboxDO.t :=
  Table inbox (fun l d => MkReviewDb (r_orders d) l (outbox d)).
Definition t_review_outbox : table review_db AccountDeletionOutboxDO.t :=
  Table outbox (fun l d => MkReviewDb (r_orders d) (inbox d) l).

(** ** The rule *)
Module review.
Definition seqr (a b : string) : bool := bool_decide (a = b).
Definition blocked_reason : string := "存在未完成订单或退款，暂不能注销".
Definition order_final (status : string) : bool :=
  let s := ToUpper (TrimSpace status) in
  seqr s "TRADE_CLOSED" || seqr s "TRADE_FINISHED" || seqr s "REFUNDED" || seqr s "REFUND_FAILED".
Definition refund_final (status : string) : bool :=
  let s := ToUpper (TrimSpace status) in
  seqr s "REFUNDED" || seqr s "FAILED" || seqr s "CLOSED" || seqr s "CANCELLED".
Fixpoint all_final (final : string -> bool) (l : list string) : bool :=
  match l with
  | [] => true
  | status :: rest => if final status then all_final final rest else false
  end.
Definition accountDeletionCanProceed (orders refunds : list string) : bool * string :=
  if negb (all_final order_final orders) then (false, blocked_reason)
  else if negb (all_final refund_final refunds) then (false, blocked_reason)
  else (true, "").

(** The copy in the service, over its constants. *)
Definition service_order_final (status : string) : bool :=
  let s := ToUpper (TrimSpace status) in
  seqr s orderService.OrderStatusTradeClosed || seqr s orderService.OrderStatusTradeFinished ||
  seqr s orderService.OrderStatusRefunded || seqr s orderService.OrderStatusRefundFailed.
Definition AccountDeletionCanProceed (orderStatuses refundStatuses : list string) : bool * string :=
  if negb (all_final service_order_final orderStatuses) then (false, blocked_reason)
  else if negb (all_final refund_final refundStatuses) then (false, blocked_reason)
  else (true, "").

(** ** The review *)
Definition user_orders (userID : Z) (d : order_db) : list string :=
  OrderInfoDO.Status <$>
  List.filter (fun o => negb (OrderInfoDO.DeletedAt o) && (OrderInfoDO.User o =? userID)) (orderinfo d).
(** [JOIN orderinfo ON order_sn WHERE user = id]: one row per matching order, deleted
    ones included. *)
Definition user_refunds (userID : Z) (d : order_db) : list string :=
  r ← order_refund_requests d;
  (fun _ => RefundRequestDO.Status r) <$>
  List.filter (fun o => seqr (OrderInfoDO.OrderSn o) (RefundRequestDO.OrderSN r) && (OrderInfoDO.User o =? userID))
    (orderinfo d).

Definition SubjectConfirmed : string := "goshop.account.deletion.confirmed".
Definition SubjectRejected : string := "goshop.account.deletion.rejected".
Definition ErrInvalidData : goerr := Errorf "unsupported data" [] None.

Definition recorded_decision (i : AccountDeletionInboxDO.t) : Decision.t :=
  Decision.mk "" (AccountDeletionInboxDO.RequestID i) (wrapu64 (AccountDeletionInboxDO.UserID i))
    (seqr (AccountDeletionInboxDO.Decision i) "CONFIRMED") (AccountDeletionInboxDO.Reason i)
    (AccountDeletionInboxDO.CreatedAt i).
Definition request_is (id : string) (i : AccountDeletionInboxDO.t) : bool := seqr (AccountDeletionInboxDO.RequestID i) id.
Definition outbox_clash (id request : string) (d : review_db) : bool :=
  existsb (fun o => seqr (AccountDeletionOutboxDO.ID o) id || seqr (AccountDeletionOutboxDO.RequestID o) request) (outbox d).

Definition ReviewAccountDeletion (uuid : string) (now : Z) (request : Requested.t) : M review_db Decision.t :=
  let id := Requested.EventID request in
  let user := Requested.UserID request in
  fail_if (seqr (TrimSpace id) "" || (user =? 0)) ErrInvalidData ;;;
  transaction (
    first_or (select_first t_inbox (request_is id))
      (orders <- query (fun d => user_orders user (r_orders d)) ;;
       refunds <- query (fun d => user_refunds user (r_orders d)) ;;
       let '(confirmed, reason) := accountDeletionCanProceed orders refunds in
       let value := if confirmed then "CONFIRMED" else "REJECTED" in
       let subject := if (confirmed : bool) then SubjectConfirmed else SubjectRejected in
       insert_new t_inbox (fun d => existsb (request_is id) (inbox d))
         (AccountDeletionInboxDO.mk id (wrap32 user) value reason now) ;;;
       let decision := Decision.mk uuid id user confirmed reason now in
       insert_new t_review_outbox (outbox_clash uuid id)
         (AccountDeletionOutboxDO.mk uuid id subject (wrap32 user) decision "PENDING" 0 now None None "" now now) ;;;
       ret decision)
      (fun i => ret (recorded_decision i))).
End review.
Import review.

(** ** Decided once *)

Lemma all_final_forallb final l : all_final final l = forallb final l.
Proof. induction l as [|x l IH]; [done|]. simpl. by destruct (final x). Qed.

(** The rule, and its copy in the service. *)
Lemma accountDeletionCanProceed_spec orders refunds :
  (accountDeletionCanProceed orders refunds).1 = forallb order_final orders && forallb refund_final refunds /\
  AccountDeletionCanProceed orders refunds = accountDeletionCanProceed orders refunds.
Proof.
  unfold accountDeletionCanProceed, AccountDeletionCanProceed. rewrite !all_final_forallb.
  change service_order_final with order_final. split; [|done].
  destruct (forallb order_final orders), (forallb refund_final refunds); done.
Qed.

Definition may_proceed (userID : Z) (d : order_db) : bool :=
  forallb order_final (user_orders userID d) && forallb refund_final (user_refunds userID d).

(** What a review that returns did: it read the recorded decision, or recorded one
    with its event. *)
Inductive reviewed (uuid : string) (now : Z) (req : Requested.t) (d d' : review_db) (dec : Decision.t) : Prop :=
  | review_old i : find (request_is (Requested.EventID req)) (inbox d) = Some i ->
      dec = recorded_decision i -> d' = d -> reviewed uuid now req d d' dec
  | review_new value subject : find (request_is (Requested.EventID req)) (inbox d) = None ->
      Decision.Confirmed dec = may_proceed (Requested.UserID req) (r_orders d) ->
      value = (if Decision.Confirmed dec then "CONFIRMED" else "REJECTED") ->
      dec = Decision.mk uuid (Requested.EventID req) (Requested.UserID req) (Decision.Confirmed dec) (Decision.Reason dec) now ->
      d' = MkReviewDb (r_orders d)
        (inbox d ++ [AccountDeletionInboxDO.mk (Requested.EventID req) (wrap32 (Requested.UserID req)) value
           (Decision.Reason dec) now])
        (outbox d ++ [AccountDeletionOutboxDO.mk uuid (Requested.EventID req) subject (wrap32 (Requested.UserID req)) dec
           "PENDING" 0 now None None "" now now]) ->
      reviewed uuid now req d d' dec.

Lemma Review_Ret uuid now req s dec s' :
  ReviewAccountDeletion uuid now req s = (Ret dec, s') -> reviewed uuid now req (e_db s) (e_db s') dec.
Proof.
  unfold ReviewAccountDeletion. cbv zeta. intros H. apply bind_Ret in H as (? & ? & [_ ->]%fail_if_Ret & H).
  apply transaction_Ret in H as (s0 & s1 & <- & H & ->). unfold first_or in H.
  apply bind_Ret in H as (o & s2 & [Ho E2]%select_first_Ret & H). symmetry in Ho. cbn in Ho. destruct o as [i|].
  { unfold ret in H. injection H as <- <-. by eapply review_old. }
  apply bind_Ret in H as (os & s3 & [-> E3]%query_Ret & H). apply bind_Ret in H as (rs & s4 & [-> E4]%query_Ret & H).
  rewrite E3, E2 in H, E4.
  destruct (accountDeletionCanProceed _ _) as [ok reason] eqn:Ep.
  pose proof (proj1 (accountDeletionCanProceed_spec (user_orders (Requested.UserID req) (r_orders (e_db s0)))
    (user_refunds (Requested.UserID req) (r_orders (e_db s0))))) as Hok. rewrite Ep in Hok. cbn [fst] in Hok.
  apply bind_Ret in H as (? & s5 & [_ E5]%insert_new_Ret & H). apply bind_Ret in H as (? & s6 & [_ E6]%insert_new_Ret & H).
  unfold ret in H. injection H as <- <-.
  rewrite E6, E5, E4. eapply review_new; cbn; eauto.
Qed.

(** A review of the orders as they are by then, with its faults. *)
Definition rstep (d : review_db) (e : order_db * (string * Z * Requested.t) * list (option string)) : review_db :=
  let '(orders, (uuid, now, req), f) := e in
  e_db (ReviewAccountDeletion uuid now req (Env (MkReviewDb orders (inbox d) (outbox d)) f)).2.
Definition run_reviews (l : list (order_db * (string * Z * Requested.t) * list (option string))) (d : review_db) : review_db :=
  fold_left rstep l d.

Lemma atomic_Review uuid now req : atomic (ReviewAccountDeletion uuid now req).
Proof. apply atomic_bind; [apply steps_fail_if; exact _|intros []]. apply atomic_transaction. Qed.

(** One announcement for each decision. *)
Definition announced (d : review_db) : Prop :=
  AccountDeletionOutboxDO.RequestID <$> outbox d = AccountDeletionInboxDO.RequestID <$> inbox d /\
  NoDup (AccountDeletionInboxDO.RequestID <$> inbox d).

Lemma find_none_id id l : find (request_is id) l = None -> id ∉ AccountDeletionInboxDO.RequestID <$> l.
Proof.
  intros H (i & -> & Hi)%list_elem_of_fmap. apply list_elem_of_In in Hi. pose proof (find_none _ _ H i Hi) as E.
  by apply bool_decide_eq_false in E.
Qed.

Lemma reviewed_keeps uuid now req d d' dec :
  reviewed uuid now req d d' dec ->
  (announced d -> announced d') /\
  (forall id i, find (request_is id) (inbox d) = Some i -> find (request_is id) (inbox d') = Some i).
Proof.
  intros [i _ _ ->|value subject Hn _ _ _ ->]; [done|]. split.
  - intros [E1 E2]. split; cbn; rewrite !fmap_app; [by rewrite E1|]. apply NoDup_snoc; [done|]. by apply find_none_id.
  - intros id i Hi. cbn. clear -Hi. induction (inbox d) as [|x l IH]; [done|]. simpl in *. by destruct (request_is id x); [|apply IH].
Qed.

Lemma run_reviews_keeps l d :
  (announced d -> announced (run_reviews l d)) /\
  (forall id i, find (request_is id) (inbox d) = Some i -> find (request_is id) (inbox (run_reviews l d)) = Some i).
Proof.
  revert d. induction l as [|[[orders [[uuid now] req]] f] l IH]; intros d; [done|]. unfold run_reviews. cbn [fold_left].
  fold (run_reviews l (rstep d (orders, (uuid, now, req), f))). destruct (IH (rstep d (orders, (uuid, now, req), f))) as [I1 I2].
  unfold rstep in *. set (s0 := Env (MkReviewDb orders (inbox d) (outbox d)) f) in *.
  pose proof (atomic_Review uuid now req s0) as Ha.
  destruct (ReviewAccountDeletion uuid now req s0) as [r s'] eqn:E. cbn [fst snd] in *. destruct r as [dec|e|m].
  - apply Review_Ret, reviewed_keeps in E as [K1 K2]. split; [intros H; by apply I1, K1|intros id i H; by apply I2, K2].
  - rewrite (Ha eq_refl) in *. split; [intros H; by apply I1|intros id i H; by apply I2].
  - rewrite (Ha eq_refl) in *. split; [intros H; by apply I1|intros id i H; by apply I2].
Qed.

(** What a decision says. *)
Definition verdict (dec : Decision.t) : string * bool * string * Z :=
  (Decision.RequestID dec, Decision.Confirmed dec, Decision.Reason dec, Decision.DecidedAt dec).

Lemma reviewed_recorded uuid now req d d' dec :
  reviewed uuid now req d d' dec ->
  exists i, find (request_is (Requested.EventID req)) (inbox d') = Some i /\ verdict (recorded_decision i) = verdict dec.
Proof.
  intros [i Hi -> ->|value subject Hn _ -> Hd ->]; [by exists i|]. rewrite Hd.
  eexists (AccountDeletionInboxDO.mk _ _ _ _ _). split.
  - cbn. pose proof (find_none_id _ _ Hn) as Hf. clear Hn. induction (inbox d) as [|x l IH]; cbn.
    + unfold request_is, seqr. cbn. by rewrite bool_decide_eq_true_2.
    + unfold request_is at 1, seqr. rewrite bool_decide_eq_false_2; [apply IH|]; set_solver.
  - unfold verdict, recorded_decision. cbn. by destruct (Decision.Confirmed dec).
Qed.

(** A deletion request is decided once and on what the orders were: a first
    review confirms exactly when every order and every refund of the user is final;
    however the orders change and whatever reviews follow, with whatever faults, a
    further delivery of the request gets the same decision and writes nothing, does
    get it when nothing fails, and each decision is announced by one event. *)
Theorem deletion_decided_once uuid now req d f dec s1 later uuid' now' req' :
  announced d -> ReviewAccountDeletion uuid now req (Env d f) = (Ret dec, s1) ->
  Requested.EventID req' = Requested.EventID req -> Requested.UserID req' <> 0 ->
  let d' := run_reviews later (e_db s1) in
  (find (request_is (Requested.EventID req)) (inbox d) = None ->
   Decision.Confirmed dec = may_proceed (Requested.UserID req) (r_orders d)) /\
  (forall f' dec' s2, ReviewAccountDeletion uuid' now' req' (Env d' f') = (Ret dec', s2) ->
     verdict dec' = verdict dec /\ e_db s2 = d') /\
  is_ret (ReviewAccountDeletion uuid' now' req' (Env d' [])).1 = true /\
  announced d'.
Proof.
  intros Hann H Hid Hu d'. assert (TrimSpace (Requested.EventID req) <> "") as Hne.
  { unfold ReviewAccountDeletion in H. cbv zeta in H. apply bind_Ret in H as (? & ? & [Hb _]%fail_if_Ret & _).
    apply orb_false_iff in Hb as [Hb _]. by apply bool_decide_eq_false in Hb. }
  apply Review_Ret in H. cbn [e_db] in H. destruct (reviewed_recorded _ _ _ _ _ _ H) as (i & Hi & Hv).
  destruct (run_reviews_keeps later (e_db s1)) as [K1 K2]. apply K2 in Hi. fold d' in Hi, K1.
  split_and!.
  - intros Hn. by destruct H as [i' Hi' _ _|value subject _ E _ _ _]; [congruence|].
  - intros f' dec' s2 H2%Review_Ret. cbn [e_db] in H2.
    destruct H2 as [i' Hi' -> E|value subject Hn _ _ _ _]; rewrite Hid in *; [|congruence].
    assert (i' = i) as -> by congruence. done.
  - unfold ReviewAccountDeletion. cbv zeta. rewrite Hid. erewrite bind_run; [|apply fail_if_run, orb_false_iff].
    2: { split; [by apply bool_decide_eq_false|by apply Z.eqb_neq]. }
    erewrite transaction_run; [done|]. unfold first_or. erewrite bind_run; [|apply query_run]. cbn. by rewrite Hi.
  - by apply K1, (reviewed_keeps _ _ _ _ _ _ H).
Qed.

Definition demo_review : review_db := MkReviewDb empty_order_db [] [].
Definition demo_request : Requested.t := Requested.mk "del-1" 7 100.
(** The user orders again after the deletion was confirmed. *)
Definition later_orders : order_db :=
  MkOrderDb [OrderInfoDO.mk 1 150 false [] 7 "S9" "" "WAIT_BUYER_PAY" "" 100 "st" None "" "" "" ""] [] [] [] [] [] [] [] [].

Definition demo_reviewed : env review_db := (ReviewAccountDeletion "e-1" 120 demo_request (Env demo_review [])).2.
Definition demo_reviews : review_db :=
  run_reviews [(later_orders, ("e-2", 200, demo_request), [])] (e_db demo_reviewed).

Lemma deletion_decided_once_witness :
  announced demo_reviews /\ is_ret (ReviewAccountDeletion "e-3" 300 demo_request (Env demo_reviews [])).1 = true.
Proof.
  destruct (deletion_decided_once "e-1" 120 demo_request demo_review [] (Decision.mk "e-1" "del-1" 7 true "" 120)
    demo_reviewed [(later_orders, ("e-2", 200, demo_request), [])] "e-3" 300 demo_request) as (_ & _ & H1 & H2);
    [split; [done|constructor]|reflexivity|done|done|done].
Defined.
