(* ===== verification/UserStore.v ===== *)
(** * The user store: [app/user/srv/internal/data/v1/db/user.go]

    Accounts, staff roles, resource scopes, audit logs and the request to delete an
    account.  Sets a Go map collects (the domains, stores and teams of a user) are
    [gset]s; [uuid.NewString()] and the time are arguments. *)
From S2P Require Import Prelude GoStrings Errors GoMonad Authz Tables UserModel.
Open Scope go_scope.

(** The error every store method wraps a driver error in. *)
Definition user_dberr {A} (m : M user_db A) : M user_db A :=
  wrap_err (fun e => WrapDatabase e "user database operation") m.
(** [tx := Begin(); ..; tx.Commit()] with a rollback on every error; a panic goes on
    after the rollback. *)
Definition user_txn {A} (body : M user_db A) : M user_db A :=
  manual_txn (fun e => WrapDatabase e "user database operation")
    (fun e => WrapDatabase e "user database operation") fail (fun _ => None) body.

Record AuditActor := MkAuditActor { ActorID : Z; ActorType : string }.

Record UserAuthDO := MkUserAuthDO {
  AuthUser : UserDO.t; StaffRoles : list string; AuthPermissions : list string;
  ResourceDomains : gset string; ResourceStores : gset string; ResourceTeams : gset string;
  ResourceScopes : list UserResourceScopeDO.t
}.

(** A role with the fields that are not columns. *)
Record RoleInfo := MkRoleInfo {
  RoleRow : RoleDO.t; RolePermissions : list string; RoleDomains : list string; Builtin : bool
}.

Module users.
Import UserDO.

Definition not_found : goerr := newCode ErrUserNotFound "user not found".
Definition no_record : goerr := newCode ErrUserNotFound "record not found".
Definition alive (u : t) : bool := negb (DeletedAt u).
Definition by_id (id : Z) (u : t) : bool := alive u && (ID u =? id).

(** ** Lookups *)
Definition first_user (p : t -> bool) : M user_db t :=
  first_or (user_dberr (select_first t_user p)) (fail no_record) ret.
Definition GetByMobile (mobile : string) : M user_db t :=
  let mobile := TrimSpace mobile in
  fail_if (seqb mobile "") not_found ;;;
  first_user (fun u => alive u && seqb (Mobile u) mobile).
Definition opt_is (o : option string) (s : string) : bool := match o with Some v => seqb v s | None => false end.
Definition GetByUsername (username : string) : M user_db t :=
  let username := TrimSpace username in
  fail_if (seqb username "") not_found ;;;
  first_user (fun u => alive u &&
    (opt_is (Username u) username || seqb (Mobile u) username || opt_is (Email u) username)).
Definition GetByID (id : Z) : M user_db t :=
  fail_if (id =? 0) not_found ;;; first_user (by_id id).

(** ** Roles and permissions of a user *)

(** [JOIN user_roles ON role_id WHERE user_id = id]. *)
Definition bound_roles (userID : Z) (d : user_db) : list RoleDO.t :=
  List.filter (fun r => existsb (fun b => (UserRoleDO.RoleID b =? RoleDO.ID r) && (UserRoleDO.UserID b =? userID))
    (user_roles d)) (roles d).
Definition invalid_user (userID : Z) : goerr := Errorf "invalid user id %d" [itoa userID] None.
Definition listStaffRoles (userID : Z) : M user_db (list string) :=
  fail_if (userID <=? 0) (invalid_user userID) ;;;
  user_dberr (query (fun d => sorted_elements (list_to_set (RoleDO.Name <$> bound_roles userID d)))).
Definition listPermissions (userID : Z) : M user_db (list string) :=
  fail_if (userID <=? 0) (invalid_user userID) ;;;
  user_dberr (query (fun d => sorted_elements (list_to_set (RolePermissionDO.Permission <$>
    List.filter (fun p => existsb (fun r => RoleDO.ID r =? RolePermissionDO.RoleID p) (bound_roles userID d))
      (role_permissions d))))).
Definition sort_strings (l : list string) : list string := merge_sort (fun a b => Is_true (String.leb a b)) l.
Definition role_missing : goerr := newCode ErrValidation "staff role not found".
Definition listRolePermissions (roleID : Z) : M user_db (list string) :=
  fail_if (roleID =? 0) role_missing ;;;
  user_dberr (query (fun d => sort_strings (RolePermissionDO.Permission <$>
    List.filter (fun p => RolePermissionDO.RoleID p =? roleID) (role_permissions d)))).
Definition listRoleDomains (roleID : Z) : M user_db (list string) :=
  fail_if (roleID =? 0) role_missing ;;;
  user_dberr (query (fun d => sort_strings (RoleDomainDO.Domain <$>
    List.filter (fun p => RoleDomainDO.RoleID p =? roleID) (role_domains d)))).

Definition nonempty (l : list string) : gset string := list_to_set (List.filter (fun v => negb (seqb v "")) l).
Definition buildAuthUser (user : t) : M user_db UserAuthDO :=
  roles <- listStaffRoles (ID user) ;;
  permissions <- listPermissions (ID user) ;;
  scopes <- user_dberr (select_where t_scopes (fun s => UserResourceScopeDO.UserID s =? ID user)) ;;
  ret (MkUserAuthDO user roles permissions (nonempty (UserResourceScopeDO.Domain <$> scopes))
    (nonempty (UserResourceScopeDO.StoreID <$> scopes)) (nonempty (UserResourceScopeDO.TeamID <$> scopes)) scopes).

Definition GetAuthByUsername (username : string) : M user_db UserAuthDO :=
  user <- GetByUsername username ;; buildAuthUser user.
Definition GetAuthByID (id : Z) : M user_db UserAuthDO :=
  user <- GetByID id ;; buildAuthUser user.

(** ** Staff roles *)

(** [ORDER BY name]. *)
Definition by_name : list RoleDO.t -> list RoleDO.t :=
  merge_sort (fun a b => Is_true (String.leb (RoleDO.Name a) (RoleDO.Name b))).
Definition role_info (role : RoleDO.t) : M user_db RoleInfo :=
  permissions <- listRolePermissions (RoleDO.ID role) ;;
  domains <- listRoleDomains (RoleDO.ID role) ;;
  ret (match role_definition (RoleDO.Name role) with
       | Some definition =>
         MkRoleInfo role permissions (if bool_decide (domains = []) then Domains definition else domains) true
       | None => MkRoleInfo role permissions domains false
       end).
Definition ListRoles : M user_db (list RoleInfo) :=
  found <- user_dberr (query (fun d => by_name (roles d))) ;; map_each found role_info.

Definition replaceRolePermissionsTx (roleID : Z) (permissions : list string) : M user_db unit :=
  user_dberr (delete_where t_role_permissions (fun p => RolePermissionDO.RoleID p =? roleID)) ;;;
  for_each permissions (fun permission =>
    user_dberr (insert_row t_role_permissions RolePermissionDO.ID
      (fun p => (RolePermissionDO.RoleID p =? roleID) && seqb (RolePermissionDO.Permission p) permission)
      (fun id => RolePermissionDO.mk id roleID permission)) ;;; ret tt).
Definition replaceRoleDomainsTx (roleID : Z) (domains : list string) : M user_db unit :=
  user_dberr (delete_where t_role_domains (fun p => RoleDomainDO.RoleID p =? roleID)) ;;;
  for_each domains (fun domain =>
    user_dberr (insert_row t_role_domains RoleDomainDO.ID
      (fun p => (RoleDomainDO.RoleID p =? roleID) && seqb (RoleDomainDO.Domain p) domain)
      (fun id => RoleDomainDO.mk id roleID domain)) ;;; ret tt).

Definition role_name_required : goerr := newCode ErrValidation "staff role name is required".
Definition CreateRole (roleName description : string) (permissions domains : list string) : M user_db RoleInfo :=
  let roleName := ToLower (TrimSpace roleName) in
  fail_if (seqb roleName "") role_name_required ;;;
  user_txn (
    id <- user_dberr (insert_row t_roles RoleDO.ID (fun r => seqb (RoleDO.Name r) roleName)
            (fun id => RoleDO.mk id roleName description)) ;;
    replaceRolePermissionsTx id permissions ;;;
    replaceRoleDomainsTx id domains ;;;
    ret (MkRoleInfo (RoleDO.mk id roleName description) permissions domains false)).

Definition find_role (roleName : string) : M user_db RoleDO.t :=
  first_or (user_dberr (select_first t_roles (fun r => seqb (RoleDO.Name r) roleName)))
    (fail (newCode ErrUserNotFound "staff role not found")) ret.
Definition UpdateRole (roleName description : string) (permissions domains : list string) : M user_db RoleInfo :=
  let roleName := ToLower (TrimSpace roleName) in
  fail_if (seqb roleName "") role_name_required ;;;
  role <- find_role roleName ;;
  user_txn (
    user_dberr (update_where t_roles (fun r => RoleDO.ID r =? RoleDO.ID role) (RoleDO.set_Description description)) ;;;
    replaceRolePermissionsTx (RoleDO.ID role) permissions ;;;
    replaceRoleDomainsTx (RoleDO.ID role) domains) ;;;
  ret (MkRoleInfo (RoleDO.set_Description description role) permissions domains (IsValidStaffRole (RoleDO.Name role))).

Definition DeleteRole (roleName : string) : M user_db unit :=
  let roleName := ToLower (TrimSpace roleName) in
  fail_if (seqb roleName "") role_name_required ;;;
  fail_if (IsValidStaffRole roleName) (newCode ErrValidation "built-in staff roles cannot be deleted") ;;;
  role <- find_role roleName ;;
  let rid := RoleDO.ID role in
  bindingCount <- user_dberr (count_where t_user_roles (fun b => UserRoleDO.RoleID b =? rid)) ;;
  fail_if (0 <? bindingCount) (newCode ErrValidation "staff role is still assigned") ;;;
  user_txn (
    user_dberr (delete_where t_role_permissions (fun p => RolePermissionDO.RoleID p =? rid)) ;;;
    user_dberr (delete_where t_role_domains (fun p => RoleDomainDO.RoleID p =? rid)) ;;;
    user_dberr (delete_where t_roles (fun r => RoleDO.ID r =? rid)) ;;;
    ret tt).

(** ** Audit logs *)
Definition actorUserID (actor : option AuditActor) : Z := match actor with Some a => ActorID a | None => 0 end.
Definition actorPrincipalType (actor : option AuditActor) : string :=
  match actor with Some a => TrimSpace (ActorType a) | None => "" end.
Definition buildRolesAuditDetail (previousRoles nextRoles : list string) : string :=
  "roles:" +:+ Join previousRoles ","%char +:+ "->" +:+ Join nextRoles ","%char.

(** The row without its id, and the time the database stamps on it. *)
Definition audit_entry (user : Z) (actor : Z) (principal action from to detail : string) (now id : Z)
    : UserAuditLogDO.t :=
  UserAuditLogDO.mk id user actor
    (if seqb (TrimSpace principal) "" then PrincipalInternalService else principal) action from to detail now.
Definition appendAuditLogTx (user actor : Z) (principal action from to detail : string) (now : Z) : M user_db unit :=
  if user <=? 0 then ret tt
  else user_dberr (insert_row t_audit UserAuditLogDO.ID (fun _ => false)
         (audit_entry user actor principal action from to detail now)) ;;; ret tt.

(** ** Role bindings *)
Definition keep_role (acc : list string * gset string) (roleName : string) : list string * gset string :=
  let value := ToLower (TrimSpace roleName) in
  if seqb value "" || bool_decide (value ∈ acc.2) then acc else (acc.1 ++ [value], {[value]} ∪ acc.2).
Definition normalizeRoleNames (roleNames : list string) : list string :=
  sort_strings (fold_left keep_role roleNames ([], ∅)).1.

Definition unknown_roles : goerr := newCode ErrValidation "staff roles contain unknown values".
Definition loadRoles (normalizedRoles : list string) : M user_db (list RoleDO.t) :=
  match normalizedRoles with
  | [] => ret []
  | _ =>
    found <- user_dberr (query (fun d =>
      by_name (List.filter (fun r => bool_decide (RoleDO.Name r ∈ normalizedRoles)) (roles d)))) ;;
    fail_if (negb (bool_decide (length found = length normalizedRoles))) unknown_roles ;;;
    fail_if (negb (bool_decide (sort_strings (RoleDO.Name <$> found) = normalizedRoles))) unknown_roles ;;;
    ret found
  end.
Definition replaceUserRolesTx (userID : Z) (found : list RoleDO.t) : M user_db unit :=
  user_dberr (delete_where t_user_roles (fun b => UserRoleDO.UserID b =? userID)) ;;;
  for_each found (fun role =>
    user_dberr (insert_row t_user_roles UserRoleDO.ID
      (fun b => (UserRoleDO.UserID b =? userID) && (UserRoleDO.RoleID b =? RoleDO.ID role))
      (fun id => UserRoleDO.mk id userID (RoleDO.ID role))) ;;; ret tt).

Definition ReplaceUserRoles (now userID : Z) (roleNames : list string) (actor : option AuditActor)
    : M user_db UserAuthDO :=
  user <- GetByID userID ;;
  previousRoles <- listStaffRoles (ID user) ;;
  let normalizedRoles := normalizeRoleNames roleNames in
  user_txn (
    found <- loadRoles normalizedRoles ;;
    replaceUserRolesTx (ID user) found ;;;
    if bool_decide (previousRoles = normalizedRoles) then ret tt
    else appendAuditLogTx (ID user) (actorUserID actor) (actorPrincipalType actor) "staff_user_roles_replaced"
           "" "" (buildRolesAuditDetail previousRoles normalizedRoles) now) ;;;
  buildAuthUser user.

(** ** Accounts *)

(** The columns with a default value that GORM fills in. *)
Definition with_defaults (u : t) : t :=
  mk (ID u) (DeletedAt u) (IsDeleted u) (Username u) (Mobile u) (Email u) (Password u) (NickName u) (Birthday u)
    (if seqb (Gender u) "" then "unknown" else Gender u) (if Role u =? 0 then 1 else Role u)
    (if seqb (Status u) "" then AccountStatusActive else Status u)
    (MobileVerified u) (EmailVerified u) (LastLoginAt u).
(** The unique keys on the name, the mobile number and the email address, deleted
    accounts included. *)
Definition same_opt (a b : option string) : bool := match a, b with Some x, Some y => seqb x y | _, _ => false end.
Definition user_conflict (u r : t) : bool :=
  same_opt (Username u) (Username r) || seqb (Mobile u) (Mobile r) || same_opt (Email u) (Email r).
(** The columns' widths are in characters: bytes that do not continue one. *)
Definition characters (s : string) : Z :=
  Z.of_nat (length (List.filter (fun c => negb (N.div (N_of_ascii c) 64 =? 2)%N) (explode s))).
Definition oversize (u : t) : bool :=
  match Username u with Some n => 32 <? characters n | None => false end || (11 <? characters (Mobile u)) ||
  match Email u with Some m => 100 <? characters m | None => false end || (100 <? characters (Password u)) ||
  (20 <? characters (NickName u)) || (7 <? characters (Gender u)) || (16 <? characters (Status u)).
(** A statement that puts a value into a column too narrow for it fails. *)
Definition within_columns {A} (long : bool) (m : M user_db A) : M user_db A :=
  if long then stmt (fun d => (Fail (Driver "Data too long for column"), d)) else m.
Definition insert_user (user : t) : M user_db t :=
  let user := with_defaults user in
  id <- user_dberr (within_columns (oversize user)
          (insert_row t_user ID (user_conflict user) (fun id => set_ID id user))) ;;
  ret (set_ID id user).
Definition user_required : goerr := newCode ErrValidation "user is required".
Definition Create (user : option t) : M user_db t :=
  match user with None => fail user_required | Some user => insert_user user end.
Definition CreateStaff (now : Z) (user : option t) (roleNames : list string) (actor : option AuditActor)
    : M user_db UserAuthDO :=
  match user with
  | None => fail user_required
  | Some user =>
    let normalizedRoles := normalizeRoleNames roleNames in
    fail_if (bool_decide (normalizedRoles = [])) (newCode ErrValidation "staff roles are required") ;;;
    user <- user_txn (
      found <- loadRoles normalizedRoles ;;
      user <- insert_user user ;;
      replaceUserRolesTx (ID user) found ;;;
      appendAuditLogTx (ID user) (actorUserID actor) (actorPrincipalType actor) "staff_user_created"
        "" (Status user) (buildRolesAuditDetail [] normalizedRoles) now ;;;
      ret user) ;;
    buildAuthUser user
  end.

(** The profile columns; a conflict with the name or the email of another account is
    an error of the statement. *)
Definition profile (user r : t) : t :=
  set_profile (match Username user with Some n => Some n | None => Username r end) (Email user) (NickName user)
    (Birthday user) (Gender user) r.
Definition profile_conflict (user : t) (d : user_db) : bool :=
  existsb (by_id (ID user)) (users d) &&
  existsb (fun r => negb (ID r =? ID user) &&
    (same_opt (Username user) (Username r) || same_opt (Email user) (Email r))) (users d).
Definition profile_refused (user : t) (d : user_db) : bool :=
  profile_conflict user d ||
  existsb (fun r => by_id (ID user) r && oversize (profile user r)) (users d).
Definition Update (user : option t) : M user_db unit :=
  match user with
  | None => fail not_found
  | Some user =>
    fail_if (ID user <=? 0) not_found ;;;
    affected <- user_dberr (update_checked t_user (profile_refused user) (by_id (ID user)) (profile user)) ;;
    fail_if (affected =? 0) not_found
  end.

Definition UpdateStatus (now id : Z) (status : string) (actor : option AuditActor) : M user_db unit :=
  fail_if (id =? 0) not_found ;;;
  user <- GetByID id ;;
  let previousStatus := Status user in
  if seqb previousStatus status then ret tt
  else
    user_txn (
      affected <- user_dberr (update_where t_user (by_id id) (set_Status status)) ;;
      fail_if (affected =? 0) not_found ;;;
      appendAuditLogTx (ID user) (actorUserID actor) (actorPrincipalType actor) "staff_user_status_updated"
        previousStatus status "" now).

Definition Delete (id : Z) : M user_db unit :=
  fail_if (id =? 0) not_found ;;;
  affected <- user_dberr (update_where t_user (by_id id) (deleted AccountStatusDeleted)) ;;
  fail_if (affected =? 0) not_found.

Definition live_session (userID : Z) (s : UserSessionDO.t) : bool :=
  (UserSessionDO.UserID s =? userID) && bool_decide (UserSessionDO.RevokedAt s = None).
Definition SubjectRequested : string := "goshop.account.deletion.requested".
(** [err] of the transaction: a missing row, an account that is not active, and
    anything else. *)
Definition deletion_error (err : goerr) : goerr :=
  if any_node (fun e => match e with Errorf m _ _ => seqb m "record not found" | _ => false end) err then not_found
  else if IsCode err ErrUserAccountInactive then err
  else WrapDatabase err "user database operation".
Definition RequestAccountDeletion (eventID : string) (id at_ : Z) : M user_db unit :=
  fail_if (id =? 0) not_found ;;;
  wrap_err deletion_error (transaction (
    user <- first_or_fail (select_first t_user (by_id id)) ;;
    if seqb (Status user) AccountStatusDeletionPending then ret tt
    else
      fail_if (negb (seqb (NormalizeAccountStatus (Status user)) AccountStatusActive))
        (newCode ErrUserAccountInactive "account is not active") ;;;
      update_where t_user (by_id id) (set_Status AccountStatusDeletionPending) ;;;
      update_where t_sessions (live_session id) (UserSessionDO.revoke at_) ;;;
      insert_new t_deletion_outbox
        (fun d => existsb (fun e => seqb (AccountDeletionOutboxEventDO.ID e) eventID) (user_account_deletion_outbox d))
        (AccountDeletionOutboxEventDO.mk eventID SubjectRequested (ID user) (Requested.mk eventID id at_) "PENDING"
           0 at_ None None "" at_ at_) ;;;
      appendAuditLogTx (ID user) (ID user) PrincipalCustomer "account_deletion_requested" (Status user)
        AccountStatusDeletionPending "" at_)).

Definition scope_key (s : UserResourceScopeDO.t) : Z * list string :=
  (UserResourceScopeDO.UserID s, [UserResourceScopeDO.Domain s; UserResourceScopeDO.StoreID s;
    UserResourceScopeDO.TeamID s; UserResourceScopeDO.ResourceType s; UserResourceScopeDO.ResourceID s]).
Definition scopes_conflict (scopes : list UserResourceScopeDO.t) (d : user_db) : bool :=
  negb (bool_decide (NoDup (scope_key <$> user_resource_scopes d ++ scopes))) ||
  negb (forallb (fun s => existsb (fun u => ID u =? UserResourceScopeDO.UserID s) (users d)) scopes).
Definition ReplaceResourceScopes (userID : Z) (scopes : list UserResourceScopeDO.t) : M user_db unit :=
  fail_if (userID =? 0) not_found ;;;
  wrap_err (fun e => WrapDatabase e "replace user resource scopes") (transaction (
    delete_where t_scopes (fun s => UserResourceScopeDO.UserID s =? userID) ;;;
    match scopes with
    | [] => ret tt
    | _ => insert_all t_scopes (scopes_conflict scopes) UserResourceScopeDO.ID
             ((fun s id => UserResourceScopeDO.set_ID id s) <$> scopes)
    end)).

(** ** Reading and writing the audit logs *)
Record AuditFilters := MkAuditFilters {
  FilterAction : string; FilterActor : Z; FilterPrincipal : string; CreatedAfter : option Z; CreatedBefore : option Z
}.
Definition audit_limit (pageSize : Z) : Z := if pageSize <=? 0 then 10 else pageSize.
Definition audit_offset (page pageSize : Z) : Z :=
  if 0 <? page then wrap64 ((page - 1) * audit_limit pageSize) else 0.
(** The conditions on the action, the actor, the principal and the time, those that
    are given. *)
Definition audit_matches (f : AuditFilters) (action principal : string) (actor created : Z) : bool :=
  (seqb (TrimSpace (FilterAction f)) "" || seqb action (TrimSpace (FilterAction f))) &&
  ((FilterActor f <=? 0) || (actor =? FilterActor f)) &&
  (seqb (TrimSpace (FilterPrincipal f)) "" || seqb principal (TrimSpace (FilterPrincipal f))) &&
  match CreatedAfter f with Some t => t <=? created | None => true end &&
  match CreatedBefore f with Some t => created <=? t | None => true end.
(** [ORDER BY add_time DESC, id DESC]. *)
Definition newest_first {R} (created id : R -> Z) : list R -> list R :=
  merge_sort (fun a b => created b < created a \/ (created a = created b /\ id b <= id a)).

Definition ListAuditLogs (userID : Z) (filters : AuditFilters) (page_no pageSize : Z)
    : M user_db (list UserAuditLogDO.t * Z) :=
  fail_if (userID =? 0) not_found ;;;
  let wanted l := (UserAuditLogDO.UserID l =? userID) &&
    audit_matches filters (UserAuditLogDO.Action l) (UserAuditLogDO.ActorPrincipalType l)
      (UserAuditLogDO.ActorUserID l) (UserAuditLogDO.CreatedAt l) in
  total <- user_dberr (count_where t_audit wanted) ;;
  found <- user_dberr (select_where t_audit wanted) ;;
  ret (page (audit_offset page_no pageSize) (audit_limit pageSize)
         (newest_first UserAuditLogDO.CreatedAt UserAuditLogDO.ID found), total).

Definition admin_conflict (e r : AdminAuditLogDO.t) : bool :=
  same_opt (AdminAuditLogDO.CorrelationID e) (AdminAuditLogDO.CorrelationID r).
Definition admin_entry (e : AdminAuditLogDO.t) (now id : Z) : AdminAuditLogDO.t :=
  AdminAuditLogDO.mk id (AdminAuditLogDO.TargetUserID e) (AdminAuditLogDO.ActorUserID e)
    (if seqb (TrimSpace (AdminAuditLogDO.ActorPrincipalType e)) "" then PrincipalInternalService
     else AdminAuditLogDO.ActorPrincipalType e)
    (AdminAuditLogDO.Action e) (AdminAuditLogDO.Detail e) (AdminAuditLogDO.CorrelationID e)
    (AdminAuditLogDO.RequestID e) (AdminAuditLogDO.TargetType e) (AdminAuditLogDO.TargetID e)
    (AdminAuditLogDO.Domain e) (AdminAuditLogDO.StoreID e) (AdminAuditLogDO.TeamID e) now.
Definition CreateAdminAuditLog (now : Z) (logEntry : option AdminAuditLogDO.t) : M user_db unit :=
  match logEntry with
  | None => fail (newCode ErrValidation "admin audit log is required")
  | Some e =>
    fail_if (seqb (TrimSpace (AdminAuditLogDO.Action e)) "") (newCode ErrValidation "admin audit action is required") ;;;
    user_dberr (insert_row t_admin_audit AdminAuditLogDO.ID (admin_conflict e) (admin_entry e now)) ;;; ret tt
  end.
Definition ListAdminAuditLogs (target : Z) (filters : AuditFilters) (page_no pageSize : Z)
    : M user_db (list AdminAuditLogDO.t * Z) :=
  let wanted l := ((target <=? 0) || (AdminAuditLogDO.TargetUserID l =? target)) &&
    audit_matches filters (AdminAuditLogDO.Action l) (AdminAuditLogDO.ActorPrincipalType l)
      (AdminAuditLogDO.ActorUserID l) (AdminAuditLogDO.CreatedAt l) in
  total <- user_dberr (count_where t_admin_audit wanted) ;;
  found <- user_dberr (select_where t_admin_audit wanted) ;;
  ret (page (audit_offset page_no pageSize) (audit_limit pageSize)
         (newest_first AdminAuditLogDO.CreatedAt AdminAuditLogDO.ID found), total).
End users.

Lemma steps_within_columns {A} (R : user_db -> user_db -> Prop) `{!PreOrder R} long (m : M user_db A) :
  steps R m -> steps R (users.within_columns long m).
Proof. intros H. unfold users.within_columns. destruct long; [|exact H]. apply steps_stmt; [exact _|]. intros d. done. Qed.
Lemma within_columns_Ret {A} long (m : M user_db A) s a s' :
  users.within_columns long m s = (Ret a, s') -> m s = (Ret a, s').
Proof. unfold users.within_columns, stmt. destruct long; [|done]. by destruct (next_fault s) as [[msg|] s1]. Qed.
