(* ===== verification/SessionStore.v ===== *)
(** * Device sessions and break-glass approvals: the store

    [app/user/srv/internal/data/v1/db/session.go] and [break_glass.go].  A session
    lives in [user_sessions] until it is revoked or expires; a device of a user can
    be blocked; a break-glass approval is requested, approved by somebody else and
    used once. *)
From S2P Require Import Prelude GoStrings Errors GoMonad Authz Tables UserModel UserStore.
Open Scope go_scope.

Module sessions.
Import UserSessionDO.

Definition RecordLogin (id at_ : Z) : M user_db unit :=
  fail_if (id =? 0) users.not_found ;;;
  affected <- user_dberr (update_where t_user (users.by_id id) (UserDO.set_LastLoginAt (Some at_))) ;;
  fail_if (affected =? 0) users.not_found.

(** *** Creating a session *)
Definition on_device (userID : Z) (deviceID : string) (b : DeviceBlacklistDO.t) : bool :=
  (DeviceBlacklistDO.UserID b =? userID) && seqb (DeviceBlacklistDO.DeviceID b) deviceID.
(** The primary key, the unique hash and the foreign key to the account. *)
Definition session_conflict (s : t) (d : user_db) : bool :=
  existsb (fun r => seqb (ID r) (ID s) || seqb (RefreshTokenHash r) (RefreshTokenHash s)) (user_sessions d) ||
  negb (existsb (fun u => UserDO.ID u =? UserID s) (users d)).
Definition check_device (userID : Z) (deviceID : string) : M user_db unit :=
  blocked <- user_dberr (count_where t_blacklist (on_device userID deviceID)) ;;
  fail_if (0 <? blocked) (newCode ErrUserAccountInactive "device is blocked").
Definition insert_session (session : t) : M user_db unit :=
  user_dberr (insert_new t_sessions (session_conflict session) session).
Definition with_principal (session : t) : t :=
  if seqb (TrimSpace (PrincipalType session)) "" then set_PrincipalType PrincipalCustomer session else session.
Definition CreateSession (session : option t) : M user_db t :=
  let invalid := newCode ErrValidation "invalid session" in
  match session with
  | None => fail invalid
  | Some session =>
    fail_if ((UserID session =? 0) || seqb (ID session) "" ||
             negb (Z.of_nat (slength (RefreshTokenHash session)) =? 32)) invalid ;;;
    let session := with_principal session in
    check_device (UserID session) (DeviceID session) ;;;
    insert_session session ;;;
    ret session
  end.

(** *** Listing *)
Definition list_size (limit : Z) : Z := if (limit <? 1) || (100 <? limit) then 20 else limit.
(** [stderrors.Is] for the two sentinels of a cancelled context, which are passed on
    as they are. *)
Definition is_cancelled (e : goerr) : bool :=
  any_node (fun e => match e with
    | Driver m => seqb m "context canceled" || seqb m "context deadline exceeded" | _ => false end) e.
Definition list_error (e : goerr) : goerr :=
  if is_cancelled e then e else WrapDatabase e "user database operation".
(** [ORDER BY last_used_at DESC]; MySQL's order of equal times is left open by the
    parameter. *)
Definition ListUserSessions (by_last_use : list t -> list t) (userID offset limit : Z) : M user_db (list t * Z) :=
  fail_if (userID =? 0) users.not_found ;;;
  let mine s := (UserID s =? userID) && seqb (PrincipalType s) PrincipalCustomer in
  total <- wrap_err list_error (count_where t_sessions mine) ;;
  found <- wrap_err list_error (select_where t_sessions mine) ;;
  ret (page offset (list_size limit) (by_last_use found), total).

Record StaffSessionFilters := MkStaffSessionFilters {
  F_UserID : Z; F_Role : string; F_ActiveOnly : bool; F_CreatedAfter : option Z; F_CreatedBefore : option Z;
  F_LastUsedAfter : option Z; F_LastUsedBefore : option Z; F_Offset : Z; F_Limit : Z
}.
Definition at_least (o : option Z) (t : Z) : bool := match o with Some x => x <=? t | None => true end.
Definition at_most (o : option Z) (t : Z) : bool := match o with Some x => t <=? x | None => true end.
Definition has_role (role : string) (userID : Z) (d : user_db) : bool :=
  existsb (fun b => (UserRoleDO.UserID b =? userID) &&
    existsb (fun r => (RoleDO.ID r =? UserRoleDO.RoleID b) && seqb (ToLower (RoleDO.Name r)) role) (roles d))
    (user_roles d).
Definition staff_session (now : Z) (f : StaffSessionFilters) (d : user_db) (s : t) : bool :=
  let role := ToLower (TrimSpace (F_Role f)) in
  seqb (PrincipalType s) PrincipalStaff &&
  ((F_UserID f <=? 0) || (UserID s =? F_UserID f)) &&
  (negb (F_ActiveOnly f) || (bool_decide (RevokedAt s = None) && (now <? ExpiresAt s))) &&
  at_least (F_CreatedAfter f) (CreatedAt s) && at_most (F_CreatedBefore f) (CreatedAt s) &&
  at_least (F_LastUsedAfter f) (LastUsedAt s) && at_most (F_LastUsedBefore f) (LastUsedAt s) &&
  (seqb role "" || has_role role (UserID s) d).
(** The names of a user's roles, in order, one for each binding. *)
Definition role_names (userID : Z) (d : user_db) : list string :=
  users.sort_strings (b ← List.filter (fun b => UserRoleDO.UserID b =? userID) (user_roles d);
    RoleDO.Name <$> List.filter (fun r => RoleDO.ID r =? UserRoleDO.RoleID b) (roles d)).
Definition ListStaffSessions (by_last_use : list t -> list t) (now : Z) (filters : StaffSessionFilters)
    : M user_db (list (t * list string) * Z) :=
  let limit := if (F_Limit filters <=? 0) || (100 <? F_Limit filters) then 20 else F_Limit filters in
  total <- user_dberr (query (fun d => Z.of_nat (length (List.filter (staff_session now filters d) (user_sessions d))))) ;;
  rows <- user_dberr (query (fun d =>
    page (F_Offset filters) limit (by_last_use (List.filter (staff_session now filters d) (user_sessions d))))) ;;
  match rows with
  | [] => ret ([], total)
  | _ => named <- user_dberr (query (fun d => (fun s => (s, role_names (UserID s) d)) <$> rows)) ;; ret (named, total)
  end.

(** *** Blocked devices *)
Definition ids_required : goerr := newCode ErrValidation "user id and device id are required".
Definition device_session (userID : Z) (deviceID : string) (s : t) : bool :=
  (UserID s =? userID) && seqb (DeviceID s) deviceID && bool_decide (RevokedAt s = None).
(** GORM's upsert leaves the creation time of a row already there. *)
Definition AddDeviceBlacklist (userID : Z) (deviceID : string) (at_ : Z) : M user_db unit :=
  let deviceID := TrimSpace deviceID in
  fail_if ((userID <=? 0) || seqb deviceID "") ids_required ;;;
  transaction (
    user_dberr (insert_or_keep t_blacklist (on_device userID deviceID)
      (fun d => negb (existsb (fun u => UserDO.ID u =? userID) (users d)))
      (DeviceBlacklistDO.mk userID deviceID at_)) ;;;
    user_dberr (update_where t_sessions (device_session userID deviceID) (revoke at_)) ;;; ret tt).
Definition DeleteDeviceBlacklist (userID : Z) (deviceID : string) : M user_db unit :=
  fail_if ((userID <=? 0) || seqb (TrimSpace deviceID) "") ids_required ;;;
  user_dberr (delete_where t_blacklist (on_device userID (TrimSpace deviceID))) ;;; ret tt.
Definition ListDeviceBlacklist (by_creation : list DeviceBlacklistDO.t -> list DeviceBlacklistDO.t)
    (userID offset limit : Z) : M user_db (list DeviceBlacklistDO.t * Z) :=
  let wanted b := (userID <=? 0) || (DeviceBlacklistDO.UserID b =? userID) in
  total <- user_dberr (count_where t_blacklist wanted) ;;
  found <- user_dberr (select_where t_blacklist wanted) ;;
  ret (page offset (list_size limit) (by_creation found), total).

(** *** Refreshing and revoking *)
Definition session_id (id : string) (s : t) : bool := seqb (ID s) id.
Definition rotation_conflict (id next : string) (d : user_db) : bool :=
  existsb (fun r => negb (seqb (ID r) id) && seqb (RefreshTokenHash r) next) (user_sessions d).
Definition rotation_error (e : goerr) : goerr :=
  if any_node (fun e => match e with Errorf m _ _ => seqb m "record not found" | _ => false end) e
  then newCode ErrUserAccountInactive "session is not active"
  else WrapDatabase e "user database operation".
Definition RotateSession (sessionID currentHash nextHash : string) (expiresAt usedAt : Z) : M user_db t :=
  wrap_err rotation_error (transaction (
    session <- first_or_fail (select_first t_sessions (session_id sessionID)) ;;
    fail_if (bool_decide (RevokedAt session <> None) || negb (usedAt <? ExpiresAt session)) ErrRecordNotFound ;;;
    fail_if (negb (seqb (RefreshTokenHash session) currentHash)) ErrRecordNotFound ;;;
    update_checked t_sessions (rotation_conflict (ID session) nextHash) (session_id (ID session))
      (rotate nextHash expiresAt usedAt) ;;;
    ret (rotate nextHash expiresAt usedAt session))).

Definition own_session (userID : Z) (sessionID : string) (s : t) : bool :=
  seqb (ID s) sessionID && (UserID s =? userID) && bool_decide (RevokedAt s = None).
Definition RevokeSession (userID : Z) (sessionID : string) (at_ : Z) : M user_db unit :=
  user_dberr (update_where t_sessions (own_session userID sessionID) (revoke at_)) ;;; ret tt.
Definition RevokeAllSessions (userID at_ : Z) : M user_db unit :=
  user_dberr (update_where t_sessions (users.live_session userID) (revoke at_)) ;;; ret tt.
Definition SessionActive (userID : Z) (sessionID : string) (at_ : Z) : M user_db bool :=
  count <- user_dberr (count_where t_sessions (fun s => own_session userID sessionID s && (at_ <? ExpiresAt s))) ;;
  ret (count =? 1).
Definition staff_own (s : t) : bool := seqb (PrincipalType s) PrincipalStaff && bool_decide (RevokedAt s = None).
Definition RevokeStaffSession (sessionID : string) (at_ : Z) : M user_db unit :=
  fail_if (seqb sessionID "") (newCode ErrValidation "session id is required") ;;;
  user_dberr (update_where t_sessions (fun s => seqb (ID s) sessionID && staff_own s) (revoke at_)) ;;; ret tt.
Definition RevokeStaffUserSessions (userID at_ : Z) : M user_db unit :=
  fail_if (userID =? 0) users.not_found ;;;
  user_dberr (update_where t_sessions (fun s => (UserID s =? userID) && staff_own s) (revoke at_)) ;;; ret tt.
End sessions.

(** ** Break-glass approvals *)
Module breakglass.
Import BreakGlassApprovalDO.

Definition approval_id (id : string) (a : t) : bool := seqb (ID a) id.
Definition CreateBreakGlassApproval (approval : option t) : M user_db unit :=
  let invalid := newCode ErrValidation "break-glass approval is invalid" in
  match approval with
  | None => fail invalid
  | Some approval =>
    fail_if (seqb (ID approval) "") invalid ;;;
    user_dberr (insert_new t_approvals (fun d => existsb (approval_id (ID approval)) (break_glass_approvals d)) approval)
  end.
Definition missing (e : goerr) : bool :=
  any_node (fun e => match e with Errorf m _ _ => seqb m "record not found" | _ => false end) e.
Definition approve_error (e : goerr) : goerr :=
  if missing e then newCode ErrValidation "break-glass approval is not approvable"
  else if IsCode e ErrValidation then e
  else WrapDatabase e "approve break-glass approval".
Definition ApproveBreakGlassApproval (approvalID : string) (approverUserID : Z) (requestID : string) (now : Z)
    : M user_db t :=
  wrap_err approve_error (transaction (
    approval <- first_or_fail (select_first t_approvals (approval_id approvalID)) ;;
    fail_if (negb (seqb (Status approval) "pending") || negb (now <? ExpiresAt approval)) ErrRecordNotFound ;;;
    fail_if (RequesterUserID approval =? approverUserID)
      (newCode ErrValidation "break-glass approver must be different from requester") ;;;
    update_where t_approvals (approval_id (ID approval)) (approve approverUserID requestID now) ;;;
    ret (approve approverUserID requestID now approval))).
Definition consume_error (e : goerr) : goerr :=
  if missing e then newCode ErrValidation "break-glass approval is not usable"
  else WrapDatabase e "consume break-glass approval".
Definition ConsumeBreakGlassApproval (approvalID : string) (requesterUserID : Z) (requestID : string) (now : Z)
    : M user_db t :=
  wrap_err consume_error (transaction (
    approval <- first_or_fail (select_first t_approvals (approval_id approvalID)) ;;
    fail_if (negb (seqb (Status approval) "approved") || negb (RequesterUserID approval =? requesterUserID) ||
             negb (now <? ExpiresAt approval) || bool_decide (UsedAt approval <> None)) ErrRecordNotFound ;;;
    update_where t_approvals (approval_id (ID approval)) (use requestID now) ;;;
    ret (use requestID now approval))).
End breakglass.
