(* ===== verification/UserSessions.v ===== *)
(** * Sessions and break-glass approvals: service and gRPC server

    [app/user/srv/internal/service/v1/session.go] and [break_glass.go], and the
    handlers of [app/user/srv/internal/controller/user/session.go] that change state.
    The clock and [uuid.NewString()] are arguments.  The store always implements the
    session and approval interfaces, so the branches for a store that does not are
    left out. *)
From S2P Require Import Prelude GoStrings Errors GoMonad Authz Tables UserModel UserStore SessionStore.
Open Scope go_scope.

(** [time.Unix(int64(seconds), 0)], in nanoseconds. *)
Definition unix_time (seconds : Z) : Z := wrap64 seconds * 1000000000.
(** [optionalUnix]: zero is no time. *)
Definition optionalUnix (value : Z) : option Z := if value =? 0 then None else Some (unix_time value).

Record SessionDTO := MkSessionDTO {
  DtoID : string; DtoUserID : Z; DtoPrincipalType : string; DtoRefreshTokenHash : string; DtoDeviceID : string;
  DtoDeviceName : string; DtoClientIP : string; DtoLocation : string; DtoExpiresAt : Z
}.

Module userService.
Definition CreateSession (uuid : string) (now : Z) (session : SessionDTO) : M user_db SessionDTO :=
  let principalType := if seqb (DtoPrincipalType session) "" then PrincipalCustomer else DtoPrincipalType session in
  let model := UserSessionDO.mk uuid (DtoUserID session) principalType (DtoRefreshTokenHash session)
    (DtoDeviceID session) (DtoDeviceName session) (DtoClientIP session) (DtoLocation session) now now
    (DtoExpiresAt session) None in
  stored <- sessions.CreateSession (Some model) ;;
  ret (MkSessionDTO (UserSessionDO.ID stored) (DtoUserID session) principalType (DtoRefreshTokenHash session)
    (DtoDeviceID session) (DtoDeviceName session) (DtoClientIP session) (DtoLocation session) (DtoExpiresAt session)).

Definition RefreshSession (now : Z) (sessionID currentHash nextHash : string) (expiresAt : Z) : M user_db SessionDTO :=
  model <- sessions.RotateSession sessionID currentHash nextHash expiresAt now ;;
  ret (MkSessionDTO (UserSessionDO.ID model) (UserSessionDO.UserID model) (UserSessionDO.PrincipalType model) ""
    (UserSessionDO.DeviceID model) (UserSessionDO.DeviceName model) "" "" (UserSessionDO.ExpiresAt model)).

Definition RecordLogin (userID at_ : Z) : M user_db unit := sessions.RecordLogin userID at_.
Definition RevokeSession (now userID : Z) (sessionID : string) : M user_db unit :=
  sessions.RevokeSession userID sessionID now.
Definition RevokeAllSessions (now userID : Z) : M user_db unit := sessions.RevokeAllSessions userID now.
Definition ValidateSession (now userID : Z) (sessionID : string) : M user_db bool :=
  sessions.SessionActive userID sessionID now.
Definition AddDeviceBlacklist (now userID : Z) (deviceID : string) : M user_db unit :=
  sessions.AddDeviceBlacklist userID deviceID now.
Definition DeleteDeviceBlacklist (userID : Z) (deviceID : string) : M user_db unit :=
  sessions.DeleteDeviceBlacklist userID deviceID.
Definition RevokeStaffSession (now : Z) (sessionID : string) : M user_db unit :=
  sessions.RevokeStaffSession sessionID now.
Definition RevokeStaffUserSessions (now userID : Z) : M user_db unit := sessions.RevokeStaffUserSessions userID now.

Definition page_number (page : Z) : Z := if page <? 1 then 1 else page.
Definition ListUserSessions (by_last_use : list UserSessionDO.t -> list UserSessionDO.t) (userID page pageSize : Z)
    : M user_db (list UserSessionDO.t * Z) :=
  let pageSize := sessions.list_size pageSize in
  sessions.ListUserSessions by_last_use userID (wrap64 ((page_number page - 1) * pageSize)) pageSize.
Definition ListDeviceBlacklist (by_creation : list DeviceBlacklistDO.t -> list DeviceBlacklistDO.t)
    (userID page pageSize : Z) : M user_db (list DeviceBlacklistDO.t * Z) :=
  fail_if (userID <? 0) (newCode ErrValidation "user id is invalid") ;;;
  let pageSize := sessions.list_size pageSize in
  sessions.ListDeviceBlacklist by_creation userID (wrap64 ((page_number page - 1) * pageSize)) pageSize.

Definition CreateBreakGlassApproval (uuid : string) (now requesterUserID : Z) (reason requestID : string) (expiresAt : Z)
    : M user_db BreakGlassApprovalDO.t :=
  let reason := TrimSpace reason in
  let requestID := TrimSpace requestID in
  fail_if ((requesterUserID <=? 0) || seqb reason "" || seqb requestID "" || negb (now <? expiresAt))
    (newCode ErrValidation "invalid break-glass approval request") ;;;
  let model := BreakGlassApprovalDO.mk uuid requesterUserID 0 "pending" reason requestID now None expiresAt None in
  breakglass.CreateBreakGlassApproval (Some model) ;;; ret model.
Definition ApproveBreakGlassApproval (now : Z) (approvalID : string) (approverUserID : Z) (requestID : string)
    : M user_db BreakGlassApprovalDO.t :=
  breakglass.ApproveBreakGlassApproval (TrimSpace approvalID) approverUserID (TrimSpace requestID) now.
Definition ConsumeBreakGlassApproval (now : Z) (approvalID : string) (requesterUserID : Z) (requestID : string)
    : M user_db BreakGlassApprovalDO.t :=
  breakglass.ConsumeBreakGlassApproval (TrimSpace approvalID) requesterUserID (TrimSpace requestID) now.
End userService.

(** ** The handlers; request fields are arguments, ids are 32-bit and times unsigned
    seconds. *)
Module userServer.
Definition RecordLogin (userID loggedInAt : Z) : M user_db unit :=
  userService.RecordLogin (wrapu64 userID) (unix_time loggedInAt).
Definition CreateSession (uuid : string) (now userID : Z) (principalType deviceID deviceName clientIP location hash : string)
    (expiresAt : Z) : M user_db SessionDTO :=
  userService.CreateSession uuid now
    (MkSessionDTO "" userID principalType hash deviceID deviceName clientIP location (unix_time expiresAt)).
Definition RefreshSession (now : Z) (sessionID currentHash nextHash : string) (expiresAt : Z) : M user_db SessionDTO :=
  userService.RefreshSession now sessionID currentHash nextHash (unix_time expiresAt).
Definition RevokeSession (now userID : Z) (sessionID : string) : M user_db unit :=
  userService.RevokeSession now (wrapu64 userID) sessionID.
Definition RevokeAllSessions (now userID : Z) : M user_db unit := userService.RevokeAllSessions now (wrapu64 userID).
Definition ValidateSession (now userID : Z) (sessionID : string) : M user_db bool :=
  userService.ValidateSession now (wrapu64 userID) sessionID.
Definition AddDeviceBlacklist (now userID : Z) (deviceID : string) : M user_db unit :=
  userService.AddDeviceBlacklist now userID deviceID.
Definition DeleteDeviceBlacklist (userID : Z) (deviceID : string) : M user_db unit :=
  userService.DeleteDeviceBlacklist userID deviceID.
Definition RevokeStaffSession (now : Z) (sessionID : string) : M user_db unit :=
  userService.RevokeStaffSession now sessionID.
Definition RevokeStaffUserSessions (now userID : Z) : M user_db unit :=
  userService.RevokeStaffUserSessions now (wrapu64 userID).
Definition CreateBreakGlassApproval (uuid : string) (now requesterUserID : Z) (reason requestID : string) (expiresAt : Z)
    : M user_db BreakGlassApprovalDO.t :=
  userService.CreateBreakGlassApproval uuid now requesterUserID reason requestID (unix_time expiresAt).
Definition ApproveBreakGlassApproval (now : Z) (approvalID : string) (approverUserID : Z) (requestID : string)
    : M user_db BreakGlassApprovalDO.t :=
  userService.ApproveBreakGlassApproval now approvalID approverUserID requestID.
Definition ConsumeBreakGlassApproval (now : Z) (approvalID : string) (requesterUserID : Z) (requestID : string)
    : M user_db BreakGlassApprovalDO.t :=
  userService.ConsumeBreakGlassApproval now approvalID requesterUserID requestID.
End userServer.

(** ** Everything that changes the user tables

    The calls of the user service: the session and approval handlers above, and the
    store methods behind the other handlers, with any arguments. *)
Inductive ucall :=
  | URecordLogin (userID loggedInAt : Z)
  | UCreateSession (uuid : string) (userID : Z)
      (principalType deviceID deviceName clientIP location hash : string) (expiresAt : Z)
  | URefreshSession (sessionID currentHash nextHash : string) (expiresAt : Z)
  | URevokeSession (userID : Z) (sessionID : string)
  | URevokeAllSessions (userID : Z)
  | URevokeStaffSession (sessionID : string)
  | URevokeStaffUserSessions (userID : Z)
  | UAddDeviceBlacklist (userID : Z) (deviceID : string)
  | UDeleteDeviceBlacklist (userID : Z) (deviceID : string)
  | UCreateApproval (uuid : string) (requester : Z) (reason requestID : string) (expiresAt : Z)
  | UApprove (approvalID : string) (approver : Z) (requestID : string)
  | UConsume (approvalID : string) (requester : Z) (requestID : string)
  | UCreate (user : option UserDO.t)
  | UCreateStaff (user : option UserDO.t) (roleNames : list string) (actor : option AuditActor)
  | UUpdate (user : option UserDO.t)
  | UUpdateStatus (id : Z) (status : string) (actor : option AuditActor)
  | UDelete (id : Z)
  | URequestDeletion (eventID : string) (id : Z)
  | UReplaceRoles (userID : Z) (roleNames : list string) (actor : option AuditActor)
  | UCreateRole (name description : string) (permissions domains : list string)
  | UUpdateRole (name description : string) (permissions domains : list string)
  | UDeleteRole (name : string)
  | UReplaceScopes (userID : Z) (scopes : list UserResourceScopeDO.t)
  | UAdminAudit (entry : option AdminAuditLogDO.t).

Definition done {A} (m : M user_db A) : M user_db unit := m ;;; ret tt.
Definition run_ucall (now : Z) (c : ucall) : M user_db unit :=
  match c with
  | URecordLogin u t => userServer.RecordLogin u t
  | UCreateSession id u pt dev name ip loc h e => done (userServer.CreateSession id now u pt dev name ip loc h e)
  | URefreshSession sid cur next e => done (userServer.RefreshSession now sid cur next e)
  | URevokeSession u sid => userServer.RevokeSession now u sid
  | URevokeAllSessions u => userServer.RevokeAllSessions now u
  | URevokeStaffSession sid => userServer.RevokeStaffSession now sid
  | URevokeStaffUserSessions u => userServer.RevokeStaffUserSessions now u
  | UAddDeviceBlacklist u dev => userServer.AddDeviceBlacklist now u dev
  | UDeleteDeviceBlacklist u dev => userServer.DeleteDeviceBlacklist u dev
  | UCreateApproval id r why req e => done (userServer.CreateBreakGlassApproval id now r why req e)
  | UApprove id a req => done (userServer.ApproveBreakGlassApproval now id a req)
  | UConsume id r req => done (userServer.ConsumeBreakGlassApproval now id r req)
  | UCreate u => done (users.Create u)
  | UCreateStaff u rs a => done (users.CreateStaff now u rs a)
  | UUpdate u => users.Update u
  | UUpdateStatus id st a => users.UpdateStatus now id st a
  | UDelete id => users.Delete id
  | URequestDeletion ev id => users.RequestAccountDeletion ev id now
  | UReplaceRoles u rs a => done (users.ReplaceUserRoles now u rs a)
  | UCreateRole n de p dm => done (users.CreateRole n de p dm)
  | UUpdateRole n de p dm => done (users.UpdateRole n de p dm)
  | UDeleteRole n => users.DeleteRole n
  | UReplaceScopes u sc => users.ReplaceResourceScopes u sc
  | UAdminAudit e => users.CreateAdminAuditLog now e
  end.

(** A call at a time, with the faults of the database during it. *)
Definition uevent : Type := Z * ucall * list (option string).
Definition ustep (d : user_db) (e : uevent) : user_db := e_db (run_ucall e.1.1 e.1.2 (Env d e.2)).2.
Definition run_uevents (l : list uevent) (d : user_db) : user_db := fold_left ustep l d.
(** The states reachable from tables with no session, block or approval yet; the
    accounts and roles a deployment starts with are arbitrary. *)
Definition uinitial (d : user_db) : Prop :=
  user_sessions d = [] /\ user_device_blacklist d = [] /\ break_glass_approvals d = [].
Definition ureachable (d : user_db) : Prop := exists d0 l, uinitial d0 /\ d = run_uevents l d0.
