(* ===== verification/SessionProperties.v ===== *)
(** * What holds of device sessions over any sequence of calls

    Each call moves the table of sessions by one step of a small transition system
    ([session_step]): it revokes some live sessions, adds one fresh session on a
    device that is not blocked, or rotates one live session that presented its
    current token.  The theorems about sessions follow from these steps alone. *)
From S2P Require Import Prelude GoStrings Errors GoMonad Authz Tables.
From S2P Require Import UserModel UserStore SessionStore UserSessions.
Import UserSessionDO.
Open Scope go_scope.

(** ** The steps of the table *)
Definition revoked_or_same (now : Z) (s s' : t) : Prop := s' = s \/ (RevokedAt s = None /\ s' = revoke now s).

Definition rotated (sid next : string) (expires now : Z) (l : list t) : list t :=
  (fun s => if sessions.session_id sid s then rotate next expires now s else s) <$> l.

Inductive session_step (now : Z) (d : user_db) : ucall -> list t -> Prop :=
  | step_revoke c l' : Forall2 (revoked_or_same now) (user_sessions d) l' -> session_step now d c l'
  | step_create uuid u pt dev name ip loc h e n :
      (ID n = uuid /\ UserID n = u /\ DeviceID n = dev /\ RefreshTokenHash n = h /\ RevokedAt n = None) ->
      ID n ∉ ID <$> user_sessions d -> h ∉ RefreshTokenHash <$> user_sessions d ->
      existsb (sessions.on_device u dev) (user_device_blacklist d) = false ->
      session_step now d (UCreateSession uuid u pt dev name ip loc h e) (user_sessions d ++ [n])
  | step_rotate sid cur next e s :
      s ∈ user_sessions d -> ID s = sid -> RevokedAt s = None -> now < ExpiresAt s -> RefreshTokenHash s = cur ->
      (forall r, r ∈ user_sessions d -> RefreshTokenHash r = next -> ID r = sid) ->
      session_step now d (URefreshSession sid cur next e) (rotated sid next (unix_time e) now (user_sessions d)).

(** ** Calls that only revoke *)
Definition revokes (now : Z) (d d' : user_db) : Prop :=
  Forall2 (revoked_or_same now) (user_sessions d) (user_sessions d').

#[export] Instance revokes_pre now : PreOrder (revokes now).
Proof.
  split.
  - intros d. unfold revokes. induction (user_sessions d); constructor; [by left|done].
  - intros d1 d2 d3 H1 H2. unfold revokes in *. revert H2. generalize (user_sessions d3).
    induction H1 as [|s s' l l' Hs _ IH]; intros l3 H2; inversion H2 as [|? s'' ? ? Hs' Hl]; subst; constructor; [|by apply IH].
    destruct Hs as [->|[Hn ->]]; [done|]. destruct Hs' as [->|[Hr _]]; [by right|done].
Qed.

(** The relation looks at the sessions only. *)
#[export] Instance revokes_ignores {R} now (t : table user_db R) :
  (forall l d, user_sessions (set_rows t l d) = user_sessions d) -> Ignores t (revokes now).
Proof. intros H l d. unfold revokes. rewrite H. by apply revokes_pre. Qed.

Lemma revokes_update now p :
  (forall s, p s = true -> RevokedAt s = None) -> steps (revokes now) (update_where t_sessions p (revoke now)).
Proof.
  intros Hp. apply steps_stmt; [exact _|]. intros d. unfold revokes. cbn.
  induction (user_sessions d) as [|s l IH]; constructor; [|done]. destruct (p s) eqn:E; [right|left]; auto.
Qed.

Lemma live_none b (s : t) : b && bool_decide (RevokedAt s = None) = true -> RevokedAt s = None.
Proof. intros [_ H]%andb_true_iff. by apply bool_decide_eq_true in H. Qed.

(** Prove that a program only revokes, by following its text. *)
Ltac frame_step :=
  lazymatch goal with
  | |- steps _ (user_dberr _) => unfold user_dberr
  | |- steps _ (user_txn _) => unfold user_txn
  | |- steps _ (done _) => unfold done
  | |- steps _ (first_or _ _ _) => unfold first_or
  | |- steps _ (manual_txn _ _ _ _ _) => apply steps_manual_txn; [exact _|done|]
  | |- steps _ (select_first _ _) => apply steps_select_first; exact _
  | |- steps _ (select_where _ _) => apply steps_select_where; exact _
  | |- steps _ (count_where _ _) => apply steps_count_where; exact _
  | |- steps _ (insert_row _ _ _ _) => apply steps_insert_row; [exact _|]
  | |- steps _ (insert_all _ _ _ _) => apply steps_insert_all; [exact _|]
  | |- steps _ (insert_new _ _ _) => apply steps_insert_new; [exact _|]
  | |- steps _ (insert_or_keep _ _ _ _) => apply steps_insert_or_keep; [exact _|]
  | |- steps _ (delete_where _ _) => apply steps_delete_where; [exact _|]
  | |- steps _ (update_checked _ _ _ _) => apply steps_update_checked; [exact _|]
  end.
Ltac revoke_go :=
  repeat (steps_step || frame_step || lazymatch goal with
    | |- steps _ (update_where t_sessions _ _) => apply revokes_update
    | |- steps _ (update_where _ _ _) => apply steps_update_where; [exact _|]
    | |- Ignores _ _ => apply revokes_ignores; done
    end).

Section Readers.
Context (R : user_db -> user_db -> Prop) `{!PreOrder R}.
Lemma steps_GetByID id : steps R (users.GetByID id).
Proof. unfold users.GetByID, users.first_user. repeat (steps_step || frame_step). Qed.
Lemma steps_listStaffRoles id : steps R (users.listStaffRoles id).
Proof. unfold users.listStaffRoles. repeat (steps_step || frame_step). Qed.
Lemma steps_buildAuthUser u : steps R (users.buildAuthUser u).
Proof.
  unfold users.buildAuthUser, users.listPermissions.
  repeat (steps_step || frame_step || lazymatch goal with |- steps _ (users.listStaffRoles _) => apply steps_listStaffRoles end).
Qed.
Lemma steps_loadRoles l : steps R (users.loadRoles l).
Proof. unfold users.loadRoles. repeat (steps_step || frame_step). Qed.
Lemma steps_find_role n : steps R (users.find_role n).
Proof. unfold users.find_role. repeat (steps_step || frame_step). Qed.

(** A relation that ignores the tables of accounts, roles, scopes and audit logs. *)
Context `{!Ignores t_user R, !Ignores t_roles R, !Ignores t_user_roles R, !Ignores t_role_permissions R,
  !Ignores t_role_domains R, !Ignores t_scopes R, !Ignores t_audit R, !Ignores t_admin_audit R}.

Ltac account_go :=
  repeat (steps_step || frame_step || lazymatch goal with
    | |- steps _ (users.GetByID _) => apply steps_GetByID
    | |- steps _ (users.listStaffRoles _) => apply steps_listStaffRoles
    | |- steps _ (users.buildAuthUser _) => apply steps_buildAuthUser
    | |- steps _ (users.loadRoles _) => apply steps_loadRoles
    | |- steps _ (users.find_role _) => apply steps_find_role
    | |- steps _ (update_where _ _ _) => apply steps_update_where; [exact _|]
    | |- Ignores _ _ => exact _
    end).

Lemma steps_appendAuditLogTx u a pt ac f t d now : steps R (users.appendAuditLogTx u a pt ac f t d now).
Proof. unfold users.appendAuditLogTx. account_go. Qed.
Lemma steps_replaceUserRolesTx u l : steps R (users.replaceUserRolesTx u l).
Proof. unfold users.replaceUserRolesTx. account_go. Qed.
Lemma steps_replaceRolePermissionsTx r l : steps R (users.replaceRolePermissionsTx r l).
Proof. unfold users.replaceRolePermissionsTx. account_go. Qed.
Lemma steps_replaceRoleDomainsTx r l : steps R (users.replaceRoleDomainsTx r l).
Proof. unfold users.replaceRoleDomainsTx. account_go. Qed.
Lemma steps_insert_user u : steps R (users.insert_user u).
Proof. unfold users.insert_user. account_go. apply steps_within_columns; [exact _|]. account_go. Qed.

Ltac account_tx_go :=
  repeat (account_go || lazymatch goal with
    | |- steps _ (users.appendAuditLogTx _ _ _ _ _ _ _ _) => apply steps_appendAuditLogTx
    | |- steps _ (users.replaceUserRolesTx _ _) => apply steps_replaceUserRolesTx
    | |- steps _ (users.replaceRolePermissionsTx _ _) => apply steps_replaceRolePermissionsTx
    | |- steps _ (users.replaceRoleDomainsTx _ _) => apply steps_replaceRoleDomainsTx
    | |- steps _ (users.insert_user _) => apply steps_insert_user
    end).

(** The calls on accounts, roles, scopes and audit logs. *)
Definition account_call (c : ucall) : bool :=
  match c with
  | URecordLogin _ _ | UCreate _ | UCreateStaff _ _ _ | UUpdate _ | UUpdateStatus _ _ _ | UDelete _
  | UReplaceRoles _ _ _ | UCreateRole _ _ _ _ | UUpdateRole _ _ _ _ | UDeleteRole _ | UReplaceScopes _ _
  | UAdminAudit _ => true
  | _ => false
  end.

Lemma steps_account_call now c : account_call c = true -> steps R (run_ucall now c).
Proof.
  destruct c; try done; intros _; cbn [run_ucall].
  - unfold userServer.RecordLogin, userService.RecordLogin, sessions.RecordLogin. account_tx_go.
  - unfold users.Create. account_tx_go.
  - unfold users.CreateStaff. account_tx_go.
  - unfold users.Update. account_tx_go.
  - unfold users.UpdateStatus. account_tx_go.
  - unfold users.Delete. account_tx_go.
  - unfold users.ReplaceUserRoles. account_tx_go.
  - unfold users.CreateRole. account_tx_go.
  - unfold users.UpdateRole. account_tx_go.
  - unfold users.DeleteRole. account_tx_go.
  - unfold users.ReplaceResourceScopes. account_tx_go.
  - unfold users.CreateAdminAuditLog. account_tx_go.
Qed.
End Readers.

(** ** Every call is one step of the table *)
Definition creates_or_refreshes (c : ucall) : bool :=
  match c with UCreateSession _ _ _ _ _ _ _ _ _ | URefreshSession _ _ _ _ => true | _ => false end.

Lemma other_calls_revoke now c : creates_or_refreshes c = false -> steps (revokes now) (run_ucall now c).
Proof.
  intros Hc. destruct (account_call c) eqn:Ha.
  { apply steps_account_call; try exact _; try (by apply revokes_ignores); done. }
  destruct c; try done; cbn [run_ucall].
  - unfold userServer.RevokeSession, userService.RevokeSession, sessions.RevokeSession. revoke_go.
    intros s H. by apply live_none in H.
  - unfold userServer.RevokeAllSessions, userService.RevokeAllSessions, sessions.RevokeAllSessions. revoke_go.
    intros s H. by apply live_none in H.
  - unfold userServer.RevokeStaffSession, userService.RevokeStaffSession, sessions.RevokeStaffSession. revoke_go.
    intros s [_ H]%andb_true_iff. by apply live_none in H.
  - unfold userServer.RevokeStaffUserSessions, userService.RevokeStaffUserSessions, sessions.RevokeStaffUserSessions.
    revoke_go. intros s [_ H]%andb_true_iff. by apply live_none in H.
  - unfold userServer.AddDeviceBlacklist, userService.AddDeviceBlacklist, sessions.AddDeviceBlacklist. revoke_go.
    intros s H. by apply live_none in H.
  - unfold userServer.DeleteDeviceBlacklist, userService.DeleteDeviceBlacklist, sessions.DeleteDeviceBlacklist. revoke_go.
  - unfold userServer.CreateBreakGlassApproval, userService.CreateBreakGlassApproval,
      breakglass.CreateBreakGlassApproval. revoke_go.
  - unfold userServer.ApproveBreakGlassApproval, userService.ApproveBreakGlassApproval,
      breakglass.ApproveBreakGlassApproval. revoke_go.
  - unfold userServer.ConsumeBreakGlassApproval, userService.ConsumeBreakGlassApproval,
      breakglass.ConsumeBreakGlassApproval. revoke_go.
  - unfold users.RequestAccountDeletion, users.appendAuditLogTx. revoke_go. intros s H. by apply live_none in H.
Qed.

Lemma find_id_in (p : t -> bool) l s : find p l = Some s -> s ∈ l /\ p s = true.
Proof. intros [H%list_elem_of_In E]%find_some. done. Qed.

Lemma with_principal_fields s :
  ID (sessions.with_principal s) = ID s /\ UserID (sessions.with_principal s) = UserID s /\
  DeviceID (sessions.with_principal s) = DeviceID s /\
  RefreshTokenHash (sessions.with_principal s) = RefreshTokenHash s /\
  RevokedAt (sessions.with_principal s) = RevokedAt s.
Proof. unfold sessions.with_principal. by destruct (seqb _ _). Qed.

Lemma CreateSession_Ret ses s n s' :
  sessions.CreateSession (Some ses) s = (Ret n, s') ->
  n = sessions.with_principal ses /\
  existsb (sessions.on_device (UserID ses) (DeviceID ses)) (user_device_blacklist (e_db s)) = false /\
  sessions.session_conflict n (e_db s) = false /\
  e_db s' = set_rows t_sessions (user_sessions (e_db s) ++ [n]) (e_db s).
Proof.
  intros H. unfold sessions.CreateSession in H. apply bind_Ret in H as (? & ? & [_ ->]%fail_if_Ret & H).
  cbv zeta in H. destruct (with_principal_fields ses) as (_ & E2 & E3 & _).
  apply bind_Ret in H as (? & s1 & Hc & H). unfold sessions.check_device in Hc.
  apply bind_Ret in Hc as (c & s2 & [-> E]%wrap_err_Ret%count_where_Ret & Hc). apply fail_if_Ret in Hc as [Hc ->].
  apply bind_Ret in H as (? & s3 & [Hb Es]%wrap_err_Ret%insert_new_Ret & H). unfold ret in H. injection H as <- <-.
  rewrite E2, E3 in Hc. rewrite E in *. split; [done|]. split; [|by split]. by apply count_zero_existsb in Hc.
Qed.

Lemma atomic_CreateSession ses : atomic (sessions.CreateSession ses).
Proof.
  unfold sessions.CreateSession. destruct ses as [ses|]; [|apply atomic_fail].
  apply atomic_bind; [apply steps_fail_if; exact _|intros []]. cbv zeta.
  apply atomic_bind; [unfold sessions.check_device; repeat (steps_step || frame_step)|intros []].
  apply atomic_then; [|by eauto]. apply atomic_wrap_err, atomic_insert_new.
Qed.

Lemma create_step now uuid u pt dev name ip loc h e s :
  let c := UCreateSession uuid u pt dev name ip loc h e in
  session_step now (e_db s) c (user_sessions (e_db (run_ucall now c s).2)).
Proof.
  intros c. assert (atomic (run_ucall now c)) as Ha.
  { apply atomic_then; [|by eauto]. apply atomic_then; [|by eauto]. apply atomic_CreateSession. }
  specialize (Ha s). destruct (run_ucall now c s) as [r s'] eqn:E. cbn [snd fst] in *.
  destruct (is_ret r) eqn:Er; [|rewrite Ha by done; by apply step_revoke, revokes_pre]. destruct r as [[]|?|?]; try done.
  unfold c, run_ucall, done, userServer.CreateSession, userService.CreateSession in E.
  apply bind_Ret in E as (dto & s1 & E & E2). unfold ret in E2. injection E2 as <-.
  apply bind_Ret in E as (n & s2 & (-> & Hb & Hc & E)%CreateSession_Ret & E2). unfold ret in E2. injection E2 as _ <-.
  rewrite E. cbn [user_sessions set_rows t_sessions].
  match goal with |- context [sessions.with_principal ?m] =>
    destruct (with_principal_fields m) as (E1 & E2 & E3 & E4 & E5) end.
  cbn [UserSessionDO.ID UserSessionDO.UserID UserSessionDO.DeviceID UserSessionDO.RefreshTokenHash UserSessionDO.RevokedAt
    DtoUserID DtoPrincipalType DtoRefreshTokenHash DtoDeviceID DtoDeviceName DtoClientIP DtoLocation DtoExpiresAt] in *.
  apply orb_false_iff in Hc as [Hc _].
  apply step_create; [done| | |done].
  - rewrite E1. intros (r & Hr & Hin)%list_elem_of_fmap. pose proof (existsb_false_elem _ _ _ Hc Hin) as Hx.
    apply orb_false_iff in Hx as [Hx _]. apply bool_decide_eq_false in Hx. congruence.
  - intros (r & Hr & Hin)%list_elem_of_fmap. pose proof (existsb_false_elem _ _ _ Hc Hin) as Hx.
    apply orb_false_iff in Hx as [_ Hx]. apply bool_decide_eq_false in Hx. congruence.
Qed.

Lemma RotateSession_Ret sid cur next exp now s r s' :
  sessions.RotateSession sid cur next exp now s = (Ret r, s') ->
  exists x, find (sessions.session_id sid) (user_sessions (e_db s)) = Some x /\
    RevokedAt x = None /\ now < ExpiresAt x /\ RefreshTokenHash x = cur /\
    sessions.rotation_conflict sid next (e_db s) = false /\ r = rotate next exp now x /\
    user_sessions (e_db s') = rotated sid next exp now (user_sessions (e_db s)).
Proof.
  intros (s0 & s1 & <- & H & ->)%wrap_err_Ret%transaction_Ret.
  apply bind_Ret in H as (x & s2 & [Hf E2]%first_or_fail_Ret%select_first_Ret & H). symmetry in Hf. cbn in Hf.
  apply bind_Ret in H as (? & ? & [Hc ->]%fail_if_Ret & H). apply bind_Ret in H as (? & ? & [Hh ->]%fail_if_Ret & H).
  apply bind_Ret in H as (n & s3 & (Hb & _ & E3)%update_checked_Ret & H). unfold ret in H. injection H as <- <-.
  apply orb_false_iff in Hc as [Hr He]. apply bool_decide_eq_false in Hr. apply negb_false_iff, bool_decide_eq_true in Hh.
  pose proof (find_id_in _ _ _ Hf) as [_ Hid]. apply bool_decide_eq_true in Hid. rewrite Hid, E2 in *. rewrite E3.
  exists x. split_and!; try done; [by destruct (RevokedAt x); [destruct Hr|]|blia].
Qed.

Lemma refresh_step now sid cur next e s :
  let c := URefreshSession sid cur next e in
  session_step now (e_db s) c (user_sessions (e_db (run_ucall now c s).2)).
Proof.
  intros c. assert (atomic (run_ucall now c)) as Ha.
  { apply atomic_then; [|by eauto]. apply atomic_then; [|by eauto]. apply atomic_wrap_err, atomic_transaction. }
  specialize (Ha s). destruct (run_ucall now c s) as [r s'] eqn:E. cbn [snd fst] in *.
  destruct (is_ret r) eqn:Er; [|rewrite Ha by done; by apply step_revoke, revokes_pre]. destruct r as [[]|?|?]; try done.
  unfold c, run_ucall, done, userServer.RefreshSession, userService.RefreshSession in E.
  apply bind_Ret in E as (dto & s1 & E & E2). unfold ret in E2. injection E2 as <-.
  apply bind_Ret in E as (n & s2 & (x & Hf & Hr & He & Hh & Hc & _ & Es)%RotateSession_Ret & E2).
  unfold ret in E2. injection E2 as _ <-. rewrite Es. apply find_id_in in Hf as [Hin Hid]. apply bool_decide_eq_true in Hid.
  eapply step_rotate; [done..|]. intros y Hy Hn. pose proof (existsb_false_elem _ _ _ Hc Hy) as Hx.
  apply andb_false_iff in Hx as [Hx|Hx].
  - by apply negb_false_iff, bool_decide_eq_true in Hx.
  - apply bool_decide_eq_false in Hx. done.
Qed.

(** The transition system covers every call, under every fault. *)
Lemma call_step now c s : session_step now (e_db s) c (user_sessions (e_db (run_ucall now c s).2)).
Proof.
  destruct (creates_or_refreshes c) eqn:E; [|apply step_revoke, (other_calls_revoke now c E)].
  destruct c; try done; [apply create_step|apply refresh_step].
Qed.

(** ** An ended session stays ended *)

(** No session with this id is live at time [T] or later, and there is one. *)
Definition ended (sid : string) (T : Z) (l : list t) : Prop :=
  sid ∈ ID <$> l /\ forall s, s ∈ l -> ID s = sid -> RevokedAt s <> None \/ ExpiresAt s <= T.

Lemma revoked_in now l l' s' :
  Forall2 (revoked_or_same now) l l' -> s' ∈ l' -> exists s, s ∈ l /\ revoked_or_same now s s'.
Proof.
  intros H. induction H as [|s x l l' Hs _ IH]; intros Hin; [by apply elem_of_nil in Hin|].
  apply elem_of_cons in Hin as [->|Hin]; [exists s; set_solver|]. destruct (IH Hin) as (y & ? & ?). exists y. set_solver.
Qed.

Lemma revoked_ids now l l' : Forall2 (revoked_or_same now) l l' -> ID <$> l' = ID <$> l.
Proof. induction 1 as [|s x l l' [->|[_ ->]] _ IH]; [done|by rewrite !fmap_cons, IH..]. Qed.

Lemma rotated_ids sid next e now l : ID <$> rotated sid next e now l = ID <$> l.
Proof.
  unfold rotated. rewrite <- list_fmap_compose. apply list_fmap_ext. intros i s _. simpl. by destruct (sessions.session_id sid s).
Qed.

Lemma rotated_in sid next e now l s' :
  s' ∈ rotated sid next e now l ->
  exists s, s ∈ l /\ ((ID s = sid /\ s' = rotate next e now s) \/ (ID s <> sid /\ s' = s)).
Proof.
  intros (s & -> & Hs)%list_elem_of_fmap. exists s. split; [done|]. unfold sessions.session_id.
  unfold seqb. destruct (decide (ID s = sid)) as [E|E]; [left|right]; (split; [done|]).
  - by rewrite bool_decide_eq_true_2.
  - by rewrite bool_decide_eq_false_2.
Qed.

Lemma ended_step sid T now d c l' :
  T <= now -> session_step now d c l' -> ended sid T (user_sessions d) -> ended sid T l'.
Proof.
  intros HT Hs [He Hd]. destruct Hs as [c l' H|uuid u pt dev name ip loc h e n Hn Hid _ _|sid' cur next e s Hin Hid Hr Hx _ _].
  - split; [by rewrite (revoked_ids _ _ _ H)|]. intros s' Hs' Hid.
    destruct (revoked_in _ _ _ _ H Hs') as (s & Hs & [->|[Hr ->]]); [by apply Hd|by left].
  - split; [rewrite fmap_app; set_solver|]. intros s [Hs| ->%list_elem_of_singleton]%elem_of_app E; [by apply Hd|congruence].
  - split; [by rewrite rotated_ids|]. intros s' Hs' E.
    destruct (rotated_in _ _ _ _ _ _ Hs') as (y & Hy & [[Ey ->]|[Ey ->]]); [|by apply Hd].
    simpl in E. destruct (Hd s Hin ltac:(congruence)) as [?|?]; [done|lia].
Qed.

Lemma run_uevents_ended sid T later d :
  Forall (fun e : uevent => T <= e.1.1) later -> ended sid T (user_sessions d) ->
  ended sid T (user_sessions (run_uevents later d)).
Proof.
  intros Hl. revert d. induction Hl as [|[[now c] f] later HT _ IH]; intros d H; [done|]. unfold run_uevents. simpl.
  apply IH. exact (ended_step _ _ _ _ _ _ HT (call_step now c (Env d f)) H).
Qed.

Lemma ended_refused sid T now d :
  ended sid T (user_sessions d) -> T <= now ->
  (forall u f s', userServer.ValidateSession now u sid (Env d f) <> (Ret true, s')) /\
  (forall cur next e f r s', userServer.RefreshSession now sid cur next e (Env d f) <> (Ret r, s')).
Proof.
  intros [_ Hd] HT. split.
  - intros u f s' H. apply bind_Ret in H as (n & s1 & [-> _]%wrap_err_Ret%count_where_Ret & H). unfold ret in H.
    injection H as H _. cbn in H. replace (List.filter _ (user_sessions d)) with (@nil t) in H; [done|].
    symmetry. apply filter_nil. intros s Hs. apply not_true_iff_false. intros E.
    apply andb_true_iff in E as [[[E1 _]%andb_true_iff E2]%andb_true_iff E3].
    apply bool_decide_eq_true in E1, E2. destruct (Hd s Hs E1); [done|blia].
  - intros cur next e f r s' H. apply bind_Ret in H as (x & s1 & (y & Hf & Hr & He & _)%RotateSession_Ret & H).
    apply find_id_in in Hf as [Hin Hid]. apply bool_decide_eq_true in Hid. destruct (Hd y Hin Hid); [done|lia].
Qed.

(** C29: a session that has been revoked, or has expired, is over: whatever calls
    follow, with whatever faults, as long as the clock does not go back, it is never
    reported active and its token is never exchanged again. *)
Theorem ended_session_stays_ended sid T d later now :
  ended sid T (user_sessions d) -> Forall (fun e : uevent => T <= e.1.1) later -> T <= now ->
  (forall u f s', userServer.ValidateSession now u sid (Env (run_uevents later d) f) <> (Ret true, s')) /\
  (forall cur next e f r s',
     userServer.RefreshSession now sid cur next e (Env (run_uevents later d) f) <> (Ret r, s')).
Proof. intros He Hl. apply ended_refused. by apply run_uevents_ended. Qed.

(** *** A customer, a session on a phone, and a logout *)
Definition demo_customer : UserDO.t :=
  UserDO.mk 0 false false None "13800000000" None "hash" "" None "" 0 "" false false None.
Definition hash_a : string := "aaaaaaaaaaaaaaaaaaaaaaaaaaaaaaaa".
Definition hash_b : string := "bbbbbbbbbbbbbbbbbbbbbbbbbbbbbbbb".
Definition demo_u1 : user_db := run_uevents
  [(100, UCreate (Some demo_customer), []);
   (110, UCreateSession "s-1" 1 "" "phone" "" "" "" hash_a 1000, [])] empty_user_db.
Definition demo_u2 : user_db := run_uevents [(200, URevokeSession 1 "s-1", [])] demo_u1.

Definition demo_later : list uevent := [(250, URefreshSession "s-1" hash_a hash_b 2000, [])].
Definition demo_u2' : user_db := run_uevents demo_later demo_u2.

Lemma ended_session_stays_ended_witness :
  userServer.ValidateSession 300 1 "s-1" (Env demo_u2' []) <> (Ret true, Env demo_u2' []) /\
  userServer.ValidateSession 150 1 "s-1" (Env demo_u1 []) = (Ret true, Env demo_u1 []).
Proof.
  split; [|vm_compute; reflexivity].
  apply (ended_session_stays_ended "s-1" 200 demo_u2 demo_later 300); [|repeat constructor; simpl; lia|lia].
  split; [vm_compute; by left|]. intros s Hs _. left. revert s Hs.
  apply (proj1 (Forall_forall (fun s => RevokedAt s <> None) (user_sessions demo_u2))).
  vm_compute. repeat constructor. discriminate.
Defined.

(** ** A refresh token is spent by its use *)
Definition spent (sid h : string) (l : list t) : Prop :=
  sid ∈ ID <$> l /\ forall s, s ∈ l -> ID s = sid -> RefreshTokenHash s <> h.

(** The call does not install [h] as the token of the session again. *)
Definition keeps_spent (sid h : string) (c : ucall) : Prop :=
  match c with URefreshSession sid' _ next _ => sid' = sid -> next <> h | _ => True end.

Lemma spent_step sid h now d c l' :
  keeps_spent sid h c -> session_step now d c l' -> spent sid h (user_sessions d) -> spent sid h l'.
Proof.
  intros Hk Hs [He Hd]. destruct Hs as [c l' H|uuid u pt dev name ip loc h' e n Hn Hid _ _|sid' cur next e s Hin Hid Hr Hx _ _].
  - split; [by rewrite (revoked_ids _ _ _ H)|]. intros s' Hs' Hid.
    destruct (revoked_in _ _ _ _ H Hs') as (s & Hs & [->|[Hr ->]]); by apply (Hd s).
  - split; [rewrite fmap_app; set_solver|]. intros s [Hs| ->%list_elem_of_singleton]%elem_of_app E; [by apply Hd|congruence].
  - split; [by rewrite rotated_ids|]. intros s' Hs' E.
    destruct (rotated_in _ _ _ _ _ _ Hs') as (y & Hy & [[Ey ->]|[Ey ->]]); [|by apply Hd]. simpl in *. apply Hk. congruence.
Qed.

Lemma run_uevents_spent sid h later d :
  Forall (fun e : uevent => keeps_spent sid h e.1.2) later -> spent sid h (user_sessions d) ->
  spent sid h (user_sessions (run_uevents later d)).
Proof.
  intros Hl. revert d. induction Hl as [|[[now c] f] later HT _ IH]; intros d H; [done|]. unfold run_uevents. simpl.
  apply IH. exact (spent_step _ _ _ _ _ _ HT (call_step now c (Env d f)) H).
Qed.

Lemma rotation_spends sid cur next exp now s r s' :
  cur <> next -> sessions.RotateSession sid cur next exp now s = (Ret r, s') -> spent sid cur (user_sessions (e_db s')).
Proof.
  intros Hne (x & Hf & _ & _ & _ & _ & _ & ->)%RotateSession_Ret. apply find_id_in in Hf as [Hin Hid].
  apply bool_decide_eq_true in Hid. split; [rewrite rotated_ids; apply list_elem_of_fmap; eauto|].
  intros s1 H1 E1. destruct (rotated_in _ _ _ _ _ _ H1) as (y & _ & [[_ ->]|[? ->]]); simpl; congruence.
Qed.

(** A refresh token is exchanged once: after an exchange for another token, a
    second exchange of the first one is refused, whatever calls come between and
    whichever statements fail, unless a later exchange installs it again. *)
Theorem refresh_token_used_once now sid cur next e d f r s1 later now' next' e' f' r' s2 :
  userServer.RefreshSession now sid cur next e (Env d f) = (Ret r, s1) -> cur <> next ->
  Forall (fun ev : uevent => keeps_spent sid cur ev.1.2) later ->
  userServer.RefreshSession now' sid cur next' e' (Env (run_uevents later (e_db s1)) f') <> (Ret r', s2).
Proof.
  intros H Hne Hl H2. apply bind_Ret in H as (x & s' & H & Hr). unfold ret in Hr. injection Hr as _ <-.
  pose proof (run_uevents_spent _ _ _ _ Hl (rotation_spends _ _ _ _ _ _ _ _ Hne H)) as [_ Hs].
  apply bind_Ret in H2 as (x2 & s3 & (y & Hf & _ & _ & Hh & _)%RotateSession_Ret & _). cbn in Hf.
  apply find_id_in in Hf as [Hin Hid]. apply bool_decide_eq_true in Hid. by apply (Hs y).
Qed.

Definition demo_refreshed : env user_db :=
  (userServer.RefreshSession 200 "s-1" hash_a hash_b 1000 (Env demo_u1 [])).2.
Definition demo_dto : SessionDTO := MkSessionDTO "s-1" 1 "customer" "" "phone" "" "" "" 1000000000000.

Lemma refresh_token_used_once_witness :
  userServer.RefreshSession 200 "s-1" hash_a hash_b 1000 (Env demo_u1 []) = (Ret demo_dto, demo_refreshed) /\
  userServer.RefreshSession 300 "s-1" hash_a hash_b 1000 (Env (e_db demo_refreshed) []) <> (Ret demo_dto, demo_refreshed).
Proof.
  split; [vm_compute; reflexivity|].
  apply (refresh_token_used_once 200 "s-1" hash_a hash_b 1000 demo_u1 [] demo_dto demo_refreshed []);
    [vm_compute; reflexivity|discriminate|constructor].
Defined.

(** ** Calls that leave a table alone *)
Ltac same_go :=
  repeat (steps_step || frame_step || lazymatch goal with
    | |- steps _ (update_where _ _ _) => apply steps_update_where; [exact _|]
    | |- steps _ (users.appendAuditLogTx _ _ _ _ _ _ _ _) => apply steps_appendAuditLogTx; [exact _|]
    | |- Ignores _ _ => apply same_rows_ignores; done
    end).
Ltac unfold_server :=
  unfold userServer.RecordLogin, userServer.CreateSession, userServer.RefreshSession, userServer.RevokeSession,
    userServer.RevokeAllSessions, userServer.RevokeStaffSession, userServer.RevokeStaffUserSessions,
    userServer.AddDeviceBlacklist, userServer.DeleteDeviceBlacklist, userServer.CreateBreakGlassApproval,
    userServer.ApproveBreakGlassApproval, userServer.ConsumeBreakGlassApproval,
    userService.CreateSession, userService.RefreshSession, userService.RevokeSession, userService.RevokeAllSessions,
    userService.RevokeStaffSession, userService.RevokeStaffUserSessions, userService.AddDeviceBlacklist,
    userService.DeleteDeviceBlacklist, userService.CreateBreakGlassApproval, userService.ApproveBreakGlassApproval,
    userService.ConsumeBreakGlassApproval,
    sessions.CreateSession, sessions.check_device, sessions.insert_session, sessions.RotateSession,
    sessions.RevokeSession, sessions.RevokeAllSessions, sessions.RevokeStaffSession, sessions.RevokeStaffUserSessions,
    sessions.AddDeviceBlacklist, sessions.DeleteDeviceBlacklist, breakglass.CreateBreakGlassApproval,
    breakglass.ApproveBreakGlassApproval, breakglass.ConsumeBreakGlassApproval, users.RequestAccountDeletion.

Definition blocks (c : ucall) : bool :=
  match c with UAddDeviceBlacklist _ _ | UDeleteDeviceBlacklist _ _ => true | _ => false end.

Lemma blacklist_same now c : blocks c = false -> steps (same_rows t_blacklist) (run_ucall now c).
Proof.
  intros Hc. destruct (account_call c) eqn:Ha.
  { apply steps_account_call; try exact _; try (by apply same_rows_ignores); done. }
  destruct c; try done; cbn [run_ucall]; unfold_server; same_go.
Qed.

(** ** Blocked devices have no live session *)
Definition blocked_idle (d : user_db) : Prop :=
  forall b s, b ∈ user_device_blacklist d -> s ∈ user_sessions d ->
    UserID s = DeviceBlacklistDO.UserID b -> DeviceID s = DeviceBlacklistDO.DeviceID b -> RevokedAt s <> None.

Lemma idle_step now d c l' bl :
  session_step now d c l' -> bl ⊆ user_device_blacklist d -> blocked_idle d ->
  forall b s, b ∈ bl -> s ∈ l' -> UserID s = DeviceBlacklistDO.UserID b -> DeviceID s = DeviceBlacklistDO.DeviceID b ->
    RevokedAt s <> None.
Proof.
  intros Hs Hsub Hi b s Hb Hin Eu Ed. specialize (Hsub b Hb).
  destruct Hs as [c l' H|uuid u pt dev name ip loc h' e n (_ & En1 & En2 & _) _ _ Hbl|sid' cur next e x Hx Hid Hr He _ _].
  - destruct (revoked_in _ _ _ _ H Hin) as (y & Hy & [->|[_ ->]]); [|done]. by apply (Hi b y).
  - apply elem_of_app in Hin as [Hin| ->%list_elem_of_singleton]; [by apply (Hi b s)|].
    pose proof (existsb_false_elem _ _ _ Hbl Hsub) as Hf. unfold sessions.on_device, seqb in Hf.
    rewrite <- Eu, <- Ed, En1, En2, Z.eqb_refl, bool_decide_eq_true_2 in Hf; done.
  - destruct (rotated_in _ _ _ _ _ _ Hin) as (y & Hy & [[_ ->]|[_ ->]]); by apply (Hi b y).
Qed.

Lemma AddDeviceBlacklist_Ret u dev now s r s' :
  sessions.AddDeviceBlacklist u dev now s = (Ret r, s') ->
  (forall b, b ∈ user_device_blacklist (e_db s') -> b ∈ user_device_blacklist (e_db s) \/
     (DeviceBlacklistDO.UserID b = u /\ DeviceBlacklistDO.DeviceID b = TrimSpace dev)) /\
  user_sessions (e_db s') =
    ((fun x => if sessions.device_session u (TrimSpace dev) x then revoke now x else x) <$> user_sessions (e_db s)).
Proof.
  unfold sessions.AddDeviceBlacklist. cbv zeta. intros H. apply bind_Ret in H as (? & ? & [_ ->]%fail_if_Ret & H).
  apply transaction_Ret in H as (s0 & s1 & <- & H & ->).
  apply bind_Ret in H as (? & s2 & H1%wrap_err_Ret%stmt_Ret & H).
  apply bind_Ret in H as (? & s3 & [_ E3]%wrap_err_Ret%update_where_Ret & H). unfold ret in H. injection H as _ <-.
  rewrite E3. cbn. destruct (existsb _ _).
  { injection H1 as _ E2. rewrite <- E2. split; [by left|done]. }
  destruct (negb _); [done|]. injection H1 as _ E2. rewrite <- E2. cbn. split; [|done].
  intros b [Hb| ->%list_elem_of_singleton]%elem_of_app; [by left|by right].
Qed.

Definition unblocks (d d' : user_db) : Prop := user_device_blacklist d' ⊆ user_device_blacklist d.
#[export] Instance unblocks_pre : PreOrder unblocks.
Proof. split; [by intros d x|]. intros d1 d2 d3. unfold unblocks. set_solver. Qed.
Lemma DeleteDeviceBlacklist_unblocks u dev : steps unblocks (sessions.DeleteDeviceBlacklist u dev).
Proof.
  unfold sessions.DeleteDeviceBlacklist, user_dberr. steps_go. apply steps_stmt; [exact _|]. intros d. unfold unblocks. cbn.
  intros b. rewrite !list_elem_of_In, filter_In. tauto.
Qed.

Lemma idle_call now c f d : blocked_idle d -> blocked_idle (ustep d (now, c, f)).
Proof.
  intros Hi. unfold ustep. cbn [fst snd]. pose proof (call_step now c (Env d f)) as Hs. cbn [e_db] in Hs.
  destruct (blocks c) eqn:Hb.
  2: { pose proof (blacklist_same now c Hb (Env d f)) as Hbl. unfold same_rows in Hbl. cbn in Hbl.
       intros b s H1 H2. eapply (idle_step _ _ _ _ _ Hs); [|done|exact H1|done]. cbn. by rewrite Hbl. }
  destruct c; try done; cbn [run_ucall] in *.
  - assert (atomic (userServer.AddDeviceBlacklist now userID deviceID)) as Ha.
    { apply atomic_bind; [apply steps_fail_if; exact _|intros []]. apply atomic_transaction. }
    specialize (Ha (Env d f)). destruct (userServer.AddDeviceBlacklist now userID deviceID (Env d f)) as [r s'] eqn:E.
    cbn [fst snd e_db] in *. destruct (is_ret r) eqn:Er; [|by rewrite Ha]. destruct r as [r|?|?]; try done.
    apply AddDeviceBlacklist_Ret in E as [Hbl Hss]. cbn in Hbl, Hss. intros b s H1 H2 Eu Ed.
    destruct (Hbl b H1) as [Hold|[B1 B2]].
    + by eapply (idle_step _ _ _ _ _ Hs (reflexivity _) Hi b s).
    + rewrite Hss in H2. apply list_elem_of_fmap in H2 as (y & -> & Hy). unfold sessions.device_session in *.
      destruct (RevokedAt y) eqn:Ey; [by case_match; rewrite ?Ey|].
      assert (UserID y = userID /\ DeviceID y = TrimSpace deviceID) as [F1 F2].
      { revert Eu Ed. rewrite B1, B2. by case_match. }
      unfold seqb. rewrite F1, F2, Z.eqb_refl, !bool_decide_eq_true_2 by done. done.
  - intros b s H1 H2. eapply (idle_step _ _ _ _ _ Hs); [|done|exact H1|done].
    apply (DeleteDeviceBlacklist_unblocks userID deviceID (Env d f)).
Qed.

Lemma ureachable_ind (I : user_db -> Prop) :
  (forall d, uinitial d -> I d) -> (forall d e, I d -> I (ustep d e)) -> forall d, ureachable d -> I d.
Proof.
  intros H0 Hs d (d0 & l & Hi & ->). apply H0 in Hi. clear H0. revert d0 Hi. unfold run_uevents.
  induction l as [|e l IH]; intros d0 Hi; [done|]. simpl. by apply IH, Hs.
Qed.

Lemma ureachable_idle d : ureachable d -> blocked_idle d.
Proof.
  apply ureachable_ind.
  - intros d0 (E & _) b s _ Hs. rewrite E in Hs. by apply elem_of_nil in Hs.
  - intros d0 [[now c] f]. apply idle_call.
Qed.

(** C30: a blocked device is out: in every state that calls reach one after
    another, no session whose stored device id is a blocked id of its user is
    live, so none is reported active, and no session can be created with that id.
    (Blocking trims the id and sessions store it as given, so the ids are compared
    as they are stored; the check and the insert of [CreateSession] are two
    statements, and a block that commits between them is not covered.) *)
Theorem blocked_device_is_out d b :
  ureachable d -> b ∈ user_device_blacklist d ->
  let u := DeviceBlacklistDO.UserID b in let dev := DeviceBlacklistDO.DeviceID b in
  (forall s, s ∈ user_sessions d -> UserID s = u -> DeviceID s = dev -> RevokedAt s <> None) /\
  (forall uuid now pt name ip loc h e f r s',
     userServer.CreateSession uuid now u pt dev name ip loc h e (Env d f) <> (Ret r, s')).
Proof.
  intros Hd Hb u dev. pose proof (ureachable_idle d Hd) as Hi.
  split; [intros s; by apply Hi|]. intros uuid now pt name ip loc h e f r s' H.
  apply bind_Ret in H as (n & s1 & (_ & Hbl & _)%CreateSession_Ret & _). cbn in Hbl.
  pose proof (existsb_false_elem _ _ _ Hbl Hb) as Hf. unfold sessions.on_device, seqb in Hf.
  rewrite Z.eqb_refl, bool_decide_eq_true_2 in Hf; done.
Qed.

Definition demo_u3 : user_db := run_uevents
  [(100, UCreate (Some demo_customer), []);
   (110, UCreateSession "s-1" 1 "" "phone" "" "" "" hash_a 1000, []);
   (120, UAddDeviceBlacklist 1 "phone", [])] empty_user_db.

Lemma blocked_device_is_out_witness :
  userServer.CreateSession "s-2" 300 1 "" "phone" "" "" "" hash_b 1000 (Env demo_u3 []) <>
    (Ret demo_dto, Env demo_u3 []) /\
  DeviceBlacklistDO.mk 1 "phone" 120 ∈ user_device_blacklist demo_u3.
Proof.
  split; [|vm_compute; by left].
  destruct (blocked_device_is_out demo_u3 (DeviceBlacklistDO.mk 1 "phone" 120)) as [_ H].
  - eexists empty_user_db, _. split; [done|reflexivity].
  - vm_compute. by left.
  - apply (H "s-2" 300 "" "" "" "" hash_b 1000 [] demo_dto (Env demo_u3 [])).
Defined.
