(* ===== verification/BreakGlass.v ===== *)
(** * Break-glass approvals over any sequence of calls

    An approval moves from pending to approved, by somebody other than its
    requester, to used, once and by its requester, each step before it expires. *)
From S2P Require Import Prelude GoStrings Errors GoMonad Authz Tables.
From S2P Require Import UserModel UserStore SessionStore UserSessions SessionProperties.
Import BreakGlassApprovalDO.
Open Scope go_scope.

(** ** The life of one approval *)
Inductive approval_ok (a : t) : Prop :=
  | is_pending : Status a = "pending" -> ApprovedAt a = None -> UsedAt a = None -> approval_ok a
  | is_approved at_ : Status a = "approved" -> ApproverUserID a <> RequesterUserID a ->
      ApprovedAt a = Some at_ -> at_ < ExpiresAt a -> UsedAt a = None -> approval_ok a
  | is_used at_ used : Status a = "used" -> ApproverUserID a <> RequesterUserID a ->
      ApprovedAt a = Some at_ -> at_ < ExpiresAt a -> UsedAt a = Some used -> used < ExpiresAt a -> approval_ok a.

(** ** The steps of the table *)
Definition change (id : string) (f : t -> t) (l : list t) : list t :=
  (fun x => if breakglass.approval_id id x then f x else x) <$> l.

Inductive approvals_step (l : list t) : list t -> Prop :=
  | approvals_same : approvals_step l l
  | approvals_new a : Status a = "pending" -> ApprovedAt a = None -> UsedAt a = None -> ID a ∉ ID <$> l ->
      approvals_step l (l ++ [a])
  | approvals_approve a who req now :
      a ∈ l -> Status a = "pending" -> now < ExpiresAt a -> RequesterUserID a <> who ->
      approvals_step l (change (ID a) (approve who req now) l)
  | approvals_use a req now :
      a ∈ l -> Status a = "approved" -> now < ExpiresAt a -> UsedAt a = None ->
      approvals_step l (change (ID a) (use req now) l).

Lemma change_in id f l x' :
  x' ∈ change id f l -> exists x, x ∈ l /\ ((ID x = id /\ x' = f x) \/ (ID x <> id /\ x' = x)).
Proof.
  intros (x & -> & Hx)%list_elem_of_fmap. exists x. split; [done|]. unfold breakglass.approval_id, seqb.
  destruct (decide (ID x = id)) as [E|E]; [left|right]; (split; [done|]).
  - by rewrite bool_decide_eq_true_2.
  - by rewrite bool_decide_eq_false_2.
Qed.

Lemma change_ids id f l : (forall x, ID (f x) = ID x) -> ID <$> change id f l = ID <$> l.
Proof.
  intros Hf. unfold change. rewrite <- list_fmap_compose. apply list_fmap_ext. intros i x _. simpl.
  by destruct (breakglass.approval_id id x).
Qed.

Lemma nodup_id (l : list t) a x : NoDup (ID <$> l) -> a ∈ l -> x ∈ l -> ID x = ID a -> x = a.
Proof.
  intros Hn (i & Hi)%list_elem_of_lookup (j & Hj)%list_elem_of_lookup E.
  assert (i = j) as ->; [|congruence].
  apply (NoDup_lookup (ID <$> l) i j (ID a) Hn); rewrite list_lookup_fmap; [by rewrite Hi|rewrite Hj; simpl; by rewrite E].
Qed.

Definition approvals_ok (l : list t) : Prop := NoDup (ID <$> l) /\ Forall approval_ok l.

Lemma approvals_step_ok l l' : approvals_step l l' -> approvals_ok l -> approvals_ok l'.
Proof.
  intros Hs [Hn Hf]. destruct Hs as [|a E1 E2 E3 E4|a who req now Ha E1 E2 E3|a req now Ha E1 E2 E3].
  - done.
  - split; [rewrite fmap_app; by apply NoDup_snoc|]. apply Forall_app. split; [done|]. constructor; [|done]. by apply is_pending.
  - split; [by rewrite change_ids|]. apply Forall_forall. rewrite Forall_forall in Hf.
    intros x' Hx'. destruct (change_in _ _ _ _ Hx') as (x & Hx & [[Ex ->]|[_ ->]]); [|by apply Hf].
    rewrite (nodup_id _ _ _ Hn Ha Hx Ex). eapply is_approved; cbn; eauto.
    by destruct (Hf a Ha) as [? ? ?|? ? ? ? ?|? ? ? ? ? ?]; congruence.
  - split; [by rewrite change_ids|]. apply Forall_forall. rewrite Forall_forall in Hf.
    intros x' Hx'. destruct (change_in _ _ _ _ Hx') as (x & Hx & [[Ex ->]|[_ ->]]); [|by apply Hf].
    rewrite (nodup_id _ _ _ Hn Ha Hx Ex).
    destruct (Hf a Ha) as [? ? ?|at_ ? ? ? ? ?|? ? ? ? ? ? ? ?]; try congruence. eapply is_used; cbn; eauto.
Qed.

(** ** Every call is one step *)
Definition approves (c : ucall) : bool :=
  match c with UCreateApproval _ _ _ _ _ | UApprove _ _ _ | UConsume _ _ _ => true | _ => false end.

Lemma approvals_untouched now c : approves c = false -> steps (same_rows t_approvals) (run_ucall now c).
Proof.
  intros Hc. destruct (account_call c) eqn:Ha.
  { apply steps_account_call; try exact _; try (by apply same_rows_ignores); done. }
  destruct c; try done; cbn [run_ucall]; unfold_server; same_go.
Qed.

Lemma find_approval id l (a : t) : find (breakglass.approval_id id) l = Some a -> a ∈ l /\ ID a = id.
Proof. intros [Hin%list_elem_of_In H]%find_some. apply bool_decide_eq_true in H. done. Qed.

Lemma Approve_Ret id who req now s a' s' :
  breakglass.ApproveBreakGlassApproval id who req now s = (Ret a', s') ->
  exists a, a ∈ break_glass_approvals (e_db s) /\ ID a = id /\ Status a = "pending" /\ now < ExpiresAt a /\
    RequesterUserID a <> who /\ a' = approve who req now a /\
    break_glass_approvals (e_db s') = change id (approve who req now) (break_glass_approvals (e_db s)).
Proof.
  intros (s0 & s1 & <- & H & ->)%wrap_err_Ret%transaction_Ret.
  apply bind_Ret in H as (a & s2 & [Hf E2]%first_or_fail_Ret%select_first_Ret & H). symmetry in Hf. cbn in Hf.
  apply bind_Ret in H as (? & ? & [Hc ->]%fail_if_Ret & H). apply bind_Ret in H as (? & ? & [Hr ->]%fail_if_Ret & H).
  apply bind_Ret in H as (? & s3 & [_ E3]%update_where_Ret & H). unfold ret in H. injection H as <- <-.
  apply find_approval in Hf as [Hin Hid]. apply orb_false_iff in Hc as [H1 H2].
  apply negb_false_iff, bool_decide_eq_true in H1. apply negb_false_iff, Z.ltb_lt in H2. apply Z.eqb_neq in Hr.
  rewrite Hid, E2 in *. exists a. split_and!; try done. by rewrite E3.
Qed.

Lemma Consume_Ret id r req now s a' s' :
  breakglass.ConsumeBreakGlassApproval id r req now s = (Ret a', s') ->
  exists a, a ∈ break_glass_approvals (e_db s) /\ ID a = id /\ Status a = "approved" /\ RequesterUserID a = r /\
    now < ExpiresAt a /\ UsedAt a = None /\ a' = use req now a /\
    break_glass_approvals (e_db s') = change id (use req now) (break_glass_approvals (e_db s)).
Proof.
  intros (s0 & s1 & <- & H & ->)%wrap_err_Ret%transaction_Ret.
  apply bind_Ret in H as (a & s2 & [Hf E2]%first_or_fail_Ret%select_first_Ret & H). symmetry in Hf. cbn in Hf.
  apply bind_Ret in H as (? & ? & [Hc ->]%fail_if_Ret & H).
  apply bind_Ret in H as (? & s3 & [_ E3]%update_where_Ret & H). unfold ret in H. injection H as <- <-.
  apply find_approval in Hf as [Hin Hid].
  apply orb_false_iff in Hc as [[[H1 H2]%orb_false_iff H3]%orb_false_iff H4].
  apply negb_false_iff, bool_decide_eq_true in H1. apply negb_false_iff, Z.eqb_eq in H2.
  apply negb_false_iff, Z.ltb_lt in H3. apply bool_decide_eq_false in H4.
  rewrite Hid, E2 in *. exists a. split_and!; try done; [by destruct (UsedAt a); [destruct H4|]|by rewrite E3].
Qed.

Lemma approvals_call now c s :
  approvals_step (break_glass_approvals (e_db s)) (break_glass_approvals (e_db (run_ucall now c s).2)).
Proof.
  destruct (approves c) eqn:Hc.
  2: { pose proof (approvals_untouched now c Hc s) as E. unfold same_rows in E. cbn in E. rewrite E. apply approvals_same. }
  assert (atomic (run_ucall now c)) as Ha.
  { destruct c; try done; apply atomic_then; eauto.
    - apply atomic_bind; [apply steps_fail_if; exact _|intros []]. apply atomic_then; [|by eauto].
      apply atomic_bind; [apply steps_fail_if; exact _|intros []]. apply atomic_wrap_err, atomic_insert_new.
    - apply atomic_wrap_err, atomic_transaction.
    - apply atomic_wrap_err, atomic_transaction. }
  specialize (Ha s). destruct (run_ucall now c s) as [r s'] eqn:E. cbn [fst snd] in *.
  destruct (is_ret r) eqn:Er; [|rewrite Ha by done; apply approvals_same]. destruct r as [[]|?|?]; try done.
  destruct c; try done; cbn [run_ucall] in E; apply bind_Ret in E as (a & s1 & E & E2); unfold ret in E2; injection E2 as <-.
  - apply bind_Ret in E as (? & ? & [_ ->]%fail_if_Ret & E). cbv zeta in E.
    apply bind_Ret in E as (? & s2 & E & E2). unfold ret in E2. injection E2 as _ <-.
    apply bind_Ret in E as (? & ? & [_ ->]%fail_if_Ret & [Hd E]%wrap_err_Ret%insert_new_Ret). rewrite E. cbn.
    apply approvals_new; try done. intros (y & Ey & Hy)%list_elem_of_fmap.
    pose proof (existsb_false_elem _ _ _ Hd Hy) as Hf. apply bool_decide_eq_false in Hf. cbn in *. congruence.
  - apply Approve_Ret in E as (y & Hy & <- & H1 & H2 & H3 & _ & ->). by apply approvals_approve.
  - apply Consume_Ret in E as (y & Hy & <- & H1 & _ & H2 & H3 & _ & ->). by apply approvals_use.
Qed.

Lemma ureachable_approvals d : ureachable d -> approvals_ok (break_glass_approvals d).
Proof.
  revert d. apply (ureachable_ind (fun d => approvals_ok (break_glass_approvals d))).
  - intros d0 (_ & _ & ->). split; constructor.
  - intros d0 [[now c] f] H. exact (approvals_step_ok _ _ (approvals_call now c (Env d0 f)) H).
Qed.

(** ** Used is final *)
Definition used_up (id : string) (l : list t) : Prop :=
  id ∈ ID <$> l /\ forall a, a ∈ l -> ID a = id -> Status a = "used".

Lemma used_up_step id l l' : approvals_step l l' -> used_up id l -> used_up id l'.
Proof.
  intros Hs [He Hu]. destruct Hs as [|a E1 E2 E3 E4|a who req now Ha E1 E2 E3|a req now Ha E1 E2 E3].
  - done.
  - split; [rewrite fmap_app; set_solver|]. intros x [Hx| ->%list_elem_of_singleton]%elem_of_app E; [by apply Hu|congruence].
  - split; [by rewrite change_ids|]. intros x' Hx' E.
    destruct (change_in _ _ _ _ Hx') as (x & Hx & [[Ex ->]|[_ ->]]); [|by apply Hu]. cbn in E.
    specialize (Hu a Ha ltac:(congruence)). congruence.
  - split; [by rewrite change_ids|]. intros x' Hx' E.
    destruct (change_in _ _ _ _ Hx') as (x & Hx & [[Ex ->]|[_ ->]]); [done|by apply Hu].
Qed.

Lemma run_uevents_used id later d :
  used_up id (break_glass_approvals d) -> used_up id (break_glass_approvals (run_uevents later d)).
Proof.
  revert d. induction later as [|[[now c] f] later IH]; intros d H; [done|]. unfold run_uevents. simpl.
  apply IH. exact (used_up_step _ _ _ (approvals_call now c (Env d f)) H).
Qed.

(** C31: emergency access takes two people and works once: a break-glass approval is
    consumed only by its requester, after somebody else approved it, and before it
    expires; and whatever calls follow, nobody consumes it again. *)
Theorem break_glass_once d now id r req f a s' :
  ureachable d -> userServer.ConsumeBreakGlassApproval now id r req (Env d f) = (Ret a, s') ->
  (RequesterUserID a = r /\ ApproverUserID a <> r /\ now < ExpiresAt a /\
   exists at_, ApprovedAt a = Some at_ /\ at_ < ExpiresAt a) /\
  forall later now' r' req' f' a' s2,
    userServer.ConsumeBreakGlassApproval now' id r' req' (Env (run_uevents later (e_db s')) f') <> (Ret a', s2).
Proof.
  intros [Hn Hf]%ureachable_approvals H. apply Consume_Ret in H as (x & Hx & Hid & H1 & H2 & H3 & H4 & -> & E). cbn in Hx, E.
  rewrite Forall_forall in Hf. split.
  - destruct (Hf x Hx) as [? ? ?|at_ ? Hne Hat Hlt ?|? ? ? ? ? ? ? ?]; try congruence. cbn. split_and!; try done; [congruence|eauto].
  - assert (used_up (TrimSpace id) (break_glass_approvals (e_db s'))) as Hu.
    { rewrite E. split; [rewrite change_ids by done; rewrite <- Hid; by apply list_elem_of_fmap_2|].
      intros y Hy Ey. destruct (change_in _ _ _ _ Hy) as (z & _ & [[_ ->]|[? ->]]); [done|congruence]. }
    intros later now' r' req' f' a' s2 H'. pose proof (run_uevents_used _ later _ Hu) as [_ Hu'].
    apply Consume_Ret in H' as (y & Hy & Ey & H' & _). specialize (Hu' y Hy Ey). congruence.
Qed.

Definition demo_glass : user_db := run_uevents
  [(100, UCreateApproval "bg-1" 7 "database outage" "req-1" 1000, []); (200, UApprove "bg-1" 8 "req-2", [])] empty_user_db.

Definition demo_used : t :=
  mk "bg-1" 7 8 "used" "database outage" "req-3" 100 (Some 200) 1000000000000 (Some 300).
Definition demo_consumed : env user_db := (userServer.ConsumeBreakGlassApproval 300 "bg-1" 7 "req-3" (Env demo_glass [])).2.

Lemma break_glass_once_witness :
  userServer.ConsumeBreakGlassApproval 300 "bg-1" 7 "req-3" (Env demo_glass []) = (Ret demo_used, demo_consumed) /\
  userServer.ConsumeBreakGlassApproval 400 "bg-1" 7 "req-4" (Env (e_db demo_consumed) []) <> (Ret demo_used, demo_consumed).
Proof.
  split; [vm_compute; reflexivity|].
  destruct (break_glass_once demo_glass 300 "bg-1" 7 "req-3" [] demo_used demo_consumed) as [_ H].
  - eexists empty_user_db, _. split; [done|reflexivity].
  - vm_compute. reflexivity.
  - apply (H [] 400 7 "req-4" [] demo_used demo_consumed).
Defined.
