(* ===== verification/UserValidation.v ===== *)
(** * What a new account has to look like

    The checks of [app/user/srv/internal/service/v1/user.go] on names, mobile
    numbers, email addresses and passwords.  Go's [regexp] and the loops over a
    string work on its UTF-8 decoding, so both are modelled: the patterns are the
    source's, run by derivatives, and [matches_spec] ties the matcher to the language
    of the pattern. *)
From S2P Require Import Prelude GoStrings Errors Authz.

(** ** UTF-8 *)

(** The bytes that may follow the first one ([unicode/utf8]). *)
Definition between (lo hi : Z) (c : Ascii.ascii) : bool := (lo <=? code c) && (code c <=? hi).
Definition continues : Ascii.ascii -> bool := between 0x80 0xBF.
Definition second_ok (a b : Ascii.ascii) : bool :=
  if code a =? 0xE0 then between 0xA0 0xBF b
  else if code a =? 0xED then between 0x80 0x9F b
  else if code a =? 0xF0 then between 0x90 0xBF b
  else if code a =? 0xF4 then between 0x80 0x8F b
  else continues b.

(** The characters of a string; [None] is a byte that starts none. *)
Fixpoint decode (l : list Ascii.ascii) : list (option Z) :=
  match l with
  | [] => []
  | a :: l1 =>
    if code a <? 0x80 then Some (code a) :: decode l1 else
    match l1 with
    | [] => [None]
    | b :: l2 =>
      if between 0xC2 0xDF a && continues b
      then Some ((code a - 0xC0) * 64 + (code b - 0x80)) :: decode l2 else
      match l2 with
      | [] => None :: decode l1
      | c :: l3 =>
        if between 0xE0 0xEF a && second_ok a b && continues c
        then Some ((code a - 0xE0) * 4096 + (code b - 0x80) * 64 + (code c - 0x80)) :: decode l3 else
        match l3 with
        | [] => None :: decode l1
        | d :: l4 =>
          if between 0xF0 0xF4 a && second_ok a b && continues c && continues d
          then Some ((code a - 0xF0) * 262144 + (code b - 0x80) * 4096 + (code c - 0x80) * 64 + (code d - 0x80)) :: decode l4
          else None :: decode l1
        end
      end
    end
  end.

(** [for _, r := range s]: an invalid byte is U+FFFD. *)
Definition runes (s : string) : list Z := default 0xFFFD <$> decode (explode s).

(** ** Regular expressions *)
Module Regexp.

(** [Set_ false l] is a bracket expression, [Set_ true l] a negated one. *)
Inductive re :=
  | Void
  | Eps
  | Set_ (negated : bool) (ranges : list (Ascii.ascii * Ascii.ascii))
  | Cat (a b : re)
  | Alt (a b : re).

Definition in_set (negated : bool) (ranges : list (Ascii.ascii * Ascii.ascii)) (r : Z) : bool :=
  xorb negated (existsb (fun '(lo, hi) => (code lo <=? r) && (r <=? code hi)) ranges).

(** The language of a pattern. *)
Inductive matches : re -> list Z -> Prop :=
  | matches_Eps : matches Eps []
  | matches_Set negated ranges r : in_set negated ranges r = true -> matches (Set_ negated ranges) [r]
  | matches_Cat a b l1 l2 : matches a l1 -> matches b l2 -> matches (Cat a b) (l1 ++ l2)
  | matches_Alt_l a b l : matches a l -> matches (Alt a b) l
  | matches_Alt_r a b l : matches b l -> matches (Alt a b) l.

Fixpoint nullable (e : re) : bool :=
  match e with
  | Void | Set_ _ _ => false
  | Eps => true
  | Cat a b => nullable a && nullable b
  | Alt a b => nullable a || nullable b
  end.

Definition cat (a b : re) : re := match a with Void => Void | Eps => b | _ => Cat a b end.
Definition alt (a b : re) : re := match a, b with Void, _ => b | _, Void => a | _, _ => Alt a b end.
Fixpoint deriv (r : Z) (e : re) : re :=
  match e with
  | Void | Eps => Void
  | Set_ negated ranges => if in_set negated ranges r then Eps else Void
  | Cat a b => if nullable a then alt (cat (deriv r a) b) (deriv r b) else cat (deriv r a) b
  | Alt a b => alt (deriv r a) (deriv r b)
  end.
Fixpoint match_runes (e : re) (l : list Z) : bool :=
  match l with [] => nullable e | r :: l => match_runes (deriv r e) l end.

(** [MatchString] of [^e$]. *)
Definition MatchString (e : re) (s : string) : bool := match_runes e (runes s).

(** *** The matcher decides the language *)
Lemma matches_Cat_inv a b l : matches (Cat a b) l <-> exists l1 l2, l = l1 ++ l2 /\ matches a l1 /\ matches b l2.
Proof. split; [inversion 1; eauto|]. intros (? & ? & -> & ? & ?). by constructor. Qed.
Lemma matches_Alt_inv a b l : matches (Alt a b) l <-> matches a l \/ matches b l.
Proof. split; [inversion 1; eauto|]. intros [?|?]; [by apply matches_Alt_l|by apply matches_Alt_r]. Qed.
Lemma matches_Set_inv n l w : matches (Set_ n l) w <-> exists r, w = [r] /\ in_set n l r = true.
Proof. split; [inversion 1; eauto|]. intros (? & -> & ?). by constructor. Qed.
Lemma matches_Eps_inv l : matches Eps l <-> l = [].
Proof. split; [by inversion 1|]. intros ->. constructor. Qed.
Lemma matches_Void_inv l : matches Void l <-> False.
Proof. split; [inversion 1|done]. Qed.

Lemma nullable_spec e : nullable e = true <-> matches e [].
Proof.
  induction e as [| |n l|a IHa b IHb|a IHa b IHb]; cbn [nullable].
  - by rewrite matches_Void_inv.
  - by rewrite matches_Eps_inv.
  - rewrite matches_Set_inv. split; [done|]. by intros (? & ? & _).
  - rewrite andb_true_iff, IHa, IHb, matches_Cat_inv. split; [by intros [? ?]; exists [], []|].
    intros (l1 & l2 & E & H1 & H2). symmetry in E. apply app_nil in E as [-> ->]. done.
  - by rewrite orb_true_iff, IHa, IHb, matches_Alt_inv.
Qed.

Lemma cat_spec a b l : matches (cat a b) l <-> matches (Cat a b) l.
Proof.
  destruct a; cbn [cat]; try done; rewrite matches_Cat_inv.
  - rewrite matches_Void_inv. split; [done|]. by intros (? & ? & _ & H%matches_Void_inv & _).
  - split; [intros H; exists [], l; split; [done|]; split; [constructor|done]|].
    intros (? & ? & -> & ->%matches_Eps_inv & ?). done.
Qed.
Lemma alt_spec a b l : matches (alt a b) l <-> matches (Alt a b) l.
Proof.
  assert (forall x, matches x l <-> matches (Alt Void x) l) as Hl by (intros x; rewrite matches_Alt_inv, matches_Void_inv; tauto).
  assert (forall x, matches x l <-> matches (Alt x Void) l) as Hr by (intros x; rewrite matches_Alt_inv, matches_Void_inv; tauto).
  destruct a, b; cbn [alt]; first [done|apply Hl|apply Hr].
Qed.

Lemma deriv_spec r e l : matches (deriv r e) l <-> matches e (r :: l).
Proof.
  revert l. induction e as [| |n rs|a IHa b IHb|a IHa b IHb]; intros l; cbn [deriv].
  - by rewrite !matches_Void_inv.
  - rewrite matches_Void_inv, matches_Eps_inv. done.
  - rewrite matches_Set_inv. destruct (in_set n rs r) eqn:E.
    + rewrite matches_Eps_inv. split; [intros ->; by exists r|]. by intros (? & [= -> ->] & _).
    + rewrite matches_Void_inv. split; [done|]. intros (? & [= -> ->] & H). congruence.
  - assert (matches (cat (deriv r a) b) l <-> exists l1 l2, l = l1 ++ l2 /\ matches a (r :: l1) /\ matches b l2) as Hc.
    { rewrite cat_spec, matches_Cat_inv. by setoid_rewrite IHa. }
    assert (matches (Cat a b) (r :: l) <->
      (exists l1 l2, l = l1 ++ l2 /\ matches a (r :: l1) /\ matches b l2) \/ (matches a [] /\ matches b (r :: l))) as Hs.
    { rewrite matches_Cat_inv. split.
      - intros ([|x l1] & l2 & E & H1 & H2); simpl in E; [right; by rewrite E|left].
        injection E as -> ->. eauto.
      - intros [(l1 & l2 & -> & H1 & H2)|[H1 H2]]; [by exists (r :: l1), l2|by exists [], (r :: l)]. }
    rewrite Hs, <- nullable_spec. destruct (nullable a); [rewrite alt_spec, matches_Alt_inv, Hc, IHb|rewrite Hc]; naive_solver.
  - by rewrite alt_spec, !matches_Alt_inv, IHa, IHb.
Qed.

Lemma match_runes_spec e l : match_runes e l = true <-> matches e l.
Proof.
  revert e. induction l as [|r l IH]; intros e; cbn [match_runes]; [apply nullable_spec|].
  by rewrite IH, deriv_spec.
Qed.

(** *** Repetition *)

(** [e{n}] and [e{0,n}]. *)
Fixpoint times (n : nat) (e : re) : re := match n with O => Eps | S n => Cat e (times n e) end.
Fixpoint upto (n : nat) (e : re) : re := match n with O => Eps | S n => Alt Eps (Cat e (upto n e)) end.
(** [e{n,m}]. *)
Definition repeat_ (n m : nat) (e : re) : re := Cat (times n e) (upto (m - n) e).

Lemma times_set n neg rs l :
  matches (times n (Set_ neg rs)) l <-> length l = n /\ Forall (fun r => in_set neg rs r = true) l.
Proof.
  revert l. induction n as [|n IH]; intros l; cbn [times].
  - rewrite matches_Eps_inv. split; [by intros ->|]. by intros [->%nil_length_inv _].
  - rewrite matches_Cat_inv. split.
    + intros (l1 & l2 & -> & (r & -> & Hr)%matches_Set_inv & [<- Hl]%IH). split; [done|]. by constructor.
    + intros [Hn Hl]. destruct l as [|r l]; [done|]. injection Hn as Hn. apply Forall_cons in Hl as [Hr Hl].
      exists [r], l. split; [done|]. rewrite IH, matches_Set_inv. eauto.
Qed.
Lemma upto_set n neg rs l :
  matches (upto n (Set_ neg rs)) l <-> (length l <= n)%nat /\ Forall (fun r => in_set neg rs r = true) l.
Proof.
  revert l. induction n as [|n IH]; intros l; cbn [upto].
  - rewrite matches_Eps_inv. split; [by intros ->|]. intros [H _]. by destruct l; [|simpl in H; lia].
  - rewrite matches_Alt_inv, matches_Eps_inv, matches_Cat_inv. split.
    + intros [->|(l1 & l2 & -> & (r & -> & Hr)%matches_Set_inv & [Hn Hl]%IH)]; [split; [simpl; lia|done]|].
      split; [simpl; lia|]. by constructor.
    + intros [Hn Hl]. destruct l as [|r l]; [by left|right]. simpl in Hn. apply Forall_cons in Hl as [Hr Hl].
      exists [r], l. split; [done|]. rewrite IH, matches_Set_inv. split; [eauto|split; [lia|done]].
Qed.
Lemma repeat_set n m neg rs l :
  (n <= m)%nat ->
  matches (repeat_ n m (Set_ neg rs)) l <-> (n <= length l <= m)%nat /\ Forall (fun r => in_set neg rs r = true) l.
Proof.
  intros Hnm. unfold repeat_. rewrite matches_Cat_inv. split.
  - intros (l1 & l2 & -> & [H1 F1]%times_set & [H2 F2]%upto_set). rewrite length_app, Forall_app. split; [lia|done].
  - intros [Hl F]. exists (take n l), (drop n l). rewrite take_drop, times_set, upto_set, length_take, length_drop.
    split; [done|]. split; (split; [lia|]); [by apply Forall_take|by apply Forall_drop].
Qed.
End Regexp.

(** ** The patterns *)
Section Patterns.
Import Regexp.
Definition chr (c : Ascii.ascii) : re := Set_ false [(c, c)].
Definition one_of (ranges : list (Ascii.ascii * Ascii.ascii)) : re := Set_ false ranges.
Definition digit : Ascii.ascii * Ascii.ascii := ("0", "9")%char.
Definition lower : Ascii.ascii * Ascii.ascii := ("a", "z")%char.
Definition upper : Ascii.ascii * Ascii.ascii := ("A", "Z")%char.
Definition single (c : Ascii.ascii) : Ascii.ascii * Ascii.ascii := (c, c).

(** [^\[A-Za-z\]\[A-Za-z0-9_\]{2,31}$] *)
Definition usernamePattern : re :=
  Cat (one_of [upper; lower]) (repeat_ 2 31 (one_of [upper; lower; digit; single "_"])).
(** [^1(\[38\]\[0-9\]|14\[579\]|5\[^4\]|16\[6\]|7\[1-35-8\]|9\[189\])\d{8}$] *)
Definition mobilePattern : re :=
  Cat (chr "1") (Cat
    (Alt (Cat (one_of [single "3"; single "8"]) (one_of [digit]))
    (Alt (Cat (chr "1") (Cat (chr "4") (one_of [single "5"; single "7"; single "9"])))
    (Alt (Cat (chr "5") (Set_ true [single "4"]))
    (Alt (Cat (chr "1") (Cat (chr "6") (one_of [single "6"])))
    (Alt (Cat (chr "7") (one_of [("1", "3")%char; ("5", "8")%char]))
         (Cat (chr "9") (one_of [single "1"; single "8"; single "9"])))))))
    (times 8 (one_of [digit]))).
(** [^\[a-z\]\[a-z0-9_\]{2,63}$] *)
Definition roleNamePattern : re :=
  Cat (one_of [lower]) (repeat_ 2 63 (one_of [lower; digit; single "_"])).
End Patterns.

(** ** What the checks take from outside

    The Unicode tables above U+00FF, [net.ParseIP] on the inside of a domain literal,
    bcrypt with the salt it draws, and the PBKDF2 check of old passwords. *)
Class account_libs := {
  upper_table : Z -> bool;
  lower_table : Z -> bool;
  digit_table : Z -> bool;
  ip_literal : list (option Z) -> bool;
  GenerateFromPassword : string -> string -> option string;
  CompareHashAndPassword : string -> string -> bool;
  VerifyPbkdf2 : string -> string -> string -> bool
}.

(** bcrypt accepts up to 72 bytes, and what it makes of them it recognises. *)
Class account_laws (L : account_libs) := {
  Generate_some salt source : (slength source <= 72)%nat -> is_Some (GenerateFromPassword salt source);
  Compare_generated salt source hash :
    GenerateFromPassword salt source = Some hash -> CompareHashAndPassword hash source = true
}.

(** ** [unicode] *)
Definition IsSpace (r : Z) : bool :=
  if r <=? 0xFF then ((9 <=? r) && (r <=? 13)) || (r =? 32) || (r =? 0x85) || (r =? 0xA0)
  else (r =? 0x1680) || ((0x2000 <=? r) && (r <=? 0x200A)) || (r =? 0x2028) || (r =? 0x2029) ||
       (r =? 0x202F) || (r =? 0x205F) || (r =? 0x3000).

Section Checks.
Context `{L : account_libs}.

Definition IsUpper (r : Z) : bool :=
  if r <=? 0xFF then ((65 <=? r) && (r <=? 90)) || ((0xC0 <=? r) && (r <=? 0xDE) && negb (r =? 0xD7))
  else upper_table r.
Definition IsLower (r : Z) : bool :=
  if r <=? 0xFF then ((97 <=? r) && (r <=? 122)) || (r =? 0xB5) || ((0xDF <=? r) && negb (r =? 0xF7))
  else lower_table r.
Definition IsDigit (r : Z) : bool :=
  if r <=? 0xFF then (48 <=? r) && (r <=? 57) else digit_table r.

(** ** Passwords *)
Definition minPasswordLength : Z := 8.
Definition maxPasswordBytes : Z := 72.

(** The loop, with the four flags; [None] is [return false]. *)
Fixpoint scan_password (l : list Z) (hasUpper hasLower hasDigit hasSpecial : bool)
    : option (bool * bool * bool * bool) :=
  match l with
  | [] => Some (hasUpper, hasLower, hasDigit, hasSpecial)
  | r :: l =>
    if IsSpace r then None
    else if IsUpper r then scan_password l true hasLower hasDigit hasSpecial
    else if IsLower r then scan_password l hasUpper true hasDigit hasSpecial
    else if IsDigit r then scan_password l hasUpper hasLower true hasSpecial
    else scan_password l hasUpper hasLower hasDigit true
  end.
Definition isStrongPassword (password : string) : bool :=
  if (Z.of_nat (length (runes password)) <? minPasswordLength) || (maxPasswordBytes <? Z.of_nat (slength password))
  then false
  else match scan_password (runes password) false false false false with
       | Some (hasUpper, hasLower, hasDigit, hasSpecial) => hasUpper && hasLower && hasDigit && hasSpecial
       | None => false
       end.

(** ** Email addresses

    [mail.ParseAddress(value)] with an empty name and [value] itself as the address:
    the local part and the domain are then written without quotes, comments or white
    space, the domain possibly as a bracketed IP address. *)
Definition specials : list Z := code <$> explode "()<>[]:;@\,"%string ++ [Ascii.ascii_of_N 34].
Definition isAtext (r : Z) : bool :=
  ((33 <=? r) && (r <=? 126) || (0x80 <=? r)) && negb (bool_decide (r ∈ specials)).
Fixpoint double_dot (l : list (option Z)) : bool :=
  match l with
  | Some 46 :: (Some 46 :: _) as l' => true
  | _ :: l' => double_dot l'
  | [] => false
  end.
Definition consumeAtom (l : list (option Z)) : bool :=
  forallb (fun o => match o with Some r => isAtext r | None => false end) l &&
  bool_decide (l <> []) && negb (bool_decide (head l = Some (Some 46))) &&
  negb (bool_decide (last l = Some (Some 46))) && negb (double_dot l).
Definition consumeDomainLiteral (l : list (option Z)) : bool :=
  match l with
  | Some 91 :: l' => match rev l' with Some 93 :: text => ip_literal (rev text) | _ => false end
  | _ => false
  end.
(** The text before and after the first [@]. *)
Fixpoint cut_at (l : list (option Z)) : option (list (option Z) * list (option Z)) :=
  match l with
  | [] => None
  | Some 64 :: l => Some ([], l)
  | o :: l => p ← cut_at l; Some (o :: p.1, p.2)
  end.
Definition isEmailAddress (value : string) : bool :=
  match cut_at (decode (explode value)) with
  | Some (localPart, domain) => consumeAtom localPart && (consumeAtom domain || consumeDomainLiteral domain)
  | None => false
  end.
End Checks.

(** ** Normal forms *)
Definition normalize (value : string) : string := ToLower (TrimSpace value).
Definition normalizeUsername (value : string) : option string :=
  let value := normalize value in if bool_decide (value = "") then None else Some value.
Definition normalizeEmail (value : string) : option string :=
  let value := normalize value in if bool_decide (value = "") then None else Some value.
Definition normalizeLoginIdentifier (value : string) : string := normalize value.

(** ** What the patterns accept *)
Section Accepted.
Import Regexp.

Lemma match_spec e s : MatchString e s = true <-> matches e (runes s).
Proof. apply match_runes_spec. Qed.

Lemma in_one_of ranges r :
  in_set false ranges r = true <-> exists lo hi, (lo, hi) ∈ ranges /\ code lo <= r <= code hi.
Proof.
  unfold in_set. rewrite xorb_false_l, existsb_exists. split.
  - intros ([lo hi] & Hin%list_elem_of_In & H). exists lo, hi. split; [done|blia].
  - intros (lo & hi & Hin%list_elem_of_In & H). exists (lo, hi). split; [done|blia].
Qed.
Lemma chr_spec c l : matches (chr c) l <-> l = [code c].
Proof.
  unfold chr. rewrite matches_Set_inv. setoid_rewrite in_one_of. split.
  - intros (r & -> & lo & hi & [= -> ->]%list_elem_of_singleton & H). do 2 f_equal. lia.
  - intros ->. exists (code c). split; [done|]. exists c, c. split; [set_solver|lia].
Qed.

(** The eight digits a mobile number ends in, and the three characters before. *)
Definition digits8 (l : list Z) : Prop := length l = 8%nat /\ Forall (fun r => 48 <= r <= 57) l.
Definition mobile_head (l : list Z) : Prop :=
  match l with
  | [a; b] => (a = 51 \/ a = 56) /\ 48 <= b <= 57 \/ a = 53 /\ b <> 52 \/
              a = 55 /\ (49 <= b <= 51 \/ 53 <= b <= 56) \/ a = 57 /\ (b = 49 \/ b = 56 \/ b = 57)
  | [a; b; c] => a = 49 /\ (b = 52 /\ (c = 53 \/ c = 55 \/ c = 57) \/ b = 54 /\ c = 54)
  | _ => False
  end.

Lemma digit_set r : in_set false [digit] r = true <-> 48 <= r <= 57.
Proof.
  rewrite in_one_of. split; [by intros (? & ? & [= -> ->]%list_elem_of_singleton & ?)|].
  intros H. exists "0"%char, "9"%char. split; [set_solver|done].
Qed.
Lemma digits8_spec l : matches (times 8 (one_of [digit])) l <-> digits8 l.
Proof. unfold one_of. rewrite times_set. unfold digits8. by setoid_rewrite digit_set. Qed.

(** Split a word along the pattern it matches, and turn the tests on its characters
    into arithmetic. *)
Ltac eval_codes :=
  repeat match goal with
         | H : context [code (Ascii.Ascii ?a ?b ?c ?d ?e ?f ?g ?h)] |- _ =>
           let x := constr:(code (Ascii.Ascii a b c d e f g h)) in
           let v := eval vm_compute in x in change x with v in H
         | |- context [code (Ascii.Ascii ?a ?b ?c ?d ?e ?f ?g ?h)] =>
           let x := constr:(code (Ascii.Ascii a b c d e f g h)) in
           let v := eval vm_compute in x in change x with v
         end.
Ltac set_prop H :=
  unfold in_set, single, digit, lower, upper in H; cbn [existsb] in H;
  rewrite ?orb_false_r, ?xorb_true_l, ?xorb_false_l in H; eval_codes; bprop.
Ltac split_word :=
  repeat match goal with
         | H : matches (Alt _ _) _ |- _ => apply matches_Alt_inv in H as [H|H]
         | H : matches (Cat _ _) _ |- _ => apply matches_Cat_inv in H as (? & ? & -> & ? & H)
         | H : matches (chr _) _ |- _ => apply chr_spec in H as ->
         | H : matches (one_of _) _ |- _ => apply matches_Set_inv in H as (? & -> & H); set_prop H
         | H : matches (Set_ _ _) _ |- _ => apply matches_Set_inv in H as (? & -> & H); set_prop H
         end.

Lemma cat_cons a b r l : matches a [r] -> matches b l -> matches (Cat a b) (r :: l).
Proof. intros Ha Hb. by apply (matches_Cat a b [r] l). Qed.
Lemma chr_one c r : r = code c -> matches (chr c) [r].
Proof. intros ->. by apply chr_spec. Qed.
(** Build the word of a pattern character by character. *)
Ltac build_word :=
  first
    [ apply matches_Alt_l; solve [build_word]
    | apply matches_Alt_r; solve [build_word]
    | apply cat_cons; solve [build_word]
    | apply chr_one; eval_codes; lia
    | apply matches_Set; unfold in_set, single, digit; cbn [existsb]; eval_codes;
      rewrite ?orb_false_r, ?xorb_true_l, ?xorb_false_l; blia ].

Lemma mobile_spec s :
  MatchString mobilePattern s = true <-> exists mid tail, runes s = 49 :: mid ++ tail /\ mobile_head mid /\ digits8 tail.
Proof.
  rewrite match_spec. unfold mobilePattern. split.
  - intros (l1 & l2 & -> & ->%chr_spec & (mid & tail & -> & Hm & Ht%digits8_spec)%matches_Cat_inv)%matches_Cat_inv.
    exists mid, tail. split; [done|]. split; [|done]. split_word; cbn [app mobile_head]; eval_codes; lia.
  - intros (mid & tail & -> & Hm & Ht%digits8_spec). apply cat_cons; [by apply chr_one|].
    apply matches_Cat; [|done]. clear Ht.
    destruct mid as [|a [|b [|c [|]]]]; try done; cbn [mobile_head] in Hm.
    + destruct Hm as [[[->| ->] ?]|[[-> ?]|[[-> ?]|[-> ?]]]]; build_word.
    + destruct Hm as [-> [[-> ?]|[-> ->]]]; build_word.
Qed.

(** A name starts with a letter and has no [@]. *)
Lemma username_runes s :
  MatchString usernamePattern s = true ->
  exists r l, runes s = r :: l /\ 65 <= r <= 122 /\ 64 ∉ runes s.
Proof.
  rewrite match_spec. intros (l1 & l & E & (r & -> & Hr)%matches_Set_inv & Hl)%matches_Cat_inv.
  apply repeat_set in Hl as [_ Hl]; [|lia]. exists r, l. rewrite E. split; [done|]. set_prop Hr. split; [lia|].
  intros [Er|Hin]%elem_of_cons; [lia|]. rewrite Forall_forall in Hl. specialize (Hl 64 Hin). vm_compute in Hl. done.
Qed.
(** A mobile number starts with 1, and when it has an [@] it is [15@] and eight
    digits. *)
Definition mail_like : re := Cat (chr "1") (Cat (chr "5") (Cat (chr "@") (times 8 (one_of [digit])))).
Lemma mobile_runes s :
  MatchString mobilePattern s = true ->
  head (runes s) = Some 49 /\ (64 ∈ runes s -> MatchString mail_like s = true).
Proof.
  intros (mid & tail & E & Hm & Ht)%mobile_spec. rewrite match_spec, E. split; [done|]. intros Hin.
  assert (64 ∉ tail) as Hn.
  { intros Hin'. destruct Ht as [_ Ht]. rewrite Forall_forall in Ht. specialize (Ht _ Hin'). lia. }
  assert (mid = [53; 64]) as ->.
  { apply elem_of_cons in Hin as [?|[Hin|?]%elem_of_app]; [done| |done].
    destruct mid as [|a [|b [|c [|]]]]; try done; cbn [mobile_head] in Hm; set_unfold in Hin.
    - assert (a = 53 /\ b = 64) as [-> ->] by lia. done.
    - exfalso. lia. }
  apply digits8_spec in Ht. apply cat_cons; [by apply chr_one|]. apply cat_cons; [by apply chr_one|].
  apply cat_cons; [by apply chr_one|done].
Qed.
End Accepted.

Lemma cut_at_in l p : cut_at l = Some p -> Some 64 ∈ l.
Proof.
  revert p. induction l as [|o l IH]; [done|]. intros p H.
  destruct (decide (o = Some 64)) as [->|Ho]; [left|right].
  assert (exists q, cut_at l = Some q) as [q Hq]; [|by eapply IH].
  destruct (cut_at l) as [q|] eqn:E; [by exists q|]. exfalso.
  cbn [cut_at] in H. rewrite E in H. destruct o as [z|]; [|done].
  destruct z as [|z|z]; try done. do 7 (destruct z as [z|z|]; try done).
Qed.
Lemma email_runes `{L : account_libs} s : isEmailAddress s = true -> 64 ∈ runes s.
Proof.
  unfold isEmailAddress, runes. destruct (cut_at (decode (explode s))) as [p|] eqn:E; [|done]. intros _.
  apply list_elem_of_fmap. exists (Some 64). split; [done|]. by eapply cut_at_in.
Qed.

(** ** What a strong password is *)
Section Passwords.
Context `{L : account_libs}.

Definition is_upper (r : Z) : bool := negb (IsSpace r) && IsUpper r.
Definition is_lower (r : Z) : bool := negb (IsSpace r) && negb (IsUpper r) && IsLower r.
Definition is_digit_rune (r : Z) : bool := negb (IsSpace r) && negb (IsUpper r) && negb (IsLower r) && IsDigit r.
Definition is_special (r : Z) : bool :=
  negb (IsSpace r) && negb (IsUpper r) && negb (IsLower r) && negb (IsDigit r).

Lemma scan_password_spec l u lo d sp :
  scan_password l u lo d sp =
  if existsb IsSpace l then None
  else Some (u || existsb is_upper l, lo || existsb is_lower l, d || existsb is_digit_rune l, sp || existsb is_special l).
Proof.
  revert u lo d sp. induction l as [|r l IH]; intros u lo d sp; cbn [scan_password existsb]; [by rewrite !orb_false_r|].
  unfold is_upper, is_lower, is_digit_rune, is_special. destruct (IsSpace r); [done|]. cbn [orb negb andb].
  destruct (IsUpper r); [|destruct (IsLower r); [|destruct (IsDigit r)]]; rewrite IH; destruct (existsb IsSpace l); try done;
    cbn [negb andb orb]; rewrite ?orb_true_r; done.
Qed.

Lemma isStrongPassword_spec password :
  isStrongPassword password = true <->
  (8 <= length (runes password))%nat /\ (slength password <= 72)%nat /\
  existsb IsSpace (runes password) = false /\ existsb is_upper (runes password) = true /\
  existsb is_lower (runes password) = true /\ existsb is_digit_rune (runes password) = true /\
  existsb is_special (runes password) = true.
Proof.
  unfold isStrongPassword, minPasswordLength, maxPasswordBytes. rewrite scan_password_spec. cbn [orb].
  destruct (_ || _) eqn:E; [split; [done|]; intros (? & ? & _); blia|].
  destruct (existsb IsSpace _); [split; [done|]; by intros (_ & _ & ? & _)|].
  rewrite !andb_true_iff. apply orb_false_iff in E as [E1 E2]. split; [|tauto]. intros [[[-> ->] ->] ->]. split_and!; try done; blia.
Qed.
End Passwords.
