(* ===== verification/UserAccounts.v ===== *)
(** * Accounts, staff roles, scopes and audit logs: service and gRPC server

    [app/user/srv/internal/service/v1/user.go], the handlers of
    [app/user/srv/internal/controller/user] that call it, and the paged list of the
    store.  A [*UserDTO] the service fills in place is passed on as the value it has
    then; the clock, [uuid.NewString()] and the salt bcrypt draws are arguments.  The
    store implements the scope and deletion interfaces, so the branches for a store
    that does not are left out. *)
From S2P Require Import Prelude GoStrings Errors GoMonad Authz Tables UserModel UserStore UserSessions UserValidation.
Open Scope go_scope.

(** ** Values of the service *)
Record UserPublicDTO := MkUserPublicDTO {
  PubID : Z; PubUsername : option string; PubMobile : string; PubEmail : option string; PubNickName : string;
  PubBirthday : option Z; PubGender : string; PubStatus : string; PubMobileVerified : bool;
  PubEmailVerified : bool; PubLastLoginAt : option Z
}.
Record UserAuthDTO := MkUserAuthDTO {
  AuthPublic : UserPublicDTO; PasswordHash : string; LegacyRole : Z; AuthRoles : list string;
  AuthGranted : list string; AuthDomains : gset string; AuthStores : gset string; AuthTeams : gset string;
  AuthScopes : list ResourceScope.t
}.
Record StaffRoleDTO := MkStaffRoleDTO {
  RoleName : string; RoleDescription : string; RoleGranted : list string; RoleBuiltin : bool;
  RoleOwnDomains : list string
}.
Record UserRoleBindingDTO := MkUserRoleBindingDTO {
  BindingUserID : Z; BindingRoles : list string; BindingPermissions : list string
}.
Record StaffUserDTO := MkStaffUserDTO {
  StaffUser : UserPublicDTO; StaffUserRoles : list string; StaffUserPermissions : list string
}.
Record AuditActorDTO := MkAuditActorDTO { ActorUserID : Z; ActorPrincipal : string }.

(** [applyOrderBy]: the columns a caller may sort by. *)
Definition userOrderColumns : list string :=
  ["id"; "username"; "mobile"; "email"; "nick_name"; "birthday"; "gender"; "role"; "add_time"; "update_time"].
Definition parseOrderBy (value : string) (allowedColumns : list string) : option (string * bool) :=
  let value := TrimSpace (RemoveAll value "`"%char) in
  if seqb value "" then None else
  match Fields value with
  | [] => None
  | [c] => if bool_decide (ToLower c ∈ allowedColumns) then Some (ToLower c, false) else None
  | [c; d] =>
    if bool_decide (ToLower c ∈ allowedColumns) then
      if seqb (ToLower d) "asc" then Some (ToLower c, false)
      else if seqb (ToLower d) "desc" then Some (ToLower c, true)
      else None
    else None
  | _ => None
  end.
Definition order_columns (orderBy : list string) : list (string * bool) :=
  omap (fun value => parseOrderBy value userOrderColumns) orderBy.

(** [users.List]; [arrange] is the order MySQL gives the rows for the columns. *)
Definition list_users (arrange : list (string * bool) -> list UserDO.t -> list UserDO.t)
    (orderBy : list string) (page_no pageSize : Z) : M user_db (list UserDO.t * Z) :=
  let limit := if pageSize =? 0 then 10 else pageSize in
  let offset := if 0 <? page_no then wrap64 ((page_no - 1) * limit) else 0 in
  total <- user_dberr (count_where t_user users.alive) ;;
  found <- user_dberr (select_where t_user users.alive) ;;
  ret (page offset limit (arrange (order_columns orderBy) found), total).

Module accounts.
Section Service.
Context `{L : account_libs}.
Import UserDO.

Definition required : goerr := newCode ErrValidation "用户信息不能为空".
Definition missing : goerr := newCode ErrUserNotFound "用户不存在".
(** [newValidationError]: the specification carries the message, and [NewSpec] takes
    the registered one. *)
Definition newValidationError (message : string) : goerr :=
  NewSpec app_codes (MkSpec ErrValidation KindInvalidArgument message "") message.

(** ** Identifiers *)
Definition value_of (o : option string) : string := match o with Some v => v | None => "" end.
Definition set_identifiers (username email : option string) (mobile : string) (u : t) : t :=
  mk (ID u) (DeletedAt u) (IsDeleted u) username mobile email (Password u) (NickName u) (Birthday u) (Gender u)
    (Role u) (Status u) (MobileVerified u) (EmailVerified u) (LastLoginAt u).
Definition set_Role (v : Z) (u : t) : t :=
  mk (ID u) (DeletedAt u) (IsDeleted u) (Username u) (Mobile u) (Email u) (Password u) (NickName u) (Birthday u)
    (Gender u) v (Status u) (MobileVerified u) (EmailVerified u) (LastLoginAt u).
Definition set_Gender (v : string) (u : t) : t :=
  mk (ID u) (DeletedAt u) (IsDeleted u) (Username u) (Mobile u) (Email u) (Password u) (NickName u) (Birthday u)
    v (Role u) (Status u) (MobileVerified u) (EmailVerified u) (LastLoginAt u).
Definition set_Password (v : string) (u : t) : t :=
  mk (ID u) (DeletedAt u) (IsDeleted u) (Username u) (Mobile u) (Email u) v (NickName u) (Birthday u)
    (Gender u) (Role u) (Status u) (MobileVerified u) (EmailVerified u) (LastLoginAt u).

Definition normalizeUserIdentifiers (user : t) : M user_db t :=
  let user := set_identifiers (normalizeUsername (value_of (Username user))) (normalizeEmail (value_of (Email user)))
                (TrimSpace (Mobile user)) user in
  fail_if (match Username user with Some n => negb (Regexp.MatchString usernamePattern n) | None => false end)
    (newValidationError "用户名格式错误") ;;;
  fail_if (match Email user with Some e => negb (isEmailAddress e) | None => false end)
    (newValidationError "邮箱格式错误") ;;;
  ret user.

Definition validateLegacyRole (role : Z) : M user_db unit :=
  fail_if (negb (IsValidLegacyUserRole role))
    (newCode ErrValidation "legacy role must be one of: 1(customer), 2(admin)").

(** The account must not be found: found is [taken], and any other error is passed
    on. *)
Definition check_unused (lookup : M user_db t) (taken : goerr) : M user_db unit :=
  r <- attempt lookup ;;
  match r with
  | inl _ => fail taken
  | inr err => fail_if (negb (IsCode err ErrUserNotFound)) err
  end.

Definition prepareNewUser (salt : string) (user : t) (legacyRole : Z) (defaultStatus : string) : M user_db t :=
  user <- normalizeUserIdentifiers user ;;
  let user := if Role user =? 0 then set_Role legacyRole user else user in
  validateLegacyRole (wrap32 (Role user)) ;;;
  fail_if (negb (Regexp.MatchString mobilePattern (Mobile user))) (newValidationError "手机号格式错误") ;;;
  fail_if (negb (isStrongPassword (Password user)))
    (newValidationError "密码长度必须为8-24，并包含大小写字母、数字和特殊字符") ;;;
  let user := if seqb (TrimSpace (Status user)) "" then set_Status defaultStatus user else user in
  let user := if seqb (TrimSpace (Gender user)) "" then set_Gender "unknown" user else user in
  match Username user with
  | Some n => check_unused (users.GetByUsername n) (newCode ErrUsernameAlreadyExists "用户名已存在")
  | None => ret tt
  end ;;;
  check_unused (users.GetByMobile (Mobile user)) (newCode ErrUserMobileAlreadyExists "手机号已存在") ;;;
  match Email user with
  | Some e => check_unused (users.GetByUsername e) (newCode ErrUserEmailAlreadyExists "邮箱已存在")
  | None => ret tt
  end ;;;
  match GenerateFromPassword salt (Password user) with
  | Some encryptedPassword => ret (set_Password encryptedPassword user)
  | None => fail (newCode ErrEncrypt "加密密码失败")
  end.

(** ** Conversions *)
Definition newUserPublicDTO (user : t) : M user_db UserPublicDTO :=
  validateLegacyRole (wrap32 (Role user)) ;;;
  ret (MkUserPublicDTO (ID user) (Username user) (Mobile user) (Email user) (NickName user) (Birthday user)
    (Gender user) (Status user) (MobileVerified user) (EmailVerified user) (LastLoginAt user)).
Definition scope_of (s : UserResourceScopeDO.t) : ResourceScope.t :=
  ResourceScope.mk (UserResourceScopeDO.Domain s) (UserResourceScopeDO.StoreID s) (UserResourceScopeDO.TeamID s)
    (UserResourceScopeDO.ResourceType s) (UserResourceScopeDO.ResourceID s).
Definition resourceScopeDTOsFromDO (values : list UserResourceScopeDO.t) : list ResourceScope.t := scope_of <$> values.
Definition newUserAuthDTO (user : UserAuthDO) : M user_db UserAuthDTO :=
  publicDTO <- newUserPublicDTO (AuthUser user) ;;
  ret (MkUserAuthDTO publicDTO (Password (AuthUser user)) (wrap32 (Role (AuthUser user))) (StaffRoles user)
    (AuthPermissions user) (ResourceDomains user) (ResourceStores user) (ResourceTeams user)
    (resourceScopeDTOsFromDO (ResourceScopes user))).
Definition newUserRoleBindingDTO (user : UserAuthDO) : UserRoleBindingDTO :=
  MkUserRoleBindingDTO (ID (AuthUser user)) (StaffRoles user) (AuthPermissions user).
Definition newStaffUserDTO (user : UserAuthDO) : M user_db StaffUserDTO :=
  publicDTO <- newUserPublicDTO (AuthUser user) ;;
  ret (MkStaffUserDTO publicDTO (StaffRoles user) (AuthPermissions user)).
Definition newAuditActor (actor : AuditActorDTO) : option AuditActor :=
  if (ActorUserID actor <=? 0) && seqb (TrimSpace (ActorPrincipal actor)) "" then None
  else Some (MkAuditActor (ActorUserID actor) (TrimSpace (ActorPrincipal actor))).
Definition PublicDTOFromMutation (user : option t) : M user_db UserPublicDTO :=
  match user with None => fail required | Some user => newUserPublicDTO user end.

Definition normalizeMutableAccountStatus (status : string) : M user_db string :=
  let normalizedStatus := NormalizeAccountStatus status in
  if seqb normalizedStatus AccountStatusActive || seqb normalizedStatus AccountStatusDisabled ||
     seqb normalizedStatus AccountStatusLocked
  then ret normalizedStatus
  else fail (newCode ErrValidation "account status must be one of: active, disabled, locked").

(** In the order given, unlike the store's. *)
Definition normalizeRoleNames (roleNames : list string) : list string := (fold_left users.keep_role roleNames ([], ∅)).1.
Definition validateKnownRoleNames (roleNames : list string) : M user_db unit :=
  match roleNames with
  | [] => ret tt
  | _ =>
    knownRoles <- users.ListRoles ;;
    let known : gset string := list_to_set ((fun role => normalize (RoleDO.Name (RoleRow role))) <$> knownRoles) in
    for_each roleNames (fun roleName =>
      fail_if (IsReservedNonStaffRoleName roleName)
        (newCode ErrValidation "staff roles contain reserved non-staff values") ;;;
      fail_if (negb (bool_decide (roleName ∈ known))) (newCode ErrValidation "staff roles contain unknown values"))
  end.

(** ** Accounts *)
Definition Create (salt : string) (user : option t) : M user_db t :=
  match user with
  | None => fail required
  | Some user =>
    user <- prepareNewUser salt user 1 AccountStatusActive ;;
    users.Create (Some user)
  end.
Definition CreateStaff (salt : string) (now : Z) (user : option t) (roleNames : list string) (status : string)
    (actor : AuditActorDTO) : M user_db StaffUserDTO :=
  match user with
  | None => fail required
  | Some user =>
    let roleNames := normalizeRoleNames roleNames in
    fail_if (bool_decide (roleNames = [])) (newCode ErrValidation "staff roles are required") ;;;
    validateKnownRoleNames roleNames ;;;
    normalizedStatus <- normalizeMutableAccountStatus status ;;
    user <- prepareNewUser salt user 2 normalizedStatus ;;
    authUser <- users.CreateStaff now (Some user) roleNames (newAuditActor actor) ;;
    newStaffUserDTO authUser
  end.
Definition Update (user : option t) : M user_db unit :=
  match user with
  | None => fail required
  | Some user =>
    user <- normalizeUserIdentifiers user ;;
    existing <- users.GetByID (wrapu64 (ID user)) ;;
    let user := if Role user =? 0 then set_Role (Role existing) user else user in
    validateLegacyRole (wrap32 (Role user)) ;;;
    users.Update (Some user)
  end.
Definition Delete (eventID : string) (now id : Z) : M user_db unit :=
  fail_if (id =? 0) (newCode ErrValidation "用户不存在") ;;;
  users.RequestAccountDeletion eventID id now.

Definition GetByID (id : Z) : M user_db UserPublicDTO := user <- users.GetByID id ;; newUserPublicDTO user.
Definition GetByMobile (mobile : string) : M user_db UserPublicDTO :=
  user <- users.GetByMobile mobile ;; newUserPublicDTO user.
Definition empty_identifier : goerr := newCode ErrValidation "登录标识不能为空".
Definition GetByUsername (username : string) : M user_db UserPublicDTO :=
  let username := normalizeLoginIdentifier username in
  fail_if (seqb username "") empty_identifier ;;;
  user <- users.GetByUsername username ;; newUserPublicDTO user.
Definition GetAuthByID (id : Z) : M user_db UserAuthDTO := user <- users.GetAuthByID id ;; newUserAuthDTO user.
Definition GetAuthByUsername (username : string) : M user_db UserAuthDTO :=
  let username := normalizeLoginIdentifier username in
  fail_if (seqb username "") empty_identifier ;;;
  user <- users.GetAuthByUsername username ;; newUserAuthDTO user.
Definition UpdateStatus (now userID : Z) (status : string) (actor : AuditActorDTO) : M user_db UserPublicDTO :=
  fail_if (userID =? 0) missing ;;;
  normalizedStatus <- normalizeMutableAccountStatus status ;;
  users.UpdateStatus now userID normalizedStatus (newAuditActor actor) ;;;
  GetByID userID.
Definition List (arrange : list (string * bool) -> list t -> list t) (orderBy : list string) (page_no pageSize : Z)
    : M user_db (list UserPublicDTO * Z) :=
  r <- list_users arrange orderBy page_no pageSize ;;
  items <- map_each r.1 newUserPublicDTO ;;
  ret (items, r.2).

(** ** Staff roles *)
Definition coalesceDomains (primary fallback : list string) : list string :=
  match primary with [] => fallback | _ => primary end.
Definition domainsFromDefinition (definition : RoleDefinition) : list string := users.sort_strings (Domains definition).
Definition builtinRoleDefinitionByName (name : string) : option RoleDefinition :=
  find (fun d => bool_decide (Name d = normalize name)) BuiltinRoleDefinitions.
Definition ListStaffRoles : M user_db (list StaffRoleDTO) :=
  roles <- users.ListRoles ;;
  ret ((fun role =>
    let name := RoleDO.Name (RoleRow role) in
    let definition := role_definition name in
    MkStaffRoleDTO name (RoleDO.Description (RoleRow role)) (RolePermissions role)
      (bool_decide (is_Some definition) || Builtin role)
      (coalesceDomains (RoleDomains role)
         (match definition with Some d => domainsFromDefinition d | None => [] end))) <$> roles).

(** The loops of [normalizePermissionNames] and [normalizeBusinessDomains]: the set
    of the normalised names, blanks left out. *)
Fixpoint collect_names (valid : string -> bool) (unknown : goerr) (names : list string) (acc : gset string)
    : M user_db (gset string) :=
  match names with
  | [] => ret acc
  | name :: names =>
    let name := normalize name in
    if seqb name "" then collect_names valid unknown names acc
    else fail_if (negb (valid name)) unknown ;;; collect_names valid unknown names ({[name]} ∪ acc)
  end.
Definition normalizePermissionNames (permissionNames : list string) : M user_db (list string) :=
  normalized <- collect_names IsValidPermission
    (newCode ErrValidation "staff role permissions contain unknown values") permissionNames ∅ ;;
  fail_if (bool_decide (size normalized = 0%nat)) (newCode ErrValidation "staff role permissions are required") ;;;
  ret (sorted_elements normalized).
Definition normalizeBusinessDomains (domains : list string) : M user_db (list string) :=
  normalized <- collect_names IsValidBusinessDomain
    (newCode ErrValidation "staff role domains contain unknown values") domains ∅ ;;
  fail_if (bool_decide (size normalized = 0%nat)) (newCode ErrValidation "staff role domains are required") ;;;
  ret (sorted_elements normalized).

Definition role_dto (role : RoleInfo) : StaffRoleDTO :=
  MkStaffRoleDTO (RoleDO.Name (RoleRow role)) (RoleDO.Description (RoleRow role)) (RolePermissions role)
    (Builtin role) (RoleDomains role).
Definition name_required : goerr := newCode ErrValidation "staff role name is required".
Definition name_reserved : goerr :=
  newCode ErrValidation "bootstrap and compatibility role names cannot be used as staff roles".
Definition name_format : goerr := newCode ErrValidation "staff role name format is invalid".
Definition description_required : goerr := newCode ErrValidation "staff role description is required".
Definition CreateStaffRole (role : StaffRoleDTO) : M user_db StaffRoleDTO :=
  let name := normalize (RoleName role) in
  let description := TrimSpace (RoleDescription role) in
  fail_if (seqb name "") name_required ;;;
  fail_if (IsReservedNonStaffRoleName name) name_reserved ;;;
  fail_if (IsValidStaffRole name) (newCode ErrValidation "built-in staff roles cannot be created again") ;;;
  fail_if (negb (Regexp.MatchString roleNamePattern name)) name_format ;;;
  fail_if (seqb description "") description_required ;;;
  permissions <- normalizePermissionNames (RoleGranted role) ;;
  domains <- normalizeBusinessDomains (RoleOwnDomains role) ;;
  createdRole <- users.CreateRole name description permissions domains ;;
  ret (role_dto createdRole).
Definition UpdateStaffRole (role : StaffRoleDTO) : M user_db StaffRoleDTO :=
  let name := normalize (RoleName role) in
  let description := TrimSpace (RoleDescription role) in
  fail_if (seqb name "") name_required ;;;
  fail_if (IsReservedNonStaffRoleName name) name_reserved ;;;
  fail_if (seqb description "") description_required ;;;
  permissions <- normalizePermissionNames (RoleGranted role) ;;
  domains <- (if IsValidStaffRole name
              then ret (match builtinRoleDefinitionByName name with
                        | Some definition => domainsFromDefinition definition
                        | None => []
                        end)
              else normalizeBusinessDomains (RoleOwnDomains role)) ;;
  updatedRole <- users.UpdateRole name description permissions domains ;;
  ret (role_dto updatedRole).
Definition DeleteStaffRole (roleName : string) : M user_db unit :=
  let roleName := normalize roleName in
  fail_if (seqb roleName "") name_required ;;;
  fail_if (IsReservedNonStaffRoleName roleName) name_reserved ;;;
  fail_if (IsValidStaffRole roleName) (newCode ErrValidation "built-in staff roles cannot be deleted") ;;;
  fail_if (negb (Regexp.MatchString roleNamePattern roleName)) name_format ;;;
  users.DeleteRole roleName.

Definition GetUserRoleBinding (userID : Z) : M user_db UserRoleBindingDTO :=
  authUser <- users.GetAuthByID userID ;; ret (newUserRoleBindingDTO authUser).
Definition ReplaceUserRoleBinding (now userID : Z) (roleNames : list string) (actor : AuditActorDTO)
    : M user_db UserRoleBindingDTO :=
  let roleNames := normalizeRoleNames roleNames in
  validateKnownRoleNames roleNames ;;;
  authUser <- users.ReplaceUserRoles now userID roleNames (newAuditActor actor) ;;
  ret (newUserRoleBindingDTO authUser).

(** ** Resource scopes *)
Definition scope_separator : Ascii.ascii := Ascii.ascii_of_N 0.
Definition trim_scope (scope : ResourceScope.t) : ResourceScope.t :=
  ResourceScope.mk (normalize (ResourceScope.Domain scope)) (TrimSpace (ResourceScope.StoreID scope))
    (TrimSpace (ResourceScope.TeamID scope)) (normalize (ResourceScope.ResourceType scope))
    (TrimSpace (ResourceScope.ResourceID scope)).
(** The loop: the scopes in normal form, each once, in the order given. *)
Fixpoint collect_scopes (scopes : list ResourceScope.t) (seen : gset string) (normalized : list ResourceScope.t)
    : M user_db (list ResourceScope.t) :=
  match scopes with
  | [] => ret normalized
  | scope :: scopes =>
    let scope := trim_scope scope in
    fail_if (negb (IsValidBusinessDomain (ResourceScope.Domain scope)))
      (newCode ErrValidation "resource scope domain is invalid") ;;;
    fail_if (negb (ResourceScopeMatchesDomain (ResourceScope.Domain scope) (ResourceScope.StoreID scope)
                     (ResourceScope.TeamID scope)))
      (newCode ErrValidation "resource scope does not match domain dimension") ;;;
    fail_if (xorb (seqb (ResourceScope.ResourceType scope) "") (seqb (ResourceScope.ResourceID scope) ""))
      (newCode ErrValidation "resource scope resource binding is incomplete") ;;;
    let key := Join (scope_fields scope) scope_separator in
    if bool_decide (key ∈ seen) then collect_scopes scopes seen normalized
    else collect_scopes scopes ({[key]} ∪ seen) (normalized ++ [scope])
  end.
Definition scope_row (now userID : Z) (scope : ResourceScope.t) : UserResourceScopeDO.t :=
  UserResourceScopeDO.mk 0 (wrap32 userID) (ResourceScope.Domain scope) (ResourceScope.StoreID scope)
    (ResourceScope.TeamID scope) (ResourceScope.ResourceType scope) (ResourceScope.ResourceID scope) now.
Definition ReplaceResourceScopes (now userID : Z) (scopes : list ResourceScope.t) : M user_db (list ResourceScope.t) :=
  normalized <- collect_scopes scopes ∅ [] ;;
  users.ReplaceResourceScopes userID (scope_row now userID <$> normalized) ;;;
  ret normalized.

(** ** Audit logs *)
Definition admin_actions : list string :=
  ["staff_login_succeeded"; "break_glass_session_issued"; "goods_created"; "goods_updated"; "goods_deleted";
   "inventory_adjusted"; "order_closed"; "order_refund_requested"].
Definition isValidAdminAuditAction (action : string) : bool := existsb (fun a => seqb a action) admin_actions.
Definition trim_filters (f : users.AuditFilters) : users.AuditFilters :=
  users.MkAuditFilters (TrimSpace (users.FilterAction f)) (users.FilterActor f) (TrimSpace (users.FilterPrincipal f)) (users.CreatedAfter f)
    (users.CreatedBefore f).
Definition ListUserAuditLogs (userID : Z) (filters : users.AuditFilters) (page_no pageSize : Z)
    : M user_db (list UserAuditLogDO.t * Z) :=
  fail_if (userID =? 0) missing ;;;
  users.ListAuditLogs userID (trim_filters filters) page_no pageSize.
(** The row without the columns the database fills in; an empty correlation id is no
    id. *)
Definition admin_log (log : AdminAuditLogDO.t) : AdminAuditLogDO.t :=
  let correlation := TrimSpace (value_of (AdminAuditLogDO.CorrelationID log)) in
  AdminAuditLogDO.mk 0 (AdminAuditLogDO.TargetUserID log) (AdminAuditLogDO.ActorUserID log)
    (TrimSpace (AdminAuditLogDO.ActorPrincipalType log)) (normalize (AdminAuditLogDO.Action log))
    (TrimSpace (AdminAuditLogDO.Detail log)) (if seqb correlation "" then None else Some correlation)
    (TrimSpace (AdminAuditLogDO.RequestID log)) (TrimSpace (AdminAuditLogDO.TargetType log))
    (TrimSpace (AdminAuditLogDO.TargetID log)) (TrimSpace (AdminAuditLogDO.Domain log))
    (TrimSpace (AdminAuditLogDO.StoreID log)) (TrimSpace (AdminAuditLogDO.TeamID log)) 0.
Definition CreateAdminAuditLog (now : Z) (log : AdminAuditLogDO.t) : M user_db unit :=
  let entry := admin_log log in
  fail_if (negb (isValidAdminAuditAction (AdminAuditLogDO.Action entry)))
    (newCode ErrValidation "admin audit action is invalid") ;;;
  fail_if (seqb (AdminAuditLogDO.ActorPrincipalType entry) "")
    (newCode ErrValidation "admin audit actor principal type is required") ;;;
  users.CreateAdminAuditLog now (Some entry).
Definition ListAdminAuditLogs (target : Z) (filters : users.AuditFilters) (page_no pageSize : Z)
    : M user_db (list AdminAuditLogDO.t * Z) :=
  users.ListAdminAuditLogs target (trim_filters filters) page_no pageSize.
End Service.
End accounts.

(** ** The messages *)
Record UserInfoResponse := MkUserInfoResponse {
  RspId : Z; RspNickName : string; RspGender : string; RspMobile : string; RspStatus : string;
  RspMobileVerified : bool; RspEmailVerified : bool; RspLastLoginAt : Z; RspUsername : string;
  RspEmail : string; RspBirthDay : Z
}.
Record UserAuthResponse := MkUserAuthResponse {
  AuthInfo : UserInfoResponse; RspPasswordHash : string; RspLegacyRole : Z; RspStaffRoles : list string;
  RspPermissions : list string; RspDomains : gset string; RspStores : gset string; RspTeams : gset string;
  RspScopes : list ResourceScope.t
}.
Record StaffUserResponse := MkStaffUserResponse {
  StaffInfo : UserInfoResponse; StaffInfoRoles : list string; StaffInfoPermissions : list string
}.
Record CreateUserInfo := MkCreateUserInfo {
  ReqUsername : string; ReqMobile : string; ReqEmail : string; ReqNickName : string; ReqPassWord : string;
  ReqMobileVerified : bool; ReqEmailVerified : bool
}.
Record UpdateUserInfo := MkUpdateUserInfo {
  UpdId : Z; UpdNickName : string; UpdUsername : string; UpdEmail : string; UpdGender : string; UpdBirthDay : Z
}.

(** [uint64(t.Unix())]. *)
Definition unix_seconds (t : Z) : Z := wrapu64 (t / 1000000000).
Definition optionalString (value : string) : option string := if seqb value "" then None else Some value.
Definition DTOToResponse (u : UserPublicDTO) : UserInfoResponse :=
  let time o := match o with Some t => unix_seconds t | None => 0 end in
  MkUserInfoResponse (PubID u) (PubNickName u) (PubGender u) (PubMobile u) (PubStatus u) (PubMobileVerified u)
    (PubEmailVerified u) (time (PubLastLoginAt u)) (accounts.value_of (PubUsername u))
    (accounts.value_of (PubEmail u)) (time (PubBirthday u)).
Definition AuthDTOToResponse (u : UserAuthDTO) : UserAuthResponse :=
  MkUserAuthResponse (DTOToResponse (AuthPublic u)) (PasswordHash u) (LegacyRole u) (AuthRoles u) (AuthGranted u)
    (AuthDomains u) (AuthStores u) (AuthTeams u) (AuthScopes u).

(** ** The handlers; a missing request is an error. *)
Module accountServer.
Section Server.
Context `{L : account_libs}.

Definition bad_request (message : string) : goerr := newCode ErrValidation message.
Definition new_user (r : CreateUserInfo) (mobile_verified email_verified : bool) : UserDO.t :=
  UserDO.mk 0 false false (optionalString (ReqUsername r)) (ReqMobile r) (optionalString (ReqEmail r)) (ReqPassWord r)
    (ReqNickName r) None "" 0 "" mobile_verified email_verified None.
Definition CreateUser (salt : string) (request : option CreateUserInfo) : M user_db UserInfoResponse :=
  match request with
  | None => fail (bad_request "create user request is required")
  | Some r =>
    user <- accounts.Create salt (Some (new_user r (ReqMobileVerified r) (ReqEmailVerified r))) ;;
    publicDTO <- accounts.PublicDTOFromMutation (Some user) ;;
    ret (DTOToResponse publicDTO)
  end.
Definition auditActorFromProto (actor : option AuditActorDTO) : AuditActorDTO :=
  match actor with Some a => a | None => MkAuditActorDTO 0 "" end.
Definition CreateStaffUser (salt : string) (now : Z) (request : option CreateUserInfo) (roles : list string)
    (status : string) (actor : option AuditActorDTO) : M user_db StaffUserResponse :=
  match request with
  | None => fail (bad_request "create staff user request is required")
  | Some r =>
    created <- accounts.CreateStaff salt now (Some (new_user r false false)) roles status (auditActorFromProto actor) ;;
    ret (MkStaffUserResponse (DTOToResponse (StaffUser created)) (StaffUserRoles created) (StaffUserPermissions created))
  end.
Definition UpdateUser (request : option UpdateUserInfo) : M user_db unit :=
  match request with
  | None => fail (bad_request "update user request is required")
  | Some r =>
    accounts.Update (Some (UserDO.mk (UpdId r) false false (optionalString (UpdUsername r)) "" (optionalString (UpdEmail r))
      "" (UpdNickName r) (Some (unix_time (UpdBirthDay r))) (UpdGender r) 0 "" false false None))
  end.
Definition DeleteUser (eventID : string) (now : Z) (request : option Z) : M user_db unit :=
  match request with
  | None => fail (bad_request "delete user request is required")
  | Some id => accounts.Delete eventID now (wrapu64 id)
  end.
Definition UpdateUserStatus (now : Z) (request : option (Z * string * option AuditActorDTO)) : M user_db UserInfoResponse :=
  match request with
  | None => fail (bad_request "update user status request is required")
  | Some (id, status, actor) =>
    user <- accounts.UpdateStatus now (wrapu64 id) status (auditActorFromProto actor) ;; ret (DTOToResponse user)
  end.

Definition GetUserById (request : option Z) : M user_db UserInfoResponse :=
  match request with
  | None => fail (bad_request "user id request is required")
  | Some id => user <- accounts.GetByID (wrapu64 id) ;; ret (DTOToResponse user)
  end.
Definition GetUserByMobile (request : option string) : M user_db UserInfoResponse :=
  match request with
  | None => fail (bad_request "mobile request is required")
  | Some mobile => user <- accounts.GetByUsername mobile ;; ret (DTOToResponse user)
  end.
Definition GetUserAuthById (request : option Z) : M user_db UserAuthResponse :=
  match request with
  | None => fail (bad_request "user id request is required")
  | Some id => user <- accounts.GetAuthByID (wrapu64 id) ;; ret (AuthDTOToResponse user)
  end.
Definition GetUserAuthByMobile (request : option string) : M user_db UserAuthResponse :=
  match request with
  | None => fail (bad_request "mobile request is required")
  | Some mobile => user <- accounts.GetAuthByUsername mobile ;; ret (AuthDTOToResponse user)
  end.
Definition GetUserList (arrange : list (string * bool) -> list UserDO.t -> list UserDO.t) (request : option (Z * Z))
    : M user_db (list UserInfoResponse) :=
  match request with
  | None => fail (bad_request "page request is required")
  | Some (pn, psize) => r <- accounts.List arrange [] pn psize ;; ret (DTOToResponse <$> r.1)
  end.

(** Old passwords are [$]-separated fields, the third the salt, the fourth the hash. *)
Definition CheckPassWord (request : option (string * string)) : M user_db bool :=
  match request with
  | None => fail (bad_request "password check request is required")
  | Some (password, encryptedPassword) =>
    if CompareHashAndPassword encryptedPassword password then ret true
    else match Split encryptedPassword "$"%char with
         | _ :: _ :: salt :: encoded :: _ => ret (VerifyPbkdf2 password salt encoded)
         | _ => ret false
         end
  end.

Definition CreateStaffRole (request : option StaffRoleDTO) : M user_db StaffRoleDTO :=
  match request with
  | None => fail (bad_request "create staff role request is required")
  | Some role => accounts.CreateStaffRole role
  end.
Definition UpdateStaffRole (request : option StaffRoleDTO) : M user_db StaffRoleDTO :=
  match request with
  | None => fail (bad_request "update staff role request is required")
  | Some role => accounts.UpdateStaffRole role
  end.
Definition DeleteStaffRole (request : option string) : M user_db unit :=
  match request with
  | None => fail (bad_request "delete staff role request is required")
  | Some name => accounts.DeleteStaffRole name
  end.
Definition GetUserStaffRoles (request : option Z) : M user_db UserRoleBindingDTO :=
  match request with
  | None => fail (bad_request "user id request is required")
  | Some id => accounts.GetUserRoleBinding (wrapu64 id)
  end.
Definition ReplaceUserStaffRoles (now : Z) (request : option (Z * list string * option AuditActorDTO))
    : M user_db UserRoleBindingDTO :=
  match request with
  | None => fail (bad_request "replace user staff roles request is required")
  | Some (id, roles, actor) => accounts.ReplaceUserRoleBinding now (wrapu64 id) roles (auditActorFromProto actor)
  end.
Definition ReplaceUserResourceScopes (now : Z) (request : option (Z * list ResourceScope.t)) : M user_db (list ResourceScope.t) :=
  let '(id, scopes) := default (0, []) request in accounts.ReplaceResourceScopes now (wrapu64 id) scopes.
Definition CreateAdminAuditLog (now : Z) (request : option AdminAuditLogDO.t) : M user_db unit :=
  match request with
  | None => fail (bad_request "create admin audit log request is required")
  | Some log => accounts.CreateAdminAuditLog now log
  end.
(** A page request; a bound of zero is none. *)
Record AuditPageRequest := MkAuditPageRequest {
  PageUserId : Z; PageAction : string; PageActor : Z; PagePrincipal : string; PageAfter : Z; PageBefore : Z;
  PagePn : Z; PagePSize : Z
}.
Definition page_filters (r : AuditPageRequest) : users.AuditFilters :=
  let bound t := if 0 <? t then Some (unix_time t) else None in
  users.MkAuditFilters (PageAction r) (PageActor r) (PagePrincipal r) (bound (PageAfter r)) (bound (PageBefore r)).
Definition ListUserAuditLogs (request : option AuditPageRequest) : M user_db (list UserAuditLogDO.t * Z) :=
  match request with
  | None => fail (bad_request "user audit log request is required")
  | Some r =>
    logs <- accounts.ListUserAuditLogs (wrapu64 (PageUserId r)) (page_filters r) (PagePn r) (PagePSize r) ;;
    ret (logs.1, wrap32 logs.2)
  end.
Definition ListAdminAuditLogs (request : option AuditPageRequest) : M user_db (list AdminAuditLogDO.t * Z) :=
  match request with
  | None => fail (bad_request "admin audit log request is required")
  | Some r =>
    logs <- accounts.ListAdminAuditLogs (PageUserId r) (page_filters r) (PagePn r) (PagePSize r) ;;
    ret (logs.1, wrap32 logs.2)
  end.
End Server.
End accountServer.
