(* ===== verification/UserIdentity.v ===== *)
(** * Who an identifier belongs to

    Users log in with their name, their mobile number or their email address, and the
    store looks all three up at once.  This file runs the handlers of
    [UserAccounts] and [UserSessions] in any order, under any faults, and shows that
    the accounts they leave are well formed and that an identifier leads to one
    account, with the exception the mobile pattern leaves open. *)
From S2P Require Import Prelude GoStrings Errors GoMonad Authz Tables UserModel UserStore SessionStore UserSessions SessionProperties.
From S2P Require Import UserValidation UserAccounts.
Import UserDO.
Open Scope go_scope.

Section Identity.
Context `{L : account_libs}.

(** ** The calls *)
Inductive acall :=
  | ACreateUser (salt : string) (request : option CreateUserInfo)
  | ACreateStaffUser (salt : string) (request : option CreateUserInfo) (roles : list string) (status : string)
      (actor : option AuditActorDTO)
  | AUpdateUser (request : option UpdateUserInfo)
  | ADeleteUser (eventID : string) (request : option Z)
  | AUpdateUserStatus (request : option (Z * string * option AuditActorDTO))
  | AReplaceStaffRoles (request : option (Z * list string * option AuditActorDTO))
  | ACreateRole (request : option StaffRoleDTO)
  | AUpdateRole (request : option StaffRoleDTO)
  | ADeleteRole (request : option string)
  | AReplaceScopes (request : option (Z * list ResourceScope.t))
  | AAdminAudit (request : option AdminAuditLogDO.t)
  | ASession (c : ucall).

(** The handlers of [UserSessions]. *)
Definition session_call (c : ucall) : bool :=
  match c with
  | URecordLogin _ _ => true
  | URequestDeletion _ _ => false
  | _ => negb (account_call c)
  end.
Definition run_acall (now : Z) (c : acall) : M user_db unit :=
  match c with
  | ACreateUser salt r => done (accountServer.CreateUser salt r)
  | ACreateStaffUser salt r roles status actor => done (accountServer.CreateStaffUser salt now r roles status actor)
  | AUpdateUser r => accountServer.UpdateUser r
  | ADeleteUser ev r => accountServer.DeleteUser ev now r
  | AUpdateUserStatus r => done (accountServer.UpdateUserStatus now r)
  | AReplaceStaffRoles r => done (accountServer.ReplaceUserStaffRoles now r)
  | ACreateRole r => done (accountServer.CreateStaffRole r)
  | AUpdateRole r => done (accountServer.UpdateStaffRole r)
  | ADeleteRole r => accountServer.DeleteStaffRole r
  | AReplaceScopes r => done (accountServer.ReplaceUserResourceScopes now r)
  | AAdminAudit r => accountServer.CreateAdminAuditLog now r
  | ASession c => if session_call c then run_ucall now c else ret tt
  end.

Definition aevent : Type := Z * acall * list (option string).
Definition astep (d : user_db) (e : aevent) : user_db := e_db (run_acall e.1.1 e.1.2 (Env d e.2)).2.
(** The states reachable from a database without accounts and deletion events; roles
    and the rest are arbitrary. *)
Definition ainitial (d : user_db) : Prop := users d = [] /\ user_account_deletion_outbox d = [].
Definition areachable (d : user_db) : Prop := exists d0 l, ainitial d0 /\ d = fold_left astep l d0.

Lemma areachable_ind (I : user_db -> Prop) :
  (forall d, ainitial d -> I d) -> (forall now c s, I (e_db s) -> I (e_db (run_acall now c s).2)) ->
  forall d, areachable d -> I d.
Proof.
  intros H0 Hs d (d0 & l & Hi & ->). apply H0 in Hi. clear H0. revert d0 Hi.
  induction l as [|[[now c] f] l IH]; intros d0 Hi; [done|]. simpl. apply IH. by apply (Hs now c (Env d0 f)).
Qed.

(** ** Well-formed accounts *)
Definition is_normal (o : option string) (ok : string -> bool) : Prop :=
  forall v, o = Some v -> ok v = true /\ normalize v = v.
Record well_formed (u : t) : Prop := {
  wf_username : is_normal (Username u) (Regexp.MatchString usernamePattern);
  wf_email : is_normal (Email u) isEmailAddress;
  wf_mobile : Regexp.MatchString mobilePattern (Mobile u) = true;
  wf_trimmed : TrimSpace (Mobile u) = Mobile u;
  wf_role : IsValidLegacyUserRole (wrap32 (Role u)) = true;
  wf_present : DeletedAt u = false
}.

Record ids_ok (d : user_db) : Prop := {
  ids_nodup : NoDup (ID <$> users d);
  ids_positive : Forall (fun u => 0 < ID u) (users d);
  ids_formed : Forall well_formed (users d);
  ids_unique : forall u v, u ∈ users d -> v ∈ users d -> users.user_conflict u v = true -> ID u = ID v
}.

(** The relation a call has to respect. *)
Definition keeps_ids (d d' : user_db) : Prop := ids_ok d -> ids_ok d'.
#[export] Instance keeps_ids_pre : PreOrder keeps_ids.
Proof. split; [intros d H; exact H|intros d1 d2 d3 H1 H2 H; by apply H2, H1]. Qed.
Lemma ids_ok_users d d' : users d' = users d -> ids_ok d -> ids_ok d'.
Proof. intros E [? ? ? ?]. split; by rewrite E. Qed.
#[export] Instance keeps_ids_ignores {R} (t : table user_db R) :
  (forall l d, users (set_rows t l d) = users d) -> Ignores t keeps_ids.
Proof. intros H l d. exact (ids_ok_users d _ (H l d)). Qed.

Lemma NoDup_ids (l : list t) u v : NoDup (ID <$> l) -> u ∈ l -> v ∈ l -> ID u = ID v -> u = v.
Proof.
  intros Hn (i & Hi)%list_elem_of_lookup (j & Hj)%list_elem_of_lookup E.
  assert (i = j) as ->; [|congruence].
  apply (NoDup_lookup (ID <$> l) i j (ID u) Hn); rewrite list_lookup_fmap; [by rewrite Hi|rewrite Hj; simpl; by rewrite E].
Qed.

(** *** The statements on the table of accounts *)

(** A change that leaves the identifiers, the role and the marks alone. *)
Definition same_identity (f : t -> t) : Prop :=
  forall u, ID (f u) = ID u /\ Username (f u) = Username u /\ Mobile (f u) = Mobile u /\ Email (f u) = Email u /\
    Role (f u) = Role u /\ DeletedAt (f u) = DeletedAt u.

Lemma conflict_same f g u v : same_identity f -> same_identity g -> users.user_conflict (f u) (g v) = users.user_conflict u v.
Proof.
  intros Hf Hg. destruct (Hf u) as (_ & E1 & E2 & E3 & _), (Hg v) as (_ & F1 & F2 & F3 & _).
  unfold users.user_conflict. congruence.
Qed.

Lemma ids_ok_map d f : same_identity f -> ids_ok d -> ids_ok (set_rows t_user (f <$> users d) d).
Proof.
  intros Hf [Hn Hp Hw Hu]. split; cbn.
  - rewrite <- list_fmap_compose. erewrite list_fmap_ext; [exact Hn|]. intros i u _. apply Hf.
  - apply Forall_fmap. eapply Forall_impl; [exact Hp|]. intros u. simpl. by destruct (Hf u) as (-> & _).
  - apply Forall_fmap. eapply Forall_impl; [exact Hw|]. intros u [? ? ? ? ?]. simpl.
    destruct (Hf u) as (_ & E1 & E2 & E3 & E4 & E5). split; by rewrite ?E1, ?E2, ?E3, ?E4, ?E5.
  - intros u v (u0 & -> & Hu0)%list_elem_of_fmap (v0 & -> & Hv0)%list_elem_of_fmap.
    rewrite conflict_same by done. destruct (Hf u0) as (-> & _), (Hf v0) as (-> & _). by apply Hu.
Qed.

Lemma steps_update_users p f : same_identity f -> steps keeps_ids (update_where t_user p f).
Proof.
  intros Hf. apply steps_stmt; [exact _|]. intros d Hd. apply (ids_ok_map d _); [|done]. intros u. by destruct (p u).
Qed.

Lemma conflict_sym u v : users.user_conflict u v = users.user_conflict v u.
Proof.
  assert (forall a b, users.same_opt a b = users.same_opt b a) as Hs.
  { intros [a|] [b|]; try done. unfold users.same_opt, seqb. apply bool_decide_ext. naive_solver. }
  unfold users.user_conflict, seqb. rewrite (Hs (Username u)), (Hs (Email u)).
  by rewrite (bool_decide_ext (Mobile u = Mobile v) (Mobile v = Mobile u)) by naive_solver.
Qed.

Lemma ids_ok_insert d u :
  well_formed u -> 0 < ID u -> ID u ∉ ID <$> users d -> existsb (users.user_conflict u) (users d) = false ->
  ids_ok d -> ids_ok (set_rows t_user (users d ++ [u]) d).
Proof.
  intros Hw Hp Hf Hc [Hn Hps Hws Hu]. split; cbn.
  - rewrite fmap_app. by apply NoDup_snoc.
  - apply Forall_app. split; [done|]. by constructor.
  - apply Forall_app. split; [done|]. by constructor.
  - intros v w [Hv| ->%list_elem_of_singleton]%elem_of_app [Hv'| ->%list_elem_of_singleton]%elem_of_app Hvw;
      [by apply Hu| | |done].
    + rewrite conflict_sym, (existsb_false_elem _ _ _ Hc Hv) in Hvw. discriminate Hvw.
    + rewrite (existsb_false_elem _ _ _ Hc Hv') in Hvw. done.
Qed.

Lemma steps_insert_account u : well_formed u -> steps keeps_ids (users.insert_user u).
Proof.
  intros Hw. unfold users.insert_user, user_dberr. cbv zeta. apply steps_bind; [exact _| |intros; apply steps_ret; exact _].
  apply steps_wrap_err, steps_within_columns; [exact _|]. apply steps_stmt; [exact _|]. intros d Hd. cbn [rows t_user].
  destruct (existsb _ (users d)) eqn:E; [done|]. cbv zeta. cbn [snd].
  destruct (fresh_above ID (users d) _ eq_refl) as [Hp Hf].
  assert (Role u <> 0) as Hr by (intros Hr; pose proof (wf_role u Hw) as H; by rewrite Hr in H).
  apply ids_ok_insert; try done. destruct Hw as [? ? ? ? ? ?]. split; try done. cbn.
  destruct (Z.eqb_spec (Role u) 0); done.
Qed.

(** The profile of one account, where the keys allow it. *)
Lemma steps_profile user :
  is_normal (Username user) (Regexp.MatchString usernamePattern) -> is_normal (Email user) isEmailAddress ->
  steps keeps_ids (update_checked t_user (users.profile_refused user) (users.by_id (ID user)) (users.profile user)).
Proof.
  intros Hname Hemail. apply steps_stmt; [exact _|]. intros d Hd.
  destruct (users.profile_refused user d) eqn:Hc; [done|]. apply orb_false_iff in Hc as [Hc _]. cbn. destruct Hd as [Hn Hp Hw Hu].
  set (f r := if users.by_id (ID user) r then users.profile user r else r).
  assert (forall r, ID (f r) = ID r) as Hid by (intros r; unfold f; by destruct (users.by_id _ r)).
  assert (forall v w, v ∈ users d -> w ∈ users d -> users.by_id (ID user) v = true -> ID v <> ID w ->
            users.user_conflict (users.profile user v) w = false) as Hfree.
  { intros v w Hv Hw' Hb Hne. unfold users.profile_conflict in Hc.
    assert (existsb (users.by_id (ID user)) (users d) = true) as Hex
      by (apply existsb_exists; exists v; split; [by apply list_elem_of_In|done]).
    rewrite Hex in Hc. apply (existsb_false_elem _ _ w) in Hc; [|done].
    cbn beta in Hc. unfold users.by_id in Hb.
    apply andb_true_iff in Hb as [_ Hb%Z.eqb_eq]. rewrite (proj2 (Z.eqb_neq (ID w) (ID user))) in Hc by congruence.
    cbn [negb andb] in Hc.
    assert (users.user_conflict v w = false) as Hold.
    { destruct (users.user_conflict v w) eqn:E; [|done]. exfalso. apply Hne. by apply Hu. }
    apply orb_false_iff in Hc as [Hc1 Hc2]. unfold users.user_conflict in *. cbn.
    apply orb_false_iff in Hold as [[Ho1 Ho2]%orb_false_iff _]. rewrite Hc2, Ho2.
    destruct (Username user); [by rewrite Hc1|by rewrite Ho1]. }
  split; cbn; fold f.
  - rewrite <- list_fmap_compose. erewrite list_fmap_ext; [exact Hn|]. intros i u _. apply Hid.
  - apply Forall_fmap. eapply Forall_impl; [exact Hp|]. intros u. simpl. by rewrite Hid.
  - apply Forall_fmap. eapply Forall_impl; [exact Hw|]. intros u [? ? ? ? ? ?]. unfold f. simpl.
    destruct (users.by_id _ u); [|done]. split; cbn; try done. by destruct (Username user).
  - intros v w (v0 & -> & Hv)%list_elem_of_fmap (w0 & -> & Hw0)%list_elem_of_fmap E. rewrite !Hid.
    destruct (decide (ID v0 = ID w0)) as [|Hne]; [done|]. exfalso. unfold f in E.
    destruct (users.by_id (ID user) v0) eqn:E1, (users.by_id (ID user) w0) eqn:E2.
    + unfold users.by_id in E1, E2. bprop. lia.
    + by rewrite Hfree in E.
    + rewrite conflict_sym, Hfree in E; [discriminate E|done..|congruence].
    + apply Hne. by apply Hu.
Qed.

(** ** Every call keeps the accounts well formed *)
Lemma steps_bind_post {D A B} (R : D -> D -> Prop) `{!PreOrder R} (P : A -> Prop) (m : M D A) (k : A -> M D B) :
  steps R m -> (forall s a s', m s = (Ret a, s') -> P a) -> (forall a, P a -> steps R (k a)) -> steps R (bind m k).
Proof.
  intros Hm Hp Hk s. unfold bind. specialize (Hm s). specialize (Hp s).
  destruct (m s) as [[a|e|p] s']; simpl in *; [|done..]. etrans; [exact Hm|]. apply Hk. by eapply Hp.
Qed.

Lemma normalize_idem v : normalize (normalize v) = normalize v.
Proof. unfold normalize. by rewrite <- ToLower_TrimSpace, TrimSpace_idem, ToLower_idem. Qed.
Lemma normalizeUsername_Some v n : normalizeUsername v = Some n -> n = normalize v /\ n <> "".
Proof. unfold normalizeUsername. case_bool_decide; naive_solver. Qed.

Lemma normalizeUserIdentifiers_Ret u s u' s' :
  accounts.normalizeUserIdentifiers u s = (Ret u', s') ->
  s' = s /\ is_normal (Username u') (Regexp.MatchString usernamePattern) /\ is_normal (Email u') isEmailAddress /\
  u' = accounts.set_identifiers (normalizeUsername (accounts.value_of (Username u)))
         (normalizeEmail (accounts.value_of (Email u))) (TrimSpace (Mobile u)) u.
Proof.
  unfold accounts.normalizeUserIdentifiers. cbv zeta.
  intros (? & ? & [H1 ->]%fail_if_Ret & (? & ? & [H2 ->]%fail_if_Ret & H)%bind_Ret)%bind_Ret.
  unfold ret in H. injection H as <- <-. split_and!; try done.
  - intros n Hn. rewrite Hn in H1. apply negb_false_iff in H1. split; [done|].
    cbn in Hn. apply normalizeUsername_Some in Hn as [-> _]. apply normalize_idem.
  - intros n Hn. rewrite Hn in H2. apply negb_false_iff in H2. split; [done|].
    cbn in Hn. apply normalizeUsername_Some in Hn as [-> _]. apply normalize_idem.
Qed.

(** *** Reading accounts *)
Definition answers (id : string) (u : t) : bool :=
  users.alive u && (users.opt_is (Username u) id || seqb (Mobile u) id || users.opt_is (Email u) id).

Lemma first_user_missing p s e s' :
  users.first_user p s = (Fail e, s') -> IsCode e ErrUserNotFound = true -> find p (users (e_db s)) = None.
Proof.
  unfold users.first_user, first_or, user_dberr, select_first, query, wrap_err, bind, stmt. intros H He.
  pose proof (next_fault_db s) as E. destruct (next_fault s) as [[m|] s0]; cbn in *.
  - apply Fail_inj in H as <-. rewrite IsCode_WrapDatabase in He by (vm_compute; done). cbn in He. done.
  - rewrite E in H. by destruct (find p (users (e_db s))).
Qed.

Lemma check_unused_Ret id p lookup taken s u s' :
  seqb (TrimSpace id) "" = false ->
  (forall s, lookup s = users.first_user p s) ->
  accounts.check_unused lookup taken s = (Ret u, s') -> find p (users (e_db s)) = None /\ e_db s' = e_db s.
Proof.
  intros Hid Hl H. unfold accounts.check_unused in H. apply bind_Ret in H as (r & s1 & H1%attempt_Ret & H).
  destruct r as [a|e]; [done|]. apply fail_if_Ret in H as [He ->]. apply negb_false_iff in He. rewrite Hl in H1.
  split; [by eapply first_user_missing|].
  assert (steps eq (users.first_user p)) as Hs by (unfold users.first_user; repeat (steps_step || frame_step)).
  specialize (Hs s). by rewrite H1 in Hs.
Qed.

Lemma GetByUsername_first id s :
  seqb (TrimSpace id) "" = false -> TrimSpace id = id -> users.GetByUsername id s = users.first_user (answers id) s.
Proof. intros H E. unfold users.GetByUsername. cbv zeta. rewrite H, E. done. Qed.
Lemma GetByMobile_first id s :
  seqb (TrimSpace id) "" = false -> TrimSpace id = id ->
  users.GetByMobile id s = users.first_user (fun u => users.alive u && seqb (Mobile u) id) s.
Proof. intros H E. unfold users.GetByMobile. cbv zeta. rewrite H, E. done. Qed.

(** What [prepareNewUser] returns, and what it saw in the tables. *)
Definition unused (id : string) (d : user_db) : Prop := find (answers id) (users d) = None.
Lemma normal_trimmed v : normalize v = v -> TrimSpace v = v.
Proof. intros <-. unfold normalize. by rewrite <- ToLower_TrimSpace, TrimSpace_idem. Qed.
Lemma nonempty_seqb v : v <> "" -> TrimSpace v = v -> seqb (TrimSpace v) "" = false.
Proof. intros H ->. by apply bool_decide_eq_false. Qed.

Lemma mobile_nonempty m : Regexp.MatchString mobilePattern m = true -> m <> "".
Proof. by intros [H _]%mobile_runes ->. Qed.

Lemma prepareNewUser_Ret salt u role status s u' s' :
  DeletedAt u = false -> Role u = 0 -> Status u = "" ->
  accounts.prepareNewUser salt u role status s = (Ret u', s') ->
  e_db s' = e_db s /\ well_formed u' /\
  Username u' = normalizeUsername (accounts.value_of (Username u)) /\
  Email u' = normalizeEmail (accounts.value_of (Email u)) /\ Mobile u' = TrimSpace (Mobile u) /\
  GenerateFromPassword salt (Password u) = Some (Password u') /\ Role u' = role /\ Status u' = status /\
  (forall n, Username u' = Some n -> unused n (e_db s)) /\ (forall e, Email u' = Some e -> unused e (e_db s)) /\
  find (fun v => users.alive v && seqb (Mobile v) (Mobile u')) (users (e_db s)) = None.
Proof.
  intros Hdel Hrole Hst H. unfold accounts.prepareNewUser in H.
  apply bind_Ret in H as (u1 & s1 & (-> & Hn & He & ->)%normalizeUserIdentifiers_Ret & H). cbv zeta in H.
  cbn [Role accounts.set_identifiers] in H. rewrite Hrole, Z.eqb_refl in H.
  apply bind_Ret in H as (? & ? & [Hr ->]%fail_if_Ret & H). apply negb_false_iff in Hr.
  apply bind_Ret in H as (? & ? & [Hm ->]%fail_if_Ret & H). apply negb_false_iff in Hm.
  apply bind_Ret in H as (? & ? & [_ ->]%fail_if_Ret & H).
  set (u2 := if seqb (TrimSpace (Gender _)) "" then _ else _) in H.
  assert (Username u2 = normalizeUsername (accounts.value_of (Username u)) /\
    Email u2 = normalizeEmail (accounts.value_of (Email u)) /\ Mobile u2 = TrimSpace (Mobile u) /\
    Password u2 = Password u /\ Role u2 = role /\ DeletedAt u2 = false /\ Status u2 = status)
    as (E1 & E2 & E3 & E4 & E5 & E6 & E7).
  { assert (seqb (TrimSpace (Status u)) "" = true) as Hblank by (rewrite Hst; vm_compute; reflexivity).
    subst u2. cbn [Status accounts.set_Role accounts.set_identifiers]. rewrite Hblank.
    match goal with |- context [if ?b then accounts.set_Gender _ _ else _] => destruct b end; by split_and!. }
  clearbody u2. cbn in Hn, He, Hm, Hr. rewrite E1, E2 in H.
  apply bind_Ret in H as (? & s2 & H1 & H).
  assert (e_db s2 = e_db s /\ forall n, Username u2 = Some n -> unused n (e_db s)) as [D2 U2].
  { rewrite E1. destruct (normalizeUsername _) as [n|]; [|by injection H1 as _ <-].
    destruct (Hn n eq_refl) as [Hok Hnn%normal_trimmed].
    assert (n <> "") as Hne by (intros ->; vm_compute in Hok; done).
    eapply check_unused_Ret in H1 as [F D]; [|by apply nonempty_seqb|intros; apply GetByUsername_first; [by apply nonempty_seqb|done]].
    split; [done|]. by intros ? [= <-]. }
  apply bind_Ret in H as (? & s3 & H2 & H).
  assert (TrimSpace (Mobile u2) = Mobile u2) as Ht by (rewrite E3; apply TrimSpace_idem).
  assert (seqb (TrimSpace (Mobile u2)) "" = false) as Hmn
    by (apply nonempty_seqb; [rewrite E3; by apply mobile_nonempty|exact Ht]).
  eapply check_unused_Ret in H2 as [F3 D3]; [|exact Hmn|intros; by apply GetByMobile_first].
  apply bind_Ret in H as (? & s4 & H4 & H).
  assert (e_db s4 = e_db s3 /\ forall n, Email u2 = Some n -> unused n (e_db s3)) as [D4 U4].
  { rewrite E2. destruct (normalizeEmail _) as [n|]; [|by injection H4 as _ <-].
    destruct (He n eq_refl) as [Hok Hnn%normal_trimmed].
    assert (n <> "") as Hne by (intros ->; vm_compute in Hok; done).
    eapply check_unused_Ret in H4 as [F D]; [|by apply nonempty_seqb|intros; apply GetByUsername_first; [by apply nonempty_seqb|done]].
    split; [done|]. by intros ? [= <-]. }
  destruct (GenerateFromPassword salt (Password u2)) as [h|] eqn:Hh; [|done]. injection H as <- <-.
  rewrite D3, D2 in U4. rewrite D2 in F3. rewrite E4 in Hh.
  split; [congruence|]. cbn. split; [split; cbn; rewrite ?E1, ?E2, ?E3, ?E5; try done; apply TrimSpace_idem|].
  split_and!; try done; congruence.
Qed.

Lemma steps_lookup (R : user_db -> user_db -> Prop) `{!PreOrder R} id :
  steps R (users.GetByUsername id) /\ steps R (users.GetByMobile id).
Proof.
  unfold users.GetByUsername, users.GetByMobile, users.first_user.
  split; repeat (steps_step || frame_step).
Qed.

(** Prove that a program respects a relation, by following its text. *)
Ltac read_go :=
  repeat (steps_step || frame_step || lazymatch goal with
    | |- steps _ (users.GetByID _) => apply steps_GetByID; exact _
    | |- steps _ (users.GetByUsername _) => apply steps_lookup; exact _
    | |- steps _ (users.GetByMobile _) => apply steps_lookup; exact _
    | |- steps _ (users.listStaffRoles _) => apply steps_listStaffRoles; exact _
    | |- steps _ (users.buildAuthUser _) => apply steps_buildAuthUser; exact _
    | |- steps _ (users.loadRoles _) => apply steps_loadRoles; exact _
    | |- steps _ (users.find_role _) => apply steps_find_role; exact _
    | |- steps _ (users.appendAuditLogTx _ _ _ _ _ _ _ _) => apply steps_appendAuditLogTx; [exact _|]
    | |- steps _ (users.replaceUserRolesTx _ _) => apply steps_replaceUserRolesTx; [exact _|]
    | |- steps _ (users.replaceRolePermissionsTx _ _) => apply steps_replaceRolePermissionsTx; [exact _|]
    | |- steps _ (users.replaceRoleDomainsTx _ _) => apply steps_replaceRoleDomainsTx; [exact _|]
    | H : forall p f, same_identity f -> _ -> steps _ (update_where t_user p f) |- steps _ (update_where t_user _ _) => apply H
    | |- steps _ (update_where _ _ _) => apply steps_update_where; [exact _|]
    | H : forall R t, _ -> _ -> Ignores t _ |- Ignores _ _ => apply H; done
    end).

(** *** Any relation the writes of accounts respect

    The statuses an administrator can give; a change of an account that keeps its
    identity and gives it no other status. *)
Definition mutable_status (v : string) : Prop := v ∈ [AccountStatusActive; AccountStatusDisabled; AccountStatusLocked].
Definition mild (f : t -> t) : Prop := forall u, Status (f u) = Status u \/ mutable_status (Status (f u)).

Section Handlers.
Context (R : user_db -> user_db -> Prop) `{!PreOrder R}.

Lemma steps_normalize u : steps R (accounts.normalizeUserIdentifiers u).
Proof. unfold accounts.normalizeUserIdentifiers. read_go. Qed.
Lemma steps_prepare salt u role status : steps R (accounts.prepareNewUser salt u role status).
Proof.
  unfold accounts.prepareNewUser, accounts.validateLegacyRole, accounts.check_unused.
  apply steps_bind; [exact _|apply steps_normalize|intros u1]. read_go.
Qed.
Lemma steps_public u : steps R (accounts.newUserPublicDTO u).
Proof. unfold accounts.newUserPublicDTO, accounts.validateLegacyRole. read_go. Qed.
Lemma steps_status st : steps R (accounts.normalizeMutableAccountStatus st).
Proof. unfold accounts.normalizeMutableAccountStatus. read_go. Qed.
Lemma normalize_status_Ret st s v s' : accounts.normalizeMutableAccountStatus st s = (Ret v, s') -> mutable_status v.
Proof.
  unfold accounts.normalizeMutableAccountStatus. cbv zeta. destruct (_ || _) eqn:E; [|done].
  unfold ret. intros [= <- _]. unfold mutable_status. unfold seqb in E. bprop.
  destruct E as [[->| ->]| ->]; set_solver.
Qed.
Lemma steps_ListRoles : steps R users.ListRoles.
Proof. unfold users.ListRoles, users.role_info, users.listRolePermissions, users.listRoleDomains. read_go. Qed.
Lemma steps_known l : steps R (accounts.validateKnownRoleNames l).
Proof.
  unfold accounts.validateKnownRoleNames. destruct l; [read_go|].
  apply steps_bind; [exact _|apply steps_ListRoles|intros ?]. read_go.
Qed.
Lemma steps_collect valid e l acc : steps R (accounts.collect_names valid e l acc).
Proof.
  revert acc. induction l as [|n l IH]; intros acc; cbn [accounts.collect_names]; [read_go|].
  cbv zeta. destruct (seqb _ _); [apply IH|]. apply steps_bind; [exact _|read_go|intros _; apply IH].
Qed.
Lemma steps_permissions l : steps R (accounts.normalizePermissionNames l).
Proof. unfold accounts.normalizePermissionNames. apply steps_bind; [exact _|apply steps_collect|intros ?]. read_go. Qed.
Lemma steps_domains l : steps R (accounts.normalizeBusinessDomains l).
Proof. unfold accounts.normalizeBusinessDomains. apply steps_bind; [exact _|apply steps_collect|intros ?]. read_go. Qed.
Lemma steps_scopes l seen acc : steps R (accounts.collect_scopes l seen acc).
Proof.
  revert seen acc. induction l as [|n l IH]; intros seen acc; cbn [accounts.collect_scopes]; [read_go|].
  cbv zeta. do 3 (apply steps_bind; [exact _|read_go|intros _]). destruct (bool_decide _); apply IH.
Qed.

(** What is asked of the relation. *)
Context (Hother : forall Row (t : table user_db Row),
    (forall l d, users (set_rows t l d) = users d) ->
    (forall l d, user_account_deletion_outbox (set_rows t l d) = user_account_deletion_outbox d) -> Ignores t R)
  (Hupdate : forall p f, same_identity f -> mild f -> steps R (update_where t_user p f))
  (Hprofile : forall user,
    is_normal (Username user) (Regexp.MatchString usernamePattern) -> is_normal (Email user) isEmailAddress ->
    steps R (update_checked t_user (users.profile_refused user) (users.by_id (ID user)) (users.profile user)))
  (Hinsert : forall u, well_formed u -> mutable_status (Status u) -> steps R (users.insert_user u))
  (Hdelete : forall ev id now, steps R (users.RequestAccountDeletion ev id now)).

Lemma steps_CreateUser salt r : steps R (accountServer.CreateUser salt r).
Proof.
  unfold accountServer.CreateUser. destruct r as [r|]; [|read_go].
  apply steps_bind; [exact _| |intros u; apply steps_bind; [exact _|apply steps_public|intros ?; read_go]].
  cbn [accounts.Create]. apply (steps_bind_post _ (fun u => well_formed u /\ mutable_status (Status u))); [apply steps_prepare| |].
  - intros s u s' H. apply prepareNewUser_Ret in H as (_ & ? & _ & _ & _ & _ & _ & -> & _); [|done..].
    split; [done|]. unfold mutable_status. set_solver.
  - intros u [Hu Hs]. by apply Hinsert.
Qed.

Lemma steps_CreateStaffUser salt now r roles st actor :
  steps R (accountServer.CreateStaffUser salt now r roles st actor).
Proof.
  unfold accountServer.CreateStaffUser. destruct r as [r|]; [|read_go]. apply steps_bind; [exact _| |intros ?; read_go].
  cbn [accounts.CreateStaff]. cbv zeta. apply steps_bind; [exact _|read_go|intros _].
  apply steps_bind; [exact _|apply steps_known|intros _].
  apply (steps_bind_post _ mutable_status); [apply steps_status|apply normalize_status_Ret|intros status Hst].
  apply (steps_bind_post _ (fun u => well_formed u /\ mutable_status (Status u))); [apply steps_prepare| |].
  - intros s u s' H. by apply prepareNewUser_Ret in H as (_ & ? & _ & _ & _ & _ & _ & -> & _).
  - intros u [Hu Hs]. apply steps_bind; [exact _| |intros a; unfold accounts.newStaffUserDTO;
      apply steps_bind; [exact _|apply steps_public|intros ?; read_go]].
    unfold users.CreateStaff. cbv zeta. apply steps_bind; [exact _|read_go|intros _].
    apply steps_bind; [exact _| |intros ?; apply steps_buildAuthUser; exact _].
    unfold user_txn. apply steps_manual_txn; [exact _|done|].
    apply steps_bind; [exact _|apply steps_loadRoles; exact _|intros found].
    apply steps_bind; [exact _|by apply Hinsert|intros ?]. read_go.
Qed.

Lemma steps_UpdateUser r : steps R (accountServer.UpdateUser r).
Proof.
  unfold accountServer.UpdateUser. destruct r as [r|]; [|read_go]. cbn [accounts.Update].
  apply (steps_bind_post _ (fun u => is_normal (Username u) (Regexp.MatchString usernamePattern) /\
    is_normal (Email u) isEmailAddress)); [apply steps_normalize| |].
  - intros s u s' H. by apply normalizeUserIdentifiers_Ret in H as (_ & ? & ? & _).
  - intros u [Hn He]. apply steps_bind; [exact _|apply steps_GetByID; exact _|intros existing]. cbv zeta.
    unfold accounts.validateLegacyRole, users.Update. apply steps_bind; [exact _|read_go|intros _].
    apply steps_bind; [exact _|read_go|intros _].
    apply steps_bind; [exact _| |intros ?; read_go]. unfold user_dberr. apply steps_wrap_err.
    apply Hprofile; by destruct (Role u =? 0).
Qed.

Lemma steps_GetPublic id : steps R (accounts.GetByID id).
Proof. unfold accounts.GetByID. apply steps_bind; [exact _|apply steps_GetByID; exact _|intros ?; apply steps_public]. Qed.

Lemma steps_UpdateUserStatus now r : steps R (accountServer.UpdateUserStatus now r).
Proof.
  unfold accountServer.UpdateUserStatus. destruct r as [[[id st] actor]|]; [|read_go].
  apply steps_bind; [exact _| |intros ?; read_go].
  unfold accounts.UpdateStatus. apply steps_bind; [exact _|read_go|intros _].
  apply (steps_bind_post _ mutable_status); [apply steps_status|apply normalize_status_Ret|intros status Hst].
  apply steps_bind; [exact _| |intros _; apply steps_GetPublic]. unfold users.UpdateStatus. read_go; [done|].
  intros u. by right.
Qed.

Lemma steps_roles_handlers now c :
  match c with
  | AReplaceStaffRoles _ | ACreateRole _ | AUpdateRole _ | ADeleteRole _ => True
  | _ => False
  end -> steps R (run_acall now c).
Proof.
  destruct c; try done; intros _; cbn [run_acall]; unfold done.
  - apply steps_bind; [exact _| |intros ?; read_go]. unfold accountServer.ReplaceUserStaffRoles.
    destruct request as [[[id rs] actor]|]; [|read_go]. unfold accounts.ReplaceUserRoleBinding. cbv zeta.
    apply steps_bind; [exact _|apply steps_known|intros _]. unfold users.ReplaceUserRoles. read_go.
  - apply steps_bind; [exact _| |intros ?; read_go]. unfold accountServer.CreateStaffRole, accounts.CreateStaffRole.
    destruct request as [r|]; [|read_go]. cbv zeta. do 5 (apply steps_bind; [exact _|read_go|intros _]).
    apply steps_bind; [exact _|apply steps_permissions|intros ?].
    apply steps_bind; [exact _|apply steps_domains|intros ?]. unfold users.CreateRole. read_go.
  - apply steps_bind; [exact _| |intros ?; read_go]. unfold accountServer.UpdateStaffRole, accounts.UpdateStaffRole.
    destruct request as [r|]; [|read_go]. cbv zeta. do 3 (apply steps_bind; [exact _|read_go|intros _]).
    apply steps_bind; [exact _|apply steps_permissions|intros ?].
    apply steps_bind; [exact _|destruct (IsValidStaffRole _); [read_go|apply steps_domains]|intros ?].
    unfold users.UpdateRole. read_go.
  - unfold accountServer.DeleteStaffRole, accounts.DeleteStaffRole, users.DeleteRole. read_go.
Qed.

Lemma steps_session_call now c : session_call c = true -> steps R (run_ucall now c).
Proof.
  destruct c; try done; intros _; cbn [run_ucall]; unfold_server;
    unfold userServer.RecordLogin, userService.RecordLogin, sessions.RecordLogin; read_go; [done|].
  intros u. by left.
Qed.

Lemma steps_acall now c : steps R (run_acall now c).
Proof.
  destruct c; try (by apply steps_roles_handlers); cbn [run_acall]; unfold done.
  - apply steps_bind; [exact _|apply steps_CreateUser|intros ?; read_go].
  - apply steps_bind; [exact _|apply steps_CreateStaffUser|intros ?; read_go].
  - apply steps_UpdateUser.
  - unfold accountServer.DeleteUser. destruct request; [|read_go]. unfold accounts.Delete.
    apply steps_bind; [exact _|read_go|intros _; apply Hdelete].
  - apply steps_bind; [exact _|apply steps_UpdateUserStatus|intros ?; read_go].
  - apply steps_bind; [exact _| |intros ?; read_go].
    unfold accountServer.ReplaceUserResourceScopes, accounts.ReplaceResourceScopes.
    destruct (default _ request) as [id scopes]. apply steps_bind; [exact _|apply steps_scopes|intros ?].
    unfold users.ReplaceResourceScopes. read_go.
  - unfold accountServer.CreateAdminAuditLog, accounts.CreateAdminAuditLog, users.CreateAdminAuditLog. read_go.
  - destruct (session_call c) eqn:E; [by apply steps_session_call|read_go].
Qed.
End Handlers.

Lemma steps_request_ids ev id now : steps keeps_ids (users.RequestAccountDeletion ev id now).
Proof.
  unfold users.RequestAccountDeletion. repeat (steps_step || frame_step || lazymatch goal with
    | |- steps _ (users.appendAuditLogTx _ _ _ _ _ _ _ _) => apply steps_appendAuditLogTx; [exact _|]
    | |- steps _ (update_where t_user _ _) => apply steps_update_users
    | |- steps _ (update_where _ _ _) => apply steps_update_where; [exact _|]
    | |- Ignores _ _ => apply keeps_ids_ignores
    end); done.
Qed.

Lemma acall_keeps now c : steps keeps_ids (run_acall now c).
Proof.
  apply steps_acall; [exact _|intros; by apply keeps_ids_ignores|intros; by apply steps_update_users|apply steps_profile|
    intros; by apply steps_insert_account|apply steps_request_ids].
Qed.

Lemma areachable_ids d : areachable d -> ids_ok d.
Proof.
  revert d. apply areachable_ind; [|intros now c s; apply acall_keeps].
  intros d [E _]. split; rewrite ?E; [constructor|done|done|]. by intros u v ?%elem_of_nil.
Qed.

(** ** One account per identifier *)
Lemma answers_kind id u :
  answers id u = true -> Username u = Some id \/ Mobile u = id \/ Email u = Some id.
Proof.
  intros [_ [[H|H]%orb_true_iff|H]%orb_true_iff]%andb_true_iff.
  - destruct (Username u); [|done]. apply bool_decide_eq_true in H as ->. by left.
  - apply bool_decide_eq_true in H. by right; left.
  - destruct (Email u); [|done]. apply bool_decide_eq_true in H as ->. by right; right.
Qed.
Lemma same_key_conflict u v id :
  (Username u = Some id /\ Username v = Some id) \/ (Mobile u = id /\ Mobile v = id) \/ (Email u = Some id /\ Email v = Some id) ->
  users.user_conflict u v = true.
Proof.
  unfold users.user_conflict, users.same_opt, seqb. intros [[-> ->]|[[-> ->]|[-> ->]]];
    rewrite (bool_decide_eq_true_2 (id = id)) by done; by rewrite ?orb_true_r.
Qed.
(** A name, a mobile number and an address are different texts, but for a mobile
    number of the shape the pattern should not let in. *)
Lemma kinds_apart u v id :
  well_formed u -> well_formed v -> Regexp.MatchString mail_like id = false ->
  (Username u = Some id -> Mobile v <> id /\ Email v <> Some id) /\ (Mobile u = id -> Email v <> Some id).
Proof.
  intros Hu Hv Hid. split.
  - intros E. destruct (wf_username u Hu id E) as [(r & l & Er & Hr & Hn)%username_runes _]. split.
    + intros <-. destruct (mobile_runes _ (wf_mobile v Hv)) as [Hh _]. rewrite Er in Hh. injection Hh as ->. lia.
    + intros E'. destruct (wf_email v Hv id E') as [H%email_runes _]. done.
  - intros <- E'. destruct (wf_email v Hv _ E') as [H%email_runes _].
    destruct (mobile_runes _ (wf_mobile u Hu)) as [_ Hm]. specialize (Hm H). congruence.
Qed.

Lemma identifier_unique d u v id :
  ids_ok d -> u ∈ users d -> v ∈ users d -> answers id u = true -> answers id v = true ->
  Regexp.MatchString mail_like id = false -> u = v.
Proof.
  intros [Hn _ Hw Hc] Hu Hv Au Av Hid. apply (NoDup_ids (users d)); try done. apply Hc; [done..|].
  rewrite Forall_forall in Hw. pose proof (Hw u Hu) as Wu. pose proof (Hw v Hv) as Wv.
  apply (same_key_conflict u v id).
  destruct (kinds_apart u v id Wu Wv Hid) as [K1 K2], (kinds_apart v u id Wv Wu Hid) as [K3 K4].
  destruct (answers_kind id u Au) as [E|[E|E]], (answers_kind id v Av) as [F|[F|F]]; naive_solver.
Qed.

(** C25: an identifier leads to one account: in every state the handlers of the user
    service reach, under whatever faults, two live accounts that answer to the same
    name, mobile number or email address are the same account, unless the identifier
    is [15@] and eight digits. *)
Theorem identifier_leads_to_one_account d u v id :
  areachable d -> u ∈ users d -> v ∈ users d -> answers id u = true -> answers id v = true ->
  Regexp.MatchString mail_like id = false -> u = v.
Proof. intros Hd. by apply identifier_unique, areachable_ids. Qed.

(** ** A registered account can log in *)
Lemma find_app_none {A} (p : A -> bool) l x : find p l = None -> p x = true -> find p (l ++ [x]) = Some x.
Proof.
  induction l as [|y l IH]; simpl; [by intros _ ->|]. destruct (p y); [done|]. apply IH.
Qed.

Lemma buildAuthUser_run d u :
  0 < ID u -> exists a, users.buildAuthUser u (Env d []) = (Ret a, Env d []) /\ AuthUser a = u.
Proof.
  intros H. unfold users.buildAuthUser, users.listStaffRoles, users.listPermissions.
  rewrite (proj2 (Z.leb_gt _ _)) by lia. eexists. split; [reflexivity|done].
Qed.

Lemma first_user_run p d u : find p (users d) = Some u -> users.first_user p (Env d []) = (Ret u, Env d []).
Proof.
  intros H. unfold users.first_user, first_or, user_dberr, select_first, query, wrap_err, bind, stmt. cbn. by rewrite H.
Qed.

(** The account a registration stores. *)
Lemma CreateUser_Ret salt r s info s' :
  accountServer.CreateUser salt (Some r) s = (Ret info, s') ->
  exists u n,
    well_formed u /\ n = set_ID (ID n) (users.with_defaults u) /\ 0 < ID n /\ Role n = 1 /\
    users (e_db s') = users (e_db s) ++ [n] /\
    GenerateFromPassword salt (ReqPassWord r) = Some (Password n) /\
    (forall id, normalize id = id -> Username n = Some id \/ Email n = Some id -> unused id (e_db s)) /\
    find (fun v => users.alive v && seqb (Mobile v) (Mobile n)) (users (e_db s)) = None /\
    accounts.newUserPublicDTO n (Env (e_db s') []) = (Ret (MkUserPublicDTO (ID n) (Username n) (Mobile n) (Email n) (NickName n)
      (Birthday n) (Gender n) (Status n) (MobileVerified n) (EmailVerified n) (LastLoginAt n)), Env (e_db s') []) /\
    info = DTOToResponse (MkUserPublicDTO (ID n) (Username n) (Mobile n) (Email n) (NickName n)
      (Birthday n) (Gender n) (Status n) (MobileVerified n) (EmailVerified n) (LastLoginAt n)).
Proof.
  unfold accountServer.CreateUser. intros (n & s1 & H & H')%bind_Ret. cbn [accounts.Create] in H.
  apply bind_Ret in H as (u & s0 & Hp & Hi). apply prepareNewUser_Ret in Hp as (D0 & Hw & _ & _ & _ & Hg & Hr & _ & Un & Ue & Um); [|done..].
  cbn [users.Create] in Hi. unfold users.insert_user in Hi. cbv zeta in Hi.
  apply bind_Ret in Hi as (k & s2 & Hk%wrap_err_Ret & Hret). unfold ret in Hret. injection Hret as <- <-.
  apply within_columns_Ret in Hk. apply insert_row_Ret in Hk as (_ & Hk & D2). cbn [rows set_rows t_user] in Hk, D2.
  destruct (fresh_above _ _ _ Hk) as [Hpos _].
  cbn [accounts.PublicDTOFromMutation] in H'. apply bind_Ret in H' as (pub & s3 & Hpub & Hret).
  unfold ret in Hret. injection Hret as <- <-.
  assert (Role (set_ID k (users.with_defaults u)) = 1) as Hrole by (cbn; by rewrite Hr).
  apply bind_Ret in Hpub as (? & ? & [_ ->]%fail_if_Ret & Hret). unfold ret in Hret. injection Hret as <- <-.
  rewrite D0 in D2. exists u, (set_ID k (users.with_defaults u)). split_and!; try done.
  - by rewrite D2.
  - intros id _ [E|E]; [by apply Un|by apply Ue].
  - unfold accounts.newUserPublicDTO. by rewrite Hrole.
Qed.

Lemma registered_found r salt s info s' id :
  ids_ok (e_db s) -> accountServer.CreateUser salt (Some r) s = (Ret info, s') ->
  Regexp.MatchString mail_like (RspMobile info) = false ->
  normalize id = id -> id <> "" -> id ∈ [RspMobile info; RspUsername info; RspEmail info] ->
  exists n, find (answers id) (users (e_db s')) = Some n /\ 0 < ID n /\ Role n = 1 /\
    GenerateFromPassword salt (ReqPassWord r) = Some (Password n) /\
    info = DTOToResponse (MkUserPublicDTO (ID n) (Username n) (Mobile n) (Email n) (NickName n)
      (Birthday n) (Gender n) (Status n) (MobileVerified n) (EmailVerified n) (LastLoginAt n)).
Proof.
  intros Hok H Hm Hid Hne Hin. apply CreateUser_Ret in H as (u & n & Hw & En & Hp & Hr & Hus & Hg & Hun & Hum & _ & Hinfo).
  exists n. split; [|done]. rewrite Hus.
  assert (Username n = Username u /\ Mobile n = Mobile u /\ Email n = Email u /\ DeletedAt n = DeletedAt u) as (F1 & F2 & F3 & F4)
    by (rewrite En; done).
  rewrite Hinfo in Hin, Hm. cbn in Hin, Hm.
  assert (Username n = Some id \/ Mobile n = id \/ Email n = Some id) as Hkind.
  { clear -Hin Hne. unfold accounts.value_of in Hin. set_unfold. destruct (Username n), (Email n); naive_solver. }
  apply find_app_none.
  - destruct Hkind as [E|[E|E]]; [apply Hun; auto| |apply Hun; auto].
    destruct (find (answers id) (users (e_db s))) as [v|] eqn:Ev; [|done]. exfalso.
    apply find_some in Ev as [Hv%list_elem_of_In Av]. pose proof (ids_formed _ Hok) as Hf. rewrite Forall_forall in Hf.
    pose proof (Hf v Hv) as Wv. rewrite E in Hm.
    destruct (kinds_apart v u id Wv Hw Hm) as [K1 _], (kinds_apart u v id Hw Wv Hm) as [_ K2].
    destruct (answers_kind id v Av) as [F|[F|F]]; [apply (proj1 (K1 F)); congruence| |by apply K2; congruence].
    rewrite E in Hum. pose proof (find_none _ _ Hum v (proj1 (list_elem_of_In _ _) Hv)) as Hno. cbn in Hno.
    apply andb_true_iff in Av as [Av _]. rewrite Av in Hno. unfold seqb in Hno. by rewrite F, bool_decide_eq_true_2 in Hno.
  - unfold answers, users.alive. rewrite F4, (wf_present u Hw). cbn [negb andb]. unfold users.opt_is, seqb.
    destruct Hkind as [->|[->| ->]]; rewrite (bool_decide_eq_true_2 (id = id)) by done; by rewrite ?orb_true_r.
Qed.

(** C26: whoever registered can log in: after [CreateUser] returned, and unless
    the mobile number is [15@] and eight digits, a login with a text that, trimmed
    and lower-cased, is the name, the mobile number or the email address of the
    response finds that account, and its password hash accepts the password of the
    request.  ([mobile_shadows_email] shows the exception; a mobile number with an
    upper-case letter, which the pattern lets in, is not such a text.) *)
Theorem registered_account_logs_in `{!account_laws L} salt r d f info s' id :
  areachable d -> accountServer.CreateUser salt (Some r) (Env d f) = (Ret info, s') ->
  Regexp.MatchString mail_like (RspMobile info) = false ->
  normalize id <> "" -> normalize id ∈ [RspMobile info; RspUsername info; RspEmail info] ->
  let now := Env (e_db s') [] in
  exists auth, accountServer.GetUserAuthByMobile (Some id) now = (Ret auth, now) /\ AuthInfo auth = info /\
    accountServer.CheckPassWord (Some (ReqPassWord r, RspPasswordHash auth)) now = (Ret true, now).
Proof.
  intros Hd H Hm Hne Hin now. apply areachable_ids in Hd.
  destruct (registered_found r salt (Env d f) info s' (normalize id) Hd H Hm (normalize_idem id) Hne Hin) as (n & Hf & Hp & Hr & Hg & Hi).
  destruct (buildAuthUser_run (e_db s') n Hp) as (a & Ha & Ea).
  assert (TrimSpace (normalize id) = normalize id) as Ht by apply normal_trimmed, normalize_idem.
  assert (exists dto, accounts.GetAuthByUsername id now = (Ret dto, now) /\ info = DTOToResponse (AuthPublic dto) /\
            PasswordHash dto = Password n) as (dto & Hdto & Hpub & Hhash).
  { unfold accounts.GetAuthByUsername, normalizeLoginIdentifier. cbv zeta.
    rewrite (bind_run _ _ _ tt now) by (apply fail_if_run; by apply bool_decide_eq_false).
    rewrite (bind_run _ _ _ a now).
    2: { unfold users.GetAuthByUsername. rewrite (bind_run _ _ _ n now); [exact Ha|].
         rewrite GetByUsername_first; [by apply first_user_run|by apply nonempty_seqb|done]. }
    unfold accounts.newUserAuthDTO, accounts.newUserPublicDTO. rewrite Ea, Hr. eexists. split_and!; [reflexivity|exact Hi|done]. }
  exists (AuthDTOToResponse dto). cbn [accountServer.GetUserAuthByMobile]. rewrite (bind_run _ _ _ _ _ Hdto).
  split_and!; [done|done|]. cbn. by rewrite Hhash, (Compare_generated _ _ _ Hg).
Qed.
End Identity.

(** ** A concrete run *)

(** Plain text instead of bcrypt, and no character above U+00FF in a class. *)
Definition demo_libs : account_libs := {|
  upper_table := fun _ => false; lower_table := fun _ => false; digit_table := fun _ => false;
  ip_literal := fun _ => false;
  GenerateFromPassword := fun salt source =>
    if decide (slength source <= 72)%nat then Some (salt +:+ source) else None;
  CompareHashAndPassword := fun hash source =>
    bool_decide (drop (length (explode hash) - length (explode source)) (explode hash) = explode source);
  VerifyPbkdf2 := fun _ _ _ => false
|}.

Lemma demo_laws : @account_laws demo_libs.
Proof.
  split.
  - intros salt source H. cbn. rewrite decide_True by done. by eexists.
  - intros salt source hash H. cbn in *. destruct (decide _); [|done]. injection H as <-.
    rewrite explode_app. apply bool_decide_eq_true_2. rewrite length_app.
    replace (_ + _ - _)%nat with (length (explode salt)) by lia. apply drop_app_length.
Qed.

Definition demo_request (username mobile email : string) : CreateUserInfo :=
  MkCreateUserInfo username mobile email "nick" "Secret-1" false false.
Definition demo_alice : acall := ACreateUser "salt" (Some (demo_request " Alice" "13800000000" "Alice@shop.cn")).
Definition demo_bob : CreateUserInfo := demo_request "bob_2" "13900000000" "bob@shop.cn".
Definition demo_accounts : user_db := fold_left (astep (L := demo_libs)) [(100, demo_alice, [])] empty_user_db.
Definition demo_info : UserInfoResponse :=
  MkUserInfoResponse 2 "nick" "unknown" "13900000000" "active" false false 0 "bob_2" "bob@shop.cn" 0.

Lemma demo_accounts_reachable : areachable (L := demo_libs) demo_accounts.
Proof. exists empty_user_db, [(100, demo_alice, [])]. done. Qed.

Definition demo_after : env user_db :=
  (accountServer.CreateUser (L := demo_libs) "salt" (Some demo_bob) (Env demo_accounts [])).2.

Lemma registered_account_logs_in_witness :
  exists auth,
    accountServer.GetUserAuthByMobile (Some " BOB@shop.cn ") (Env (e_db demo_after) []) =
      (Ret auth, Env (e_db demo_after) []) /\ AuthInfo auth = demo_info /\
    accountServer.CheckPassWord (L := demo_libs) (Some (ReqPassWord demo_bob, RspPasswordHash auth))
      (Env (e_db demo_after) []) = (Ret true, Env (e_db demo_after) []).
Proof.
  apply (registered_account_logs_in (L := demo_libs) (account_laws0 := demo_laws) "salt" demo_bob demo_accounts [] demo_info
    demo_after " BOB@shop.cn ").
  - exact demo_accounts_reachable.
  - vm_compute. reflexivity.
  - vm_compute. reflexivity.
  - vm_compute. discriminate.
  - vm_compute. right. right. left.
Defined.

Definition demo_user : UserDO.t := UserDO.mk 1 false false (Some "alice") "13800000000" (Some "alice@shop.cn") "saltSecret-1"
  "nick" None "unknown" 1 "active" false false None.
Definition demo_both : user_db := fold_left (astep (L := demo_libs))
  [(100, demo_alice, []); (110, ACreateUser "salt" (Some demo_bob), [])] empty_user_db.
Lemma demo_both_reachable : areachable (L := demo_libs) demo_both.
Proof. exists empty_user_db, [(100, demo_alice, []); (110, ACreateUser "salt" (Some demo_bob), [])]. done. Qed.
(** Of two accounts in the table, only one answers to an address. *)
Lemma identifier_leads_to_one_account_witness :
  match users demo_both with
  | [u; v] => u = demo_user /\ ID v = 2 /\ answers "alice@shop.cn" u = true /\ answers "alice@shop.cn" v = false
  | _ => False
  end.
Proof.
  destruct (users demo_both) as [|u [|v [|]]] eqn:E; try (vm_compute in E; discriminate E).
  assert (u = demo_user /\ ID v = 2) as [Hu Hv] by (vm_compute in E; injection E as <- <-; done).
  split; [exact Hu|]. split; [exact Hv|]. split; [rewrite Hu; vm_compute; reflexivity|].
  destruct (answers "alice@shop.cn" v) eqn:A; [|reflexivity]. exfalso.
  assert (demo_user = v) as H; [|rewrite <- H in Hv; discriminate Hv].
  apply (identifier_leads_to_one_account (L := demo_libs) demo_both demo_user v "alice@shop.cn");
    [exact demo_both_reachable|rewrite E, Hu; left|rewrite E; right; left|vm_compute; reflexivity|exact A|vm_compute; reflexivity].
Defined.

(** The exception happens: an account registers as a mobile number the address of
    another one, and the login by that address is no longer certain. *)
Definition demo_shadow : user_db := fold_left (astep (L := demo_libs))
  [(100, ACreateUser "salt" (Some (demo_request "alice" "13800000000" "15@12345678")), []);
   (110, ACreateUser "salt" (Some (demo_request "mallory" "15@12345678" "")), [])] empty_user_db.
Lemma mobile_shadows_email :
  length (users demo_shadow) = 2%nat /\ forallb (answers "15@12345678") (users demo_shadow) = true.
Proof. split; vm_compute; reflexivity. Qed.
