(* ===== verification/DeletionOutbox.v ===== *)
(** * The outbox of account deletions: store and worker

    [app/user/srv/internal/data/v1/db/account_deletion_outbox.go] and
    [app/user/srv/internal/service/v1/account_deletion_outbox.go].  The event bus is
    not part of the repository: what it answers for an event, and whether the
    worker's context is done by then, is a function of the event.  The clock is an
    argument. *)
From S2P Require Import Prelude GoStrings Errors GoMonad Authz Tables UserModel UserStore.
Open Scope go_scope.

Module outbox.
Import AccountDeletionOutboxEventDO.

(** ** Changes of a row *)
Definition claim (now : Z) (e : t) : t :=
  mk (ID e) (EventType e) (UserID e) (Payload e) "PROCESSING" (RetryCount e) (AvailableAt e) (Some now) (PublishedAt e)
    (LastError e) (CreatedAt e) now.
Definition published (at_ : Z) (e : t) : t :=
  mk (ID e) (EventType e) (UserID e) (Payload e) "PUBLISHED" (RetryCount e) (AvailableAt e) None (Some at_) ""
    (CreatedAt e) at_.
Definition trimDeletionOutboxError (value : string) : string :=
  let value := TrimSpace value in
  if 500 <? Z.of_nat (slength value) then implode (take 500 (explode value)) else value.
Definition retried (now retryCount availableAt : Z) (lastError : string) (e : t) : t :=
  mk (ID e) (EventType e) (UserID e) (Payload e) "PENDING" retryCount availableAt None (PublishedAt e)
    (trimDeletionOutboxError lastError) (CreatedAt e) now.
Definition requeued (now : Z) (e : t) : t :=
  mk (ID e) (EventType e) (UserID e) (Payload e) "PENDING" (RetryCount e) (AvailableAt e) None (PublishedAt e)
    (LastError e) (CreatedAt e) now.

(** ** The store *)
Definition has_id (id : string) (e : t) : bool := seqb (ID e) id.
Definition due (now : Z) (e : t) : bool := seqb (Status e) "PENDING" && (AvailableAt e <=? now).
(** [ORDER BY available_at ASC, created_at ASC]. *)
Definition earlier (a b : t) : Prop :=
  AvailableAt a < AvailableAt b \/ (AvailableAt a = AvailableAt b /\ CreatedAt a <= CreatedAt b).
#[export] Instance earlier_dec a b : Decision (earlier a b) := _.
Definition claim_limit (limit : Z) : Z := if limit <=? 0 then 50 else limit.
Definition ClaimPendingDeletionEvents (limit now : Z) : M user_db (list t) :=
  user_dberr (transaction (
    found <- select_where t_deletion_outbox (due now) ;;
    let events := page 0 (claim_limit limit) (merge_sort earlier found) in
    match events with
    | [] => ret []
    | _ =>
      update_where t_deletion_outbox
        (fun e => bool_decide (ID e ∈ ID <$> events) && seqb (Status e) "PENDING") (claim now) ;;;
      ret events
    end)).
Definition update (eventID : string) (f : t -> t) : M user_db unit :=
  fail_if (seqb (TrimSpace eventID) "") (newCode ErrValidation "account deletion event id is required") ;;;
  user_dberr (update_where t_deletion_outbox (has_id eventID) f) ;;; ret tt.
Definition MarkDeletionEventPublished (eventID : string) (at_ : Z) : M user_db unit := update eventID (published at_).
Definition RetryDeletionEvent (now : Z) (eventID : string) (retryCount availableAt : Z) (lastError : string)
    : M user_db unit :=
  update eventID (retried now retryCount availableAt lastError).
Definition stale (before : Z) (e : t) : bool :=
  seqb (Status e) "PROCESSING" && match LockedAt e with Some at_ => at_ <=? before | None => false end.
Definition RequeueStaleDeletionEvents (now before : Z) : M user_db Z :=
  user_dberr (update_where t_deletion_outbox (stale before) (requeued now)).

(** ** The worker *)
Definition Second : Z := 1000000000.
Definition Minute : Z := 60 * Second.
Definition Hour : Z := 60 * Minute.
Record AccountDeletionOutboxConfig := MkConfig { BatchSize : Z; MaxRetries : Z }.
Definition normalized (c : AccountDeletionOutboxConfig) : AccountDeletionOutboxConfig :=
  MkConfig (if BatchSize c <=? 0 then 50 else BatchSize c) (if MaxRetries c <=? 0 then 20 else MaxRetries c).

(** The bus and the context around one event: done before it, the bus's answer
    ([None] is accepted), the times the two state writes use, done after it. *)
Record delivery := MkDelivery {
  done_before : bool; answer : option goerr; mark_time : Z; retry_time : Z; done_after : bool
}.
Definition retry_count (c : AccountDeletionOutboxConfig) (e : t) : Z :=
  let retry := wrap64 (RetryCount e + 1) in if MaxRetries c <? retry then MaxRetries c else retry.
(** [1 << min(retry, 8)] seconds; the count is at least 1. *)
Definition retry_delay (c : AccountDeletionOutboxConfig) (retry : Z) : Z :=
  if retry =? MaxRetries c then Hour else Z.shiftl 1 (Z.min retry 8) * Second.

Section Worker.
Context (c : AccountDeletionOutboxConfig) (bus : t -> delivery).

(** The loop over the claimed events; the result is the events the bus accepted. *)
Fixpoint deliver (events : list t) : M user_db (list t) :=
  match events with
  | [] => ret []
  | event :: rest =>
    let o := bus event in
    if done_before o then ret [] else
    marked <- match answer o with
              | None => attempt (MarkDeletionEventPublished (ID event) (mark_time o))
              | Some err => ret (inr err)
              end ;;
    let accepted := match answer o with None => [event] | Some _ => [] end in
    match marked with
    | inl _ => more <- deliver rest ;; ret (accepted ++ more)
    | inr err =>
      let retry := retry_count c event in
      attempt (RetryDeletionEvent (retry_time o) (ID event) retry (retry_time o + retry_delay c retry) (error_text err)) ;;;
      if done_after o then ret accepted
      else more <- deliver rest ;; ret (accepted ++ more)
    end
  end.

(** [process]: errors of the store and of the connection are logged and end the
    sweep. *)
Definition process (now : Z) (connected : bool) : M user_db (list t) :=
  stale <- attempt (RequeueStaleDeletionEvents now (now - 5 * Minute)) ;;
  match stale with
  | inr _ => ret []
  | inl _ =>
    if negb connected then ret [] else
    events <- attempt (ClaimPendingDeletionEvents (BatchSize c) now) ;;
    match events with inr _ => ret [] | inl events => deliver events end
  end.
End Worker.

(** [NewAccountDeletionOutboxWorker] normalises the configuration once. *)
Definition sweep (c : AccountDeletionOutboxConfig) (bus : t -> delivery) (now : Z) (connected : bool) : M user_db (list t) :=
  process (normalized c) bus now connected.
End outbox.
