(* ===== verification/DeletionProperties.v ===== *)
(** * A request to delete an account is never forgotten

    The handlers of the user service and the sweeps of the outbox worker, in any
    order and under any faults: an account that waits for its deletion always has an
    event, and a sweep with a working bus delivers the events that are due. *)
From S2P Require Import Prelude GoStrings Errors GoMonad Authz Tables UserModel UserStore SessionStore UserSessions SessionProperties.
From S2P Require Import UserValidation UserAccounts UserIdentity DeletionOutbox.
Import AccountDeletionOutboxEventDO outbox.
Open Scope go_scope.

(** ** The state of the outbox *)
Record event_ok (e : t) : Prop := {
  ok_status : Status e ∈ ["PENDING"; "PROCESSING"; "PUBLISHED"];
  ok_lock : is_Some (LockedAt e) <-> Status e = "PROCESSING";
  ok_published : Status e = "PUBLISHED" -> is_Some (PublishedAt e);
  ok_payload : Payload e = Requested.mk (ID e) (UserID e) (Requested.RequestedAt (Payload e));
  ok_type : EventType e = users.SubjectRequested
}.
Record deletion_ok (d : user_db) : Prop := {
  deletion_ids : NoDup (ID <$> user_account_deletion_outbox d);
  deletion_events : Forall event_ok (user_account_deletion_outbox d);
  deletion_pending : forall u, u ∈ users d -> UserDO.Status u = AccountStatusDeletionPending ->
    exists e, e ∈ user_account_deletion_outbox d /\ UserID e = UserDO.ID u
}.
Definition keeps_deletion (d d' : user_db) : Prop := deletion_ok d -> deletion_ok d'.
#[export] Instance keeps_deletion_pre : PreOrder keeps_deletion.
Proof. split; [intros d H; exact H|intros d1 d2 d3 H1 H2 H; by apply H2, H1]. Qed.

Lemma deletion_same d d' :
  users d' = users d -> user_account_deletion_outbox d' = user_account_deletion_outbox d -> deletion_ok d -> deletion_ok d'.
Proof. intros E1 E2 [? ? ?]. split; rewrite ?E1, ?E2; done. Qed.

(** A change of rows that keeps what identifies them. *)
Definition row_change (p : t -> bool) (f : t -> t) : Prop :=
  forall e, p e = true -> ID (f e) = ID e /\ UserID (f e) = UserID e /\ (event_ok e -> event_ok (f e)).

Lemma deletion_map d p f :
  row_change p f -> deletion_ok d ->
  deletion_ok (set_rows t_deletion_outbox ((fun e => if p e then f e else e) <$> user_account_deletion_outbox d) d).
Proof.
  intros Hf [Hn Hw Hp]. set (g e := if p e then f e else e).
  assert (forall e, ID (g e) = ID e /\ UserID (g e) = UserID e /\ (event_ok e -> event_ok (g e))) as Hg.
  { intros e. unfold g. destruct (p e) eqn:E; [by apply Hf|done]. }
  split; cbn; fold g.
  - rewrite <- list_fmap_compose. erewrite list_fmap_ext; [exact Hn|]. intros i e _. apply Hg.
  - apply Forall_fmap. eapply Forall_impl; [exact Hw|]. intros e. apply Hg.
  - intros u Hu Hs. destruct (Hp u Hu Hs) as (e & He & Ee). exists (g e). split; [by apply list_elem_of_fmap_2|].
    by destruct (Hg e) as (_ & -> & _).
Qed.
Lemma steps_outbox p f : row_change p f -> steps keeps_deletion (update_where t_deletion_outbox p f).
Proof. intros Hf. apply steps_stmt; [exact _|]. intros d Hd. by apply deletion_map. Qed.

Lemma change_claim now p :
  (forall e, p e = true -> Status e = "PENDING") -> row_change p (claim now).
Proof.
  intros Hp e _. split_and!; [done..|]. intros [? ? ? ? ?]. split; cbn; [set_solver|split; [done|by eexists]|done..].
Qed.
Lemma change_published at_ id : row_change (has_id id) (published at_).
Proof.
  intros e _. split_and!; [done..|]. intros [? ? ? ? ?]. split; cbn; [set_solver|split; [by intros []|done]|by eexists|done..].
Qed.
Lemma change_retried now n at_ err id : row_change (has_id id) (retried now n at_ err).
Proof.
  intros e _. split_and!; [done..|]. intros [? ? ? ? ?]. split; cbn; [set_solver|split; [by intros []|done]|done..].
Qed.
Lemma change_requeued now before : row_change (stale before) (requeued now).
Proof.
  intros e _. split_and!; [done..|]. intros [? ? ? ? ?]. split; cbn; [set_solver|split; [by intros []|done]|done..].
Qed.

(** ** The writes of the handlers *)
Lemma deletion_users d f :
  (forall u, UserDO.ID (f u) = UserDO.ID u) -> (forall u, UserDO.Status (f u) = AccountStatusDeletionPending ->
     UserDO.Status u = AccountStatusDeletionPending) ->
  deletion_ok d -> deletion_ok (set_rows t_user (f <$> users d) d).
Proof.
  intros Hid Hst [Hn Hw Hp]. split; cbn; [done..|]. intros u' (u & -> & Hu)%list_elem_of_fmap Hs.
  rewrite Hid. apply Hp; [done|by apply Hst].
Qed.
Lemma mutable_not_pending v : mutable_status v -> v <> AccountStatusDeletionPending.
Proof. unfold mutable_status. intros H ->. set_unfold. naive_solver. Qed.

Lemma deletion_update p f : same_identity f -> mild f -> steps keeps_deletion (update_where t_user p f).
Proof.
  intros Hf Hm. apply steps_stmt; [exact _|]. intros d Hd. apply (deletion_users d _); [| |done].
  - intros u. by destruct (p u); [apply Hf|].
  - intros u. destruct (p u); [|done]. destruct (Hm u) as [->|H]; [done|]. intros E. by apply mutable_not_pending in H.
Qed.
Lemma deletion_profile user : steps keeps_deletion
  (update_checked t_user (users.profile_refused user) (users.by_id (UserDO.ID user)) (users.profile user)).
Proof.
  apply steps_stmt; [exact _|]. intros d Hd. destruct (users.profile_refused user d); [done|].
  apply (deletion_users d _); [| |done]; intros u; by destruct (users.by_id _ u).
Qed.
Lemma deletion_insert u : mutable_status (UserDO.Status u) -> steps keeps_deletion (users.insert_user u).
Proof.
  intros Hs. unfold users.insert_user, user_dberr. cbv zeta. apply steps_bind; [exact _| |intros; apply steps_ret; exact _].
  apply steps_wrap_err, steps_within_columns; [exact _|]. apply steps_stmt; [exact _|]. intros d Hd. cbn [rows t_user].
  destruct (existsb _ (users d)); [done|]. cbv zeta. cbn [snd]. destruct Hd as [Hn Hw Hp]. split; cbn; [done..|].
  intros v [Hv| ->%list_elem_of_singleton]%elem_of_app Hst; [by apply Hp|]. exfalso. cbn in Hst.
  destruct (seqb (UserDO.Status u) ""); [done|]. by apply mutable_not_pending in Hs.
Qed.

Lemma deletion_request ev id now : steps keeps_deletion (users.RequestAccountDeletion ev id now).
Proof.
  intros s Hd. assert (atomic (users.RequestAccountDeletion ev id now)) as Ha.
  { unfold users.RequestAccountDeletion. apply atomic_bind; [apply steps_fail_if; exact _|intros _].
    apply atomic_wrap_err, atomic_transaction. }
  specialize (Ha s). destruct (users.RequestAccountDeletion ev id now s) as [r s'] eqn:E. cbn [fst snd] in *.
  destruct r as [[]|?|?]; [|by rewrite Ha..]. clear Ha. unfold users.RequestAccountDeletion in E.
  apply bind_Ret in E as (? & ? & [_ ->]%fail_if_Ret & E%wrap_err_Ret).
  apply transaction_Ret in E as (s0 & s1 & E0 & E & ->). rewrite <- E0 in Hd. clear E0.
  apply bind_Ret in E as (user & s2 & [Hu Du]%first_or_fail_Ret%select_first_Ret & E). rewrite <- Du in Hd.
  cbn [rows t_user] in Hu. symmetry in Hu. apply find_some in Hu as [_ Hid].
  assert (UserDO.ID user = id) as Hid' by (unfold users.by_id in Hid; blia).
  destruct (seqb (UserDO.Status user) _); [unfold ret in E; injection E as <-; done|].
  apply bind_Ret in E as (? & ? & [_ ->]%fail_if_Ret & E).
  apply bind_Ret in E as (? & s3 & [_ D3]%update_where_Ret & E).
  apply bind_Ret in E as (? & s4 & [_ D4]%update_where_Ret & E).
  apply bind_Ret in E as (? & s5 & [Hbad D5]%insert_new_Ret & E).
  assert (steps keeps_deletion (users.appendAuditLogTx (UserDO.ID user) (UserDO.ID user) PrincipalCustomer
    "account_deletion_requested" (UserDO.Status user) AccountStatusDeletionPending "" now)) as Hlog.
  { apply steps_appendAuditLogTx; [exact _|]. intros l d. exact (deletion_same d (set_rows t_audit l d) eq_refl eq_refl). }
  specialize (Hlog s5). rewrite E in Hlog. apply Hlog. clear Hlog E. rewrite D5, D4, D3 in *. cbn in Hbad.
  destruct Hd as [Hn Hw Hp]. split; cbn.
  - rewrite fmap_app. apply NoDup_snoc; [done|]. cbn. intros (e & Ee & He)%list_elem_of_fmap.
    pose proof (existsb_false_elem _ _ _ Hbad He) as Hf. cbn in Hf. apply bool_decide_eq_false in Hf. congruence.
  - apply Forall_app. split; [done|]. constructor; [|done]. split; cbn; [set_solver|split; [by intros []|done]|done|by rewrite Hid'|done].
  - intros u' (u & -> & Hu)%list_elem_of_fmap Hs. destruct (users.by_id id u) eqn:Eb.
    + eexists. split; [apply elem_of_app; right; by left|]. cbn. unfold users.by_id in Eb. blia.
    + destruct (Hp u Hu Hs) as (e & He & Ee). exists e. split; [apply elem_of_app; by left|done].
Qed.

(** ** Handlers and sweeps together *)
Section Runs.
Context `{L : account_libs}.

Lemma deletion_acall now c : steps keeps_deletion (run_acall now c).
Proof.
  apply steps_acall; [exact _| |apply deletion_update|intros; apply deletion_profile|intros; by apply deletion_insert|
    apply deletion_request].
  intros Row t H1 H2 l d. exact (deletion_same d _ (H1 l d) (H2 l d)).
Qed.

Lemma steps_update id f : row_change (has_id id) f -> steps keeps_deletion (outbox.update id f).
Proof.
  intros Hf. unfold outbox.update, user_dberr. repeat steps_step. by apply steps_outbox.
Qed.
Lemma steps_deliver c bus events : steps keeps_deletion (deliver c bus events).
Proof.
  induction events as [|e events IH]; cbn [deliver]; [apply steps_ret; exact _|].
  destruct (done_before (bus e)); [apply steps_ret; exact _|]. apply steps_bind; [exact _| |intros r].
  - destruct (answer (bus e)); [apply steps_ret; exact _|]. apply steps_attempt, steps_update, change_published.
  - destruct r as [?|err]; [apply steps_bind; [exact _|exact IH|intros ?; apply steps_ret; exact _]|].
    apply steps_bind; [exact _|apply steps_attempt, steps_update, change_retried|intros _].
    destruct (done_after (bus e)); [apply steps_ret; exact _|].
    apply steps_bind; [exact _|exact IH|intros ?; apply steps_ret; exact _].
Qed.
Lemma steps_claim limit now : steps keeps_deletion (ClaimPendingDeletionEvents limit now).
Proof.
  unfold ClaimPendingDeletionEvents, user_dberr. apply steps_wrap_err, steps_transaction; [exact _|].
  apply steps_bind; [exact _|apply steps_select_where; exact _|intros found]. cbv zeta.
  destruct (page _ _ _); [apply steps_ret; exact _|].
  apply steps_bind; [exact _|apply steps_outbox, change_claim|intros ?; apply steps_ret; exact _].
  intros e [_ H]%andb_true_iff. by apply bool_decide_eq_true in H.
Qed.
Lemma steps_sweep c bus now connected : steps keeps_deletion (sweep c bus now connected).
Proof.
  unfold sweep, process. apply steps_bind; [exact _| |intros r].
  - apply steps_attempt. unfold RequeueStaleDeletionEvents, user_dberr. apply steps_wrap_err, steps_outbox, change_requeued.
  - destruct r; [|apply steps_ret; exact _]. destruct connected; [|apply steps_ret; exact _]. cbn [negb].
    apply steps_bind; [exact _|apply steps_attempt, steps_claim|intros r].
    destruct r; [apply steps_deliver|apply steps_ret; exact _].
Qed.

(** A handler's call or a sweep of a worker. *)
Inductive dcall := DHandler (c : acall) | DSweep (c : AccountDeletionOutboxConfig) (bus : t -> delivery) (connected : bool).
Definition run_dcall (now : Z) (c : dcall) : M user_db unit :=
  match c with
  | DHandler c => run_acall now c
  | DSweep c bus connected => done (sweep c bus now connected)
  end.
Definition dstep (d : user_db) (e : Z * dcall * list (option string)) : user_db :=
  e_db (run_dcall e.1.1 e.1.2 (Env d e.2)).2.
Definition dreachable (d : user_db) : Prop := exists d0 l, ainitial d0 /\ d = fold_left dstep l d0.

Lemma dreachable_ok d : dreachable d -> deletion_ok d.
Proof.
  intros (d0 & l & [E1 E2] & ->).
  assert (deletion_ok d0) as H0.
  { split; rewrite ?E1, ?E2; [constructor|done|]. by intros u ?%elem_of_nil. }
  clear E1 E2. revert d0 H0. induction l as [|[[now c] f] l IH]; intros d0 H0; [done|]. simpl. apply IH.
  destruct c as [c|c bus connected]; [by apply (deletion_acall now c (Env d0 f))|].
  assert (steps keeps_deletion (done (sweep c bus now connected))) as Hs.
  { apply steps_bind; [exact _|apply steps_sweep|intros ?; apply steps_ret; exact _]. }
  exact (Hs (Env d0 f) H0).
Qed.

(** C27: a request to delete an account is never forgotten: in every state the
    handlers and the outbox worker reach, under whatever faults and answers of the
    bus, each account that waits for its deletion has an event that names it, every
    event is waiting, held or published and carries the request of its user, and it
    is locked exactly while a sweep holds it. *)
Theorem deletion_request_never_lost d u :
  dreachable d -> u ∈ users d -> UserDO.Status u = AccountStatusDeletionPending ->
  exists e, e ∈ user_account_deletion_outbox d /\ UserID e = UserDO.ID u /\
    Requested.UserID (Payload e) = UserDO.ID u /\ Requested.EventID (Payload e) = ID e /\
    Status e ∈ ["PENDING"; "PROCESSING"; "PUBLISHED"] /\ (is_Some (LockedAt e) <-> Status e = "PROCESSING").
Proof.
  intros [_ Hw Hp]%dreachable_ok Hu Hs. destruct (Hp u Hu Hs) as (e & He & Ee). exists e.
  rewrite Forall_forall in Hw. destruct (Hw e He) as [H1 H2 _ H3 _]. rewrite H3. by split_and!.
Qed.
End Runs.

(** ** A sweep that nothing disturbs *)
Section Delivers.
Context `{L : account_libs}.
Context (bus : t -> delivery) (Hbefore : forall e, done_before (bus e) = false) (Hanswer : forall e, answer (bus e) = None).

(** What the marks of a list of events make of a row. *)
Definition marks (events : list t) (e : t) : t :=
  fold_left (fun e event => if has_id (ID event) e then published (mark_time (bus event)) e else e) events e.

Lemma marks_same events e : ID (marks events e) = ID e /\ Payload (marks events e) = Payload e.
Proof.
  revert e. induction events as [|x events IH]; intros e; [done|].
  destruct (IH (if has_id (ID x) e then published (mark_time (bus x)) e else e)) as [E1 E2].
  unfold marks in *. simpl. rewrite E1, E2. by destruct (has_id (ID x) e).
Qed.
Lemma marks_published events e : Status e = "PUBLISHED" -> Status (marks events e) = "PUBLISHED".
Proof.
  revert e. induction events as [|x events IH]; intros e He; [done|]. unfold marks. simpl. apply IH.
  by destruct (has_id (ID x) e).
Qed.
Lemma marks_in events e : ID e ∈ ID <$> events -> Status (marks events e) = "PUBLISHED".
Proof.
  revert e. induction events as [|x events IH]; intros e He; [by apply elem_of_nil in He|]. unfold marks. simpl.
  destruct (has_id (ID x) e) eqn:E; [by apply marks_published|]. apply IH. cbn in He.
  apply elem_of_cons in He as [He|He]; [|done]. apply bool_decide_eq_false in E. congruence.
Qed.
Lemma marks_out events e : ID e ∉ ID <$> events -> marks events e = e.
Proof.
  revert e. induction events as [|x events IH]; intros e He; [done|]. unfold marks. simpl. cbn in He.
  apply not_elem_of_cons in He as [H1 H2]. destruct (has_id (ID x) e) eqn:E; [by apply bool_decide_eq_true in E|by apply IH].
Qed.

Lemma deliver_run c events d :
  Forall (fun e => TrimSpace (ID e) <> "") events ->
  deliver c bus events (Env d []) =
    (Ret events, Env (set_rows t_deletion_outbox (marks events <$> user_account_deletion_outbox d) d) []).
Proof.
  intros H. revert d. induction H as [|e events He _ IH]; intros d; cbn [deliver].
  - unfold marks. cbn [fold_left]. rewrite list_fmap_id. by destruct d.
  - rewrite Hbefore, Hanswer. cbv zeta.
    set (d1 := set_rows t_deletion_outbox ((fun r => if has_id (ID e) r then published (mark_time (bus e)) r else r) <$>
      user_account_deletion_outbox d) d).
    rewrite (bind_run _ _ _ (inl tt) (Env d1 [])).
    + rewrite (bind_run _ _ _ _ _ (IH d1)). cbv beta. unfold ret. cbn [app]. cbn.
      by rewrite <- list_fmap_compose.
    + apply attempt_run. unfold MarkDeletionEventPublished, outbox.update.
      rewrite (bind_run _ _ _ tt (Env d [])); [done|]. apply fail_if_run. by apply bool_decide_eq_false.
Qed.

(** The events a claim takes: the earliest of those that are due. *)
Definition claimed_of (limit now : Z) (l : list t) : list t :=
  take (Z.to_nat (claim_limit limit)) (merge_sort earlier (List.filter (due now) l)).
Definition claim_rows (now : Z) (events l : list t) : list t :=
  (fun e => if bool_decide (ID e ∈ ID <$> events) && seqb (Status e) "PENDING" then claim now e else e) <$> l.

Lemma claim_limit_positive limit : 0 < claim_limit limit.
Proof. unfold claim_limit. destruct (Z.leb_spec limit 0); lia. Qed.
Lemma claim_run limit now d :
  let events := claimed_of limit now (user_account_deletion_outbox d) in
  ClaimPendingDeletionEvents limit now (Env d []) =
    (Ret events, Env (set_rows t_deletion_outbox (claim_rows now events (user_account_deletion_outbox d)) d) []).
Proof.
  intros events. pose proof (claim_limit_positive limit).
  set (found := List.filter (due now) (user_account_deletion_outbox d)) in *.
  assert (page 0 (claim_limit limit) (merge_sort earlier found) = events) as Hpage.
  { unfold page. cbn [Z.ltb Z.compare]. by rewrite (proj2 (Z.leb_le _ _)) by lia. }
  unfold ClaimPendingDeletionEvents, user_dberr. apply wrap_err_run, transaction_run.
  rewrite (bind_run _ _ _ found (Env d [])) by done. cbv zeta. rewrite Hpage.
  destruct events as [|x l]; [|done]. unfold ret, claim_rows. cbn. rewrite list_fmap_id. by destruct d.
Qed.
Lemma claimed_due limit now l e : e ∈ claimed_of limit now l -> e ∈ l /\ due now e = true.
Proof.
  intros (n & He)%elem_of_take. destruct He as [He _]. apply list_elem_of_lookup_2 in He.
  rewrite merge_sort_Permutation in He. by apply list_elem_of_In, filter_In in He as [He%list_elem_of_In ?].
Qed.

Lemma NoDup_fmap_ids (l : list t) e x : NoDup (ID <$> l) -> e ∈ l -> x ∈ l -> ID e = ID x -> e = x.
Proof.
  intros Hn (i & Hi)%list_elem_of_lookup (j & Hj)%list_elem_of_lookup E.
  assert (i = j) as ->; [|congruence].
  apply (NoDup_lookup (ID <$> l) i j (ID e) Hn); rewrite list_lookup_fmap; [by rewrite Hi|rewrite Hj; simpl; by rewrite E].
Qed.

(** The rows a sweep looks at, once the stale ones are back in the queue. *)
Definition requeue (now : Z) (d : user_db) : list t :=
  (fun e => if stale (now - 5 * Minute) e then requeued now e else e) <$> user_account_deletion_outbox d.

Lemma requeue_ids now d : ID <$> requeue now d = ID <$> user_account_deletion_outbox d.
Proof. unfold requeue. rewrite <- list_fmap_compose. apply list_fmap_ext. intros i e _. simpl. by destruct (stale _ e). Qed.
Lemma requeue_fresh now d e : e ∈ requeue now d -> stale (now - 5 * Minute) e = false.
Proof. intros (r & -> & _)%list_elem_of_fmap. by destruct (stale (now - 5 * Minute) r) eqn:E. Qed.

(** What a sweep makes of a row it looks at. *)
Definition swept (now : Z) (events : list t) (r : t) : t :=
  marks events (if bool_decide (ID r ∈ ID <$> events) && seqb (Status r) "PENDING" then claim now r else r).
Lemma swept_same now events r : ID (swept now events r) = ID r /\ Payload (swept now events r) = Payload r.
Proof. unfold swept. destruct (marks_same events (if bool_decide (ID r ∈ ID <$> events) && seqb (Status r) "PENDING" then claim now r else r)) as [-> ->]. by case_match. Qed.
Lemma swept_in now events r : ID r ∈ ID <$> events -> Status (swept now events r) = "PUBLISHED".
Proof. intros H. apply marks_in. by case_match. Qed.
Lemma swept_out now events r : ID r ∉ ID <$> events -> swept now events r = r.
Proof. intros H. unfold swept. rewrite (bool_decide_eq_false_2 _ H). cbn [andb]. by apply marks_out. Qed.
Lemma swept_due now events r : due now (swept now events r) = due now r && negb (bool_decide (ID r ∈ ID <$> events)).
Proof.
  destruct (decide (ID r ∈ ID <$> events)) as [H|H].
  - rewrite (bool_decide_eq_true_2 _ H), andb_false_r. unfold due. by rewrite swept_in.
  - by rewrite (bool_decide_eq_false_2 _ H), andb_true_r, swept_out.
Qed.

Definition batch (c : AccountDeletionOutboxConfig) (now : Z) (d : user_db) : list t :=
  claimed_of (BatchSize (normalized c)) now (requeue now d).
Definition nonblank (d : user_db) : Prop := Forall (fun id => TrimSpace id <> "") (ID <$> user_account_deletion_outbox d).

Lemma sweep_run c now d :
  nonblank d ->
  sweep c bus now true (Env d []) =
    (Ret (batch c now d), Env (set_rows t_deletion_outbox (swept now (batch c now d) <$> requeue now d) d) []).
Proof.
  intros Hb. set (d1 := set_rows t_deletion_outbox (requeue now d) d).
  assert (Forall (fun e => TrimSpace (ID e) <> "") (batch c now d)) as Hev.
  { apply Forall_forall. intros e [He _]%claimed_due. unfold nonblank in Hb. rewrite <- (requeue_ids now), Forall_fmap, Forall_forall in Hb.
    by apply (Hb e). }
  unfold sweep, process. rewrite (bind_run _ _ _ (inl _) (Env d1 [])) by (apply attempt_run; reflexivity). cbn [negb].
  rewrite (bind_run _ _ _ _ _ (attempt_run _ _ _ _ (claim_run (BatchSize (normalized c)) now d1))).
  change (user_account_deletion_outbox d1) with (requeue now d). fold (batch c now d).
  rewrite (deliver_run _ _ _ Hev). cbn. unfold claim_rows. by rewrite <- list_fmap_compose.
Qed.

(** The events that are due when a sweep claims, those another sweep left behind
    included, and the ones its batch has no room for. *)
Definition found (now : Z) (d : user_db) : list t := List.filter (due now) (requeue now d).
Definition left_over (c : AccountDeletionOutboxConfig) (now : Z) (d : user_db) : list t :=
  drop (Z.to_nat (BatchSize (normalized c))) (merge_sort earlier (found now d)).

Lemma batch_size_positive c : 0 < BatchSize (normalized c).
Proof. unfold normalized. cbn. destruct (Z.leb_spec (BatchSize c) 0); lia. Qed.
Lemma batch_split c now d : batch c now d ++ left_over c now d = merge_sort earlier (found now d).
Proof.
  unfold batch, claimed_of, left_over, claim_limit. fold (found now d).
  rewrite (proj2 (Z.leb_gt _ _)) by apply batch_size_positive. apply take_drop.
Qed.
Lemma batch_found c now d : batch c now d ++ left_over c now d ≡ₚ found now d.
Proof. rewrite batch_split. apply merge_sort_Permutation. Qed.
Lemma batch_length c now d :
  Z.of_nat (length (batch c now d)) = Z.min (BatchSize (normalized c)) (Z.of_nat (length (found now d))).
Proof.
  pose proof (batch_size_positive c). unfold batch, claimed_of, claim_limit. fold (found now d).
  rewrite (proj2 (Z.leb_gt _ _)) by done. rewrite length_take, merge_sort_Permutation. lia.
Qed.
#[local] Instance earlier_total : Total earlier.
Proof. intros a b. unfold earlier. lia. Qed.
#[local] Instance earlier_trans : Transitive earlier.
Proof. intros a b x. unfold earlier. lia. Qed.
Lemma batch_first c now d e f : e ∈ batch c now d -> f ∈ left_over c now d -> earlier e f.
Proof.
  pose proof (StronglySorted_merge_sort earlier (found now d)) as H. rewrite <- (batch_split c) in H.
  intros He Hf. by apply (StronglySorted_app_1_elem_of earlier _ _ e f H).
Qed.

Lemma filter_swept now events l :
  List.filter (due now) (swept now events <$> l) = List.filter (fun r => negb (bool_decide (ID r ∈ ID <$> events))) (List.filter (due now) l).
Proof.
  induction l as [|r l IH]; [done|]. cbn [fmap list_fmap List.filter]. rewrite swept_due.
  destruct (due now r); cbn [andb List.filter]; [|exact IH]. destruct (decide (ID r ∈ ID <$> events)) as [H|H].
  - rewrite (bool_decide_eq_true_2 _ H). exact IH.
  - rewrite (bool_decide_eq_false_2 _ H), IH, swept_out by done. done.
Qed.

(** After a sweep the due events are those its batch had no room for. *)
Lemma sweep_rest c now d :
  NoDup (ID <$> user_account_deletion_outbox d) ->
  List.filter (due now) (swept now (batch c now d) <$> requeue now d) ≡ₚ left_over c now d.
Proof.
  intros Hn. rewrite filter_swept. fold (found now d). rewrite <- (batch_found c now d).
  assert (NoDup (ID <$> batch c now d ++ left_over c now d)) as Hb
    by (rewrite batch_found; apply NoDup_fmap_filter; by rewrite requeue_ids).
  rewrite fmap_app in Hb. apply NoDup_app in Hb as (_ & Hd & _). rewrite List.filter_app.
  rewrite (filter_nil _ (batch c now d)), (filter_all _ (left_over c now d)); [done| |].
  - intros e He. apply negb_true_iff, bool_decide_eq_false. intros H. apply (Hd _ H). by apply list_elem_of_fmap_2.
  - intros e He. apply negb_false_iff, bool_decide_eq_true. by apply list_elem_of_fmap_2.
Qed.

(** C28: a sweep delivers what is due: when the bus accepts every event, the context
    is not done and no statement fails, a sweep over an outbox with non-blank ids takes
    of the events that are due, the ones another sweep left behind included, as many as
    fit in its batch and the earliest first, hands each to the bus exactly once, marks it
    published, and leaves due exactly the events there was no room for; none, when all
    fit. *)
Theorem sweep_delivers c now d :
  dreachable d -> Forall (fun e => TrimSpace (ID e) <> "") (user_account_deletion_outbox d) ->
  exists delivered rest s',
    sweep c bus now true (Env d []) = (Ret delivered, s') /\
    delivered ++ rest ≡ₚ List.filter (due now) (requeue now d) /\ NoDup (ID <$> delivered) /\
    Z.of_nat (length delivered) = Z.min (BatchSize (normalized c)) (Z.of_nat (length (delivered ++ rest))) /\
    (forall e f, e ∈ delivered -> f ∈ rest -> earlier e f) /\
    (forall e, e ∈ delivered -> exists e', e' ∈ user_account_deletion_outbox (e_db s') /\ ID e' = ID e /\
       Status e' = "PUBLISHED" /\ Payload e' = Payload e) /\
    List.filter (due now) (user_account_deletion_outbox (e_db s')) ≡ₚ rest.
Proof.
  intros Hd Hids. pose proof (deletion_ids d (dreachable_ok d Hd)) as Hn. clear Hd.
  exists (batch c now d), (left_over c now d). eexists. split; [apply sweep_run; by apply Forall_fmap|].
  split; [apply batch_found|]. split.
  { assert (NoDup (ID <$> batch c now d ++ left_over c now d)) as Hb
      by (rewrite batch_found; apply NoDup_fmap_filter; by rewrite requeue_ids).
    rewrite fmap_app in Hb. by apply NoDup_app in Hb as (? & _). }
  split; [rewrite batch_found; apply batch_length|]. split; [apply batch_first|]. cbn. split; [|by apply sweep_rest].
  intros e He. destruct (claimed_due _ _ _ _ He) as [Hr _]. exists (swept now (batch c now d) e).
  split; [by apply list_elem_of_fmap_2|]. destruct (swept_same now (batch c now d) e) as [-> ->].
  split_and!; [done| |done]. apply swept_in. by apply list_elem_of_fmap_2.
Qed.

(** ** The backlog goes down *)
Definition backlog (now : Z) (d : user_db) : Z := Z.of_nat (length (List.filter (due now) (requeue now d))).

Lemma sweep_backlog c now d :
  NoDup (ID <$> user_account_deletion_outbox d) -> nonblank d ->
  let d' := e_db (sweep c bus now true (Env d [])).2 in
  backlog now d' = Z.max 0 (backlog now d - BatchSize (normalized c)) /\
  ID <$> user_account_deletion_outbox d' = ID <$> user_account_deletion_outbox d.
Proof.
  intros Hn Hb d'. subst d'. rewrite sweep_run by done. cbn [snd e_db]. pose proof (sweep_rest c now d Hn) as Hrest.
  pose proof (batch_found c now d) as Hf. pose proof (batch_length c now d) as Hl. set (ev := batch c now d) in *.
  set (rows' := swept now ev <$> requeue now d) in *.
  assert (requeue now (set_rows t_deletion_outbox rows' d) = rows') as Hq.
  { unfold requeue at 1. cbn. rewrite <- (list_fmap_id rows') at 2. apply list_fmap_ext. intros i e He.
    apply list_elem_of_lookup_2, list_elem_of_fmap in He as (r & -> & Hr).
    destruct (decide (ID r ∈ ID <$> ev)) as [Hin|Hout].
    - unfold stale. by rewrite swept_in.
    - rewrite swept_out by done. by rewrite (requeue_fresh now d r Hr). }
  split.
  - unfold backlog. rewrite Hq, Hrest. fold (found now d). rewrite <- Hf, length_app in *. lia.
  - cbn. subst rows'. rewrite <- list_fmap_compose, <- (requeue_ids now d). apply list_fmap_ext. intros i e _. simpl.
    by destruct (swept_same now ev e) as [-> _].
Qed.

(** The tables after [n] sweeps. *)
Definition sweeps (n : nat) (c : AccountDeletionOutboxConfig) (now : Z) (d : user_db) : user_db :=
  Nat.iter n (fun d => e_db (sweep c bus now true (Env d [])).2) d.

(** The backlog drains: while the bus accepts and nothing fails, each sweep takes
    a batch off the events that are due, so [n] sweeps leave exactly what exceeds [n]
    batches, and enough sweeps leave nothing. *)
Theorem sweeps_drain n c now d :
  dreachable d -> Forall (fun e => TrimSpace (ID e) <> "") (user_account_deletion_outbox d) ->
  backlog now (sweeps n c now d) = Z.max 0 (backlog now d - Z.of_nat n * BatchSize (normalized c)).
Proof.
  intros Hd Hb. assert (nonblank d) as Hb' by (by apply Forall_fmap). clear Hb. rename Hb' into Hb.
  pose proof (deletion_ids d (dreachable_ok d Hd)) as Hn. clear Hd.
  assert (0 < BatchSize (normalized c)) by (unfold normalized; cbn; destruct (Z.leb_spec (BatchSize c) 0); lia).
  assert (backlog now (sweeps n c now d) = Z.max 0 (backlog now d - Z.of_nat n * BatchSize (normalized c)) /\
    ID <$> user_account_deletion_outbox (sweeps n c now d) = ID <$> user_account_deletion_outbox d) as [E _]; [|exact E].
  induction n as [|n [IH1 IH2]]; [split; [change (sweeps 0 c now d) with d; unfold backlog; lia|done]|].
  change (sweeps (S n) c now d) with (e_db (sweep c bus now true (Env (sweeps n c now d) [])).2).
  destruct (sweep_backlog c now (sweeps n c now d)) as [E1 E2]; [by rewrite IH2|unfold nonblank; rewrite IH2; exact Hb|].
  rewrite E1, E2, IH1, IH2. split; [lia|done].
Qed.
End Delivers.

(** ** A concrete run *)
Definition demo_bus (e : t) : delivery := MkDelivery false None 300 300 false.
Definition demo_config : AccountDeletionOutboxConfig := MkConfig 0 0.
Definition demo_pending : user_db := fold_left (dstep (L := demo_libs))
  [(100, DHandler demo_alice, []); (200, DHandler (ADeleteUser "ev-1" (Some 1)), [])] empty_user_db.
Lemma demo_pending_reachable : dreachable (L := demo_libs) demo_pending.
Proof.
  exists empty_user_db, [(100, DHandler demo_alice, []); (200, DHandler (ADeleteUser "ev-1" (Some 1)), [])]. done.
Qed.
Definition demo_event : t :=
  mk "ev-1" users.SubjectRequested 1 (Requested.mk "ev-1" 1 200) "PENDING" 0 200 None None "" 200 200.

Lemma deletion_request_never_lost_witness :
  (UserDO.Status <$> users demo_pending) = [AccountStatusDeletionPending] /\
  exists e, e ∈ user_account_deletion_outbox demo_pending /\ UserID e = 1 /\
    Requested.UserID (Payload e) = 1 /\ Requested.EventID (Payload e) = ID e /\
    Status e ∈ ["PENDING"; "PROCESSING"; "PUBLISHED"] /\ (is_Some (LockedAt e) <-> Status e = "PROCESSING").
Proof.
  split; [vm_compute; reflexivity|].
  apply (deletion_request_never_lost (L := demo_libs) demo_pending
    (UserDO.set_Status AccountStatusDeletionPending demo_user));
    [exact demo_pending_reachable|vm_compute; left|reflexivity].
Defined.

Lemma sweep_delivers_witness :
  user_account_deletion_outbox demo_pending = [demo_event] /\
  exists delivered rest s',
    sweep demo_config demo_bus 250 true (Env demo_pending []) = (Ret delivered, s') /\
    delivered ++ rest ≡ₚ [demo_event] /\ Z.of_nat (length delivered) = 1 /\
    List.filter (due 250) (user_account_deletion_outbox (e_db s')) ≡ₚ rest.
Proof.
  split; [vm_compute; reflexivity|].
  destruct (sweep_delivers (L := demo_libs) demo_bus (fun _ => eq_refl) (fun _ => eq_refl) demo_config 250 demo_pending)
    as (delivered & rest & s' & Hrun & Hp & _ & Hl & _ & _ & Hr).
  - exact demo_pending_reachable.
  - vm_compute. repeat constructor. discriminate.
  - exists delivered, rest, s'. change (List.filter (due 250) (requeue 250 demo_pending)) with [demo_event] in Hp.
    rewrite Hp in Hl. split_and!; [exact Hrun|exact Hp|exact Hl|exact Hr].
Defined.

Lemma sweeps_drain_witness :
  user_account_deletion_outbox demo_pending = [demo_event] /\
  backlog 250 (sweeps demo_bus 1 demo_config 250 demo_pending) = 0.
Proof.
  split; [vm_compute; reflexivity|].
  exact (sweeps_drain (L := demo_libs) demo_bus (fun _ => eq_refl) (fun _ => eq_refl) 1 demo_config 250 demo_pending
    demo_pending_reachable ltac:(vm_compute; repeat constructor; discriminate)).
Defined.
