(* ===== verification/GoodsModel.v ===== *)
(** * Goods data: [app/goods/srv/internal/domain/do] and its tables

    One module per row, with the source's field names; rows carry the deletion mark
    GORM filters on.  The columns [add_time], [update_time] and [is_deleted] appear
    where code reads them.  The search index is the map of its documents by id. *)
From S2P Require Import Prelude GoStrings Errors GoMonad Tables.

Module BrandsDO.
Record t := mk { ID : Z; DeletedAt : bool; Name : string; Logo : string }.
#[global] Instance eq_dec : EqDecision t.
Proof. solve_decision. Defined.
Definition set_ID (v : Z) (r : t) : t := mk v (DeletedAt r) (Name r) (Logo r).
Definition delete (r : t) : t := mk (ID r) true (Name r) (Logo r).
Definition update (to r : t) : t := mk (ID r) (DeletedAt r) (Name to) (Logo to).
Definition zero : t := mk 0 false "" "".
End BrandsDO.

Module CategoryDO.
Record t := mk { ID : Z; DeletedAt : bool; Name : string; ParentCategoryID : Z; Level : Z; IsTab : bool }.
#[global] Instance eq_dec : EqDecision t.
Proof. solve_decision. Defined.
Definition set_ID (v : Z) (r : t) : t := mk v (DeletedAt r) (Name r) (ParentCategoryID r) (Level r) (IsTab r).
Definition set_Name (v : string) (r : t) : t := mk (ID r) (DeletedAt r) v (ParentCategoryID r) (Level r) (IsTab r).
Definition delete (r : t) : t := mk (ID r) true (Name r) (ParentCategoryID r) (Level r) (IsTab r).
Definition update (to r : t) : t := mk (ID r) (DeletedAt r) (Name to) (ParentCategoryID to) (Level to) (IsTab to).
Definition zero : t := mk 0 false "" 0 0 false.
End CategoryDO.

(** A category with the sub-categories a query preloaded. *)
Inductive category_tree := CategoryTree (row : CategoryDO.t) (SubCategory : list category_tree).
Definition tree_row (c : category_tree) : CategoryDO.t := let 'CategoryTree row _ := c in row.
Definition SubCategory (c : category_tree) : list category_tree := let 'CategoryTree _ subs := c in subs.

Module GoodsCategoryBrandDO.
Record t := mk { ID : Z; DeletedAt : bool; CategoryID : Z; BrandsID : Z }.
#[global] Instance eq_dec : EqDecision t.
Proof. solve_decision. Defined.
Definition set_ID (v : Z) (r : t) : t := mk v (DeletedAt r) (CategoryID r) (BrandsID r).
Definition delete (r : t) : t := mk (ID r) true (CategoryID r) (BrandsID r).
Definition update (to r : t) : t := mk (ID r) (DeletedAt r) (CategoryID to) (BrandsID to).
End GoodsCategoryBrandDO.

Module BannerDO.
Record t := mk { ID : Z; DeletedAt : bool; Image : string; Url : string; Index : Z }.
#[global] Instance eq_dec : EqDecision t.
Proof. solve_decision. Defined.
Definition set_ID (v : Z) (r : t) : t := mk v (DeletedAt r) (Image r) (Url r) (Index r).
Definition set_Index (v : Z) (r : t) : t := mk (ID r) (DeletedAt r) (Image r) (Url r) v.
Definition delete (r : t) : t := mk (ID r) true (Image r) (Url r) (Index r).
Definition update (to r : t) : t := mk (ID r) (DeletedAt r) (Image to) (Url to) (Index to).
End BannerDO.

Module GoodsDO.
Record t := mk {
  ID : Z; DeletedAt : bool; CategoryID : Z; BrandsID : Z; OnSale : bool; ShipFree : bool; IsNew : bool;
  IsHot : bool; Name : string; GoodsSn : string; SPUCode : string; SKUCode : string; StoreID : string;
  ClickNum : Z; SoldNum : Z; FavNum : Z; MarketPriceFen : Z; ShopPriceFen : Z; GoodsBrief : string;
  GoodsDesc : string; Images : list string; DescImages : list string; GoodsFrontImage : string
}.
#[global] Instance eq_dec : EqDecision t.
Proof. solve_decision. Defined.
Definition set_ID (v : Z) (r : t) : t :=
  mk v (DeletedAt r) (CategoryID r) (BrandsID r) (OnSale r) (ShipFree r) (IsNew r) (IsHot r) (Name r) (GoodsSn r)
    (SPUCode r) (SKUCode r) (StoreID r) (ClickNum r) (SoldNum r) (FavNum r) (MarketPriceFen r) (ShopPriceFen r)
    (GoodsBrief r) (GoodsDesc r) (Images r) (DescImages r) (GoodsFrontImage r).
Definition delete (r : t) : t :=
  mk (ID r) true (CategoryID r) (BrandsID r) (OnSale r) (ShipFree r) (IsNew r) (IsHot r) (Name r) (GoodsSn r)
    (SPUCode r) (SKUCode r) (StoreID r) (ClickNum r) (SoldNum r) (FavNum r) (MarketPriceFen r) (ShopPriceFen r)
    (GoodsBrief r) (GoodsDesc r) (Images r) (DescImages r) (GoodsFrontImage r).
(** [goodsUpdateValues]: every column but the key, the deletion mark and the store. *)
Definition goodsUpdateValues (to r : t) : t :=
  mk (ID r) (DeletedAt r) (CategoryID to) (BrandsID to) (OnSale to) (ShipFree to) (IsNew to) (IsHot to) (Name to)
    (GoodsSn to) (SPUCode to) (SKUCode to) (StoreID r) (ClickNum to) (SoldNum to) (FavNum to) (MarketPriceFen to)
    (ShopPriceFen to) (GoodsBrief to) (GoodsDesc to) (Images to) (DescImages to) (GoodsFrontImage to).
End GoodsDO.

(** Rows with the rows a query preloaded; Go leaves a zero value where it found none. *)
Record goods_info := MkGoodsInfo { goods_row : GoodsDO.t; goods_Category : CategoryDO.t; goods_Brands : BrandsDO.t }.
Record relation_info := MkRelationInfo {
  relation_row : GoodsCategoryBrandDO.t; relation_Category : CategoryDO.t; relation_Brands : BrandsDO.t
}.

Module GoodsSearchDO.
Record t := mk {
  ID : Z; CategoryID : Z; BrandsID : Z; OnSale : bool; ShipFree : bool; IsNew : bool; IsHot : bool;
  Name : string; ClickNum : Z; SoldNum : Z; FavNum : Z; MarketPriceFen : Z; GoodsBrief : string;
  ShopPriceFen : Z; SPUCode : string; SKUCode : string
}.
#[global] Instance eq_dec : EqDecision t.
Proof. solve_decision. Defined.
Definition GetIndexName : string := "goods".
End GoodsSearchDO.

(** [goodsOutboxPayload]; the text of a row's payload is its JSON, or a text
    [json.Unmarshal] refuses with an error. *)
Record goodsOutboxPayload := MkPayload { PayloadAction : string; PayloadGoods : option GoodsSearchDO.t; PayloadID : Z }.
Inductive payload_text := Json (p : goodsOutboxPayload) | NotJson (err : string).

Module OutboxEventDO.
Record t := mk {
  ID : Z; CreatedAt : Z; Topic : string; AggregateType : string; AggregateID : Z; Action : string;
  Payload : payload_text; Status : string; RetryCount : Z; MaxRetryCount : Z; LastError : string;
  NextAttemptAt : Z; ProcessingLock : string; ClaimedAt : Z
}.
Definition set_ID (v : Z) (e : t) : t :=
  mk v (CreatedAt e) (Topic e) (AggregateType e) (AggregateID e) (Action e) (Payload e) (Status e) (RetryCount e)
    (MaxRetryCount e) (LastError e) (NextAttemptAt e) (ProcessingLock e) (ClaimedAt e).
(** The columns the store updates. *)
Definition set_state (status : string) (retryCount : Z) (lastError : string) (nextAttemptAt : Z) (lock : string)
    (claimedAt : Z) (e : t) : t :=
  mk (ID e) (CreatedAt e) (Topic e) (AggregateType e) (AggregateID e) (Action e) (Payload e) status retryCount
    (MaxRetryCount e) lastError nextAttemptAt lock claimedAt.
End OutboxEventDO.

Definition OutboxStatusPending : string := "PENDING".
Definition OutboxStatusProcessing : string := "PROCESSING".
Definition OutboxStatusDone : string := "DONE".
Definition OutboxStatusDead : string := "DEAD".
Definition OutboxTopicGoodsSync : string := "goods.search.sync".
Definition OutboxActionUpsert : string := "UPSERT".
Definition OutboxActionDelete : string := "DELETE".

(** ** The database of the goods service, and the search index beside it *)
Record goods_db := MkGoodsDb {
  goods_rows : list GoodsDO.t;
  category_rows : list CategoryDO.t;
  brands_rows : list BrandsDO.t;
  banner_rows : list BannerDO.t;
  relation_rows : list GoodsCategoryBrandDO.t;
  outbox_rows : list OutboxEventDO.t;
  search_index : gmap string GoodsSearchDO.t
}.

Definition t_goods : table goods_db GoodsDO.t := Table goods_rows (fun l d =>
  MkGoodsDb l (category_rows d) (brands_rows d) (banner_rows d) (relation_rows d) (outbox_rows d) (search_index d)).
Definition t_category : table goods_db CategoryDO.t := Table category_rows (fun l d =>
  MkGoodsDb (goods_rows d) l (brands_rows d) (banner_rows d) (relation_rows d) (outbox_rows d) (search_index d)).
Definition t_brands : table goods_db BrandsDO.t := Table brands_rows (fun l d =>
  MkGoodsDb (goods_rows d) (category_rows d) l (banner_rows d) (relation_rows d) (outbox_rows d) (search_index d)).
Definition t_banner : table goods_db BannerDO.t := Table banner_rows (fun l d =>
  MkGoodsDb (goods_rows d) (category_rows d) (brands_rows d) l (relation_rows d) (outbox_rows d) (search_index d)).
Definition t_relation : table goods_db GoodsCategoryBrandDO.t := Table relation_rows (fun l d =>
  MkGoodsDb (goods_rows d) (category_rows d) (brands_rows d) (banner_rows d) l (outbox_rows d) (search_index d)).
Definition t_outbox : table goods_db OutboxEventDO.t := Table outbox_rows (fun l d =>
  MkGoodsDb (goods_rows d) (category_rows d) (brands_rows d) (banner_rows d) (relation_rows d) l (search_index d)).
Definition set_index (i : gmap string GoodsSearchDO.t) (d : goods_db) : goods_db :=
  MkGoodsDb (goods_rows d) (category_rows d) (brands_rows d) (banner_rows d) (relation_rows d) (outbox_rows d) i.

Definition empty_goods_db : goods_db := MkGoodsDb [] [] [] [] [] [] ∅.

#[export] Instance t_goods_lawful : LawfulTable t_goods.
Proof. split; [done|by intros []]. Qed.
#[export] Instance t_category_lawful : LawfulTable t_category.
Proof. split; [done|by intros []]. Qed.
#[export] Instance t_brands_lawful : LawfulTable t_brands.
Proof. split; [done|by intros []]. Qed.
#[export] Instance t_banner_lawful : LawfulTable t_banner.
Proof. split; [done|by intros []]. Qed.
#[export] Instance t_relation_lawful : LawfulTable t_relation.
Proof. split; [done|by intros []]. Qed.
#[export] Instance t_outbox_lawful : LawfulTable t_outbox.
Proof. split; [done|by intros []]. Qed.

(** The order MySQL returns rows in, for the columns of an [ORDER BY]. *)
Class sql_order := {
  order_goods : list (string * bool) -> list GoodsDO.t -> list GoodsDO.t;
  order_categories : list (string * bool) -> list CategoryDO.t -> list CategoryDO.t;
  order_brands : list (string * bool) -> list BrandsDO.t -> list BrandsDO.t;
  order_banners : list (string * bool) -> list BannerDO.t -> list BannerDO.t;
  order_relations : list (string * bool) -> list GoodsCategoryBrandDO.t -> list GoodsCategoryBrandDO.t
}.
(** What the theorems use of it: no row appears or is lost, and one order by the
    primary key is the same at every query. *)
Class sql_order_laws (O : sql_order) := {
  order_goods_perm : forall cols l, order_goods cols l ≡ₚ l;
  order_categories_perm : forall cols l, order_categories cols l ≡ₚ l;
  order_brands_perm : forall cols l, order_brands cols l ≡ₚ l;
  order_relations_perm : forall cols l, order_relations cols l ≡ₚ l
}.
