(* ===== verification/GoodsStore.v ===== *)
(** * The goods store: [app/goods/srv/internal/data/v1/db]

    One module per store of the data factory.  [txn] does not appear: a call runs its
    statements on the tables it is given, and the transaction around it is the
    service's.  A deletion sets the mark GORM filters on; the unique keys of the
    schema also see deleted rows. *)
From S2P Require Import Prelude GoStrings Errors GoMonad Tables GoodsModel.
Open Scope go_scope.

Definition goods_dberr {A} (operation : string) (m : M goods_db A) : M goods_db A :=
  wrap_err (fun e => WrapDatabase e operation) m.

(** [metav1.ListMeta]. *)
Record ListMeta := MkListMeta { Page : Z; PageSize : Z }.

(** ** [order_by.go] *)
Definition goodsOrderColumns : list (string * string) :=
  [("id", "id"); ("name", "name"); ("goods_sn", "goods_sn"); ("shop_price", "shop_price_fen");
   ("market_price", "market_price_fen"); ("sold_num", "sold_num"); ("click_num", "click_num");
   ("fav_num", "fav_num"); ("add_time", "add_time"); ("update_time", "update_time")].
Definition categoryOrderColumns : list (string * string) :=
  [("id", "id"); ("name", "name"); ("level", "level"); ("is_tab", "is_tab");
   ("parent_category_id", "parent_category_id"); ("add_time", "add_time"); ("update_time", "update_time")].
Definition brandOrderColumns : list (string * string) :=
  [("id", "id"); ("name", "name"); ("add_time", "add_time"); ("update_time", "update_time")].
Definition bannerOrderColumns : list (string * string) :=
  [("id", "id"); ("index", "index"); ("add_time", "add_time"); ("update_time", "update_time")].
Definition categoryBrandOrderColumns : list (string * string) :=
  [("id", "id"); ("category_id", "category_id"); ("brands_id", "brands_id"); ("add_time", "add_time");
   ("update_time", "update_time")].
Definition column_of (allowedColumns : list (string * string)) (name : string) : option string :=
  snd <$> find (fun c => seqb (fst c) name) allowedColumns.
Definition parseOrderBy (allowedColumns : list (string * string)) (value : string) : option (string * bool) :=
  let value := TrimSpace (RemoveAll value "`"%char) in
  if seqb value "" then None else
  match Fields value with
  | [c] => (fun column => (column, false)) <$> column_of allowedColumns (ToLower c)
  | [c; d] =>
    match column_of allowedColumns (ToLower c) with
    | None => None
    | Some column =>
      if seqb (ToLower d) "asc" then Some (column, false)
      else if seqb (ToLower d) "desc" then Some (column, true)
      else None
    end
  | _ => None
  end.
Definition applyOrderBy (allowedColumns : list (string * string)) (orderBy : list string) : list (string * bool) :=
  omap (parseOrderBy allowedColumns) orderBy.

(** The page of a list: [Limit] and [Offset] of the brand, banner and relation
    stores. *)
Definition list_page {A} (opts : ListMeta) (l : list A) : list A :=
  let limit := if PageSize opts <=? 0 then 10 else PageSize opts in
  page (if 0 <? Page opts then wrap64 ((Page opts - 1) * limit) else 0) limit l.

(** ** Brands: [brand.go] *)
Module brands.
Import BrandsDO.
Definition not_found : goerr := newCode ErrBrandNotFound "brand not found".
Definition alive (b : t) : bool := negb (DeletedAt b).
Definition by_id (id : Z) (b : t) : bool := alive b && (ID b =? id).

Definition Get (id : Z) : M goods_db t :=
  fail_if (id =? 0) not_found ;;;
  first_or (goods_dberr "get brand" (select_first t_brands (by_id id)))
    (fail (newCode ErrBrandNotFound "record not found")) ret.
Definition List `{sql_order} (opts : ListMeta) (orderBy : list string) : M goods_db (list t * Z) :=
  total <- goods_dberr "count brands" (count_where t_brands alive) ;;
  found <- goods_dberr "list brands" (select_where t_brands alive) ;;
  ret (list_page opts (order_brands (applyOrderBy brandOrderColumns orderBy) found), total).
Definition Create (brand : t) : M goods_db t :=
  id <- goods_dberr "create brand" (insert_keyed t_brands ID set_ID (fun _ _ => false) brand) ;;
  ret (set_ID id brand).
Definition Update (brand : t) : M goods_db unit :=
  fail_if (ID brand <=? 0) not_found ;;;
  affected <- goods_dberr "update brand" (update_where t_brands (by_id (ID brand)) (update brand)) ;;
  if affected =? 0 then Get (wrapu64 (ID brand)) ;;; ret tt else ret tt.
Definition Delete (id : Z) : M goods_db unit :=
  fail_if (id =? 0) not_found ;;;
  affected <- goods_dberr "delete brand" (update_where t_brands (by_id id) delete) ;;
  fail_if (affected =? 0) not_found.
End brands.

(** ** Categories: [category.go] *)
Module categories.
Import CategoryDO.
Definition not_found : goerr := newCode ErrCategoryNotFound "category not found".
Definition alive (c : t) : bool := negb (DeletedAt c).
Definition by_id (id : Z) (c : t) : bool := alive c && (ID c =? id).

(** [Preload("SubCategory")]: one query for the children of all rows, none for no
    rows. *)
Definition children_of (parents : list t) : M goods_db (list t) :=
  match parents with
  | [] => ret []
  | _ => select_where t_category (fun c => alive c && bool_decide (ParentCategoryID c ∈ ID <$> parents))
  end.
Definition subs (found : list t) (parent : t) : list t :=
  List.filter (fun c => ParentCategoryID c =? ID parent) found.
(** [Preload("SubCategory.SubCategory")]: two levels below the rows. *)
Definition with_subcategories (found : list t) : M goods_db (list category_tree) :=
  children <- children_of found ;;
  grandchildren <- children_of children ;;
  ret ((fun row => CategoryTree row
         ((fun child => CategoryTree child ((fun c => CategoryTree c []) <$> subs grandchildren child))
            <$> subs children row)) <$> found).

Definition Get (id : Z) : M goods_db category_tree :=
  fail_if (id =? 0) not_found ;;;
  found <- goods_dberr "get category" (
    o <- select_first t_category (by_id id) ;; with_subcategories (option_list o)) ;;
  match found with
  | category :: _ => ret category
  | [] => fail (newCode ErrCategoryNotFound "record not found")
  end.
Definition root (c : t) : bool := alive c && (Level c =? 1).
Definition ListAll `{sql_order} (orderBy : list string) : M goods_db (list category_tree * Z) :=
  total <- goods_dberr "count root categories" (count_where t_category root) ;;
  items <- goods_dberr "list categories" (
    found <- select_where t_category root ;;
    with_subcategories (order_categories (applyOrderBy categoryOrderColumns orderBy) found)) ;;
  ret (items, total).
Definition Create (category : t) : M goods_db t :=
  id <- goods_dberr "create category" (insert_keyed t_category ID set_ID (fun _ _ => false) category) ;;
  ret (set_ID id category).
Definition Update (category : t) : M goods_db unit :=
  fail_if (ID category <=? 0) not_found ;;;
  affected <- goods_dberr "update category" (update_where t_category (by_id (ID category)) (update category)) ;;
  if affected =? 0 then Get (wrapu64 (ID category)) ;;; ret tt else ret tt.
Definition Delete (id : Z) : M goods_db unit :=
  fail_if (id =? 0) not_found ;;;
  affected <- goods_dberr "delete category" (update_where t_category (by_id id) delete) ;;
  fail_if (affected =? 0) not_found.
End categories.

(** ** Preloads of a category and a brand *)
Definition preload_brands (ids : list Z) : M goods_db (list BrandsDO.t) :=
  match List.filter (fun id => negb (id =? 0)) ids with
  | [] => ret []
  | ids => select_where t_brands (fun b => brands.alive b && bool_decide (BrandsDO.ID b ∈ ids))
  end.
Definition preload_categories (ids : list Z) : M goods_db (list CategoryDO.t) :=
  match List.filter (fun id => negb (id =? 0)) ids with
  | [] => ret []
  | ids => select_where t_category (fun c => categories.alive c && bool_decide (CategoryDO.ID c ∈ ids))
  end.
Definition brand_of (found : list BrandsDO.t) (id : Z) : BrandsDO.t :=
  default BrandsDO.zero (find (fun b => BrandsDO.ID b =? id) found).
Definition category_of (found : list CategoryDO.t) (id : Z) : CategoryDO.t :=
  default CategoryDO.zero (find (fun c => CategoryDO.ID c =? id) found).

(** ** Goods: [goods.go] *)
Module goods.
Import GoodsDO.
Definition not_found : goerr := newCode ErrGoodsNotFound "goods not found".
Definition alive (g : t) : bool := negb (DeletedAt g).
Definition by_id (id : Z) (g : t) : bool := alive g && (ID g =? id).
Definition same_sku (a b : t) : bool := seqb (SKUCode a) (SKUCode b).

Definition with_refs (found : list t) : M goods_db (list goods_info) :=
  bs <- preload_brands (BrandsID <$> found) ;;
  cs <- preload_categories (CategoryID <$> found) ;;
  ret ((fun g => MkGoodsInfo g (category_of cs (CategoryID g)) (brand_of bs (BrandsID g))) <$> found).

Definition Get (id : Z) : M goods_db goods_info :=
  fail_if (id =? 0) not_found ;;;
  found <- goods_dberr "get goods" (o <- select_first t_goods (by_id id) ;; with_refs (option_list o)) ;;
  match found with
  | g :: _ => ret g
  | [] => fail (newCode ErrGoodsNotFound "record not found")
  end.

Definition insert (operation : string) (g : t) : M goods_db t :=
  id <- goods_dberr operation (insert_keyed t_goods ID set_ID same_sku g) ;; ret (set_ID id g).
(** [CreateInTxn] and [Create] return the row with the id the database gave it. *)
Definition CreateInTxn (g : t) : M goods_db t := insert "create goods in transaction" g.
Definition Create (g : t) : M goods_db t := insert "create goods" g.

(** The unique key of [sku_code] refuses a code another row has. *)
Definition sku_taken (g : t) (d : goods_db) : bool :=
  existsb (by_id (ID g)) (goods_rows d) &&
  existsb (fun r => negb (by_id (ID g) r) && same_sku g r) (goods_rows d).
Definition update (operation : string) (g : t) : M goods_db unit :=
  fail_if (ID g <=? 0) not_found ;;;
  affected <- goods_dberr operation (update_checked t_goods (sku_taken g) (by_id (ID g)) (goodsUpdateValues g)) ;;
  if affected =? 0 then Get (wrapu64 (ID g)) ;;; ret tt else ret tt.
Definition UpdateInTxn (g : t) : M goods_db unit := update "update goods in transaction" g.
Definition Update (g : t) : M goods_db unit := update "update goods" g.

Definition remove (operation : string) (id : Z) : M goods_db unit :=
  fail_if (id =? 0) not_found ;;;
  affected <- goods_dberr operation (update_where t_goods (by_id id) delete) ;;
  fail_if (affected =? 0) not_found.
Definition DeleteInTxn (id : Z) : M goods_db unit := remove "delete goods in transaction" id.
Definition Delete (id : Z) : M goods_db unit := remove "delete goods" id.

Definition CountByCategory (categoryID : Z) : M goods_db Z :=
  if categoryID =? 0 then ret 0 else
  goods_dberr "count goods by category" (count_where t_goods (fun g => alive g && (CategoryID g =? categoryID))).
Definition CountByBrand (brandID : Z) : M goods_db Z :=
  if brandID =? 0 then ret 0 else
  goods_dberr "count goods by brand" (count_where t_goods (fun g => alive g && (BrandsID g =? brandID))).

(** [normalizeIDs]: zeros and repetitions are dropped. *)
Fixpoint unseen (seen : list Z) (ids : list Z) : list Z :=
  match ids with
  | [] => []
  | id :: ids => if (id =? 0) || bool_decide (id ∈ seen) then unseen seen ids else id :: unseen (id :: seen) ids
  end.
Definition normalizeIDs (ids : list Z) : list Z := unseen [] ids.

Section Lists.
Context `{sql_order}.
Definition List (orderBy : list string) (opts : ListMeta) : M goods_db (list goods_info * Z) :=
  let limit := if PageSize opts <=? 0 then 10 else PageSize opts in
  let offset := if 0 <? Page opts then wrap64 ((Page opts - 1) * limit) else 0 in
  total <- goods_dberr "count goods" (count_where t_goods alive) ;;
  items <- goods_dberr "list goods" (
    found <- query (fun d => page offset limit
      (order_goods (applyOrderBy goodsOrderColumns orderBy) (List.filter alive (goods_rows d)))) ;;
    with_refs found) ;;
  ret (items, total).
Definition ListByIDs (ids : list Z) (orderBy : list string) : M goods_db (list goods_info * Z) :=
  let ids := normalizeIDs ids in
  match ids with
  | [] => ret ([], 0)
  | _ =>
    let p g := alive g && bool_decide (ID g ∈ ids) in
    goods_dberr "list goods by id" (
      found <- query (fun d => order_goods (applyOrderBy goodsOrderColumns orderBy) (List.filter p (goods_rows d))) ;;
      items <- with_refs found ;;
      total <- count_where t_goods p ;;
      ret (items, total))
  end.
End Lists.
End goods.

(** ** Banners: [banner.go] *)
Module banners.
Import BannerDO.
Definition not_found : goerr := newCode ErrBannerNotFound "banner not found".
Definition alive (b : t) : bool := negb (DeletedAt b).
Definition by_id (id : Z) (b : t) : bool := alive b && (ID b =? id).
Definition exists_ (id : Z) : M goods_db bool :=
  first_or (goods_dberr "check banner" (select_first t_banner (by_id id))) (ret false) (fun _ => ret true).
Definition List `{sql_order} (opts : ListMeta) (orderBy : list string) : M goods_db (list t * Z) :=
  total <- goods_dberr "count banners" (count_where t_banner alive) ;;
  found <- goods_dberr "list banners" (select_where t_banner alive) ;;
  ret (list_page opts (order_banners (applyOrderBy bannerOrderColumns orderBy) found), total).
(** A zero index is the column's default, 1, in the row and in the value. *)
Definition Create (banner : t) : M goods_db t :=
  let banner := if Index banner =? 0 then set_Index 1 banner else banner in
  id <- goods_dberr "create banner" (insert_keyed t_banner ID set_ID (fun _ _ => false) banner) ;;
  ret (set_ID id banner).
Definition Update (banner : t) : M goods_db unit :=
  fail_if (ID banner <=? 0) not_found ;;;
  affected <- goods_dberr "update banner" (update_where t_banner (by_id (ID banner)) (update banner)) ;;
  if affected =? 0 then found <- exists_ (wrapu64 (ID banner)) ;; fail_if (negb found) not_found else ret tt.
Definition Delete (id : Z) : M goods_db unit :=
  fail_if (id =? 0) not_found ;;;
  affected <- goods_dberr "delete banner" (update_where t_banner (by_id id) delete) ;;
  fail_if (affected =? 0) not_found.
End banners.

(** ** Brands of a category: [category_brand.go] *)
Module categoryBrands.
Import GoodsCategoryBrandDO.
Definition not_found : goerr := newCode ErrCategoryBrandNotFound "category brand relation not found".
Definition alive (r : t) : bool := negb (DeletedAt r).
Definition by_id (id : Z) (r : t) : bool := alive r && (ID r =? id).
Definition in_category (id : Z) (r : t) : bool := alive r && (CategoryID r =? id).
Definition same_pair (a b : t) : bool := (CategoryID a =? CategoryID b) && (BrandsID a =? BrandsID b).
Definition with_refs (found : list t) : M goods_db (list relation_info) :=
  bs <- preload_brands (BrandsID <$> found) ;;
  cs <- preload_categories (CategoryID <$> found) ;;
  ret ((fun r => MkRelationInfo r (category_of cs (CategoryID r)) (brand_of bs (BrandsID r))) <$> found).
Definition exists_ (id : Z) : M goods_db bool :=
  first_or (goods_dberr "check category brand relation" (select_first t_relation (by_id id))) (ret false)
    (fun _ => ret true).

Section Lists.
Context `{sql_order}.
Definition List (opts : ListMeta) (orderBy : list string) : M goods_db (list relation_info * Z) :=
  total <- goods_dberr "count category brand relations" (count_where t_relation alive) ;;
  items <- goods_dberr "list category brand relations" (
    found <- query (fun d => list_page opts
      (order_relations (applyOrderBy categoryBrandOrderColumns orderBy) (List.filter alive (relation_rows d)))) ;;
    with_refs found) ;;
  ret (items, total).
Definition ListByCategory (categoryID : Z) (orderBy : list string) : M goods_db (list relation_info * Z) :=
  if categoryID =? 0 then ret ([], 0) else
  total <- goods_dberr "count category brand relations by category" (count_where t_relation (in_category categoryID)) ;;
  items <- goods_dberr "list category brand relations by category" (
    found <- query (fun d => order_relations (applyOrderBy categoryBrandOrderColumns orderBy)
      (List.filter (in_category categoryID) (relation_rows d))) ;;
    with_refs found) ;;
  ret (items, total).
End Lists.
Definition CountByBrand (brandID : Z) : M goods_db Z :=
  if brandID =? 0 then ret 0 else
  goods_dberr "count category brand relations by brand"
    (count_where t_relation (fun r => alive r && (BrandsID r =? brandID))).
Definition Create (gcb : t) : M goods_db t :=
  id <- goods_dberr "create category brand relation" (insert_keyed t_relation ID set_ID same_pair gcb) ;;
  ret (set_ID id gcb).
(** The unique key of the pair refuses one another row has, deleted rows included. *)
Definition pair_taken (gcb : t) (d : goods_db) : bool :=
  existsb (by_id (ID gcb)) (relation_rows d) &&
  existsb (fun r => negb (by_id (ID gcb) r) && same_pair gcb r) (relation_rows d).
Definition Update (gcb : t) : M goods_db unit :=
  fail_if (ID gcb <=? 0) not_found ;;;
  affected <- goods_dberr "update category brand relation"
                (update_checked t_relation (pair_taken gcb) (by_id (ID gcb)) (update gcb)) ;;
  if affected =? 0 then found <- exists_ (wrapu64 (ID gcb)) ;; fail_if (negb found) not_found else ret tt.
Definition Delete (id : Z) : M goods_db unit :=
  fail_if (id =? 0) not_found ;;;
  affected <- goods_dberr "delete category brand relation" (update_where t_relation (by_id id) delete) ;;
  fail_if (affected =? 0) not_found.
End categoryBrands.

(** ** The outbox: [outbox.go]

    Events are inserted without a key, so the table is in the order of the ids. *)
Module outbox.
Import OutboxEventDO.
Definition CreateInTxn (event : t) : M goods_db unit :=
  goods_dberr "create outbox event" (insert_keyed t_outbox ID set_ID (fun _ _ => false) event) ;;; ret tt.

(** The columns each update sets; the others stay. *)
Definition claimed (topic : string) (now : Z) (e : t) : t :=
  set_state OutboxStatusProcessing (RetryCount e) (LastError e) (NextAttemptAt e) topic now e.
Definition requeued (e : t) : t := set_state OutboxStatusPending (RetryCount e) (LastError e) 0 "" 0 e.
Definition done_ (e : t) : t := set_state OutboxStatusDone (RetryCount e) "" (NextAttemptAt e) "" 0 e.
Definition trimError (value : string) : string :=
  let value := TrimSpace value in
  if Z.of_nat (slength value) <=? 500 then value else implode (take 500 (explode value)).
Definition retried (retryCount nextAttemptAt : Z) (lastError : string) (e : t) : t :=
  set_state OutboxStatusPending retryCount (trimError lastError) nextAttemptAt "" 0 e.
Definition dead (retryCount : Z) (lastError : string) (e : t) : t :=
  set_state OutboxStatusDead retryCount (trimError lastError) (NextAttemptAt e) "" 0 e.
Definition released (e : t) : t :=
  set_state OutboxStatusPending (RetryCount e) (LastError e) (NextAttemptAt e) "" 0 e.

Definition due (topic : string) (now : Z) (e : t) : bool :=
  seqb (Topic e) topic && seqb (Status e) OutboxStatusPending && (NextAttemptAt e <=? now).
Definition ClaimPending (topic : string) (limit now : Z) : M goods_db (list t) :=
  let limit := if limit <=? 0 then 10 else limit in
  transaction (
    events <- goods_dberr "claim pending outbox events"
                (query (fun d => page 0 limit (List.filter (due topic now) (outbox_rows d)))) ;;
    match events with
    | [] => ret []
    | _ =>
      goods_dberr "mark outbox events processing" (update_where t_outbox
        (fun e => bool_decide (ID e ∈ ID <$> events) && seqb (Status e) OutboxStatusPending) (claimed topic now)) ;;;
      ret events
    end).

Definition matches (topic status : string) (e : t) : bool :=
  (seqb (TrimSpace topic) "" || seqb (Topic e) topic) && (seqb (TrimSpace status) "" || seqb (Status e) status).
Definition ListByStatus (topic status : string) (limit : Z) : M goods_db (list t) :=
  let limit := if limit <=? 0 then 100 else limit in
  goods_dberr "list outbox events by status"
    (query (fun d => page 0 limit (List.filter (matches topic status) (outbox_rows d)))).
Definition ListByIDs (ids : list Z) : M goods_db (list t) :=
  match ids with
  | [] => ret []
  | _ => goods_dberr "list outbox events by id" (select_where t_outbox (fun e => bool_decide (ID e ∈ ids)))
  end.
Definition CountByStatus (topic status : string) : M goods_db Z :=
  goods_dberr "count outbox events by status" (count_where t_outbox (matches topic status)).

Definition stale (topic : string) (before : Z) (e : t) : bool :=
  seqb (Topic e) topic && seqb (Status e) OutboxStatusProcessing && (0 <? ClaimedAt e) && (ClaimedAt e <=? before).
Definition RequeueStale (topic : string) (claimedBefore : Z) : M goods_db Z :=
  goods_dberr "requeue stale outbox events" (update_where t_outbox (stale topic claimedBefore) requeued).

Definition has_id (id : Z) (e : t) : bool := ID e =? id.
Definition updateStatus (id : Z) (f : t -> t) : M goods_db unit :=
  fail_if (id <=? 0) (newCode ErrValidation "outbox event id is required") ;;;
  goods_dberr "update outbox event status" (update_where t_outbox (has_id id) f) ;;; ret tt.
Definition MarkDone (id : Z) : M goods_db unit := updateStatus id done_.
Definition MarkRetry (id retryCount nextAttemptAt : Z) (lastError : string) : M goods_db unit :=
  updateStatus id (retried retryCount nextAttemptAt lastError).
Definition MarkDead (id retryCount : Z) (lastError : string) : M goods_db unit :=
  updateStatus id (dead retryCount lastError).
Definition ReleaseClaim (id : Z) : M goods_db unit := updateStatus id released.
End outbox.
