(* ===== verification/GoodsSearch.v ===== *)
(** * The search store: [app/goods/srv/internal/data_search/v1]

    Documents of goods in an Elasticsearch index.  The client library is not part of
    the repository: it is the class [elastic_client], and what the theorems need of it
    is [elastic_laws]. *)
From S2P Require Import Prelude GoStrings Errors GoMonad Tables GoodsModel.
Open Scope go_scope.

(** ** Queries *)
Inductive elastic_value := VBool (b : bool) | VInt (n : Z) | VString (s : string).
Inductive elastic_query :=
  | TermQuery (field : string) (value : elastic_value)
  | TermsQuery (field : string) (values : list elastic_value)
  | RangeGte (field : string) (n : Z)
  | RangeLte (field : string) (n : Z)
  | MultiMatchQuery (text : string) (fields : list string).
(** [elastic.NewBoolQuery] with its clauses in the order they were added. *)
Inductive bool_clause := Filter (q : elastic_query) | Must (q : elastic_query).
Definition BoolQuery : Type := list bool_clause.

(** [proto.GoodsFilterRequest] with the category ids the service adds. *)
Record GoodsFilterRequest := MkGoodsFilter {
  IsHot : bool; IsNew : bool; IsTab : bool; TopCategory : Z; Pages : Z; PagePerNums : Z; KeyWords : string;
  Brand : Z; PriceMinFen : Z; PriceMaxFen : Z; IncludeOffSale : bool; SpuCode : string; SkuCode : string;
  CategoryIDs : list Z
}.
Definition zero_filter : GoodsFilterRequest := MkGoodsFilter false false false 0 0 0 "" 0 0 0 false "" "" [].

Definition clause_if (b : bool) (c : bool_clause) : BoolQuery := if b then [c] else [].
Definition buildGoodsSearchQuery (req : GoodsFilterRequest) : BoolQuery :=
  clause_if (negb (IncludeOffSale req)) (Filter (TermQuery "on_sale" (VBool true))) ++
  clause_if (negb (seqb (SpuCode req) "")) (Filter (TermQuery "spu_code.keyword" (VString (SpuCode req)))) ++
  clause_if (negb (seqb (SkuCode req) "")) (Filter (TermQuery "sku_code.keyword" (VString (SkuCode req)))) ++
  clause_if (negb (seqb (KeyWords req) "")) (Must (MultiMatchQuery (KeyWords req) ["name"; "goods_brief"])) ++
  clause_if (IsHot req) (Filter (TermQuery "is_hot" (VBool (IsHot req)))) ++
  clause_if (IsNew req) (Filter (TermQuery "is_new" (VBool (IsNew req)))) ++
  clause_if (0 <? PriceMinFen req) (Filter (RangeGte "shop_price_fen" (PriceMinFen req))) ++
  clause_if (0 <? PriceMaxFen req) (Filter (RangeLte "shop_price_fen" (PriceMaxFen req))) ++
  clause_if (0 <? Brand req) (Filter (TermQuery "brands_id" (VInt (Brand req)))) ++
  clause_if (0 <? TopCategory req) (Filter (TermsQuery "category_id" (VInt <$> CategoryIDs req))).

(** ** The client *)

(** A hit's source: a document, or the error [json.Unmarshal] gives for it. *)
Record search_result := MkSearchResult { TotalHits : Z; Hits : list (GoodsSearchDO.t + string) }.

Class elastic_client := {
  es_index : string -> string -> GoodsSearchDO.t -> M goods_db unit;
  es_delete : string -> string -> M goods_db unit;
  es_search : string -> BoolQuery -> Z -> Z -> M goods_db search_result;
  IsNotFound : goerr -> bool
}.

(** What the client promises, while other calls of the service may run ([others]):
    an accepted write is in the index, a refused one may be there or not, and nothing
    else of the index changes.  A deletion of an absent document may be reported as
    not found. *)
Class elastic_laws (E : elastic_client) (others : goods_db -> goods_db -> Prop) := {
  es_index_law : forall id doc s, exists d,
    others (e_db s) d /\
    match es_index GoodsSearchDO.GetIndexName id doc s with
    | (Ret _, s') => others (set_index (<[id := doc]> (search_index d)) d) (e_db s')
    | (Fail _, s') => others d (e_db s') \/ others (set_index (<[id := doc]> (search_index d)) d) (e_db s')
    | (Panic _, _) => False
    end;
  es_delete_law : forall id s, exists d,
    others (e_db s) d /\
    match es_delete GoodsSearchDO.GetIndexName id s with
    | (Ret _, s') => others (set_index (delete id (search_index d)) d) (e_db s')
    | (Fail e, s') =>
      if IsNotFound e then search_index d !! id = None /\ others d (e_db s')
      else others d (e_db s') \/ others (set_index (delete id (search_index d)) d) (e_db s')
    | (Panic _, _) => False
    end
}.

(** ** The store: [es/goods.go] *)

(** The interface the outbox worker uses. *)
Record searchGoodsStore := MkSearchStore {
  Update : option GoodsSearchDO.t -> M goods_db unit;
  Delete : Z -> M goods_db unit
}.

Module searchGoods.
Section Store.
Context `{E : elastic_client}.
Definition invalid : goerr := newCode ErrGoodsInvalid "goods is required".
(** [strconv.Itoa(int(ID))]. *)
Definition doc_id (id : Z) : string := itoa (wrap64 id).
Definition Create (goods : option GoodsSearchDO.t) : M goods_db unit :=
  match goods with
  | None => fail invalid
  | Some g => fail_if (GoodsSearchDO.ID g <=? 0) invalid ;;; es_index GoodsSearchDO.GetIndexName (doc_id (GoodsSearchDO.ID g)) g
  end.
Definition Delete (id : Z) : M goods_db unit :=
  fail_if (id =? 0) (newCode ErrGoodsNotFound "goods not found") ;;;
  r <- attempt (es_delete GoodsSearchDO.GetIndexName (doc_id id)) ;;
  match r with
  | inl _ => ret tt
  | inr err => if IsNotFound err then ret tt else fail err
  end.
Definition Update (goods : option GoodsSearchDO.t) : M goods_db unit :=
  match goods with
  | None => fail invalid
  | Some g => fail_if (GoodsSearchDO.ID g <=? 0) invalid ;;; Create goods
  end.

(** The hits until the first that does not decode. *)
Fixpoint decode (hits : list (GoodsSearchDO.t + string)) : M goods_db (list GoodsSearchDO.t) :=
  match hits with
  | [] => ret []
  | inl doc :: hits => docs <- decode hits ;; ret (doc :: docs)
  | inr err :: _ => fail (newCode ErrEsUnmarshal err)
  end.
Definition Search (req : option GoodsFilterRequest) : M goods_db (list GoodsSearchDO.t * Z) :=
  let req := default zero_filter req in
  let q := buildGoodsSearchQuery req in
  let pages := if Pages req =? 0 then 1 else Pages req in
  let nums := if 100 <? PagePerNums req then 100 else if PagePerNums req <=? 0 then 10 else PagePerNums req in
  res <- wrap_err (fun err => newCode ErrGoodsNotFound (error_text err))
           (es_search GoodsSearchDO.GetIndexName q (wrap64 (wrap32 (pages - 1) * nums)) nums) ;;
  docs <- decode (Hits res) ;;
  ret (docs, TotalHits res).
Definition store : searchGoodsStore := MkSearchStore Update Delete.
End Store.
End searchGoods.
