(* ===== verification/GoodsService.v ===== *)
(** * The goods service: [app/goods/srv/internal/service/v1]

    Goods with their outbox events ([goods.go], [goods_outbox.go]), recovery
    ([goods_recovery.go]), and categories, brands, banners and category-brand relations
    ([resources.go]).  Validation returns the value with the fields it trimmed, or the
    error.  The clock is an argument. *)
From S2P Require Import Prelude GoStrings Errors GoMonad Tables GoodsModel GoodsStore GoodsSearch.
Open Scope go_scope.

(** [txn.go]: the executor the inventory service has too; the closure's value is what
    it wrote to the variables around it. *)
Definition goodsTxn {A} (action : string) (fn : M goods_db A) : M goods_db A := withTxnExecutor action fn.

Definition of_sum {A} (r : A + goerr) : M goods_db A := match r with inl a => ret a | inr e => fail e end.

(** ** Goods *)
Module goodsService.
Import GoodsDO.

Definition outboxMaxRetry : Z := 5.
Definition invalid (msg : string) : goerr := newCode ErrGoodsInvalid msg.

Definition trimmed (g : t) : t :=
  let sn := TrimSpace (GoodsSn g) in
  let or_sn code := let code := TrimSpace code in if seqb code "" then sn else code in
  mk (ID g) (DeletedAt g) (CategoryID g) (BrandsID g) (OnSale g) (ShipFree g) (IsNew g) (IsHot g)
    (TrimSpace (Name g)) sn (or_sn (SPUCode g)) (or_sn (SKUCode g)) (TrimSpace (StoreID g)) (ClickNum g) (SoldNum g)
    (FavNum g) (MarketPriceFen g) (ShopPriceFen g) (TrimSpace (GoodsBrief g)) (GoodsDesc g) (Images g) (DescImages g)
    (TrimSpace (GoodsFrontImage g)).
Definition validateGoodsForWrite (goods : option t) (requireID : bool) : t + goerr :=
  match goods with
  | None => inr (invalid "goods is required")
  | Some g =>
    if requireID && (ID g <=? 0) then inr (invalid "goods id is required") else
    let g := trimmed g in
    if (CategoryID g <=? 0) || (BrandsID g <=? 0) then inr (invalid "category_id and brand_id are required")
    else if seqb (Name g) "" || seqb (GoodsSn g) "" then inr (invalid "name and goods_sn are required")
    else if seqb (StoreID g) "" then inr (invalid "store_id is required")
    else if (MarketPriceFen g <? 0) || (ShopPriceFen g <? 0) then inr (invalid "goods price must not be negative")
    else inl g
  end.

Definition goodsSearchFromDTO (g : t) : GoodsSearchDO.t :=
  GoodsSearchDO.mk (ID g) (CategoryID g) (BrandsID g) (OnSale g) (ShipFree g) (IsNew g) (IsHot g) (Name g)
    (ClickNum g) (SoldNum g) (FavNum g) (MarketPriceFen g) (GoodsBrief g) (ShopPriceFen g) (SPUCode g) (SKUCode g).

Definition new_event (now aggregateID : Z) (action : string) (payload : goodsOutboxPayload) : OutboxEventDO.t :=
  OutboxEventDO.mk 0 now OutboxTopicGoodsSync "goods" aggregateID action (Json payload) OutboxStatusPending 0
    outboxMaxRetry "" 0 "" 0.
Definition newGoodsSyncEvent (now : Z) (g : t) : OutboxEventDO.t :=
  new_event now (ID g) OutboxActionUpsert
    (MkPayload OutboxActionUpsert (Some (goodsSearchFromDTO g)) (wrapu64 (ID g))).
Definition newGoodsDeleteEvent (now id : Z) : OutboxEventDO.t :=
  new_event now (wrap32 id) OutboxActionDelete (MkPayload OutboxActionDelete None id).

Definition check_refs (g : t) : M goods_db unit :=
  brands.Get (wrapu64 (BrandsID g)) ;;; categories.Get (wrapu64 (CategoryID g)) ;;; ret tt.
Definition Create (now : Z) (goods : option t) : M goods_db t :=
  g <- of_sum (validateGoodsForWrite goods false) ;;
  check_refs g ;;;
  goodsTxn "create goods" (
    g <- goods.CreateInTxn g ;; outbox.CreateInTxn (newGoodsSyncEvent now g) ;;; ret g).
Definition Update (now : Z) (goods : option t) : M goods_db unit :=
  g <- of_sum (validateGoodsForWrite goods true) ;;
  goods.Get (wrapu64 (ID g)) ;;;
  check_refs g ;;;
  goodsTxn "update goods" (goods.UpdateInTxn g ;;; outbox.CreateInTxn (newGoodsSyncEvent now g)).
Definition Delete (now id : Z) : M goods_db unit :=
  fail_if (id =? 0) (invalid "goods id is required") ;;;
  goods.Get id ;;;
  goodsTxn "delete goods" (goods.DeleteInTxn id ;;; outbox.CreateInTxn (newGoodsDeleteEvent now id)).
Definition Get (id : Z) : M goods_db goods_info := fail_if (id =? 0) goods.not_found ;;; goods.Get id.

(** [BatchGet]: the reads run concurrently, and [completion] is the order they finish
    in. *)
Definition BatchGet (completion : list Z -> list Z) (ids : list Z) : M goods_db (list goods_info) :=
  map_each (completion ids) Get.

(** [retrieveIDs]. *)
Fixpoint retrieveIDs (category : category_tree) : list Z :=
  let 'CategoryTree row subs := category in
  if CategoryDO.ID row =? 0 then []
  else wrapu64 (CategoryDO.ID row) :: flat_map retrieveIDs subs.

Section Search.
Context `{sql_order} `{elastic_client}.
Definition List (req : option GoodsFilterRequest) (orderBy : list string) : M goods_db (list goods_info * Z) :=
  let req := default zero_filter req in
  categoryIDs <- (if 0 <? TopCategory req
                  then category <- categories.Get (wrapu64 (TopCategory req)) ;; ret (retrieveIDs category)
                  else ret []) ;;
  let searchReq := MkGoodsFilter (GoodsSearch.IsHot req) (GoodsSearch.IsNew req) (IsTab req) (TopCategory req) (Pages req)
    (PagePerNums req) (KeyWords req) (Brand req) (PriceMinFen req) (PriceMaxFen req) (IncludeOffSale req) (SpuCode req)
    (SkuCode req) categoryIDs in
  res <- searchGoods.Search (Some searchReq) ;;
  let '(docs, total) := res in
  found <- goods.ListByIDs ((fun doc => wrapu64 (GoodsSearchDO.ID doc)) <$> docs) orderBy ;;
  ret (found.1, total).
End Search.
End goodsService.

(** ** Recovery: [goods_recovery.go] *)
Module recovery.
Import goodsService.

Definition normalizeGoodsOutboxTopic (topic : string) : string :=
  let topic := TrimSpace topic in if seqb topic "" then OutboxTopicGoodsSync else topic.
Definition countOutboxEvents (topic status : string) : M goods_db Z :=
  if negb (seqb status "") then outbox.CountByStatus topic status else
  counts <- map_each [OutboxStatusPending; OutboxStatusProcessing; OutboxStatusDone; OutboxStatusDead]
              (outbox.CountByStatus topic) ;;
  ret (fold_left (fun total count => wrap64 (total + count)) counts 0).
(** [items[offset:end]]. *)
Definition slice {A} (offset stop : Z) (l : list A) : list A :=
  take (Z.to_nat (stop - offset)) (drop (Z.to_nat offset) l).
Definition ListOutboxEvents (topic status : string) (page pageSize : Z) : M goods_db (list OutboxEventDO.t * Z) :=
  let topic := normalizeGoodsOutboxTopic topic in
  let status := ToUpper (TrimSpace status) in
  let page := if page <? 1 then 1 else page in
  let pageSize := if (pageSize <? 1) || (100 <? pageSize) then 20 else pageSize in
  total <- countOutboxEvents topic status ;;
  items <- outbox.ListByStatus topic status (wrap64 (page * pageSize)) ;;
  let offset := wrap64 ((page - 1) * pageSize) in
  let length := Z.of_nat (length items) in
  if length <=? offset then ret ([], total)
  else ret (slice offset (Z.min (offset + pageSize) length) items, total).

Definition replayable (status : string) (e : OutboxEventDO.t) : bool :=
  seqb (OutboxEventDO.Topic e) OutboxTopicGoodsSync && (seqb status "" || EqualFold (OutboxEventDO.Status e) status).
Definition ReplayOutbox (ids : list Z) (status : string) (limit : Z) : M goods_db (list Z) :=
  let status := let s := ToUpper (TrimSpace status) in if seqb s "" then OutboxStatusDead else s in
  let limit := if (limit <=? 0) || (500 <? limit) then 100 else limit in
  events <- match goods.normalizeIDs (List.filter (fun id => 0 <? id) ids) with
            | [] => outbox.ListByStatus OutboxTopicGoodsSync status limit
            | selected => outbox.ListByIDs selected
            end ;;
  replayed <- map_each (List.filter (replayable status) events) (fun e =>
    outbox.MarkRetry (OutboxEventDO.ID e) (OutboxEventDO.RetryCount e) 0 "" ;;; ret (OutboxEventDO.ID e)) ;;
  ret (merge_sort Z.le replayed).

Section Reindex.
Context `{sql_order} (S : searchGoodsStore).
Definition reindex_one (g : GoodsDO.t) : M goods_db Z :=
  GoodsSearch.Update S (Some (goodsSearchFromDTO g)) ;;; ret (wrapu64 (GoodsDO.ID g)).
(** [reindexAll]: pages of 100 until an empty one; [fuel] bounds their number, and
    the run without fuel is the loop still going. *)
Fixpoint reindex_pages (fuel : nat) (page : Z) : M goods_db (list Z) :=
  match fuel with
  | O => panic "reindexAll: more pages"
  | Datatypes.S fuel =>
    list <- goods.List ["id asc"] (MkListMeta page 100) ;;
    match list.1 with
    | [] => ret []
    | items =>
      done <- map_each items (fun item => reindex_one (goods_row item)) ;;
      more <- reindex_pages fuel (page + 1) ;;
      ret (done ++ more)
    end
  end.
Definition reindexAll (fuel : nat) : M goods_db (list Z) := reindex_pages fuel 1.
Definition Reindex (fuel : nat) (ids : list Z) (all : bool) : M goods_db (list Z) :=
  if all then reindexAll fuel else
  match goods.normalizeIDs ids with
  | [] => fail (newCode ErrValidation "goods_ids or all=true is required")
  | uniq => map_each uniq (fun id => current <- goods.Get id ;; reindex_one (goods_row current) ;;; ret id)
  end.
End Reindex.
End recovery.

(** ** The outbox worker: [goods_outbox.go] *)
Module worker.
Import goodsService.
Definition Second : Z := 1000000000.
Definition Minute : Z := 60 * Second.
Definition outboxBatchSize : Z := 20.
Definition outboxClaimTimeout : Z := 5 * Minute.
(** [Time.Unix] of a time in nanoseconds. *)
Definition Unix (t : Z) : Z := t / Second.
Definition backoffDuration (retryCount : Z) : Z := if retryCount <=? 0 then Second else retryCount * Second.

Section Worker.
Context (S : searchGoodsStore).
(** [now] is the time the event's failure is dated by. *)
Definition apply_event (resolver : option (Z -> M goods_db GoodsSearchDO.t)) (event : OutboxEventDO.t)
    (payload : goodsOutboxPayload) : M goods_db unit :=
  if seqb (PayloadAction payload) OutboxActionUpsert then
    if (OutboxEventDO.AggregateID event <=? 0) &&
       match PayloadGoods payload with None => true | Some g => GoodsSearchDO.ID g <=? 0 end
    then fail (Errorf "invalid goods upsert payload" [] None)
    else
      goods <- match resolver with
               | Some resolve => value <- resolve (wrapu64 (OutboxEventDO.AggregateID event)) ;; ret (Some value)
               | None => ret (PayloadGoods payload)
               end ;;
      GoodsSearch.Update S goods
  else if seqb (PayloadAction payload) OutboxActionDelete then
    if PayloadID payload =? 0 then fail (Errorf "invalid goods delete payload" [] None)
    else GoodsSearch.Delete S (PayloadID payload)
  else fail (Errorf "unsupported outbox action %q" [PayloadAction payload] None).
Definition processGoodsOutboxEvent (resolver : option (Z -> M goods_db GoodsSearchDO.t)) (now : Z)
    (event : OutboxEventDO.t) : M goods_db unit :=
  let retryCount := wrap32 (OutboxEventDO.RetryCount event + 1) in
  match OutboxEventDO.Payload event with
  | NotJson err => outbox.MarkDead (OutboxEventDO.ID event) retryCount err
  | Json payload =>
    r <- attempt (apply_event resolver event payload) ;;
    match r with
    | inl _ => outbox.MarkDone (OutboxEventDO.ID event)
    | inr processErr =>
      if OutboxEventDO.MaxRetryCount event <=? retryCount
      then outbox.MarkDead (OutboxEventDO.ID event) retryCount (error_text processErr)
      else outbox.MarkRetry (OutboxEventDO.ID event) retryCount (Unix (now + backoffDuration retryCount))
             (error_text processErr)
    end
  end.

Definition resolve_goods (id : Z) : M goods_db GoodsSearchDO.t :=
  current <- goods.Get id ;; ret (goodsSearchFromDTO (goods_row current)).
Definition observeGoodsOutboxBacklog : M goods_db unit :=
  for_each [OutboxStatusPending; OutboxStatusProcessing; OutboxStatusDead] (fun status =>
    wrap_err (fun err => Errorf "count goods outbox %s backlog: %w" [status] (Some err))
      (outbox.CountByStatus OutboxTopicGoodsSync status) ;;; ret tt).
(** [now] is when the sweep starts and [clock] the time at each event. *)
Definition processGoodsOutboxOnce (now : Z) (clock : OutboxEventDO.t -> Z) : M goods_db unit :=
  wrap_err (fun err => Errorf "requeue stale goods outbox claims: %w" [] (Some err))
    (outbox.RequeueStale OutboxTopicGoodsSync (Unix (now - outboxClaimTimeout))) ;;;
  observeGoodsOutboxBacklog ;;;
  events <- outbox.ClaimPending OutboxTopicGoodsSync outboxBatchSize (Unix now) ;;
  for_each events (fun event => processGoodsOutboxEvent (Some resolve_goods) (clock event) event).
(** [runGoodsOutboxSweep]: the error is logged. *)
Definition runGoodsOutboxSweep (now : Z) (clock : OutboxEventDO.t -> Z) : M goods_db unit :=
  attempt (processGoodsOutboxOnce now clock) ;;; ret tt.
End Worker.
End worker.

(** ** Categories: [resources.go] *)
Module categoryService.
Import CategoryDO.
Definition invalid (msg : string) : goerr := newCode ErrGoodsInvalid msg.
Definition validateCategory (category : option t) (requireID : bool) : t + goerr :=
  match category with
  | None => inr (invalid "category is required")
  | Some c =>
    if requireID && (ID c <=? 0) then inr categories.not_found else
    let c := set_Name (TrimSpace (Name c)) c in
    if seqb (Name c) "" || (Level c <=? 0) then inr (invalid "category name and level are required")
    else if (ParentCategoryID c =? ID c) && (0 <? ID c) then inr (invalid "category parent cannot be itself")
    else inl c
  end.
Definition check_parent (c : t) : M goods_db unit :=
  if 0 <? ParentCategoryID c then categories.Get (wrapu64 (ParentCategoryID c)) ;;; ret tt else ret tt.
Definition Get (id : Z) : M goods_db category_tree := fail_if (id =? 0) categories.not_found ;;; categories.Get id.
Definition Create (category : option t) : M goods_db t :=
  c <- of_sum (validateCategory category false) ;; check_parent c ;;; categories.Create c.
Definition Update (category : option t) : M goods_db unit :=
  c <- of_sum (validateCategory category true) ;;
  categories.Get (wrapu64 (ID c)) ;;; check_parent c ;;; categories.Update c.
Section Orders.
Context `{sql_order}.
Definition ListAll (orderBy : list string) : M goods_db (list category_tree * Z) := categories.ListAll orderBy.
Definition Delete (id : Z) : M goods_db unit :=
  fail_if (id =? 0) categories.not_found ;;;
  category <- categories.Get id ;;
  fail_if (negb (bool_decide (length (SubCategory category) = 0%nat))) (invalid "category has sub categories") ;;;
  goodsCount <- goods.CountByCategory id ;;
  fail_if (0 <? goodsCount) (invalid "category has goods") ;;;
  relations <- categoryBrands.ListByCategory id [] ;;
  fail_if (0 <? relations.2) (invalid "category has brand relations") ;;;
  categories.Delete id.
End Orders.
End categoryService.

(** ** Brands *)
Module brandService.
Import BrandsDO.
Definition invalid (msg : string) : goerr := newCode ErrGoodsInvalid msg.
Definition validateBrand (brand : option t) (requireID : bool) : t + goerr :=
  match brand with
  | None => inr (invalid "brand is required")
  | Some b =>
    if requireID && (ID b <=? 0) then inr brands.not_found else
    let b := mk (ID b) (DeletedAt b) (TrimSpace (Name b)) (TrimSpace (Logo b)) in
    if seqb (Name b) "" then inr (invalid "brand name is required") else inl b
  end.
Definition List `{sql_order} (meta : ListMeta) (orderBy : list string) : M goods_db (list t * Z) :=
  brands.List meta orderBy.
Definition Create (brand : option t) : M goods_db t :=
  b <- of_sum (validateBrand brand false) ;; brands.Create b.
Definition Update (brand : option t) : M goods_db unit :=
  b <- of_sum (validateBrand brand true) ;; brands.Get (wrapu64 (ID b)) ;;; brands.Update b.
Definition Delete (id : Z) : M goods_db unit :=
  fail_if (id =? 0) brands.not_found ;;;
  brands.Get id ;;;
  goodsCount <- goods.CountByBrand id ;;
  fail_if (0 <? goodsCount) (invalid "brand has goods") ;;;
  relationCount <- categoryBrands.CountByBrand id ;;
  fail_if (0 <? relationCount) (invalid "brand has category relations") ;;;
  brands.Delete id.
End brandService.

(** ** Banners *)
Module bannerService.
Import BannerDO.
Definition invalid (msg : string) : goerr := newCode ErrGoodsInvalid msg.
Definition validateBanner (banner : option t) (requireID : bool) : t + goerr :=
  match banner with
  | None => inr (invalid "banner is required")
  | Some b =>
    if requireID && (ID b <=? 0) then inr banners.not_found else
    let b := mk (ID b) (DeletedAt b) (TrimSpace (Image b)) (TrimSpace (Url b)) (Index b) in
    if seqb (Image b) "" || seqb (Url b) "" then inr (invalid "banner image and url are required") else inl b
  end.
Definition List `{sql_order} (meta : ListMeta) (orderBy : list string) : M goods_db (list t * Z) :=
  banners.List meta orderBy.
Definition Create (banner : option t) : M goods_db t :=
  b <- of_sum (validateBanner banner false) ;; banners.Create b.
Definition Update (banner : option t) : M goods_db unit :=
  b <- of_sum (validateBanner banner true) ;; banners.Update b.
Definition Delete (id : Z) : M goods_db unit := fail_if (id =? 0) banners.not_found ;;; banners.Delete id.
End bannerService.

(** ** Brands of a category *)
Module categoryBrandService.
Import GoodsCategoryBrandDO.
Definition validateCategoryBrand (relation : option t) (requireID : bool) : t + goerr :=
  match relation with
  | None => inr (newCode ErrGoodsInvalid "category brand relation is required")
  | Some r =>
    if requireID && (ID r <=? 0) then inr categoryBrands.not_found
    else if (CategoryID r <=? 0) || (BrandsID r <=? 0)
    then inr (newCode ErrGoodsInvalid "category_id and brand_id are required")
    else inl r
  end.
Section Lists.
Context `{sql_order}.
Definition List (meta : ListMeta) (orderBy : list string) : M goods_db (list relation_info * Z) :=
  categoryBrands.List meta orderBy.
Definition ListByCategory (categoryID : Z) (orderBy : list string) : M goods_db (list relation_info * Z) :=
  if categoryID =? 0 then ret ([], 0) else
  categories.Get categoryID ;;; categoryBrands.ListByCategory categoryID orderBy.
End Lists.
Definition Create (relation : option t) : M goods_db relation_info :=
  r <- of_sum (validateCategoryBrand relation false) ;;
  category <- categories.Get (wrapu64 (CategoryID r)) ;;
  brand <- brands.Get (wrapu64 (BrandsID r)) ;;
  r <- categoryBrands.Create r ;;
  ret (MkRelationInfo r (tree_row category) brand).
Definition Update (relation : option t) : M goods_db unit :=
  r <- of_sum (validateCategoryBrand relation true) ;;
  categories.Get (wrapu64 (CategoryID r)) ;;;
  brands.Get (wrapu64 (BrandsID r)) ;;;
  categoryBrands.Update r.
Definition Delete (id : Z) : M goods_db unit :=
  fail_if (id =? 0) categoryBrands.not_found ;;; categoryBrands.Delete id.
End categoryBrandService.
