(* ===== verification/GoodsServer.v ===== *)
(** * The goods gRPC server: [app/goods/srv/internal/controller/v1]

    One definition per handler of [goodsServer], from a request message ([None]: nil)
    to the response.  Ids are [int32] in the messages. *)
From S2P Require Import Prelude GoStrings Errors GoMonad Tables GoodsModel GoodsStore GoodsSearch GoodsService.
Open Scope go_scope.

(** ** Messages *)
Record CategoryInfoResponse := MkCategoryInfo {
  CatID : Z; CatName : string; CatParentCategory : Z; CatLevel : Z; CatIsTab : bool
}.
Record CategoryBriefInfoResponse := MkCategoryBrief { BriefID : Z; BriefName : string }.
Record BrandInfoResponse := MkBrandInfo { BrandID : Z; BrandName : string; BrandLogo : string }.
Record BannerResponse := MkBannerResponse { BannerID : Z; BannerIndex : Z; BannerImage : string; BannerUrl : string }.
Record CategoryBrandResponse := MkCategoryBrandResponse {
  RelID : Z; RelBrand : BrandInfoResponse; RelCategory : CategoryInfoResponse
}.
Record GoodsInfoResponse := MkGoodsInfoResponse {
  InfoID : Z; InfoCategoryID : Z; InfoName : string; InfoGoodsSn : string; InfoSpuCode : string; InfoSkuCode : string;
  InfoClickNum : Z; InfoSoldNum : Z; InfoFavNum : Z; InfoMarketPriceFen : Z; InfoShopPriceFen : Z;
  InfoGoodsBrief : string; InfoGoodsDesc : string; InfoStoreID : string; InfoShipFree : bool;
  InfoGoodsFrontImage : string; InfoIsNew : bool; InfoIsHot : bool; InfoOnSale : bool; InfoDescImages : list string;
  InfoImages : list string; InfoCategory : CategoryBriefInfoResponse; InfoBrand : BrandInfoResponse
}.
Record CreateGoodsInfo := MkCreateGoodsInfo {
  ReqID : Z; ReqName : string; ReqGoodsSn : string; ReqStocks : Z; ReqGoodsBrief : string; ReqGoodsDesc : string;
  ReqShipFree : bool; ReqImages : list string; ReqDescImages : list string; ReqGoodsFrontImage : string;
  ReqIsNew : bool; ReqIsHot : bool; ReqOnSale : bool; ReqCategoryID : Z; ReqBrandID : Z; ReqMarketPriceFen : Z;
  ReqShopPriceFen : Z; ReqSpuCode : string; ReqSkuCode : string; ReqStoreID : string
}.
Record GoodsOutboxEventRecord := MkOutboxRecord {
  RecID : Z; RecTopic : string; RecAggregateType : string; RecAggregateID : Z; RecAction : string; RecStatus : string;
  RecRetryCount : Z; RecMaxRetryCount : Z; RecLastError : string; RecNextAttemptAt : Z; RecClaimedAt : Z; RecAddTime : Z
}.

(** ** Conversions *)
Definition categoryToResponse (c : CategoryDO.t) : CategoryInfoResponse :=
  MkCategoryInfo (CategoryDO.ID c) (CategoryDO.Name c) (CategoryDO.ParentCategoryID c) (CategoryDO.Level c)
    (CategoryDO.IsTab c).
Definition brandToResponse (b : BrandsDO.t) : BrandInfoResponse :=
  MkBrandInfo (BrandsDO.ID b) (BrandsDO.Name b) (BrandsDO.Logo b).
Definition bannerToResponse (b : BannerDO.t) : BannerResponse :=
  MkBannerResponse (BannerDO.ID b) (BannerDO.Index b) (BannerDO.Image b) (BannerDO.Url b).
Definition categoryBrandToResponse (r : relation_info) : CategoryBrandResponse :=
  MkCategoryBrandResponse (GoodsCategoryBrandDO.ID (relation_row r)) (brandToResponse (relation_Brands r))
    (categoryToResponse (relation_Category r)).
Definition ModelToResponse (i : goods_info) : GoodsInfoResponse :=
  let g := goods_row i in
  MkGoodsInfoResponse (GoodsDO.ID g) (GoodsDO.CategoryID g) (GoodsDO.Name g) (GoodsDO.GoodsSn g) (GoodsDO.SPUCode g)
    (GoodsDO.SKUCode g) (GoodsDO.ClickNum g) (GoodsDO.SoldNum g) (GoodsDO.FavNum g) (GoodsDO.MarketPriceFen g)
    (GoodsDO.ShopPriceFen g) (GoodsDO.GoodsBrief g) (GoodsDO.GoodsDesc g) (GoodsDO.StoreID g) (GoodsDO.ShipFree g)
    (GoodsDO.GoodsFrontImage g) (GoodsDO.IsNew g) (GoodsDO.IsHot g) (GoodsDO.OnSale g) (GoodsDO.DescImages g)
    (GoodsDO.Images g) (MkCategoryBrief (CategoryDO.ID (goods_Category i)) (CategoryDO.Name (goods_Category i)))
    (brandToResponse (goods_Brands i)).
Definition createGoodsInfoToDTO (info : CreateGoodsInfo) : GoodsDO.t :=
  GoodsDO.mk (ReqID info) false (ReqCategoryID info) (ReqBrandID info) (ReqOnSale info) (ReqShipFree info)
    (ReqIsNew info) (ReqIsHot info) (ReqName info) (ReqGoodsSn info) (ReqSpuCode info) (ReqSkuCode info)
    (ReqStoreID info) 0 0 0 (ReqMarketPriceFen info) (ReqShopPriceFen info) (ReqGoodsBrief info) (ReqGoodsDesc info)
    (ReqImages info) (ReqDescImages info) (ReqGoodsFrontImage info).
Definition categoryRequestToDO (r : CategoryInfoResponse) : CategoryDO.t :=
  CategoryDO.mk (CatID r) false (CatName r) (CatParentCategory r) (CatLevel r) (CatIsTab r).
Definition brandRequestToDO (r : BrandInfoResponse) : BrandsDO.t :=
  BrandsDO.mk (BrandID r) false (BrandName r) (BrandLogo r).
Definition bannerRequestToDO (r : BannerResponse) : BannerDO.t :=
  BannerDO.mk (BannerID r) false (BannerImage r) (BannerUrl r) (BannerIndex r).
(** [proto.CategoryBrandRequest]: id, category, brand. *)
Definition categoryBrandRequestToDO (r : Z * Z * Z) : GoodsCategoryBrandDO.t :=
  GoodsCategoryBrandDO.mk r.1.1 false r.1.2 r.2.

Module goodsServer.
(** [errors.NewCode(errcode.ErrValidation, msg)] for a nil request. *)
Definition with_request {R A} (msg : string) (req : option R) (k : R -> M goods_db A) : M goods_db A :=
  match req with None => fail (newCode ErrValidation msg) | Some r => k r end.

(** ** Writes *)
Definition CreateGoods (now : Z) (info : option CreateGoodsInfo) : M goods_db GoodsInfoResponse :=
  with_request "goods request is required" info (fun info =>
    goods <- goodsService.Create now (Some (createGoodsInfoToDTO info)) ;;
    created <- goodsService.Get (wrapu64 (GoodsDO.ID goods)) ;;
    ret (ModelToResponse created)).
Definition DeleteGoods (now : Z) (id : option Z) : M goods_db unit :=
  with_request "delete goods request is required" id (fun id => goodsService.Delete now (wrapu64 id)).
Definition UpdateGoods (now : Z) (info : option CreateGoodsInfo) : M goods_db unit :=
  with_request "goods request is required" info (fun info =>
    goodsService.Update now (Some (createGoodsInfoToDTO info))).
Definition CreateCategory (request : option CategoryInfoResponse) : M goods_db CategoryInfoResponse :=
  with_request "category request is required" request (fun r =>
    category <- categoryService.Create (Some (categoryRequestToDO r)) ;; ret (categoryToResponse category)).
Definition UpdateCategory (request : option CategoryInfoResponse) : M goods_db unit :=
  with_request "category request is required" request (fun r => categoryService.Update (Some (categoryRequestToDO r))).
Definition CreateBrand (request : option BrandInfoResponse) : M goods_db BrandInfoResponse :=
  with_request "brand request is required" request (fun r =>
    brand <- brandService.Create (Some (brandRequestToDO r)) ;; ret (brandToResponse brand)).
Definition DeleteBrand (request : option BrandInfoResponse) : M goods_db unit :=
  with_request "brand request is required" request (fun r => brandService.Delete (wrapu64 (BrandID r))).
Definition UpdateBrand (request : option BrandInfoResponse) : M goods_db unit :=
  with_request "brand request is required" request (fun r => brandService.Update (Some (brandRequestToDO r))).
Definition CreateBanner (request : option BannerResponse) : M goods_db BannerResponse :=
  with_request "banner request is required" request (fun r =>
    banner <- bannerService.Create (Some (bannerRequestToDO r)) ;; ret (bannerToResponse banner)).
Definition DeleteBanner (request : option BannerResponse) : M goods_db unit :=
  with_request "banner request is required" request (fun r => bannerService.Delete (wrapu64 (BannerID r))).
Definition UpdateBanner (request : option BannerResponse) : M goods_db unit :=
  with_request "banner request is required" request (fun r => bannerService.Update (Some (bannerRequestToDO r))).
Definition CreateCategoryBrand (request : option (Z * Z * Z)) : M goods_db CategoryBrandResponse :=
  with_request "category brand request is required" request (fun r =>
    relation <- categoryBrandService.Create (Some (categoryBrandRequestToDO r)) ;;
    ret (categoryBrandToResponse relation)).
Definition DeleteCategoryBrand (request : option (Z * Z * Z)) : M goods_db unit :=
  with_request "category brand request is required" request (fun r => categoryBrandService.Delete (wrapu64 r.1.1)).
Definition UpdateCategoryBrand (request : option (Z * Z * Z)) : M goods_db unit :=
  with_request "category brand request is required" request (fun r =>
    categoryBrandService.Update (Some (categoryBrandRequestToDO r))).

(** ** Reads *)
Definition GetGoodsDetail (id : option Z) : M goods_db GoodsInfoResponse :=
  with_request "goods detail request is required" id (fun id =>
    goods <- goodsService.Get (wrapu64 id) ;; ret (ModelToResponse goods)).
Definition BatchGetGoods (completion : list Z -> list Z) (ids : option (list Z)) : M goods_db (list GoodsInfoResponse) :=
  with_request "batch goods request is required" ids (fun ids =>
    found <- goodsService.BatchGet completion (wrapu64 <$> ids) ;; ret (ModelToResponse <$> found)).
Definition GetSubCategory (id : option Z) : M goods_db (CategoryInfoResponse * Z * list CategoryInfoResponse) :=
  with_request "category request is required" id (fun id =>
    category <- categoryService.Get (wrapu64 id) ;;
    let subs := SubCategory category in
    ret (categoryToResponse (tree_row category), wrap32 (Z.of_nat (length subs)),
         (fun c => categoryToResponse (tree_row c)) <$> subs)).

Section Orders.
Context `{sql_order}.
Definition DeleteCategory (id : option Z) : M goods_db unit :=
  with_request "delete category request is required" id (fun id => categoryService.Delete (wrapu64 id)).
Definition GetAllCategorysList : M goods_db (list CategoryInfoResponse * Z) :=
  list <- categoryService.ListAll [] ;;
  ret ((fun c => categoryToResponse (tree_row c)) <$> list.1, wrap32 list.2).
(** Requests of the lists: the page and its size. *)
Definition BrandList (request : option (Z * Z)) : M goods_db (list BrandInfoResponse * Z) :=
  with_request "brand filter request is required" request (fun r =>
    list <- brandService.List (MkListMeta r.1 r.2) [] ;; ret (brandToResponse <$> list.1, wrap32 list.2)).
Definition BannerList : M goods_db (list BannerResponse * Z) :=
  list <- bannerService.List (MkListMeta 0 100) ["`index` asc"; "id asc"] ;;
  ret (bannerToResponse <$> list.1, wrap32 list.2).
Definition CategoryBrandList (request : option (Z * Z)) : M goods_db (list CategoryBrandResponse * Z) :=
  with_request "category brand filter request is required" request (fun r =>
    list <- categoryBrandService.List (MkListMeta r.1 r.2) [] ;;
    ret (categoryBrandToResponse <$> list.1, wrap32 list.2)).
Definition GetCategoryBrandList (id : option Z) : M goods_db (list BrandInfoResponse * Z) :=
  with_request "category request is required" id (fun id =>
    list <- categoryBrandService.ListByCategory (wrapu64 id) [] ;;
    ret ((fun r => brandToResponse (relation_Brands r)) <$> list.1, wrap32 list.2)).
Definition GoodsList `{elastic_client} (request : option GoodsFilterRequest) : M goods_db (list GoodsInfoResponse * Z) :=
  with_request "goods filter request is required" request (fun r =>
    list <- goodsService.List (Some r) [] ;; ret (ModelToResponse <$> list.1, wrap32 list.2)).

(** ** Recovery: [recovery.go] *)
Definition outbox_record (e : OutboxEventDO.t) : GoodsOutboxEventRecord :=
  MkOutboxRecord (OutboxEventDO.ID e) (OutboxEventDO.Topic e) (OutboxEventDO.AggregateType e)
    (OutboxEventDO.AggregateID e) (OutboxEventDO.Action e) (OutboxEventDO.Status e) (OutboxEventDO.RetryCount e)
    (OutboxEventDO.MaxRetryCount e) (OutboxEventDO.LastError e) (OutboxEventDO.NextAttemptAt e)
    (OutboxEventDO.ClaimedAt e) (worker.Unix (OutboxEventDO.CreatedAt e)).
Definition ListGoodsOutboxEvents (req : option (string * string * Z * Z)) : M goods_db (list GoodsOutboxEventRecord * Z) :=
  with_request "goods outbox request is required" req (fun '(topic, status, page, pageSize) =>
    list <- recovery.ListOutboxEvents topic status page pageSize ;;
    ret (outbox_record <$> list.1, wrap32 list.2)).
Definition ReplayGoodsOutbox (req : option (list Z * string * Z)) : M goods_db (Z * list Z) :=
  with_request "goods outbox replay request is required" req (fun '(ids, status, limit) =>
    replayed <- recovery.ReplayOutbox ids (TrimSpace status) limit ;;
    ret (wrap32 (Z.of_nat (length replayed)), replayed)).
Definition ReindexGoods (S : searchGoodsStore) (fuel : nat) (req : option (list Z * bool)) : M goods_db (Z * list Z) :=
  with_request "goods reindex request is required" req (fun '(goodsIds, all) =>
    reindexed <- recovery.Reindex S fuel (wrapu64 <$> List.filter (fun id => 0 <? id) goodsIds) all ;;
    ret (wrap32 (Z.of_nat (length reindexed)), wrap32 <$> reindexed)).
End Orders.
End goodsServer.
