(* ===== verification/GoodsCalls.v ===== *)
(** * The calls of the goods service and what they do to its tables

    The handlers that write as one type, the search store as an interface with laws,
    and the effect of every handler on the goods and on the outbox: at most one row
    changes, together with one new event. *)
From S2P Require Import Prelude GoStrings Errors GoMonad Tables GoodsModel GoodsStore GoodsSearch GoodsService GoodsServer.
Open Scope go_scope.

(** ** Calls *)
Inductive hcall :=
  | HCreateGoods (now : Z) (info : option CreateGoodsInfo)
  | HUpdateGoods (now : Z) (info : option CreateGoodsInfo)
  | HDeleteGoods (now : Z) (id : option Z)
  | HCreateCategory (request : option CategoryInfoResponse)
  | HUpdateCategory (request : option CategoryInfoResponse)
  | HDeleteCategory (id : option Z)
  | HCreateBrand (request : option BrandInfoResponse)
  | HUpdateBrand (request : option BrandInfoResponse)
  | HDeleteBrand (request : option BrandInfoResponse)
  | HCreateBanner (request : option BannerResponse)
  | HUpdateBanner (request : option BannerResponse)
  | HDeleteBanner (request : option BannerResponse)
  | HCreateCategoryBrand (request : option (Z * Z * Z))
  | HUpdateCategoryBrand (request : option (Z * Z * Z))
  | HDeleteCategoryBrand (request : option (Z * Z * Z))
  | HReplay (req : option (list Z * string * Z)).

(** The ids of a message are [int32]. *)
Definition typed_info (info : option CreateGoodsInfo) : Prop :=
  match info with
  | Some r => is_int32 (ReqID r) /\ is_int32 (ReqCategoryID r) /\ is_int32 (ReqBrandID r)
  | None => True
  end.
Definition typed_category (r : option CategoryInfoResponse) : Prop :=
  match r with Some r => is_int32 (CatID r) /\ is_int32 (CatParentCategory r) | None => True end.
Definition typed_relation (r : option (Z * Z * Z)) : Prop :=
  match r with Some r => is_int32 r.1.1 /\ is_int32 r.1.2 /\ is_int32 r.2 | None => True end.
Definition typed_hcall (c : hcall) : Prop :=
  match c with
  | HCreateGoods _ info | HUpdateGoods _ info => typed_info info
  | HDeleteGoods _ (Some id) | HDeleteCategory (Some id) => is_int32 id
  | HCreateCategory r | HUpdateCategory r => typed_category r
  | HCreateBrand (Some r) | HUpdateBrand (Some r) | HDeleteBrand (Some r) => is_int32 (BrandID r)
  | HCreateCategoryBrand r | HUpdateCategoryBrand r | HDeleteCategoryBrand r => typed_relation r
  | _ => True
  end.

Definition discard {A} (m : M goods_db A) : M goods_db unit := m ;;; ret tt.
Definition run_hcall `{sql_order} (c : hcall) : M goods_db unit :=
  match c with
  | HCreateGoods now r => discard (goodsServer.CreateGoods now r)
  | HUpdateGoods now r => goodsServer.UpdateGoods now r
  | HDeleteGoods now id => goodsServer.DeleteGoods now id
  | HCreateCategory r => discard (goodsServer.CreateCategory r)
  | HUpdateCategory r => goodsServer.UpdateCategory r
  | HDeleteCategory id => goodsServer.DeleteCategory id
  | HCreateBrand r => discard (goodsServer.CreateBrand r)
  | HUpdateBrand r => goodsServer.UpdateBrand r
  | HDeleteBrand r => goodsServer.DeleteBrand r
  | HCreateBanner r => discard (goodsServer.CreateBanner r)
  | HUpdateBanner r => goodsServer.UpdateBanner r
  | HDeleteBanner r => goodsServer.DeleteBanner r
  | HCreateCategoryBrand r => discard (goodsServer.CreateCategoryBrand r)
  | HUpdateCategoryBrand r => goodsServer.UpdateCategoryBrand r
  | HDeleteCategoryBrand r => goodsServer.DeleteCategoryBrand r
  | HReplay req => discard (goodsServer.ReplayGoodsOutbox req)
  end.

(** What other requests do while one waits for the search service: any handlers of the
    goods service that write its tables, in any order, under any faults.  Not among them
    are [ReindexGoods] and a second worker, which write the index themselves;
    [GoodsProperties.stale_write_stays] shows why they have to be left out. *)
Definition hstep `{sql_order} (d d' : goods_db) : Prop :=
  exists c f, typed_hcall c /\ d' = e_db (run_hcall c (Env d f)).2.
Definition others `{sql_order} : goods_db -> goods_db -> Prop := rtc hstep.

(** ** The search store as the worker sees it *)
Definition put_doc (id : string) (doc : GoodsSearchDO.t) (d : goods_db) : goods_db :=
  set_index (<[id := doc]> (search_index d)) d.
Definition delete_doc (id : string) (d : goods_db) : goods_db := set_index (delete id (search_index d)) d.
(** A write that the service accepted took effect, between what others did before
    and after; one it refused may have. *)
Definition wrote (others : goods_db -> goods_db -> Prop) (write : goods_db -> goods_db) (s : env goods_db)
    (r : outcome unit * env goods_db) : Prop :=
  exists d, others (e_db s) d /\
  match r.1 with
  | Ret _ => others (write d) (e_db r.2)
  | Fail _ => others d (e_db r.2) \/ others (write d) (e_db r.2)
  | Panic _ => False
  end.
Class search_laws (S : searchGoodsStore) (others : goods_db -> goods_db -> Prop) := {
  update_law : forall g s, 0 < GoodsSearchDO.ID g ->
    wrote others (put_doc (searchGoods.doc_id (GoodsSearchDO.ID g)) g) s (Update S (Some g) s);
  update_invalid : forall g s, GoodsSearchDO.ID g <= 0 -> exists e, Update S (Some g) s = (Fail e, s);
  delete_law : forall id s, id <> 0 -> wrote others (delete_doc (searchGoods.doc_id id)) s (Delete S id s)
}.

(** The Elasticsearch store implements it when the client keeps its promises. *)
Section Store.
Context `{E : elastic_client} (oth : goods_db -> goods_db -> Prop) `{L : !elastic_laws E oth}.

Lemma store_update g s : 0 < GoodsSearchDO.ID g ->
  wrote oth (put_doc (searchGoods.doc_id (GoodsSearchDO.ID g)) g) s (Update searchGoods.store (Some g) s).
Proof.
  intros Hg. cbn [Update searchGoods.store]. unfold searchGoods.Update, searchGoods.Create, fail_if.
  rewrite (proj2 (Z.leb_gt _ _) Hg). unfold bind, ret.
  destruct (es_index_law (searchGoods.doc_id (GoodsSearchDO.ID g)) g s) as (d & Hd & H). exists d. split; [done|].
  destruct (es_index _ _ _ s) as [[[]|e|p] s']; exact H.
Qed.
Lemma store_delete id s : id <> 0 ->
  wrote oth (delete_doc (searchGoods.doc_id id)) s (Delete searchGoods.store id s).
Proof.
  intros Hid. cbn [Delete searchGoods.store]. unfold searchGoods.Delete, fail_if.
  rewrite (proj2 (Z.eqb_neq _ _) Hid). unfold bind, ret, attempt.
  destruct (es_delete_law (searchGoods.doc_id id) s) as (d & Hd & H). exists d. split; [done|].
  destruct (es_delete _ _ s) as [[[]|e|p] s']; [exact H| |exact H].
  destruct (IsNotFound e); [|exact H]. destruct H as [Hn H]. cbn. unfold delete_doc.
  rewrite delete_id by done. by destruct d.
Qed.
#[export] Instance store_laws : search_laws searchGoods.store oth.
Proof.
  split; [exact store_update| |exact store_delete]. intros g s Hg. exists searchGoods.invalid.
  cbn [Update searchGoods.store]. unfold searchGoods.Update, fail_if. by rewrite (proj2 (Z.leb_le _ _) Hg).
Qed.
End Store.

(** ** Calls respect what their statements respect *)
Lemma steps_of_sum {A} (R : goods_db -> goods_db -> Prop) `{!PreOrder R} (r : A + goerr) : steps R (of_sum r).
Proof. destruct r; intros s; done. Qed.
Lemma steps_goods_dberr {A} (R : goods_db -> goods_db -> Prop) op (m : M goods_db A) :
  steps R m -> steps R (goods_dberr op m).
Proof. unfold goods_dberr. apply steps_wrap_err. Qed.
Ltac goods_frame :=
  lazymatch goal with
  | |- steps _ (select_first _ _) => apply steps_select_first; exact _
  | |- steps _ (select_where _ _) => apply steps_select_where; exact _
  | |- steps _ (count_where _ _) => apply steps_count_where; exact _
  | |- steps _ (update_where _ _ _) => apply steps_update_where; [exact _|]
  | |- steps _ (update_checked _ _ _ _) => apply steps_update_checked; [exact _|]
  | |- steps _ (insert_keyed _ _ _ _ _) => apply steps_insert_keyed; [exact _|]
  | |- steps _ (goods_dberr _ _) => apply steps_goods_dberr
  | |- steps _ (first_or _ _ _) => unfold first_or
  | |- steps _ (of_sum _) => apply steps_of_sum; exact _
  | |- steps _ (goodsServer.with_request _ _ _) => unfold goodsServer.with_request
  | |- Ignores _ _ => first [assumption | exact _]
  end.
Ltac goods_go := repeat (steps_step || goods_frame).

Section Frames.
Context (R : goods_db -> goods_db -> Prop) `{!PreOrder R} `{O : sql_order}.

(** *** Reads *)
Lemma steps_preload_brands ids : steps R (preload_brands ids).
Proof. unfold preload_brands. goods_go. Qed.
Lemma steps_preload_categories ids : steps R (preload_categories ids).
Proof. unfold preload_categories. goods_go. Qed.
Lemma steps_goods_refs l : steps R (goods.with_refs l).
Proof. unfold goods.with_refs. goods_go; [apply steps_preload_brands|apply steps_preload_categories]. Qed.
Lemma steps_goods_Get id : steps R (goods.Get id).
Proof. unfold goods.Get. goods_go. apply steps_goods_refs. Qed.
Lemma steps_brands_Get id : steps R (brands.Get id).
Proof. unfold brands.Get. goods_go. Qed.
Lemma steps_subcategories l : steps R (categories.with_subcategories l).
Proof. unfold categories.with_subcategories, categories.children_of. goods_go. Qed.
Lemma steps_categories_Get id : steps R (categories.Get id).
Proof. unfold categories.Get. goods_go. apply steps_subcategories. Qed.
Lemma steps_check_refs g : steps R (goodsService.check_refs g).
Proof. unfold goodsService.check_refs. goods_go; [apply steps_brands_Get|apply steps_categories_Get]. Qed.
Lemma steps_check_parent c : steps R (categoryService.check_parent c).
Proof. unfold categoryService.check_parent. goods_go. apply steps_categories_Get. Qed.
Lemma steps_ListByCategory id cols : steps R (categoryBrands.ListByCategory id cols).
Proof.
  unfold categoryBrands.ListByCategory, categoryBrands.with_refs.
  goods_go; [apply steps_preload_brands|apply steps_preload_categories].
Qed.
Lemma steps_goods_List cols opts : steps R (goods.List cols opts).
Proof. unfold goods.List. goods_go. apply steps_goods_refs. Qed.
Lemma steps_ListByStatus topic status limit : steps R (outbox.ListByStatus topic status limit).
Proof. unfold outbox.ListByStatus. goods_go. Qed.
Lemma steps_ListByIDs ids : steps R (outbox.ListByIDs ids).
Proof. unfold outbox.ListByIDs. goods_go. Qed.

(** *** The handlers of the catalogue *)
Definition catalog_call (c : hcall) : bool :=
  match c with HCreateGoods _ _ | HUpdateGoods _ _ | HDeleteGoods _ _ | HReplay _ => false | _ => true end.
Ltac unfold_catalog :=
  unfold discard, goodsServer.CreateCategory, goodsServer.UpdateCategory, goodsServer.DeleteCategory,
    goodsServer.CreateBrand, goodsServer.UpdateBrand, goodsServer.DeleteBrand, goodsServer.CreateBanner,
    goodsServer.UpdateBanner, goodsServer.DeleteBanner, goodsServer.CreateCategoryBrand,
    goodsServer.UpdateCategoryBrand, goodsServer.DeleteCategoryBrand, categoryService.Create, categoryService.Update,
    categoryService.Delete, brandService.Create, brandService.Update, brandService.Delete, bannerService.Create,
    bannerService.Update, bannerService.Delete, categoryBrandService.Create, categoryBrandService.Update,
    categoryBrandService.Delete, categories.Create, categories.Update, categories.Delete, brands.Create, brands.Update,
    brands.Delete, banners.Create, banners.Update, banners.Delete, banners.exists_, categoryBrands.Create,
    categoryBrands.Update, categoryBrands.Delete, categoryBrands.exists_, goods.CountByCategory, goods.CountByBrand,
    categoryBrands.CountByBrand.

Lemma steps_catalog_call c :
  Ignores t_category R -> Ignores t_brands R -> Ignores t_banner R -> Ignores t_relation R ->
  catalog_call c = true -> steps R (run_hcall c).
Proof.
  intros ? ? ? ? Hc. destruct c; try discriminate Hc; unfold run_hcall; unfold_catalog; goods_go;
    first [apply steps_categories_Get | apply steps_check_parent | apply steps_brands_Get | apply steps_ListByCategory].
Qed.
End Frames.
