(* ===== verification/GoodsSync.v ===== *)
(** * The search index follows the goods

    Every change of a goods writes an outbox event in the same transaction, and the
    worker turns events into documents.  The invariant: where the index differs from
    the goods there is an event that is not done and asks for what is missing; it
    holds while the worker waits for the search service and other requests go on. *)
From S2P Require Import Prelude GoStrings Errors GoMonad Tables GoodsModel GoodsStore GoodsSearch GoodsService GoodsServer GoodsCalls.
Import OutboxEventDO.
Open Scope go_scope.

(** ** The effect of a handler *)

(** The identity of an event does not change. *)
Definition same_event (e e' : t) : Prop :=
  ID e' = ID e /\ Topic e' = Topic e /\ AggregateID e' = AggregateID e /\ Action e' = Action e /\ Payload e' = Payload e.
Inductive table_step (d : goods_db) : goods_db -> Prop :=
  | ts_same d' :
    goods_rows d' = goods_rows d -> outbox_rows d' = outbox_rows d -> search_index d' = search_index d -> table_step d d'
  | ts_created d' g now n :
    goods_rows d' = goods_rows d ++ [g] -> GoodsDO.ID g ∉ GoodsDO.ID <$> goods_rows d -> is_int32 (GoodsDO.ID g) ->
    goods.alive g = true ->
    outbox_rows d' = outbox_rows d ++ [set_ID n (goodsService.newGoodsSyncEvent now g)] ->
    n = 1 + fold_right Z.max 0 (ID <$> outbox_rows d) -> search_index d' = search_index d -> table_step d d'
  | ts_updated d' g now n :
    goods_rows d' = (fun r : GoodsDO.t => if goods.by_id (GoodsDO.ID g) r then GoodsDO.goodsUpdateValues g r else r) <$> goods_rows d ->
    find (goods.by_id (GoodsDO.ID g)) (goods_rows d) <> None ->
    outbox_rows d' = outbox_rows d ++ [set_ID n (goodsService.newGoodsSyncEvent now g)] ->
    n = 1 + fold_right Z.max 0 (ID <$> outbox_rows d) -> search_index d' = search_index d -> table_step d d'
  | ts_deleted d' id now n :
    goods_rows d' = (fun r : GoodsDO.t => if goods.by_id id r then GoodsDO.delete r else r) <$> goods_rows d ->
    find (goods.by_id id) (goods_rows d) <> None -> 0 < id ->
    outbox_rows d' = outbox_rows d ++ [set_ID n (goodsService.newGoodsDeleteEvent now id)] ->
    n = 1 + fold_right Z.max 0 (ID <$> outbox_rows d) -> search_index d' = search_index d -> table_step d d'
  | ts_events d' (p : t -> bool) (f : t -> t) :
    goods_rows d' = goods_rows d -> outbox_rows d' = (fun e => if p e then f e else e) <$> outbox_rows d ->
    (forall e, same_event e (f e) /\ Status (f e) = OutboxStatusPending) -> search_index d' = search_index d ->
    table_step d d'.
Definition table_steps : goods_db -> goods_db -> Prop := rtc table_step.
#[export] Instance table_steps_pre : PreOrder table_steps.
Proof. unfold table_steps. split; [by intros d|]. intros a b c. apply rtc_trans. Qed.
#[export] Instance table_steps_ignores {R} (t : table goods_db R) :
  (forall l d, goods_rows (set_rows t l d) = goods_rows d) -> (forall l d, outbox_rows (set_rows t l d) = outbox_rows d) ->
  (forall l d, search_index (set_rows t l d) = search_index d) -> Ignores t table_steps.
Proof. intros H1 H2 H3 l d. apply rtc_once. by apply ts_same. Qed.

Lemma steps_events p f : (forall e, same_event e (f e) /\ Status (f e) = OutboxStatusPending) ->
  steps table_steps (update_where t_outbox p f).
Proof. intros Hf. apply steps_stmt; [exact _|]. intros d. apply rtc_once. by eapply ts_events. Qed.

(** ** Runs that returned *)
Lemma of_sum_Ret {A} (r : A + goerr) (s : env goods_db) a s' : of_sum r s = (Ret a, s') -> r = inl a /\ s' = s.
Proof. destruct r; cbn; unfold ret, fail; intros; by simplify_eq. Qed.
Lemma dberr_Ret {A} op (m : M goods_db A) s a s' : goods_dberr op m s = (Ret a, s') -> m s = (Ret a, s').
Proof. apply wrap_err_Ret. Qed.
Lemma readonly_Ret {A} (m : M goods_db A) s a s' : steps eq m -> m s = (Ret a, s') -> e_db s' = e_db s.
Proof. intros Hm H. specialize (Hm s). rewrite H in Hm. by symmetry. Qed.

Lemma count_find {A} (p : A -> bool) l : (Z.of_nat (length (List.filter p l)) =? 0) = true <-> find p l = None.
Proof.
  rewrite Z.eqb_eq. induction l as [|x l IH]; [done|]. simpl. destruct (p x); [|exact IH].
  split; [cbn [length]; lia|done].
Qed.

Lemma goods_Get_Ret id s i s' :
  goods.Get id s = (Ret i, s') -> find (goods.by_id id) (goods_rows (e_db s)) = Some (goods_row i) /\ e_db s' = e_db s.
Proof.
  intros H. pose proof (readonly_Ret _ _ _ _ (steps_goods_Get eq id) H) as E. split; [|exact E].
  unfold goods.Get in H. apply bind_Ret in H as (? & ? & [_ ->]%fail_if_Ret & H).
  apply bind_Ret in H as (l & s1 & H1%dberr_Ret & H2). apply bind_Ret in H1 as (o & s2 & [-> _]%select_first_Ret & H1).
  apply bind_Ret in H1 as (bs & s3 & _ & H1). apply bind_Ret in H1 as (cs & s4 & _ & H1).
  unfold ret in H1. injection H1 as <- _. cbn [rows t_goods] in H2.
  destruct (find _ (goods_rows (e_db s))) as [g|]; cbn in H2; unfold ret, fail in H2; by simplify_eq.
Qed.

Lemma goods_CreateInTxn_Ret g s g' s' :
  goods.CreateInTxn g s = (Ret g', s') ->
  g' = GoodsDO.set_ID (GoodsDO.ID g') g /\ GoodsDO.ID g' <= int32_max /\ (GoodsDO.ID g <> 0 -> GoodsDO.ID g' = GoodsDO.ID g) /\
  (GoodsDO.ID g = 0 -> 0 < GoodsDO.ID g') /\ GoodsDO.ID g' ∉ GoodsDO.ID <$> goods_rows (e_db s) /\
  e_db s' = set_rows t_goods (goods_rows (e_db s) ++ [g']) (e_db s).
Proof.
  unfold goods.CreateInTxn, goods.insert. intros (n & s1 & H1%dberr_Ret%insert_keyed_Ret & H2)%bind_Ret.
  unfold ret in H2. injection H2 as <- <-. destruct H1 as (Hn & Hm & Hd & E).
  split_and!; [done..| | | |exact E].
  - intros Hne%Z.eqb_neq. by rewrite Hne in Hn.
  - intros Hz%Z.eqb_eq. rewrite Hz in Hn. destruct (fresh_above GoodsDO.ID _ _ Hn) as [Hp _]. exact Hp.
  - intros (r & Er & Hr)%list_elem_of_fmap. pose proof (existsb_false_elem _ _ _ Hd Hr) as Hf. cbn in Hf.
    apply orb_false_iff in Hf as [Hf _]. apply Z.eqb_neq in Hf. apply Hf. by symmetry.
Qed.

Lemma goods_UpdateInTxn_Ret g s u s' :
  goods.UpdateInTxn g s = (Ret u, s') -> wrapu64 (GoodsDO.ID g) = GoodsDO.ID g ->
  find (goods.by_id (GoodsDO.ID g)) (goods_rows (e_db s)) <> None /\
  e_db s' = set_rows t_goods ((fun r => if goods.by_id (GoodsDO.ID g) r then GoodsDO.goodsUpdateValues g r else r)
              <$> goods_rows (e_db s)) (e_db s).
Proof.
  unfold goods.UpdateInTxn, goods.update. intros (? & ? & [_ ->]%fail_if_Ret & H)%bind_Ret Hw.
  apply bind_Ret in H as (n & s1 & (_ & -> & E)%dberr_Ret%update_checked_Ret & H).
  set (k := Z.of_nat _) in H. destruct (k =? 0) eqn:Hk.
  - exfalso. apply count_find in Hk. apply bind_Ret in H as (i & s2 & [Hi _]%goods_Get_Ret & _).
    rewrite Hw, E in Hi. cbn in Hi. cbn in Hk. clear E. revert Hi Hk.
    generalize (goods_rows (e_db s)) as l. induction l as [|r l IH]; [done|]. rewrite fmap_cons. simpl.
    destruct (goods.by_id (GoodsDO.ID g) r) eqn:Hr; [done|]. rewrite Hr. exact IH.
  - unfold ret in H. injection H as _ <-. split; [|exact E]. intros Hn%count_find. subst k. cbn in Hk. congruence.
Qed.

Lemma goods_DeleteInTxn_Ret id s u s' :
  goods.DeleteInTxn id s = (Ret u, s') ->
  find (goods.by_id id) (goods_rows (e_db s)) <> None /\
  e_db s' = set_rows t_goods ((fun r => if goods.by_id id r then GoodsDO.delete r else r) <$> goods_rows (e_db s)) (e_db s).
Proof.
  unfold goods.DeleteInTxn, goods.remove. intros (? & ? & [_ ->]%fail_if_Ret & H)%bind_Ret.
  apply bind_Ret in H as (n & s1 & (-> & E)%dberr_Ret%update_where_Ret & [Hk ->]%fail_if_Ret).
  split; [|exact E]. intros Hn%count_find. cbn in Hk. congruence.
Qed.

Lemma outbox_CreateInTxn_Ret e s u s' :
  outbox.CreateInTxn e s = (Ret u, s') -> ID e = 0 ->
  exists n, n = 1 + fold_right Z.max 0 (ID <$> outbox_rows (e_db s)) /\
    e_db s' = set_rows t_outbox (outbox_rows (e_db s) ++ [set_ID n e]) (e_db s).
Proof.
  unfold outbox.CreateInTxn. intros (n & s1 & (Hn & _ & _ & E)%dberr_Ret%insert_keyed_Ret & H)%bind_Ret He.
  unfold ret in H. injection H as _ <-. rewrite He in Hn. by exists n.
Qed.

(** ** The handlers *)
Section Handlers.
Context `{O : sql_order}.

Lemma validate_id goods b g : goodsService.validateGoodsForWrite goods b = inl g ->
  exists g0, goods = Some g0 /\ g = goodsService.trimmed g0 /\ (b = true -> 0 < GoodsDO.ID g).
Proof.
  destruct goods as [g0|]; [|done]. unfold goodsService.validateGoodsForWrite. intros H. exists g0. split; [done|].
  destruct (b && (GoodsDO.ID g0 <=? 0)) eqn:Hb; [done|].
  repeat match type of H with (if ?c then _ else _) = _ => destruct c; [done|] end.
  injection H as <-. split; [done|]. intros ->. cbn in *. by apply Z.leb_gt.
Qed.

Lemma steps_txn {A} action (body : M goods_db A) :
  (forall s a s', body s = (Ret a, s') -> table_steps (e_db s) (e_db s')) -> steps table_steps (goodsTxn action body).
Proof.
  intros H s. unfold goodsTxn. pose proof (atomic_withTxn action body s) as Ha.
  destruct (withTxnExecutor action body s) as [[a|e|p] s'] eqn:E; cbn in *; [|by rewrite Ha..].
  apply withTxn_Ret in E as (s1 & E & ->). by apply H in E.
Qed.
Lemma steps_of_sum_bind {A B} (R : goods_db -> goods_db -> Prop) `{!PreOrder R} (r : A + goerr) (k : A -> M goods_db B) :
  (forall a, r = inl a -> steps R (k a)) -> steps R (bind (of_sum r) k).
Proof. intros H. destruct r as [a|e]; [apply H; done|intros s; done]. Qed.

Lemma step_Create now info : typed_info (Some info) ->
  steps table_steps (goodsService.Create now (Some (createGoodsInfoToDTO info))).
Proof.
  intros (Hi & _ & _). unfold goodsService.Create. apply steps_of_sum_bind; [exact _|].
  intros g (g0 & [= <-] & -> & _)%validate_id. steps_step; [apply steps_check_refs; exact _|]. apply steps_txn.
  intros s g' s' H. apply bind_Ret in H as (g1 & s1 & H1%goods_CreateInTxn_Ret & H).
  apply bind_Ret in H as (? & s2 & (n & Hn & E2)%outbox_CreateInTxn_Ret & H); [|done]. unfold ret in H. injection H as -> ->.
  destruct H1 as (Eg & Hmax & Hid & Hpos & Hf & E1). apply rtc_once.
  apply (ts_created _ _ g' now n); rewrite ?E2, ?E1; cbn; try done.
  - split; [|done]. change (GoodsDO.ID (goodsService.trimmed (createGoodsInfoToDTO info))) with (ReqID info) in *.
    destruct (Z.eq_dec (ReqID info) 0) as [Hz|Hz]; [specialize (Hpos Hz)|rewrite (Hid Hz)]; unfold_int; lia.
  - by rewrite Eg.
  - by rewrite E1 in Hn.
Qed.
Lemma step_Update now info : typed_info (Some info) ->
  steps table_steps (goodsService.Update now (Some (createGoodsInfoToDTO info))).
Proof.
  intros (Hi & _ & _). unfold goodsService.Update. apply steps_of_sum_bind; [exact _|].
  intros g (g0 & [= <-] & -> & Hp)%validate_id. specialize (Hp eq_refl). set (g := goodsService.trimmed _) in *.
  assert (wrapu64 (GoodsDO.ID g) = GoodsDO.ID g) as Hw.
  { apply wrapu64_id. change (GoodsDO.ID g) with (ReqID info) in *. unfold_int. lia. }
  steps_step; [apply steps_goods_Get; exact _|]. steps_step; [apply steps_check_refs; exact _|]. apply steps_txn.
  intros s u s' H. apply bind_Ret in H as (? & s1 & [Hl E1]%goods_UpdateInTxn_Ret & H); [|done].
  apply outbox_CreateInTxn_Ret in H as (n & Hn & E2); [|done]. apply rtc_once.
  apply (ts_updated _ _ g now n); rewrite ?E2, ?E1; cbn; try done. by rewrite E1 in Hn.
Qed.
Lemma step_Delete now id : steps table_steps (goodsService.Delete now (wrapu64 id)).
Proof.
  unfold goodsService.Delete. destruct (wrapu64 id =? 0) eqn:Hz; [intros s; done|]. cbn [fail_if].
  assert (0 < wrapu64 id) as Hp.
  { apply Z.eqb_neq in Hz. unfold wrapu64 in *. pose proof (Z.mod_pos_bound id (2 ^ 64)). lia. }
  steps_step; [apply steps_ret; exact _|]. steps_step; [apply steps_goods_Get; exact _|]. apply steps_txn.
  intros s u s' H. apply bind_Ret in H as (? & s1 & [Hl E1]%goods_DeleteInTxn_Ret & H).
  apply outbox_CreateInTxn_Ret in H as (n & Hn & E2); [|done]. apply rtc_once.
  apply (ts_deleted _ _ (wrapu64 id) now n); rewrite ?E2, ?E1; cbn; try done. by rewrite E1 in Hn.
Qed.

Lemma step_Replay ids status limit : steps table_steps (recovery.ReplayOutbox ids status limit).
Proof.
  unfold recovery.ReplayOutbox, outbox.MarkRetry, outbox.updateStatus. cbv zeta.
  steps_step; [destruct (goods.normalizeIDs _); [apply steps_ListByStatus; exact _|apply steps_ListByIDs; exact _]|].
  repeat (steps_step || apply steps_goods_dberr). apply steps_events. by intros [].
Qed.

(** Every handler moves the tables by such steps. *)
Lemma hcall_steps c : typed_hcall c -> steps table_steps (run_hcall c).
Proof.
  intros Ht. destruct (catalog_call c) eqn:Hc.
  { apply steps_catalog_call; [exact _|by apply table_steps_ignores..|done]. }
  destruct c as [now info|now info|now id| | | | | | | | | | | | |req]; try discriminate Hc; unfold run_hcall, discard,
    goodsServer.CreateGoods, goodsServer.UpdateGoods, goodsServer.DeleteGoods, goodsServer.ReplayGoodsOutbox, goodsServer.with_request.
  - destruct info as [info|]; goods_go; [by apply step_Create|]. unfold goodsService.Get. goods_go. apply steps_goods_Get. exact _.
  - destruct info as [info|]; goods_go. by apply step_Update.
  - destruct id as [id|]; goods_go. apply step_Delete.
  - goods_go. apply step_Replay.
Qed.
Lemma others_steps d d' : others d d' -> table_steps d d'.
Proof.
  induction 1 as [d|d d1 d2 (c & f & Ht & ->) _ IH]; [reflexivity|]. etrans; [|exact IH].
  exact (hcall_steps c Ht (Env d f)).
Qed.
End Handlers.

(** ** What the index has to become *)
Definition live (d : goods_db) (id : Z) : option GoodsDO.t := find (goods.by_id id) (goods_rows d).
Definition doc (d : goods_db) (id : Z) : option GoodsSearchDO.t := goodsService.goodsSearchFromDTO <$> live d id.
Definition wanted (d : goods_db) (id : Z) : string :=
  match live d id with Some _ => OutboxActionUpsert | None => OutboxActionDelete end.
(** An event other than [x] is not done and asks for the state of the goods. *)
Definition open_event (x : option Z) (d : goods_db) (id : Z) : Prop :=
  exists e, e ∈ outbox_rows d /\ Status e <> OutboxStatusDone /\ Some (ID e) <> x /\ AggregateID e = id /\
    Action e = wanted d id.
(** The documents [T] are those of the goods, up to events other than [x]. *)
Definition agrees (x : option Z) (T : Z -> option GoodsSearchDO.t) (d : goods_db) : Prop :=
  forall id, is_int32 id -> T id = doc d id \/ open_event x d id.
Definition indexed (d : goods_db) (id : Z) : option GoodsSearchDO.t := search_index d !! searchGoods.doc_id id.

(** ** Well-formed tables *)
Definition event_asks (d : goods_db) (e : t) : Prop :=
  (Action e = OutboxActionUpsert /\
   exists g pid, Payload e = Json (MkPayload OutboxActionUpsert (Some g) pid) /\ GoodsSearchDO.ID g = AggregateID e) \/
  (Action e = OutboxActionDelete /\ Payload e = Json (MkPayload OutboxActionDelete None (AggregateID e)) /\
   0 < AggregateID e /\ live d (AggregateID e) = None).
Definition event_wf (d : goods_db) (e : t) : Prop :=
  Topic e = OutboxTopicGoodsSync /\ 0 < ID e /\ AggregateID e ∈ GoodsDO.ID <$> goods_rows d /\ event_asks d e.
Record catalog_wf (d : goods_db) : Prop := {
  gw_ids : NoDup (GoodsDO.ID <$> goods_rows d);
  gw_int : Forall is_int32 (GoodsDO.ID <$> goods_rows d);
  gw_events : NoDup (ID <$> outbox_rows d);
  gw_wf : forall e, e ∈ outbox_rows d -> event_wf d e
}.

Lemma by_id_ID id g : goods.by_id id g = true -> GoodsDO.ID g = id /\ goods.alive g = true.
Proof. unfold goods.by_id. intros [H1 H2%Z.eqb_eq]%andb_true_iff. done. Qed.
Lemma live_in d id g : live d id = Some g -> g ∈ goods_rows d /\ GoodsDO.ID g = id.
Proof.
  intros H. apply find_some in H as [Hin Hb]. apply list_elem_of_In in Hin. by apply by_id_ID in Hb as [Hb _].
Qed.
Lemma find_map_other id id' (h : GoodsDO.t -> GoodsDO.t) l :
  (forall r, GoodsDO.ID (h r) = GoodsDO.ID r) -> id' <> id ->
  find (goods.by_id id') ((fun r => if goods.by_id id r then h r else r) <$> l) = find (goods.by_id id') l.
Proof.
  intros Hh Hne. induction l as [|r l IH]; [done|]. rewrite fmap_cons. simpl. destruct (goods.by_id id r) eqn:Hr; [|by rewrite IH].
  apply by_id_ID in Hr as [Hr _].
  assert (forall g, GoodsDO.ID g = id -> goods.by_id id' g = false) as Hf.
  { intros g Hg. unfold goods.by_id. rewrite Hg, (proj2 (Z.eqb_neq _ _)) by done. apply andb_false_r. }
  rewrite !Hf by (rewrite ?Hh; exact Hr). exact IH.
Qed.
Lemma find_map_same id (h : GoodsDO.t -> GoodsDO.t) l :
  (forall r, GoodsDO.ID (h r) = GoodsDO.ID r /\ GoodsDO.DeletedAt (h r) = GoodsDO.DeletedAt r) ->
  find (goods.by_id id) ((fun r => if goods.by_id id r then h r else r) <$> l) = h <$> find (goods.by_id id) l.
Proof.
  intros Hh. induction l as [|r l IH]; [done|]. rewrite fmap_cons. simpl. destruct (goods.by_id id r) eqn:Hr; [|by rewrite Hr, IH].
  destruct (Hh r) as [E1 E2]. unfold goods.by_id, goods.alive in *. by rewrite E1, E2, Hr.
Qed.
Lemma find_map_deleted id l :
  find (goods.by_id id) ((fun r => if goods.by_id id r then GoodsDO.delete r else r) <$> l) = None.
Proof.
  induction l as [|r l IH]; [done|]. rewrite fmap_cons. simpl. destruct (goods.by_id id r) eqn:Hr; [exact IH|by rewrite Hr].
Qed.
Lemma find_app_fresh id g l : GoodsDO.ID g ∉ GoodsDO.ID <$> l -> goods.alive g = true ->
  find (goods.by_id id) (l ++ [g]) = if decide (id = GoodsDO.ID g) then Some g else find (goods.by_id id) l.
Proof.
  intros Hf Ha. induction l as [|r l IH]; simpl.
  - unfold goods.by_id. rewrite Ha. case_decide as Hd; [by rewrite Hd, Z.eqb_refl|].
    by rewrite (proj2 (Z.eqb_neq _ _)) by congruence.
  - rewrite fmap_cons, not_elem_of_cons in Hf. destruct Hf as [Hf1 Hf2]. rewrite (IH Hf2).
    destruct (goods.by_id id r) eqn:Hr; [|done]. apply by_id_ID in Hr as [Hr _]. by rewrite decide_False by congruence.
Qed.

(** *** One step at a time *)

(** A step adds an event for the one goods it changes; the others stay. *)
Lemma keeps_new_event x T d d' e id :
  catalog_wf d -> agrees x T d -> (forall n, x = Some n -> n ∈ ID <$> outbox_rows d) ->
  outbox_rows d' = outbox_rows d ++ [e] -> ID e = 1 + fold_right Z.max 0 (ID <$> outbox_rows d) ->
  Topic e = OutboxTopicGoodsSync -> Status e <> OutboxStatusDone -> AggregateID e = id -> Action e = wanted d' id ->
  event_asks d' e -> NoDup (GoodsDO.ID <$> goods_rows d') -> Forall is_int32 (GoodsDO.ID <$> goods_rows d') ->
  (forall i, i ∈ GoodsDO.ID <$> goods_rows d -> i ∈ GoodsDO.ID <$> goods_rows d') -> id ∈ GoodsDO.ID <$> goods_rows d' ->
  (forall i, i <> id -> live d' i = live d i) -> (live d id = None -> id ∈ GoodsDO.ID <$> goods_rows d -> live d' id = None) ->
  catalog_wf d' /\ agrees x T d'.
Proof.
  intros [Hn Hi He Hw] Ha Hx Eo En Htop Hst Hid Hact Hask Hn' Hi' Hsub Hin Hlive Hdead.
  destruct (fresh_above ID _ _ En) as [Hpos Hfresh]. split; [split; try done|].
  - rewrite Eo, fmap_app. by apply NoDup_snoc.
  - rewrite Eo. intros e' [He'| ->%list_elem_of_singleton]%elem_of_app; [|split_and!; [done..|by rewrite Hid|done]].
    destruct (Hw e' He') as (? & ? & Hagg & Hasks). split_and!; [done..|by apply Hsub|].
    destruct Hasks as [Hu|(A1 & A2 & A3 & A4)]; [by left|right]. split_and!; [done..|].
    destruct (Z.eq_dec (AggregateID e') id) as [Heq|Hne]; [|by rewrite Hlive]. rewrite Heq in *. by apply Hdead.
  - intros i Hint. destruct (Z.eq_dec i id) as [->|Hne].
    + right. exists e. split_and!; [rewrite Eo; apply elem_of_app; right; by left|done| |done..].
      intros Hs. symmetry in Hs. apply Hx in Hs. done.
    + unfold doc, open_event, wanted. rewrite (Hlive i Hne). destruct (Ha i Hint) as [H|(e' & H1 & H2)]; [by left|right].
      exists e'. split; [rewrite Eo; apply elem_of_app; by left|done].
Qed.

Definition covers (x : option Z) (d : goods_db) : Prop := forall n, x = Some n -> n ∈ ID <$> outbox_rows d.
Lemma ids_map_if (p : GoodsDO.t -> bool) h (l : list GoodsDO.t) : (forall r, GoodsDO.ID (h r) = GoodsDO.ID r) ->
  GoodsDO.ID <$> ((fun r => if p r then h r else r) <$> l) = GoodsDO.ID <$> l.
Proof. intros Hh. rewrite <- list_fmap_compose. apply list_fmap_ext. intros i r _. cbn. by destruct (p r). Qed.

(** Updates that keep an event open, or reopen it. *)
Lemma keeps_events x T d d' (p : t -> bool) (f : t -> t) :
  catalog_wf d -> agrees x T d -> goods_rows d' = goods_rows d ->
  outbox_rows d' = (fun e => if p e then f e else e) <$> outbox_rows d -> (forall e, same_event e (f e)) ->
  (forall e, p e = true -> Status (f e) <> OutboxStatusDone \/ Some (ID e) = x) -> catalog_wf d' /\ agrees x T d'.
Proof.
  intros [Hn Hi He Hw] Ha Eg Eo Hf Hst. set (g e := if p e then f e else e) in *.
  assert (forall e, same_event e (g e)) as Hg by (intros e; unfold g; destruct (p e); [apply Hf|done]).
  assert (forall i, live d' i = live d i) as Hl by (intros i; unfold live; by rewrite Eg). split; [split|].
  - by rewrite Eg.
  - by rewrite Eg.
  - rewrite Eo, <- list_fmap_compose. erewrite list_fmap_ext; [exact He|]. intros i e _. apply Hg.
  - intros e' He'. rewrite Eo in He'. apply list_elem_of_fmap in He' as (e & -> & Hin). destruct (Hg e) as (E1 & E2 & E3 & E4 & E5).
    destruct (Hw e Hin) as (W1 & W2 & W3 & W4). unfold event_wf, event_asks in *. rewrite E1, E2, E3, E4, E5, Eg.
    split_and!; [done..|]. by rewrite Hl.
  - intros i Hint. unfold doc. rewrite Hl. destruct (Ha i Hint) as [H|(e & H1 & H2 & H3 & H4 & H5)]; [by left|right].
    exists (g e). destruct (Hg e) as (E1 & E2 & E3 & E4 & E5). unfold wanted. rewrite Eo, E1, E3, E4, Hl.
    split_and!; [by apply list_elem_of_fmap_2| |done..]. unfold g. destruct (p e) eqn:Hp; [|done].
    by destruct (Hst e Hp) as [?|?].
Qed.

Lemma keeps_same x T d d' :
  goods_rows d' = goods_rows d -> outbox_rows d' = outbox_rows d -> catalog_wf d -> agrees x T d -> catalog_wf d' /\ agrees x T d'.
Proof.
  intros Eg Eo Hw Ha. apply (keeps_events x T d d' (fun _ => false) id Hw Ha Eg); [|done..].
  rewrite Eo. symmetry. apply list_fmap_id.
Qed.

Lemma table_step_keeps x T d d' :
  table_step d d' -> catalog_wf d -> covers x d -> agrees x T d -> catalog_wf d' /\ agrees x T d'.
Proof.
  intros Hs Hwf Hx Ha. destruct Hs as [d' Eg Eo _|d' g now n Eg Hf Hi Hal Eo En _|d' g now n Eg Hl Eo En _|
    d' id now n Eg Hl Hp Eo En _|d' p f Eg Eo Hpf _].
  - by apply (keeps_same x T d).
  - assert (forall i, live d' i = if decide (i = GoodsDO.ID g) then Some g else live d i) as Hlive.
    { intros i. unfold live. rewrite Eg. by apply find_app_fresh. }
    eapply (keeps_new_event x T d d' _ (GoodsDO.ID g) Hwf Ha Hx Eo En); try done.
    + unfold wanted. rewrite Hlive. by rewrite decide_True.
    + left. split; [done|]. eexists _, _. split; done.
    + rewrite Eg, fmap_app. apply NoDup_snoc; [apply Hwf|done].
    + rewrite Eg, fmap_app. apply Forall_app. split; [apply Hwf|by constructor].
    + intros i Hin. rewrite Eg, fmap_app. apply elem_of_app. by left.
    + rewrite Eg, fmap_app. apply elem_of_app. right. by left.
    + intros i Hne. rewrite Hlive. by rewrite decide_False.
  - assert (forall i, i <> GoodsDO.ID g -> live d' i = live d i) as Hlive.
    { intros i Hne. unfold live. rewrite Eg. by apply find_map_other. }
    assert (live d' (GoodsDO.ID g) = GoodsDO.goodsUpdateValues g <$> live d (GoodsDO.ID g)) as Hsame.
    { unfold live. rewrite Eg. by apply find_map_same. }
    assert (GoodsDO.ID <$> goods_rows d' = GoodsDO.ID <$> goods_rows d) as Eids by (rewrite Eg; by apply ids_map_if).
    fold (live d (GoodsDO.ID g)) in Hl. destruct (live d (GoodsDO.ID g)) as [r|] eqn:Hr; [|done].
    eapply (keeps_new_event x T d d' _ (GoodsDO.ID g) Hwf Ha Hx Eo En); rewrite ?Eids; try done; try apply Hwf.
    + unfold wanted. by rewrite Hsame.
    + left. split; [done|]. eexists _, _. split; done.
    + apply live_in in Hr as [Hr1 Hr2]. rewrite <- Hr2. by apply list_elem_of_fmap_2.
    + rewrite Hr. done.
  - assert (forall i, i <> id -> live d' i = live d i) as Hlive.
    { intros i Hne. unfold live. rewrite Eg. by apply find_map_other. }
    assert (live d' id = None) as Hnone by (unfold live; rewrite Eg; apply find_map_deleted).
    assert (GoodsDO.ID <$> goods_rows d' = GoodsDO.ID <$> goods_rows d) as Eids by (rewrite Eg; by apply ids_map_if).
    fold (live d id) in Hl. destruct (live d id) as [r|] eqn:Hr; [|done].
    assert (id ∈ GoodsDO.ID <$> goods_rows d) as Hin.
    { apply live_in in Hr as [Hr1 Hr2]. rewrite <- Hr2. by apply list_elem_of_fmap_2. }
    assert (wrap32 id = id) as Hw by (apply wrap32_id; destruct Hwf as [_ Hi _ _]; rewrite Forall_forall in Hi; by apply Hi).
    eapply (keeps_new_event x T d d' _ id Hwf Ha Hx Eo En); rewrite ?Eids; try done; try apply Hwf.
    + unfold wanted. by rewrite Hnone.
    + right. cbn. rewrite Hw. done.
  - apply (keeps_events x T d d' p f Hwf Ha Eg Eo); [apply Hpf|]. intros e _. left. by destruct (Hpf e) as [_ ->].
Qed.

Lemma table_step_covers x d d' : table_step d d' -> covers x d -> covers x d'.
Proof.
  intros Hs Hx n Hn. specialize (Hx n Hn). destruct Hs as [d' _ Eo|d' ? ? ? _ _ _ _ Eo|d' ? ? ? _ _ Eo|d' ? ? ? _ _ _ Eo|
    d' p f _ Eo Hf _]; rewrite Eo; [done|rewrite fmap_app; apply elem_of_app; by left..|].
  apply list_elem_of_fmap in Hx as (e & -> & He). apply list_elem_of_fmap.
  exists (if p e then f e else e). split; [destruct (p e); [symmetry; apply Hf|done]|].
  by apply (list_elem_of_fmap_2 (fun e => if p e then f e else e)).
Qed.
Lemma table_step_index d d' : table_step d d' -> search_index d' = search_index d.
Proof. by intros []. Qed.
Lemma table_step_rows d d' : table_step d d' -> forall i, i ∈ GoodsDO.ID <$> goods_rows d -> i ∈ GoodsDO.ID <$> goods_rows d'.
Proof.
  intros Hs i Hi. destruct Hs as [d' Eg|d' g ? ? Eg|d' g ? ? Eg|d' id ? ? Eg|d' p f Eg]; rewrite Eg; try done.
  - rewrite fmap_app. apply elem_of_app. by left.
  - by rewrite ids_map_if.
  - by rewrite ids_map_if.
Qed.

Lemma table_steps_keep x T d d' :
  table_steps d d' -> catalog_wf d -> covers x d -> agrees x T d ->
  catalog_wf d' /\ covers x d' /\ agrees x T d' /\ search_index d' = search_index d.
Proof.
  induction 1 as [d|d d1 d2 Hs _ IH]; [done|]. intros Hw Hx Ha. destruct (table_step_keeps x T d d1 Hs Hw Hx Ha) as [Hw1 Ha1].
  destruct IH as (? & ? & ? & E); [done|by apply (table_step_covers x d)|done|]. rewrite E. by rewrite (table_step_index d d1).
Qed.

(** ** The invariant *)
Definition keys_ok (d : goods_db) : Prop :=
  forall k, is_Some (search_index d !! k) -> exists i, is_int32 i /\ k = searchGoods.doc_id i.
Record synced_up_to (x : option Z) (d : goods_db) : Prop := {
  sy_wf : catalog_wf d;
  sy_agrees : agrees x (indexed d) d;
  sy_keys : keys_ok d
}.
Definition synced : goods_db -> Prop := synced_up_to None.

(** The worker holds a copy of the event: its state may be older. *)
Definition has_event (d : goods_db) (e : t) : Prop := exists e0, e0 ∈ outbox_rows d /\ same_event e0 e.
Lemma has_event_covers d e : has_event d e -> covers (Some (ID e)) d.
Proof. intros (e0 & He & -> & _) n [= <-]. by apply list_elem_of_fmap_2. Qed.

Lemma agrees_ext x T T' d : (forall i, is_int32 i -> T i = T' i) -> agrees x T d -> agrees x T' d.
Proof. intros HT Ha i Hi. rewrite <- HT by done. by apply Ha. Qed.
Lemma agrees_weaken x T d : agrees x T d -> agrees None T d.
Proof.
  intros Ha i Hi. destruct (Ha i Hi) as [H|(e & H1 & H2 & _ & H3)]; [by left|right]. by exists e.
Qed.
Lemma synced_weaken x d : synced_up_to x d -> synced d.
Proof. intros [? ? ?]. split; [done| |done]. by apply (agrees_weaken x). Qed.
Lemma doc_id_inj i j : is_int32 i -> is_int32 j -> searchGoods.doc_id i = searchGoods.doc_id j -> i = j.
Proof. unfold searchGoods.doc_id. intros Hi Hj. rewrite !wrap64_id by (unfold_int; lia). apply itoa_inj; unfold_int; lia. Qed.

(** *** Writing a document *)
Definition write_doc (id : Z) (v : option GoodsSearchDO.t) (d : goods_db) : goods_db :=
  set_index (partial_alter (fun _ => v) (searchGoods.doc_id id) (search_index d)) d.
Lemma indexed_write id v d i : is_int32 id -> is_int32 i ->
  indexed (write_doc id v d) i = if decide (i = id) then v else indexed d i.
Proof.
  intros Hid Hi. unfold indexed, write_doc. cbn [search_index set_index]. case_decide as Hd; [rewrite Hd; apply lookup_partial_alter_eq|].
  apply lookup_partial_alter_ne. by intros ?%doc_id_inj.
Qed.
Definition aimed (id : Z) (v : option GoodsSearchDO.t) (d : goods_db) (i : Z) : option GoodsSearchDO.t :=
  if decide (i = id) then v else indexed d i.
Lemma agrees_aimed x id d : synced d -> (forall e, e ∈ outbox_rows d -> Some (ID e) = x -> AggregateID e = id) ->
  agrees x (aimed id (doc d id) d) d.
Proof.
  intros [_ Ha _] Hx i Hi. unfold aimed. case_decide as Hd; [left; by rewrite Hd|].
  destruct (Ha i Hi) as [H|(e & H1 & H2 & _ & H4 & H5)]; [by left|right]. exists e. split_and!; try done.
  intros Hs. apply Hd. rewrite <- H4. by apply Hx.
Qed.

Lemma keys_write id v d : is_int32 id -> keys_ok d -> keys_ok (write_doc id v d).
Proof.
  intros Hid Hk k. cbn. destruct (decide (k = searchGoods.doc_id id)) as [->|Hne]; [by exists id|].
  rewrite lookup_partial_alter_ne by congruence. apply Hk.
Qed.

Section Worker.
Context `{O : sql_order} (S : searchGoodsStore) `{L : !search_laws S others}.

(** A write that is right up to open events, while others run: the index agrees. *)
Lemma written_agrees x id v d d1 d' :
  synced d -> is_int32 id -> covers x d -> agrees x (aimed id v d) d -> others d d1 ->
  others (write_doc id v d1) d' -> synced_up_to x d' /\ covers x d'.
Proof.
  intros Hs Hid Hx Ha H1%others_steps H2%others_steps.
  destruct (table_steps_keep x (aimed id v d) d d1 H1 (sy_wf _ d Hs) Hx Ha) as (W1 & X1 & A1 & I1).
  set (d2 := write_doc id v d1) in *.
  assert (agrees x (indexed d2) d2) as A2.
  { apply (agrees_ext x (aimed id v d)); [|exact A1]. intros i Hi. unfold d2. rewrite indexed_write by done. unfold aimed.
    case_decide; [done|]. unfold indexed. by rewrite I1. }
  destruct (table_steps_keep x (indexed d2) d2 d' H2) as (W3 & X3 & A3 & I3); [by destruct W1|done|done|].
  split; [split; [done| |]|done].
  - apply (agrees_ext x (indexed d2)); [|done]. intros i _. unfold indexed. by rewrite I3.
  - intros k. rewrite I3. apply keys_write; [done|]. intros k' Hk'. rewrite I1 in Hk'. by apply (sy_keys _ d Hs).
Qed.
Lemma others_keep x d d' : synced_up_to x d -> covers x d -> others d d' -> synced_up_to x d' /\ covers x d'.
Proof.
  intros [W A K] Hx H%others_steps. destruct (table_steps_keep x (indexed d) d d' H W Hx A) as (W1 & X1 & A1 & I1).
  split; [split; [done| |]|done].
  - apply (agrees_ext x (indexed d)); [|done]. intros i _. unfold indexed. by rewrite I1.
  - intros k. rewrite I1. apply K.
Qed.
Lemma others_event d d' e : others d d' -> has_event d e -> has_event d' e.
Proof.
  intros H%others_steps. induction H as [|d d1 d2 Hs _ IH]; [done|]. intros (e0 & He & Hse). apply IH.
  destruct Hs as [d' _ Eo|d' ? ? ? _ _ _ _ Eo|d' ? ? ? _ _ Eo|d' ? ? ? _ _ _ Eo|d' p f _ Eo Hf _].
  1-4: exists e0; rewrite Eo; split; [|done]; try (apply elem_of_app; by left); done.
  exists (if p e0 then f e0 else e0). rewrite Eo. split; [by apply (list_elem_of_fmap_2 (fun e => if p e then f e else e))|].
  destruct (p e0); [|done]. destruct (Hf e0) as [(E1 & E2 & E3 & E4 & E5) _]. destruct Hse as (F1 & F2 & F3 & F4 & F5).
  unfold same_event. by rewrite E1, E2, E3, E4, E5.
Qed.

Lemma event_unique d e0 e1 : catalog_wf d -> e0 ∈ outbox_rows d -> e1 ∈ outbox_rows d -> ID e0 = ID e1 -> e0 = e1.
Proof.
  intros [_ _ Hn _] (i & Hi)%list_elem_of_lookup (j & Hj)%list_elem_of_lookup E.
  assert (i = j) as ->; [|congruence].
  apply (NoDup_lookup (ID <$> outbox_rows d) i j (ID e0) Hn); rewrite list_lookup_fmap; [by rewrite Hi|rewrite Hj; cbn; by rewrite E].
Qed.

Lemma after_write e s (r : outcome unit * env goods_db) :
  synced (e_db s) -> has_event (e_db s) e -> is_int32 (AggregateID e) ->
  wrote others (write_doc (AggregateID e) (doc (e_db s) (AggregateID e))) s r ->
  match r.1 with
  | Ret _ => synced_up_to (Some (ID e)) (e_db r.2)
  | Fail _ => synced (e_db r.2)
  | Panic _ => False
  end /\ (forall e', has_event (e_db s) e' -> has_event (e_db r.2) e').
Proof.
  intros Hs He Hi (d1 & H1 & H2). pose proof (has_event_covers _ _ He) as Hx. set (id := AggregateID e) in *.
  assert (forall x, (x = Some (ID e) \/ x = None) -> agrees x (aimed id (doc (e_db s) id) (e_db s)) (e_db s)) as Ha.
  { intros x Hx'. apply agrees_aimed; [done|]. intros e' He' Ee'. destruct Hx' as [->| ->]; [|done]. injection Ee' as Ee'.
    destruct He as (e0 & He0 & E0 & _ & E3 & _). rewrite E0 in Ee'.
    rewrite (event_unique _ _ _ (sy_wf _ _ Hs) He' He0 Ee'). by rewrite <- E3. }
  assert (forall d', others (write_doc id (doc (e_db s) id) d1) d' -> forall e', has_event (e_db s) e' -> has_event d' e') as Hev.
  { intros d' Ho e' H'. apply (others_event _ _ e' Ho). apply (others_event _ _ e' H1) in H'. exact H'. }
  destruct (r.1) as [u|err|p]; [|destruct H2 as [H2|H2]|done].
  - split; [|by apply Hev]. by apply (written_agrees (Some (ID e)) id _ (e_db s) d1 _ Hs Hi Hx (Ha _ (or_introl eq_refl))).
  - destruct (others_keep None _ _ Hs ltac:(by intros ? [=]) H1) as [Hs1 _].
    destruct (others_keep None _ _ Hs1 ltac:(by intros ? [=]) H2) as [Hs2 _]. split; [done|].
    intros e' H'. apply (others_event _ _ e' H2). by apply (others_event _ _ e' H1).
  - split; [|by apply Hev].
    by apply (written_agrees None id _ (e_db s) d1 _ Hs Hi ltac:(by intros ? [=]) (Ha _ (or_intror eq_refl))).
Qed.

(** *** Applying an event *)
Lemma event_facts d e : synced d -> has_event d e ->
  is_int32 (AggregateID e) /\ 0 < ID e /\ Topic e = OutboxTopicGoodsSync /\ event_asks d e.
Proof.
  intros [W _ _] (e0 & He & E1 & E2 & E3 & E4 & E5). destruct (gw_wf _ W e0 He) as (W1 & W2 & W3 & W4).
  unfold event_asks in *. rewrite E1, E2, E3, E4, E5. split_and!; try done.
  pose proof (gw_int _ W) as Hi. rewrite Forall_forall in Hi. by apply Hi.
Qed.
Definition applied (e : t) (s : env goods_db) (r : outcome unit * env goods_db) : Prop :=
  match r.1 with Ret _ => synced_up_to (Some (ID e)) (e_db r.2) | _ => synced (e_db r.2) end /\
  (forall e', has_event (e_db s) e' -> has_event (e_db r.2) e').
Lemma applied_same e s r : is_ret r.1 = false -> synced (e_db s) -> e_db r.2 = e_db s -> applied e s r.
Proof. intros Hr Hs E. unfold applied. rewrite E. split; [by destruct r.1|done]. Qed.

Lemma apply_event_spec e payload s :
  synced (e_db s) -> has_event (e_db s) e -> Payload e = Json payload ->
  applied e s (worker.apply_event S (Some worker.resolve_goods) e payload s).
Proof.
  intros Hs He Hp. destruct (event_facts _ _ Hs He) as (Hi & _ & _ & [(Ha & g & pid & Hg & Hid)|(Ha & Hd & Hpos & Hl)]);
    rewrite Hp in *; unfold worker.apply_event.
  - injection Hg as ->. cbn [PayloadAction PayloadGoods]. rewrite Hid.
    change (seqb OutboxActionUpsert OutboxActionUpsert) with true. cbv iota. rewrite andb_diag.
    destruct (Z.leb_spec (AggregateID e) 0) as [Hle|Hpos]; [by apply applied_same|].
    assert (wrapu64 (AggregateID e) = AggregateID e) as Hw by (apply wrapu64_id; unfold_int; lia). rewrite Hw.
    unfold worker.resolve_goods. unfold bind at 1 2 3.
    destruct (goods.Get (AggregateID e) s) as [[i|err|p] s1] eqn:Hget.
    2, 3: apply applied_same; [done..|]; pose proof (steps_goods_Get eq (AggregateID e) s) as E0; rewrite Hget in E0; by symmetry.
    apply goods_Get_Ret in Hget as [Hf E]. cbn [ret].
    set (v := goodsService.goodsSearchFromDTO (goods_row i)).
    assert (GoodsSearchDO.ID v = AggregateID e) as Hv by (apply find_some in Hf as [_ Hf]; apply by_id_ID in Hf as [Hf _]; exact Hf).
    assert (doc (e_db s1) (AggregateID e) = Some v) as Hdoc.
    { unfold doc, live. rewrite E. unfold v. set (fi := find _ _) in *. by rewrite Hf. }
    pose proof (update_law v s1 ltac:(by rewrite Hv)) as Hwr. rewrite Hv in Hwr.
    destruct (after_write e s1 _ ltac:(by rewrite E) ltac:(by rewrite E) Hi ltac:(rewrite Hdoc; exact Hwr)) as [H1 H2].
    rewrite E in H2. split; [|exact H2]. by destruct (GoodsSearch.Update S (Some v) s1) as [[u|err|p] s'].
  - injection Hd as ->. cbn [PayloadAction PayloadID].
    change (seqb OutboxActionDelete OutboxActionUpsert) with false. change (seqb OutboxActionDelete OutboxActionDelete) with true.
    cbv iota. rewrite (proj2 (Z.eqb_neq _ _)) by lia.
    pose proof (delete_law (AggregateID e) s ltac:(lia)) as Hwr.
    assert (doc (e_db s) (AggregateID e) = None) as Hdoc by (unfold doc; by rewrite Hl).
    destruct (after_write e s _ Hs He Hi ltac:(rewrite Hdoc; exact Hwr)) as [H1 H2].
    split; [|exact H2]. by destruct (GoodsSearch.Delete S (AggregateID e) s) as [[u|err|p] s'].
Qed.

(** *** Marking it *)
Definition keeps_events_of (d d' : goods_db) : Prop := forall e, has_event d e -> has_event d' e.
Lemma map_keeps_events d d' (p : t -> bool) (f : t -> t) : outbox_rows d' = (fun e => if p e then f e else e) <$> outbox_rows d ->
  (forall e, same_event e (f e)) -> keeps_events_of d d'.
Proof.
  intros Eo Hf e (e0 & He & Hs). exists (if p e0 then f e0 else e0). rewrite Eo.
  split; [by apply (list_elem_of_fmap_2 (fun e => if p e then f e else e))|]. destruct (p e0); [|done].
  destruct (Hf e0) as (E1 & E2 & E3 & E4 & E5). destruct Hs as (F1 & F2 & F3 & F4 & F5).
  unfold same_event. by rewrite E1, E2, E3, E4, E5.
Qed.
Lemma synced_map x d (p : t -> bool) (f : t -> t) : synced_up_to x d -> (forall e, same_event e (f e)) ->
  (forall e, p e = true -> Status (f e) <> OutboxStatusDone \/ Some (ID e) = x) ->
  synced_up_to x (set_rows t_outbox ((fun e => if p e then f e else e) <$> outbox_rows d) d).
Proof.
  intros [W A K] Hf Hst. destruct (keeps_events x (indexed d) d
    (set_rows t_outbox ((fun e => if p e then f e else e) <$> outbox_rows d) d) p f W A eq_refl eq_refl Hf Hst). by split.
Qed.
(** The relation every part of the worker but [MarkDone] respects. *)
Definition follows_up_to (x : option Z) (d d' : goods_db) : Prop :=
  synced_up_to x d -> synced_up_to x d' /\ keeps_events_of d d'.
Definition follows : goods_db -> goods_db -> Prop := follows_up_to None.
#[export] Instance follows_up_to_pre x : PreOrder (follows_up_to x).
Proof.
  split; [intros d H; split; [exact H|by intros e]|].
  intros a b c H1 H2 H. destruct (H1 H) as [Hb K1], (H2 Hb) as [Hc K2]. split; [done|]. intros e He. by apply K2, K1.
Qed.
#[export] Instance follows_pre : PreOrder follows.
Proof. apply follows_up_to_pre. Qed.
Lemma steps_follow (p : t -> bool) (f : t -> t) : (forall e, same_event e (f e) /\ (p e = true -> Status (f e) <> OutboxStatusDone)) ->
  steps follows (update_where t_outbox p f).
Proof.
  intros Hf. apply steps_stmt; [exact _|]. intros d Hd. split.
  - apply synced_map; [done|apply Hf|]. intros e He. left. by apply Hf.
  - eapply map_keeps_events; [done|apply Hf].
Qed.
Lemma steps_mark id f : (forall e, same_event e (f e) /\ Status (f e) <> OutboxStatusDone) ->
  steps follows (outbox.updateStatus id f).
Proof.
  intros Hf. unfold outbox.updateStatus. repeat (steps_step || apply steps_goods_dberr). apply steps_follow.
  intros e. split; [apply Hf|]. intros _. apply Hf.
Qed.
Lemma mark_done e s : synced_up_to (Some (ID e)) (e_db s) ->
  synced (e_db (outbox.MarkDone (ID e) s).2) /\ keeps_events_of (e_db s) (e_db (outbox.MarkDone (ID e) s).2).
Proof.
  assert (steps (follows_up_to (Some (ID e))) (outbox.MarkDone (ID e))) as Hm.
  { unfold outbox.MarkDone, outbox.updateStatus. repeat (steps_step || apply steps_goods_dberr).
    apply steps_stmt; [exact _|]. intros d Hd. split.
    - apply synced_map; [done|by intros []|]. intros e' He'. right. unfold outbox.has_id in He'. f_equal. blia.
    - eapply map_keeps_events; [done|by intros []]. }
  intros Hs. destruct (Hm s Hs) as [H1 H2]. split; [by apply synced_weaken in H1|done].
Qed.

Lemma process_follows e now s : has_event (e_db s) e ->
  follows (e_db s) (e_db (worker.processGoodsOutboxEvent S (Some worker.resolve_goods) now e s).2).
Proof.
  intros He. unfold worker.processGoodsOutboxEvent. cbv zeta. destruct (Payload e) as [payload|err] eqn:Hp.
  2: { apply steps_mark. by intros []. }
  intros Hs. destruct (apply_event_spec e payload s Hs He Hp) as [H1 H2]. unfold bind, attempt.
  destruct (worker.apply_event S _ e payload s) as [[u|err|p] s1]; cbn in H1, H2.
  - destruct (mark_done e s1 H1) as [H3 H4]. split; [done|]. intros e' He'. by apply H4, H2.
  - assert (follows (e_db s) (e_db s1)) as Hf by done. revert Hs. change (follows (e_db s) (e_db ((if MaxRetryCount e <=? wrap32 (RetryCount e + 1)
      then outbox.MarkDead (ID e) (wrap32 (RetryCount e + 1)) (error_text err)
      else outbox.MarkRetry (ID e) (wrap32 (RetryCount e + 1)) (worker.Unix (now + worker.backoffDuration (wrap32 (RetryCount e + 1))))
             (error_text err)) s1).2)). etrans; [exact Hf|].
    destruct (MaxRetryCount e <=? _); apply steps_mark; by intros [].
  - by split.
Qed.

Lemma steps_observe (R : goods_db -> goods_db -> Prop) `{!PreOrder R} : steps R worker.observeGoodsOutboxBacklog.
Proof. unfold worker.observeGoodsOutboxBacklog, outbox.CountByStatus. goods_go. Qed.

Lemma ClaimPending_Ret topic limit now s l s' :
  outbox.ClaimPending topic limit now s = (Ret l, s') ->
  l = page 0 (if limit <=? 0 then 10 else limit) (List.filter (outbox.due topic now) (outbox_rows (e_db s))) /\
  outbox_rows (e_db s') = (fun e => if bool_decide (ID e ∈ ID <$> l) && seqb (Status e) OutboxStatusPending
                                   then outbox.claimed topic now e else e) <$> outbox_rows (e_db s).
Proof.
  unfold outbox.ClaimPending. intros (s0 & s1 & E0 & H & E1)%transaction_Ret. rewrite E1, <- E0. clear E0 E1 s'.
  apply bind_Ret in H as (l0 & s2 & [-> E2]%dberr_Ret%query_Ret & H).
  set (l0 := page _ _ _) in *. assert (l = l0 /\ outbox_rows (e_db s1) =
    (fun e => if bool_decide (ID e ∈ ID <$> l0) && seqb (Status e) OutboxStatusPending then outbox.claimed topic now e else e)
      <$> outbox_rows (e_db s0)) as [El E]; [|split; [exact El|rewrite El; exact E]].
  clearbody l0. destruct l0 as [|e l0'].
  - unfold ret in H. injection H as <- <-. split; [done|]. rewrite E2, <- (list_fmap_id (outbox_rows (e_db s0))) at 1.
    apply list_fmap_ext. intros i e _. rewrite bool_decide_false by apply not_elem_of_nil. done.
  - apply bind_Ret in H as (? & s3 & [_ E3]%dberr_Ret%update_where_Ret & H). unfold ret in H. injection H as <- <-.
    split; [done|]. by rewrite E3, <- E2.
Qed.
Lemma page_elem {A} o n (l : list A) x : x ∈ page o n l -> x ∈ l.
Proof.
  unfold page. intros H. assert (x ∈ (if 0 <? o then drop (Z.to_nat o) l else l)) as H1.
  { destruct (0 <=? n); [|done]. revert H. generalize (if 0 <? o then drop (Z.to_nat o) l else l). intros k H.
    rewrite <- (take_drop (Z.to_nat n) k). apply elem_of_app. by left. }
  destruct (0 <? o); [|done]. rewrite <- (take_drop (Z.to_nat o) l). apply elem_of_app. by right.
Qed.

Lemma sweep_follows now clock : steps follows (worker.runGoodsOutboxSweep S now clock).
Proof.
  unfold worker.runGoodsOutboxSweep, worker.processGoodsOutboxOnce. steps_step; [|apply steps_ret; exact _]. apply steps_attempt.
  steps_step; [unfold outbox.RequeueStale; repeat (steps_step || apply steps_goods_dberr); apply steps_follow; by intros []|].
  steps_step; [apply steps_observe; exact _|]. intros s. unfold bind at 1.
  assert (follows (e_db s) (e_db (outbox.ClaimPending OutboxTopicGoodsSync worker.outboxBatchSize (worker.Unix now) s).2)) as Hc.
  { assert (steps follows (outbox.ClaimPending OutboxTopicGoodsSync worker.outboxBatchSize (worker.Unix now))) as Hst; [|exact (Hst s)].
    unfold outbox.ClaimPending. repeat (steps_step || apply steps_goods_dberr). apply steps_follow. by intros []. }
  destruct (outbox.ClaimPending _ _ _ s) as [[l|err|p] s1] eqn:Ecl; [|exact Hc..]. cbn in Hc. etrans; [exact Hc|].
  apply ClaimPending_Ret in Ecl as [El Eo].
  assert (Forall (has_event (e_db s1)) l) as Hl.
  { apply Forall_forall. intros e He. apply (map_keeps_events (e_db s) (e_db s1) _ _ Eo); [by intros []|].
    exists e. split; [|done]. rewrite El in He. apply page_elem, list_elem_of_In, filter_In in He as [He _]. by apply list_elem_of_In. }
  clear El Eo Hc s. revert s1 Hl. induction l as [|e l IH]; intros s1 Hl; [done|]. apply Forall_cons in Hl as [He Hl].
  pose proof (process_follows e (clock e) s1 He) as Hp. intros Hs. destruct (Hp Hs) as [Hs2 He2].
  assert (Forall (has_event (e_db (worker.processGoodsOutboxEvent S (Some worker.resolve_goods) (clock e) e s1).2)) l) as Hl2
    by (eapply Forall_impl; [exact Hl|exact He2]).
  specialize (IH _ Hl2 Hs2). cbn [for_each]. unfold bind.
  destruct (worker.processGoodsOutboxEvent _ _ _ e s1) as [[u|err|p] s2]; [|split; [exact Hs2|exact He2]..]. destruct IH as [H1 H2].
  split; [exact H1|]. intros e' He'. by apply H2, He2.
Qed.

(** *** Reindexing

    A document read earlier is right, or an event that is still open will correct
    it. *)
Definition right_for (d : goods_db) (g : GoodsSearchDO.t) : Prop :=
  is_int32 (GoodsSearchDO.ID g) /\
  (Some g = doc d (GoodsSearchDO.ID g) \/ open_event None d (GoodsSearchDO.ID g)).
Definition keeps_right (d d' : goods_db) : Prop := forall g, right_for d g -> right_for d' g.
Lemma right_aimed d g : synced d -> right_for d g -> agrees None (aimed (GoodsSearchDO.ID g) (Some g) d) d.
Proof. intros Hs [_ Hg] i Hi. unfold aimed. case_decide as Hd; [by rewrite Hd|by apply (sy_agrees _ _ Hs)]. Qed.
Lemma others_right d d' : synced d -> others d d' -> keeps_right d d'.
Proof.
  intros Hs H%others_steps g Hg. pose proof (right_aimed d g Hs Hg) as Ha. destruct Hg as [Hi Hg].
  destruct (table_steps_keep None _ d d' H (sy_wf _ _ Hs) ltac:(by intros ? [=]) Ha) as (_ & _ & A & _).
  split; [done|]. specialize (A _ Hi). unfold aimed in A. by rewrite decide_True in A.
Qed.
Definition reindexes (d d' : goods_db) : Prop := synced d -> synced d' /\ keeps_right d d'.
Lemma reindexes_unfold d d' : reindexes d d' -> synced d -> synced d' /\ keeps_right d d'.
Proof. done. Qed.
#[export] Instance reindexes_pre : PreOrder reindexes.
Proof.
  split; [intros d H; split; [exact H|by intros g]|].
  intros a b c H1 H2 H. destruct (H1 H) as [Hb K1], (H2 Hb) as [Hc K2]. split; [done|]. intros g Hg. by apply K2, K1.
Qed.

Lemma update_reindexes g s : right_for (e_db s) g -> reindexes (e_db s) (e_db (GoodsSearch.Update S (Some g) s).2).
Proof.
  intros Hg Hs. destruct (Z.le_gt_cases (GoodsSearchDO.ID g) 0) as [Hle|Hpos].
  { destruct (update_invalid g s Hle) as [e ->]. split; [exact Hs|by intros g']. }
  destruct (update_law g s ltac:(lia)) as (d1 & H1 & H2). set (id := GoodsSearchDO.ID g) in *.
  change (put_doc (searchGoods.doc_id id) g) with (write_doc id (Some g)) in H2.
  pose proof (others_keep None _ _ Hs ltac:(by intros ? [=]) H1) as [Hs1 _].
  pose proof (others_right _ _ Hs H1) as K1. pose proof (right_aimed _ _ Hs Hg) as Ha. destruct Hg as [Hi Hg].
  assert (forall d', others (write_doc id (Some g) d1) d' -> synced d' /\ keeps_right (e_db s) d') as Hw.
  { intros d' Ho. destruct (written_agrees None id _ _ d1 d' Hs Hi ltac:(by intros ? [=]) Ha H1 Ho) as [Hs' _]. split; [done|].
    assert (synced (write_doc id (Some g) d1)) as Hs2.
    { apply (written_agrees None id _ _ d1 _ Hs Hi ltac:(by intros ? [=]) Ha H1). apply rtc_refl. }
    intros g' Hg'. apply (others_right _ _ Hs2 Ho). by apply K1. }
  destruct (GoodsSearch.Update S (Some g) s) as [[u|err|p] s']; cbn in *; [by apply Hw| |done].
  destruct H2 as [H2|H2]; [|by apply Hw]. destruct (others_keep None _ _ Hs1 ltac:(by intros ? [=]) H2) as [Hs2 _].
  split; [done|]. intros g' Hg'. apply (others_right _ _ Hs1 H2). by apply K1.
Qed.

Lemma live_row d g : catalog_wf d -> g ∈ goods_rows d -> goods.alive g = true -> live d (GoodsDO.ID g) = Some g.
Proof.
  intros [Hn _ _ _]. unfold live. induction (goods_rows d) as [|r l IH]; [by intros ?%elem_of_nil|].
  rewrite fmap_cons, NoDup_cons in Hn. destruct Hn as [Hni Hn]. intros Hin Ha. simpl. destruct (goods.by_id (GoodsDO.ID g) r) eqn:Hr.
  - apply by_id_ID in Hr as [Hr _]. apply elem_of_cons in Hin as [->|Hin]; [done|].
    exfalso. apply Hni. rewrite Hr. by apply list_elem_of_fmap_2.
  - apply elem_of_cons in Hin as [<-|Hin]; [|by apply IH]. unfold goods.by_id in Hr. by rewrite Ha, Z.eqb_refl in Hr.
Qed.
Lemma row_right d g : synced d -> g ∈ goods_rows d -> goods.alive g = true -> right_for d (goodsService.goodsSearchFromDTO g).
Proof.
  intros [W _ _] Hin Ha. split.
  - pose proof (gw_int _ W) as Hi. rewrite Forall_forall in Hi. apply Hi. by apply (list_elem_of_fmap_2 GoodsDO.ID).
  - left. unfold doc. cbn [goodsService.goodsSearchFromDTO GoodsSearchDO.ID]. by rewrite (live_row d g W Hin Ha).
Qed.

Lemma with_refs_Ret l s items s' : goods.with_refs l s = (Ret items, s') -> goods_row <$> items = l.
Proof.
  unfold goods.with_refs. intros (bs & s1 & _ & H)%bind_Ret. apply bind_Ret in H as (cs & s2 & _ & H).
  unfold ret in H. injection H as <- _. rewrite <- list_fmap_compose. apply list_fmap_id.
Qed.
Lemma goods_List_Ret `{!sql_order_laws O} cols opts s r s' :
  goods.List cols opts s = (Ret r, s') ->
  e_db s' = e_db s /\
  goods_row <$> r.1 = page (if 0 <? Page opts then wrap64 ((Page opts - 1) * (if PageSize opts <=? 0 then 10 else PageSize opts)) else 0)
    (if PageSize opts <=? 0 then 10 else PageSize opts)
    (order_goods (applyOrderBy goodsOrderColumns cols) (List.filter goods.alive (goods_rows (e_db s)))).
Proof.
  intros H. pose proof (readonly_Ret _ _ _ _ (steps_goods_List eq cols opts) H) as E. split; [exact E|].
  unfold goods.List in H. apply bind_Ret in H as (total & s1 & [_ E1]%dberr_Ret%count_where_Ret & H).
  apply bind_Ret in H as (items & s2 & H1%dberr_Ret & H). unfold ret in H. injection H as <- _.
  apply bind_Ret in H1 as (found & s3 & [-> _]%query_Ret & H1%with_refs_Ret). cbn [fst]. by rewrite H1, E1.
Qed.
Lemma goods_List_rows `{!sql_order_laws O} cols opts s r s' : goods.List cols opts s = (Ret r, s') ->
  Forall (fun i => goods_row i ∈ goods_rows (e_db s) /\ goods.alive (goods_row i) = true) r.1.
Proof.
  intros [_ H]%goods_List_Ret. apply Forall_forall. intros i Hi. apply (list_elem_of_fmap_2 goods_row) in Hi.
  rewrite H in Hi. apply page_elem in Hi. rewrite order_goods_perm in Hi. apply list_elem_of_In, filter_In in Hi as [Hin Ha].
  split; [by apply list_elem_of_In|exact Ha].
Qed.

Lemma reindex_items {A} (row : A -> GoodsDO.t) items s :
  Forall (fun i => right_for (e_db s) (goodsService.goodsSearchFromDTO (row i))) items ->
  reindexes (e_db s) (e_db (map_each items (fun i => recovery.reindex_one S (row i)) s).2).
Proof.
  revert s. induction items as [|i items IH]; intros s Hl Hs; [split; [exact Hs|by intros g]|].
  apply Forall_cons in Hl as [Hi Hl]. destruct (update_reindexes _ s Hi Hs) as [Hs1 K1].
  cbn [map_each]. unfold recovery.reindex_one at 1 3, bind at 1 2 4 5.
  destruct (GoodsSearch.Update S _ s) as [[u|err|p] s1]; cbn in Hs1, K1 |- *; [|by split..].
  destruct (IH s1 ltac:(eapply Forall_impl; [exact Hl|intros j Hj; by apply K1]) Hs1) as [Hs2 K2]. unfold bind.
  destruct (map_each items _ s1) as [[ys|err|p] s2]; (split; [exact Hs2|]); intros g Hg; by apply K2, K1.
Qed.

Lemma pages_reindex `{!sql_order_laws O} fuel page : steps reindexes (recovery.reindex_pages S fuel page).
Proof.
  revert page. induction fuel as [|fuel IH]; intros page; [apply steps_panic; exact _|]. cbn [recovery.reindex_pages].
  intros s. unfold bind at 1. pose proof (steps_goods_List reindexes ["id asc"] (MkListMeta page 100) s) as H0.
  destruct (goods.List _ _ s) as [[r|err|p] s1] eqn:El; cbn in H0; [|exact H0..]. clear H0.
  pose proof (goods_List_rows _ _ _ _ _ El) as Hrows. apply goods_List_Ret in El as [E _]. rewrite <- E in Hrows |- *. clear E.
  destruct (r.1) as [|i items]; [reflexivity|]. set (items' := i :: items) in *. clearbody items'. intros Hs.
  assert (Forall (fun i => right_for (e_db s1) (goodsService.goodsSearchFromDTO (goods_row i))) items') as Hr.
  { eapply Forall_impl; [exact Hrows|]. intros j [Hin Ha]. by apply row_right. }
  pose proof (reindex_items goods_row items' s1 Hr) as H1. revert Hs. apply reindexes_unfold. unfold bind at 1.
  destruct (map_each items' _ s1) as [[ys|err|p] s2]; [|exact H1..]. etrans; [exact H1|].
  apply (steps_bind reindexes); [apply IH|]. intros more. apply steps_ret. exact _.
Qed.
Lemma reindex_keeps `{!sql_order_laws O} fuel req : steps reindexes (goodsServer.ReindexGoods S fuel req).
Proof.
  unfold goodsServer.ReindexGoods, goodsServer.with_request. destruct req as [[ids all]|]; [|apply steps_fail; exact _].
  steps_step; [|apply steps_ret; exact _]. unfold recovery.Reindex. destruct all; [apply pages_reindex|].
  destruct (goods.normalizeIDs _) as [|id ids']; [apply steps_fail; exact _|]. apply steps_map_each; [exact _|].
  intros n s. unfold bind at 1. pose proof (steps_goods_Get reindexes n s) as H0.
  destruct (goods.Get n s) as [[i|err|p] s1] eqn:Eg; cbn in H0; [|exact H0..]. apply goods_Get_Ret in Eg as [Hf E].
  intros Hs. assert (right_for (e_db s1) (goodsService.goodsSearchFromDTO (goods_row i))) as Hr.
  { rewrite E. apply live_in in Hf as Hf'. destruct Hf' as [Hin _]. apply find_some in Hf as [_ Hb]. apply by_id_ID in Hb as [_ Ha].
    by apply row_right. }
  rewrite <- E in Hs |- *. unfold recovery.reindex_one. pose proof (update_reindexes _ s1 Hr Hs) as H1. unfold bind, ret.
  by destruct (GoodsSearch.Update S _ s1) as [[u|err|p] s2].
Qed.
End Worker.
