(* ===== verification/GoodsSweeps.v ===== *)
(** * Sweeps of the goods outbox on a quiet service

    The worker alone, with a database that refuses nothing: what one sweep does to the
    events, and the measure every late enough sweep lowers. *)
From S2P Require Import Prelude GoStrings Errors GoMonad Tables GoodsModel GoodsStore GoodsSearch GoodsService GoodsServer GoodsCalls GoodsSync.
Import OutboxEventDO.
Open Scope go_scope.

(** ** The measure: the attempts an event can still take *)
Definition open_status (e : t) : bool := seqb (Status e) OutboxStatusPending || seqb (Status e) OutboxStatusProcessing.
Definition attempts_left (e : t) : nat :=
  if open_status e then Z.to_nat (Z.max 1 (MaxRetryCount e - RetryCount e)) else 0.
Definition total_left (l : list t) : nat := sum_list_with attempts_left l.
(** The counters stay in the column's width. *)
Definition counted (e : t) : Prop := open_status e = true -> is_int32 (RetryCount e + 1) /\ is_int32 (MaxRetryCount e).
(** A time at which every open event is the worker's: its delay is over, or the claim
    of the worker that left it is. *)
Definition late (now : Z) (d : goods_db) : Prop :=
  0 <= worker.Unix now /\
  forall e, e ∈ outbox_rows d ->
    (Status e = OutboxStatusPending -> NextAttemptAt e <= worker.Unix now) /\
    (Status e = OutboxStatusProcessing -> 0 < ClaimedAt e <= worker.Unix (now - worker.outboxClaimTimeout)).

Definition set_events (l : list t) (d : goods_db) : goods_db := set_rows t_outbox l d.
Definition same_goods (d d' : goods_db) : Prop := goods_rows d' = goods_rows d.

(** *** The states an event is in *)
Definition known_status (e : t) : Prop :=
  Status e ∈ [OutboxStatusPending; OutboxStatusProcessing; OutboxStatusDone; OutboxStatusDead].
Definition known_statuses (d : goods_db) : Prop := Forall known_status (outbox_rows d).
Definition keeps_statuses (d d' : goods_db) : Prop := known_statuses d -> known_statuses d'.
#[export] Instance keeps_statuses_pre : PreOrder keeps_statuses.
Proof. split; [by intros d H|]. intros a b c H1 H2 H. by apply H2, H1. Qed.
Lemma map_statuses d d' (p : t -> bool) (f : t -> t) :
  outbox_rows d' = (fun e => if p e then f e else e) <$> outbox_rows d -> (forall e, known_status (f e)) -> keeps_statuses d d'.
Proof.
  intros E Hf H. unfold known_statuses in *. rewrite E, Forall_fmap. eapply Forall_impl; [exact H|]. intros e He. cbn. by destruct (p e).
Qed.
Lemma table_steps_statuses d d' : table_steps d d' -> keeps_statuses d d'.
Proof.
  induction 1 as [d|d d1 d2 Hs _ IH]; [done|]. etrans; [|exact IH].
  assert (forall e n d', outbox_rows d' = outbox_rows d ++ [set_ID n e] -> Status e = OutboxStatusPending -> keeps_statuses d d') as Hnew.
  { intros e n d' E He H. unfold known_statuses in *. rewrite E. apply Forall_app. split; [done|]. constructor; [|done].
    unfold known_status. cbn. rewrite He. left. }
  destruct Hs as [d' _ Eo|d' ? ? ? _ _ _ _ Eo|d' ? ? ? _ _ Eo|d' ? ? ? _ _ _ Eo|d' p f _ Eo Hf _].
  2-4: by eapply Hnew.
  - unfold keeps_statuses, known_statuses. by rewrite Eo.
  - apply (map_statuses d d' p f Eo). intros e. unfold known_status. destruct (Hf e) as [_ ->]. left.
Qed.
Lemma steps_statuses p f : (forall e, known_status (f e)) -> steps keeps_statuses (update_where t_outbox p f).
Proof. intros Hf. apply steps_stmt; [exact _|]. intros d. by eapply map_statuses. Qed.
Ltac known := intros []; unfold known_status; cbn; set_solver.
Section Statuses.
Context `{O : sql_order} (S : searchGoodsStore) `{L : !search_laws S others}.

Lemma others_statuses d d' : others d d' -> keeps_statuses d d'.
Proof. intros H%others_steps. by apply table_steps_statuses. Qed.
Lemma wrote_statuses w s r : wrote others w s r -> (forall d, outbox_rows (w d) = outbox_rows d) ->
  keeps_statuses (e_db s) (e_db r.2).
Proof.
  intros (d & H1%others_statuses & H2) Hw. assert (keeps_statuses d (w d)) as H3 by (unfold keeps_statuses, known_statuses; by rewrite Hw).
  etrans; [exact H1|]. destruct r.1; [|destruct H2 as [H2|H2]|done].
  - etrans; [exact H3|by apply others_statuses].
  - by apply others_statuses.
  - etrans; [exact H3|by apply others_statuses].
Qed.
Lemma update_statuses g : steps keeps_statuses (GoodsSearch.Update S (Some g)).
Proof.
  intros s. destruct (Z.le_gt_cases (GoodsSearchDO.ID g) 0) as [Hle|Hpos].
  - by destruct (update_invalid g s Hle) as [e ->].
  - eapply wrote_statuses; [apply update_law; lia|done].
Qed.
Lemma apply_statuses e payload : steps keeps_statuses (worker.apply_event S (Some worker.resolve_goods) e payload).
Proof.
  unfold worker.apply_event. destruct (seqb _ OutboxActionUpsert); [destruct (_ && _); [apply steps_fail; exact _|]|destruct (seqb _ _); [destruct (Z.eqb_spec (PayloadID payload) 0)|]].
  - intros s. unfold worker.resolve_goods, bind at 1 2 3. pose proof (steps_goods_Get eq (wrapu64 (AggregateID e)) s) as E.
    destruct (goods.Get _ s) as [[i|err|p] s1]; cbn in E |- *; rewrite E; [apply update_statuses|done|done].
  - apply steps_fail. exact _.
  - intros s. eapply wrote_statuses; [by apply delete_law|done].
  - apply steps_fail. exact _.
Qed.
Lemma mark_statuses id f : (forall e, known_status (f e)) -> steps keeps_statuses (outbox.updateStatus id f).
Proof. intros Hf. unfold outbox.updateStatus. repeat (steps_step || apply steps_goods_dberr). by apply steps_statuses. Qed.
Lemma process_statuses now e : steps keeps_statuses (worker.processGoodsOutboxEvent S (Some worker.resolve_goods) now e).
Proof.
  unfold worker.processGoodsOutboxEvent. cbv zeta. destruct (Payload e); [|apply mark_statuses; known].
  steps_step; [apply steps_attempt, apply_statuses|]. destruct a; [apply mark_statuses; known|].
  destruct (MaxRetryCount e <=? _); apply mark_statuses; known.
Qed.
Lemma sweep_statuses now clock : steps keeps_statuses (worker.runGoodsOutboxSweep S now clock).
Proof.
  unfold worker.runGoodsOutboxSweep, worker.processGoodsOutboxOnce, outbox.RequeueStale, outbox.ClaimPending.
  repeat (steps_step || apply steps_goods_dberr || (apply steps_observe; exact _) || apply process_statuses || (apply steps_statuses; known)).
Qed.
Lemma reindex_statuses fuel req : steps keeps_statuses (goodsServer.ReindexGoods S fuel req).
Proof.
  unfold goodsServer.ReindexGoods. goods_go. unfold recovery.Reindex.
  assert (forall g, steps keeps_statuses (recovery.reindex_one S g)) as H1.
  { intros g. unfold recovery.reindex_one. goods_go. apply update_statuses. }
  assert (forall fuel n, steps keeps_statuses (recovery.reindex_pages S fuel n)) as H2.
  { intros m. induction m as [|m IH]; intros n; [apply steps_panic; exact _|]. cbn [recovery.reindex_pages].
    goods_go; first [apply steps_goods_List; exact _|apply H1|apply IH]. }
  goods_go; first [apply H2|apply H1|apply steps_goods_Get; exact _].
Qed.
End Statuses.

(** ** One event *)

(** What processing an event may make of its row. *)
Inductive verdict (e : t) : (t -> t) -> Prop :=
  | v_done : verdict e outbox.done_
  | v_dead rc msg : verdict e (outbox.dead rc msg)
  | v_retry n msg : RetryCount e + 1 < MaxRetryCount e -> verdict e (outbox.retried (RetryCount e + 1) n msg).

Lemma goods_Get_quiet id d :
  exists r, goods.Get id (Env d []) = (r, Env d []) /\
  match r with
  | Ret i => live d id = Some (goods_row i)
  | Fail _ => id = 0 \/ live d id = None
  | Panic _ => False
  end.
Proof.
  unfold goods.Get, goods_dberr, fail_if, bind, wrap_err, fail, ret. destruct (Z.eqb_spec id 0); [eexists; split; [done|by left]|].
  unfold select_first, query, stmt. cbn [next_fault e_faults e_db rows t_goods fst snd].
  fold (live d id). unfold goods.with_refs, preload_brands, preload_categories, bind, select_where, query, stmt, ret.
  destruct (live d id) as [g|]; cbn; [|eexists; split; [done|by right]].
  destruct (negb (GoodsDO.BrandsID g =? 0)), (negb (GoodsDO.CategoryID g =? 0)); cbn; (eexists; split; [done|done]).
Qed.

(** A search store nobody else's calls interleave with, and one that also takes every
    write. *)
Class quiet_store (S : searchGoodsStore) := {
  quiet_laws : search_laws S eq;
  quiet_update : forall g d, e_faults (GoodsSearch.Update S (Some g) (Env d [])).2 = [];
  quiet_delete : forall id d, e_faults (GoodsSearch.Delete S id (Env d [])).2 = []
}.
#[export] Existing Instance quiet_laws.
Class accepting (S : searchGoodsStore) : Prop := {
  accepts_update : forall g d, 0 < GoodsSearchDO.ID g -> is_ret (GoodsSearch.Update S (Some g) (Env d [])).1 = true;
  accepts_delete : forall id d, id <> 0 -> is_ret (GoodsSearch.Delete S id (Env d [])).1 = true
}.

Definition index_only (d d' : goods_db) : Prop := exists i, d' = set_index i d.
Lemma index_only_refl d : index_only d d.
Proof. exists (search_index d). by destruct d. Qed.
Lemma wrote_quiet w d r : wrote eq w (Env d []) r -> (forall d, index_only d (w d)) -> e_faults r.2 = [] ->
  exists o d', r = (o, Env d' []) /\ index_only d d' /\ match o with Panic _ => False | _ => True end.
Proof.
  intros (d1 & Hd1 & H) Hw Hf. cbn in Hd1. subst d1. destruct r as [o [d' f]]. cbn in *. subst f. exists o, d'. split; [done|].
  destruct o as [u|err|p]; [|destruct H as [H|H]|done]; (split; [|done]); rewrite <- H; first [apply Hw | apply index_only_refl].
Qed.

Section Quiet.
Context (S : searchGoodsStore) `{Q : !quiet_store S}.

Lemma update_quiet g d : exists o d',
  GoodsSearch.Update S (Some g) (Env d []) = (o, Env d' []) /\ index_only d d' /\ match o with Panic _ => False | _ => True end.
Proof.
  destruct (Z.le_gt_cases (GoodsSearchDO.ID g) 0) as [Hle|Hpos].
  - destruct (update_invalid g (Env d []) Hle) as [e E]. exists (Fail e), d. split_and!; [exact E|apply index_only_refl|done].
  - eapply wrote_quiet; [apply update_law; lia|by eexists|apply quiet_update].
Qed.
Lemma delete_quiet id d : id <> 0 -> exists o d',
  GoodsSearch.Delete S id (Env d []) = (o, Env d' []) /\ index_only d d' /\ match o with Panic _ => False | _ => True end.
Proof. intros Hid. eapply wrote_quiet; [by apply delete_law|by eexists|apply quiet_delete]. Qed.

Definition applies (e : t) (payload : goodsOutboxPayload) : M goods_db unit :=
  worker.apply_event S (Some worker.resolve_goods) e payload.
Lemma apply_quiet e payload d : exists o d',
  applies e payload (Env d []) = (o, Env d' []) /\ index_only d d' /\ match o with Panic _ => False | _ => True end.
Proof.
  unfold applies, worker.apply_event.
  assert (forall err : goerr, exists o d', @fail goods_db unit err (Env d []) = (o, Env d' []) /\ index_only d d' /\
    match o with Panic _ => False | _ => True end) as Hfail.
  { intros err. exists (Fail err), d. split_and!; [done|apply index_only_refl|done]. }
  destruct (seqb _ OutboxActionUpsert).
  - destruct (_ && _); [apply Hfail|]. unfold worker.resolve_goods, bind at 1 2 3.
    destruct (goods_Get_quiet (wrapu64 (AggregateID e)) d) as (r & -> & Hr). destruct r as [i|err|p]; [|apply Hfail|done].
    apply update_quiet.
  - destruct (seqb _ OutboxActionDelete); [|apply Hfail]. destruct (Z.eqb_spec (PayloadID payload) 0); [apply Hfail|]. by apply delete_quiet.
Qed.
(** What an event asks for, when the goods are as it says, is done. *)
Lemma apply_accepted `{!accepting S} e payload d : synced d -> has_event d e -> Payload e = Json payload ->
  0 < AggregateID e -> Action e = wanted d (AggregateID e) -> is_ret (applies e payload (Env d [])).1 = true.
Proof.
  intros Hs He Hp Hpos Ha. destruct (event_facts _ _ Hs He) as (Hi & _ & _ & Hask).
  assert (wrapu64 (AggregateID e) = AggregateID e) as Hw by (apply wrapu64_id; unfold_int; lia).
  unfold applies, worker.apply_event, wanted in *. destruct Hask as [(Eu & g & pid & Eg & Eid)|(Eu & Eg & Ep & Hl)]; rewrite Eg in Hp; injection Hp as <-.
  - cbn [PayloadAction PayloadGoods]. change (seqb OutboxActionUpsert OutboxActionUpsert) with true. cbv iota.
    rewrite (proj2 (Z.leb_gt _ _) Hpos). cbn [andb]. rewrite Hw. unfold worker.resolve_goods, bind at 1 2 3.
    destruct (goods_Get_quiet (AggregateID e) d) as (r & -> & Hr). destruct (live d (AggregateID e)) as [g0|] eqn:Hl; [|by rewrite Eu in Ha].
    destruct r as [i|err|p]; [|destruct Hr as [Hr|Hr]; [lia|done]|done]. injection Hr as ->.
    apply accepts_update. apply live_in in Hl as [_ Hl]. cbn. lia.
  - cbn [PayloadAction PayloadID]. change (seqb OutboxActionDelete OutboxActionUpsert) with false.
    change (seqb OutboxActionDelete OutboxActionDelete) with true. cbv iota. rewrite (proj2 (Z.eqb_neq _ _)) by lia.
    apply accepts_delete. lia.
Qed.

Definition marked (id : Z) (f : t -> t) (l : list t) : list t := (fun r => if outbox.has_id id r then f r else r) <$> l.
Lemma mark_quiet id f d : 0 < id ->
  outbox.updateStatus id f (Env d []) = (Ret tt, Env (set_events (marked id f (outbox_rows d)) d) []).
Proof. intros Hid. unfold outbox.updateStatus, fail_if. by rewrite (proj2 (Z.leb_gt _ _)) by lia. Qed.
Lemma process_quiet now e d : 0 < ID e -> is_int32 (RetryCount e + 1) ->
  exists f d', worker.processGoodsOutboxEvent S (Some worker.resolve_goods) now e (Env d []) = (Ret tt, Env d' []) /\
    same_goods d d' /\ outbox_rows d' = marked (ID e) f (outbox_rows d) /\ verdict e f /\
    (forall payload, Payload e = Json payload -> is_ret (applies e payload (Env d [])).1 = true -> f = outbox.done_).
Proof.
  intros Hid Hrc. unfold worker.processGoodsOutboxEvent. cbv zeta. rewrite wrap32_id by done.
  destruct (Payload e) as [payload|err].
  2: { eexists _, _. split; [by apply mark_quiet|]. split_and!; [done..|apply v_dead|done]. }
  destruct (apply_quiet e payload d) as (o & d1 & E & [i ->] & Ho). unfold applies in *.
  destruct o as [u|err|p]; [|cbv zeta|done].
  - rewrite (bind_run _ _ _ _ _ (attempt_run _ _ _ _ E)). cbv beta iota.
    eexists _, _. split; [by apply mark_quiet|]. split_and!; [done..|apply v_done|done].
  - rewrite (bind_run _ _ _ _ _ (attempt_Fail _ _ _ _ E)). cbv beta iota.
    destruct (Z.leb_spec (MaxRetryCount e) (RetryCount e + 1)) as [Hm|Hm];
      (eexists _, _; split; [by apply mark_quiet|]; split_and!; [done..| |intros p [= <-]; by rewrite E]).
    + apply v_dead.
    + by apply v_retry.
Qed.
End Quiet.

(** ** The events of a sweep *)
Lemma wrote_mono (R R' : goods_db -> goods_db -> Prop) w s r : (forall d d', R d d' -> R' d d') -> wrote R w s r -> wrote R' w s r.
Proof. intros H (d & H1 & H2). exists d. split; [by apply H|]. destruct r.1; [by apply H|destruct H2; [left|right]; by apply H|done]. Qed.
#[export] Instance quiet_others `{sql_order} S `{!search_laws S eq} : search_laws S others.
Proof.
  assert (forall d d', d = d' -> others d d') as He by (intros d d' <-; apply rtc_refl). split.
  - intros g s Hg. eapply wrote_mono; [exact He|by apply update_law].
  - intros g s Hg. by apply update_invalid.
  - intros id s Hid. eapply wrote_mono; [exact He|by apply delete_law].
Qed.

Lemma total_lower (h : t -> t) l :
  (forall r, r ∈ l -> (attempts_left (h r) <= attempts_left r)%nat) -> (total_left (h <$> l) <= total_left l)%nat.
Proof.
  unfold total_left. induction l as [|r l IH]; intros Hh; [done|]. rewrite fmap_cons. simpl.
  pose proof (Hh r ltac:(by left)). specialize (IH ltac:(intros ? ?; apply Hh; by right)). lia.
Qed.
Lemma total_lower_strict (h : t -> t) l r0 :
  (forall r, r ∈ l -> (attempts_left (h r) <= attempts_left r)%nat) -> r0 ∈ l -> (attempts_left (h r0) < attempts_left r0)%nat ->
  (total_left (h <$> l) < total_left l)%nat.
Proof.
  intros Hh (l1 & l2 & ->)%list_elem_of_split Hr0.
  pose proof (total_lower h l1 ltac:(intros ? ?; apply Hh, elem_of_app; by left)).
  pose proof (total_lower h l2 ltac:(intros ? ?; apply Hh, elem_of_app; right; by right)).
  unfold total_left in *. rewrite fmap_app, fmap_cons, !sum_list_with_app. simpl. lia.
Qed.

Lemma total_open l : total_left l <> 0%nat -> exists r, r ∈ l /\ open_status r = true.
Proof.
  unfold total_left. induction l as [|r l IH]; [done|]. simpl. destruct (open_status r) eqn:Ho; [intros _; exists r; split; [by left|done]|].
  unfold attempts_left at 1. rewrite Ho. intros (r' & Hr & H)%IH. exists r'. split; [by right|done].
Qed.

(** A copy of an event that is still what the table holds. *)
Definition held (d : goods_db) (e : t) : Prop :=
  exists r, r ∈ outbox_rows d /\ same_event r e /\ open_status r = true /\ RetryCount r = RetryCount e /\
    MaxRetryCount r = MaxRetryCount e.
Lemma held_has d e : held d e -> has_event d e.
Proof. intros (r & Hr & Hs & _). by exists r. Qed.
Lemma verdict_same e f r : verdict e f -> same_event r (f r) /\ MaxRetryCount (f r) = MaxRetryCount r.
Proof. by intros [|rc msg|n msg]. Qed.
Lemma verdict_lower e f r : verdict e f -> open_status r = true -> RetryCount r = RetryCount e ->
  MaxRetryCount r = MaxRetryCount e -> (attempts_left (f r) < attempts_left r)%nat.
Proof.
  intros Hv Ho Hr Hm. unfold attempts_left. rewrite Ho. destruct Hv as [|rc msg|n msg Hlt].
  - change (open_status (outbox.done_ r)) with false. cbv iota. lia.
  - change (open_status (outbox.dead rc msg r)) with false. cbv iota. lia.
  - change (open_status (outbox.retried (RetryCount e + 1) n msg r)) with true. cbv iota.
    cbn [outbox.retried set_state RetryCount MaxRetryCount]. lia.
Qed.
Lemma verdict_counted e f r : verdict e f -> counted r -> open_status r = true -> RetryCount r = RetryCount e ->
  MaxRetryCount r = MaxRetryCount e -> counted (f r).
Proof.
  intros Hv Hc Ho Hr Hm. destruct (Hc Ho) as [H1 H2]. rewrite Hr in H1. rewrite Hm in H2.
  destruct Hv as [|rc msg|n msg Hlt]; intros Ho'; [done..|]. cbn. rewrite Hm. unfold_int. lia.
Qed.

(** The row a verdict is passed on is the one that was held. *)
Lemma held_row d e r : catalog_wf d -> held d e -> r ∈ outbox_rows d -> outbox.has_id (ID e) r = true ->
  same_event r e /\ open_status r = true /\ RetryCount r = RetryCount e /\ MaxRetryCount r = MaxRetryCount e.
Proof.
  intros W (r0 & Hr0 & Hs & H) Hr Hi. assert (r = r0) as ->; [|done].
  apply (event_unique d); [done..|]. unfold outbox.has_id in Hi. destruct Hs as [E _]. blia.
Qed.
Lemma marked_ids id f l : (forall r, ID (f r) = ID r) -> ID <$> marked id f l = ID <$> l.
Proof. intros Hf. unfold marked. rewrite <- list_fmap_compose. apply list_fmap_ext. intros i r _. cbn. by case_match. Qed.
Lemma marked_elem id f l r : r ∈ marked id f l -> exists r0, r0 ∈ l /\ r = if outbox.has_id id r0 then f r0 else r0.
Proof. intros (r0 & -> & H)%list_elem_of_fmap. by exists r0. Qed.

(** No dead event asks for what the goods are. *)
Definition dead_unwanted (d : goods_db) : Prop :=
  forall e, e ∈ outbox_rows d -> Status e = OutboxStatusDead -> Action e <> wanted d (AggregateID e).
Definition ids_positive (d : goods_db) : Prop := Forall (Z.lt 0) (GoodsDO.ID <$> goods_rows d).
Definition all_counted (d : goods_db) : Prop := Forall counted (outbox_rows d).
Lemma wanted_same d d' id : same_goods d d' -> wanted d' id = wanted d id.
Proof. unfold same_goods, wanted, live. by intros ->. Qed.

Section Sweeps.
Context `{O : sql_order} (S : searchGoodsStore) `{Q : !quiet_store S}.

Definition swept (d d' : goods_db) : Prop :=
  synced d' /\ same_goods d d' /\ all_counted d' /\
  (accepting S -> ids_positive d -> dead_unwanted d -> dead_unwanted d').
Lemma event_quiet now e d : synced d -> all_counted d -> held d e ->
  exists d', worker.processGoodsOutboxEvent S (Some worker.resolve_goods) now e (Env d []) = (Ret tt, Env d' []) /\
    swept d d' /\ (total_left (outbox_rows d') < total_left (outbox_rows d))%nat /\
    (forall e', held d e' -> ID e' <> ID e -> held d' e').
Proof.
  intros Hs Hc Hh. pose proof (held_has _ _ Hh) as He. destruct (event_facts _ _ Hs He) as (_ & Hid & _ & Hask).
  destruct Hh as (r0 & Hr0 & Hse & Ho0 & Hrc0 & Hm0). unfold all_counted in Hc. rewrite Forall_forall in Hc.
  destruct (Hc r0 Hr0 Ho0) as [Hw _]. rewrite Hrc0 in Hw.
  assert (held d e) as Hh by (by exists r0).
  destruct (process_quiet S now e d Hid Hw) as (f & d' & E & Hg & Eo & Hv & Hf). exists d'. split; [exact E|].
  pose proof (process_follows S e now (Env d []) He Hs) as [Hs' Hk]. rewrite E in Hs', Hk. cbn in Hs', Hk.
  pose proof (fun r => held_row d e r (sy_wf _ _ Hs) Hh) as Hrow.
  assert (forall r, outbox.has_id (ID e) r = false -> ID r <> ID e) as Hoff by (intros r Hr; unfold outbox.has_id in Hr; blia).
  split; [split_and!; [done..| |]|split].
  - unfold all_counted. rewrite Eo. apply Forall_forall. intros r (r1 & Hr1 & ->)%marked_elem.
    destruct (outbox.has_id (ID e) r1) eqn:Hi; [|by apply Hc]. destruct (Hrow r1 Hr1 Hi) as (_ & ? & ? & ?).
    eapply verdict_counted; [exact Hv|by apply Hc|done..].
  - intros Ha Hp Hd r Hr Hst. rewrite (wanted_same d d') by done. rewrite Eo in Hr. apply marked_elem in Hr as (r1 & Hr1 & ->).
    destruct (outbox.has_id (ID e) r1) eqn:Hi; [|by apply Hd]. destruct (Hrow r1 Hr1 Hi) as (Hse1 & _).
    destruct (verdict_same e f r1 Hv) as [(_ & _ & E3 & E4 & _) _]. rewrite E3, E4.
    destruct Hse1 as (_ & _ & F3 & F4 & F5). rewrite <- F3, <- F4. intros Hwant.
    assert (0 < AggregateID e) as Hpos.
    { destruct Hse as (_ & _ & G3 & _). rewrite G3. destruct (gw_wf _ (sy_wf _ _ Hs) r0 Hr0) as (_ & _ & Hin & _).
      unfold ids_positive in Hp. rewrite Forall_forall in Hp. by apply Hp. }
    assert (exists payload, Payload e = Json payload) as [payload Hpay].
    { destruct Hask as [(_ & g & pid & -> & _)|(_ & -> & _)]; by eexists. }
    rewrite (Hf payload Hpay) in Hst; [done|]. by apply apply_accepted.
  - rewrite Eo. apply (total_lower_strict _ _ r0); [|done|].
    + intros r Hr. destruct (outbox.has_id (ID e) r) eqn:Hi; [|done]. destruct (Hrow r Hr Hi) as (_ & ? & ? & ?).
      apply Nat.lt_le_incl. by apply (verdict_lower e).
    + assert (outbox.has_id (ID e) r0 = true) as -> by (unfold outbox.has_id; destruct Hse as [E0 _]; blia). by apply (verdict_lower e).
  - intros e' (r & Hr & Hse' & H) Hne. exists r. split; [|done]. rewrite Eo. apply list_elem_of_fmap. exists r. split; [|done].
    destruct (outbox.has_id (ID e) r) eqn:Hi; [|done]. exfalso. apply Hne. destruct Hse' as [E0 _]. unfold outbox.has_id in Hi. blia.
Qed.

#[export] Instance swept_trans : Transitive swept.
Proof.
  intros a b c (_ & G1 & _ & D1) (S2 & G2 & C2 & D2). split_and!; [done|by etrans|done|]. intros Ha Hp Hd. apply D2; [done| |by apply D1].
  unfold ids_positive. by rewrite G1.
Qed.
Lemma events_quiet clock l d : synced d -> all_counted d -> Forall (held d) l -> NoDup (ID <$> l) ->
  exists d', for_each l (fun e => worker.processGoodsOutboxEvent S (Some worker.resolve_goods) (clock e) e) (Env d []) =
    (Ret tt, Env d' []) /\ swept d d' /\ (total_left (outbox_rows d') + length l <= total_left (outbox_rows d))%nat.
Proof.
  revert d. induction l as [|e l IH]; intros d Hs Hc Hl Hn.
  - exists d. split; [done|]. split; [done|]. cbn. lia.
  - apply Forall_cons in Hl as [He Hl]. cbn in Hn. apply NoDup_cons in Hn as [Hni Hn].
    destruct (event_quiet (clock e) e d Hs Hc He) as (d1 & E1 & Hw1 & Ht1 & Hh1). pose proof Hw1 as (Hs1 & _ & Hc1 & _).
    destruct (IH d1) as (d2 & E2 & Hw2 & Ht2); [done..| |done|].
    { apply Forall_forall. intros e' He'. rewrite Forall_forall in Hl. apply Hh1; [by apply Hl|]. intros Hid. apply Hni.
      rewrite <- Hid. by apply list_elem_of_fmap_2. }
    exists d2. split; [|split; [by etrans|cbn; lia]]. cbn [for_each]. by rewrite (bind_run _ _ _ _ _ E1).
Qed.

(** Requeueing and claiming move events between the open states. *)
Lemma moved_swept (p : t -> bool) (f : t -> t) d : synced d -> all_counted d ->
  (forall r, same_event r (f r) /\ RetryCount (f r) = RetryCount r /\ MaxRetryCount (f r) = MaxRetryCount r) ->
  (forall r, p r = true -> open_status r = true /\ open_status (f r) = true) ->
  let d' := set_events ((fun r => if p r then f r else r) <$> outbox_rows d) d in
  swept d d' /\ total_left (outbox_rows d') = total_left (outbox_rows d).
Proof.
  intros Hs Hc Hf Hp d'. assert (forall r, open_status r = true -> Status r <> OutboxStatusDone /\ Status r <> OutboxStatusDead) as Hopen.
  { intros r Hr. split; intros E; unfold open_status in Hr; by rewrite E in Hr. }
  assert (forall r, attempts_left (if p r then f r else r) = attempts_left r) as Hleft.
  { intros r. destruct (p r) eqn:E; [|done]. destruct (Hp r E) as [H1 H2], (Hf r) as (_ & H3 & H4). unfold attempts_left. by rewrite H1, H2, H3, H4. }
  split; [split_and!|].
  - apply synced_map; [done|apply Hf|]. intros r Hr. left. apply Hopen. by apply Hp.
  - done.
  - unfold all_counted in *. cbn. rewrite Forall_fmap. eapply Forall_impl; [exact Hc|]. intros r Hr. cbn. destruct (p r) eqn:E; [|done].
    destruct (Hp r E) as [H1 H2], (Hf r) as (_ & H3 & H4). unfold counted. rewrite H3, H4. intros _. by apply Hr.
  - intros _ _ Hd r Hr Hst. rewrite (wanted_same d d') by done. cbn in Hr. apply list_elem_of_fmap in Hr as (r0 & -> & Hr0).
    destruct (p r0) eqn:E; [|by apply Hd]. by destruct (Hopen _ (proj2 (Hp r0 E))).
  - cbn. unfold total_left. induction (outbox_rows d) as [|r l IH]; [done|]. rewrite fmap_cons. simpl. by rewrite Hleft, IH.
Qed.

Lemma ClaimPending_quiet now d :
  let l := page 0 20 (List.filter (outbox.due OutboxTopicGoodsSync now) (outbox_rows d)) in
  outbox.ClaimPending OutboxTopicGoodsSync worker.outboxBatchSize now (Env d []) =
    (Ret l, Env (set_events ((fun e => if bool_decide (ID e ∈ ID <$> l) && seqb (Status e) OutboxStatusPending
                                      then outbox.claimed OutboxTopicGoodsSync now e else e) <$> outbox_rows d) d) []).
Proof.
  intros l. unfold outbox.ClaimPending. apply transaction_run.
  rewrite (bind_run _ _ _ l (Env d [])) by done. clearbody l. destruct l as [|e l].
  - unfold ret. cbn. rewrite list_fmap_id. by destruct d.
  - reflexivity.
Qed.

(** One sweep: it returns, and when it is late enough it lowers the measure. *)
Lemma sweep_quiet now clock d : synced d -> all_counted d -> exists d',
  worker.runGoodsOutboxSweep S now clock (Env d []) = (Ret tt, Env d' []) /\ swept d d' /\
  (total_left (outbox_rows d') <= total_left (outbox_rows d))%nat /\
  (late now d -> total_left (outbox_rows d) <> 0%nat -> (total_left (outbox_rows d') < total_left (outbox_rows d))%nat).
Proof.
  intros Hs Hc.
  destruct (moved_swept (outbox.stale OutboxTopicGoodsSync (worker.Unix (now - worker.outboxClaimTimeout))) outbox.requeued d Hs Hc)
    as [W1 T1]; [done| |].
  { intros r [[[_ Hr]%andb_true_iff _]%andb_true_iff _]%andb_true_iff. split; [|done]. unfold open_status. by rewrite Hr, orb_true_r. }
  set (d1 := set_events _ d) in *. pose proof W1 as (S1 & _ & C1 & _).
  set (l := page 0 20 (List.filter (outbox.due OutboxTopicGoodsSync (worker.Unix now)) (outbox_rows d1))).
  destruct (moved_swept (fun e => bool_decide (ID e ∈ ID <$> l) && seqb (Status e) OutboxStatusPending)
    (outbox.claimed OutboxTopicGoodsSync (worker.Unix now)) d1 S1 C1) as [W2 T2]; [done| |].
  { intros r [_ Hr]%andb_true_iff. split; [|done]. unfold open_status. by rewrite Hr. }
  set (d2 := set_events _ d1) in *. pose proof W2 as (S2 & _ & C2 & _).
  assert (forall e, e ∈ l -> e ∈ outbox_rows d1 /\ seqb (Status e) OutboxStatusPending = true) as Hl.
  { intros e [He Hd]%page_elem%list_elem_of_In%filter_In. apply andb_true_iff in Hd as [[_ Hd]%andb_true_iff _].
    split; [by apply list_elem_of_In|done]. }
  destruct (events_quiet clock l d2 S2 C2) as (d3 & E3 & W3 & T3).
  { apply Forall_forall. intros e He. destruct (Hl e He) as [Hin Hst]. exists (outbox.claimed OutboxTopicGoodsSync (worker.Unix now) e).
    split; [|done]. apply list_elem_of_fmap. exists e. split; [|done].
    by rewrite Hst, bool_decide_true by by apply list_elem_of_fmap_2. }
  { unfold l, page. cbn [Z.ltb Z.leb Z.compare]. rewrite fmap_take. eapply sublist_NoDup; [|apply sublist_take].
    apply NoDup_fmap_filter, (sy_wf _ _ S1). }
  exists d3. split_and!.
  - unfold worker.runGoodsOutboxSweep, worker.processGoodsOutboxOnce.
    rewrite (bind_run _ _ _ (inl tt) (Env d3 [])); [done|]. apply attempt_run.
    rewrite (bind_run _ _ _ (Z.of_nat (length (List.filter (outbox.stale OutboxTopicGoodsSync
      (worker.Unix (now - worker.outboxClaimTimeout))) (outbox_rows d)))) (Env d1 [])) by reflexivity.
    rewrite (bind_run _ _ _ tt (Env d1 [])) by reflexivity.
    by rewrite (bind_run _ _ _ _ _ (ClaimPending_quiet (worker.Unix now) d1)).
  - etrans; [exact W1|]. by etrans.
  - lia.
  - intros [Hnow Hlate] Hne. assert (length l <> 0%nat); [|lia].
    assert (exists r, r ∈ outbox_rows d1 /\ outbox.due OutboxTopicGoodsSync (worker.Unix now) r = true) as (r & Hr & Hdue).
    { apply total_open in Hne as (r0 & Hr0 & Ho). destruct (Hlate r0 Hr0) as [Hp Hq].
      destruct (gw_wf _ (sy_wf _ _ Hs) r0 Hr0) as (Htopic & _).
      exists (if outbox.stale OutboxTopicGoodsSync (worker.Unix (now - worker.outboxClaimTimeout)) r0 then outbox.requeued r0 else r0).
      split; [apply (list_elem_of_fmap_2 (fun r => if outbox.stale _ _ r then outbox.requeued r else r)), Hr0|].
      unfold outbox.stale. rewrite Htopic. apply orb_true_iff in Ho as [Ho|Ho]; apply bool_decide_eq_true in Ho; rewrite Ho.
      - change (seqb OutboxStatusPending OutboxStatusProcessing) with false. rewrite andb_false_r. unfold outbox.due. cbn [andb].
        rewrite Ho, Htopic. apply Z.leb_le. by apply Hp.
      - destruct (Hq Ho) as [Hc1%Z.ltb_lt Hc2%Z.leb_le]. rewrite Hc1, Hc2. change (seqb _ _ && seqb _ _) with true.
        unfold outbox.due.
        cbn [outbox.requeued set_state Topic Status NextAttemptAt andb]. rewrite Htopic. by apply Z.leb_le. }
    apply list_elem_of_In in Hr. assert (In r (List.filter (outbox.due OutboxTopicGoodsSync (worker.Unix now)) (outbox_rows d1))) as Hf
      by (by apply filter_In). unfold l, page. cbn [Z.ltb Z.leb Z.compare].
    destruct (List.filter _ (outbox_rows d1)); done.
Qed.
End Sweeps.
