(* ===== verification/GoodsProperties.v ===== *)
(** * What the goods service promises about its search index

    The service as a state machine: its handlers, the sweeps of the outbox worker and
    the reindexing of an operator, each under any faults of the database, with other
    handlers running while the last two wait for the search service. *)
From S2P Require Import Prelude GoStrings Errors GoMonad Tables GoodsModel GoodsStore GoodsSearch GoodsService GoodsServer GoodsCalls GoodsSync GoodsSweeps.
Import OutboxEventDO.
Open Scope go_scope.

Inductive gevent :=
  | GCall (c : hcall)
  | GSweep (now : Z) (clock : t -> Z)
  | GReindex (fuel : nat) (req : option (list Z * bool)).
Definition typed_gevent (ev : gevent) : Prop := match ev with GCall c => typed_hcall c | _ => True end.

(** The documents the live goods should have. *)
Definition goods_doc (g : GoodsDO.t) : string * GoodsSearchDO.t :=
  (searchGoods.doc_id (GoodsDO.ID g), goodsService.goodsSearchFromDTO g).
Definition catalog_index (d : goods_db) : gmap string GoodsSearchDO.t :=
  list_to_map (goods_doc <$> List.filter goods.alive (goods_rows d)).
(** No event is left that would change the index. *)
Definition settled (d : goods_db) : Prop :=
  forall e, e ∈ outbox_rows d -> Status e <> OutboxStatusDone -> Action e <> wanted d (AggregateID e).

Section Service.
Context `{O : sql_order} (S : searchGoodsStore).

Definition run_gevent (ev : gevent) : M goods_db unit :=
  match ev with
  | GCall c => run_hcall c
  | GSweep now clock => worker.runGoodsOutboxSweep S now clock
  | GReindex fuel req => discard (goodsServer.ReindexGoods S fuel req)
  end.
Inductive greachable : goods_db -> Prop :=
  | gr_init : greachable empty_goods_db
  | gr_step d f ev : greachable d -> typed_gevent ev -> greachable (e_db (run_gevent ev (Env d f)).2).

Lemma synced_init : synced empty_goods_db.
Proof.
  split; [split; cbn|intros i _; by left|].
  - constructor.
  - constructor.
  - constructor.
  - by intros e ?%elem_of_nil.
  - intros k. cbn. rewrite lookup_empty. by intros [? [=]].
Qed.
Lemma greachable_synced `{!search_laws S others} `{!sql_order_laws O} d : greachable d -> synced d.
Proof.
  induction 1 as [|d f ev _ IH Ht]; [exact synced_init|]. destruct ev as [c|now clock|fuel req]; cbn [run_gevent].
  - apply (others_keep None d); [exact IH|by intros ? [=]|]. apply rtc_once. by exists c, f.
  - exact (proj1 (sweep_follows S now clock (Env d f) IH)).
  - assert (steps reindexes (discard (goodsServer.ReindexGoods S fuel req))) as H; [|exact (proj1 (H (Env d f) IH))].
    unfold discard. apply steps_bind; [exact _|apply reindex_keeps; exact _|]. intros r. apply steps_ret. exact _.
Qed.

Lemma catalog_wf_int d g : catalog_wf d -> g ∈ goods_rows d -> is_int32 (GoodsDO.ID g).
Proof. intros [_ Hi _ _] Hg. rewrite Forall_forall in Hi. apply Hi. by apply list_elem_of_fmap_2. Qed.
Lemma alive_elem d g : g ∈ List.filter goods.alive (goods_rows d) <-> g ∈ goods_rows d /\ goods.alive g = true.
Proof. by rewrite !list_elem_of_In, filter_In. Qed.
Lemma catalog_lookup d i : catalog_wf d -> is_int32 i -> catalog_index d !! searchGoods.doc_id i = doc d i.
Proof.
  intros W Hi. apply option_eq. intros v. unfold catalog_index.
  rewrite <- elem_of_list_to_map.
  - rewrite list_elem_of_fmap. unfold doc. split.
    + intros (g & E & [Hg Ha]%alive_elem). injection E as E ->. apply doc_id_inj in E as ->; [|done|by apply (catalog_wf_int d)].
      by rewrite (live_row d g W Hg Ha).
    + intros H. destruct (live d i) as [g|] eqn:Hl; [|done]. injection H as <-. exists g. pose proof (find_some _ _ Hl) as [Hin Hb].
      apply by_id_ID in Hb as [Hid Ha]. split; [by unfold goods_doc; rewrite Hid|].
      apply alive_elem. split; [by apply list_elem_of_In|done].
  - rewrite <- list_fmap_compose, (list_fmap_compose GoodsDO.ID searchGoods.doc_id). apply NoDup_fmap_2_strong; [|apply NoDup_fmap_filter, W].
    assert (forall j, j ∈ GoodsDO.ID <$> List.filter goods.alive (goods_rows d) -> is_int32 j) as Hj.
    { intros j (g & -> & [Hg _]%alive_elem)%list_elem_of_fmap. by apply (catalog_wf_int d). }
    intros x y Hx Hy. apply doc_id_inj; by apply Hj.
Qed.
Lemma catalog_keys d k : catalog_wf d -> is_Some (catalog_index d !! k) -> exists i, is_int32 i /\ k = searchGoods.doc_id i.
Proof.
  intros W [v H]. unfold catalog_index in H. apply elem_of_list_to_map_2, list_elem_of_fmap in H as (g & E & [Hg _]%alive_elem).
  injection E as -> _. exists (GoodsDO.ID g). split; [by apply (catalog_wf_int d)|done].
Qed.

Lemma synced_settled d : synced d -> settled d -> search_index d = catalog_index d.
Proof.
  intros [W A K] Hd. apply map_eq. intros k.
  assert (forall i, is_int32 i -> search_index d !! searchGoods.doc_id i = catalog_index d !! searchGoods.doc_id i) as Hk.
  { intros i Hi. rewrite (catalog_lookup d i W Hi). destruct (A i Hi) as [H|(e & He & Hs & _ & <- & Ha)]; [exact H|].
    by destruct (Hd e He Hs). }
  destruct (search_index d !! k) as [v|] eqn:E.
  - destruct (K k ltac:(by eexists)) as (i & Hi & ->). by rewrite <- (Hk i Hi).
  - destruct (catalog_index d !! k) as [v|] eqn:E'; [|done].
    destruct (catalog_keys d k W ltac:(by eexists)) as (i & Hi & ->). rewrite <- (Hk i Hi) in E'. congruence.
Qed.

(** C6: the search index follows the goods.  However handlers, sweeps and
    reindexing are ordered one after another, whatever the database and the search
    service refuse, and while handlers other than [ReindexGoods] run between the
    steps of the one worker or reindexing ([others]): for every goods id the
    document in the index is the one of the live row (absent when there is none),
    or an outbox event that is not done asks for the current state of that goods;
    and when no such event is left the index is exactly the catalogue of live
    goods.  (A second worker, or a reindexing that overlaps a sweep, is excluded:
    [stale_write_stays] shows the document it can leave.) *)
Theorem index_follows_goods `{!search_laws S others} `{!sql_order_laws O} d :
  greachable d ->
  (forall id, is_int32 id -> indexed d id = doc d id \/ open_event None d id) /\
  (settled d -> search_index d = catalog_index d).
Proof. intros Hd%greachable_synced. split; [apply Hd|by apply synced_settled]. Qed.

(** *** Sweeps of a worker left alone *)
Fixpoint sweeps (times : list (Z * (t -> Z))) (d : goods_db) : goods_db :=
  match times with
  | [] => d
  | (now, clock) :: times => sweeps times (e_db (worker.runGoodsOutboxSweep S now clock (Env d [])).2)
  end.
Fixpoint late_sweeps (times : list (Z * (t -> Z))) (d : goods_db) : Prop :=
  match times with
  | [] => True
  | (now, clock) :: times => late now d /\ late_sweeps times (e_db (worker.runGoodsOutboxSweep S now clock (Env d [])).2)
  end.

Lemma greachable_statuses `{!search_laws S others} d : greachable d -> known_statuses d.
Proof.
  induction 1 as [|d f ev _ IH Ht]; [constructor|]. destruct ev as [c|now clock|fuel req]; cbn [run_gevent].
  - refine (others_statuses d _ _ IH). apply rtc_once. by exists c, f.
  - exact (sweep_statuses S now clock (Env d f) IH).
  - assert (steps keeps_statuses (discard (goodsServer.ReindexGoods S fuel req))) as H; [|exact (H (Env d f) IH)].
    unfold discard. apply steps_bind; [exact _|apply reindex_statuses; exact _|]. intros r. apply steps_ret. exact _.
Qed.
Lemma sweeps_quiet `{!quiet_store S} times d :
  synced d -> all_counted d -> known_statuses d -> late_sweeps times d -> (total_left (outbox_rows d) <= length times)%nat ->
  swept S d (sweeps times d) /\ known_statuses (sweeps times d) /\ total_left (outbox_rows (sweeps times d)) = 0%nat.
Proof.
  revert d. induction times as [|[now clock] times IH]; intros d Hs Hc Hk Hl Hn.
  - split; [done|]. split; [done|]. cbn in *. lia.
  - cbn [sweeps]. destruct Hl as [Hl1 Hl2]. destruct (sweep_quiet S now clock d Hs Hc) as (d1 & E & W & Hle & Hlt).
    pose proof (sweep_statuses S now clock (Env d []) Hk) as Hk1. rewrite E in Hl2, Hk1 |- *. cbn [snd e_db] in *.
    pose proof W as (S1 & _ & C1 & _). destruct (IH d1) as (W2 & Hk2 & Hz); [done..| |].
    + cbn in Hn. specialize (Hlt Hl1). lia.
    + split; [by etrans|done].
Qed.
Lemma none_left l e : total_left l = 0%nat -> e ∈ l -> open_status e = false.
Proof.
  unfold total_left. induction l as [|r l IH]; intros Hz He; [by apply elem_of_nil in He|]. simpl in Hz.
  apply elem_of_cons in He as [->|He]; [|apply IH; [lia|done]]. unfold attempts_left in Hz. destruct (open_status r); [lia|done].
Qed.
Lemma closed_status e : known_status e -> open_status e = false -> Status e = OutboxStatusDone \/ Status e = OutboxStatusDead.
Proof. unfold known_status, open_status. rewrite !elem_of_cons. intros [E|[E|[E|[E|[]%elem_of_nil]]]]; rewrite E; by auto. Qed.

(** C8: the outbox settles: whatever the search service refuses, each event is tried a
    bounded number of times; sweeps that come late enough, as many as the attempts the
    open events have left, end with every event done or dead. *)
Theorem sweeps_settle `{!quiet_store S} `{!sql_order_laws O} times d :
  greachable d -> all_counted d -> late_sweeps times d -> (total_left (outbox_rows d) <= length times)%nat ->
  forall e, e ∈ outbox_rows (sweeps times d) -> Status e = OutboxStatusDone \/ Status e = OutboxStatusDead.
Proof.
  intros Hd Hc Hl Hn e He.
  destruct (sweeps_quiet times d (greachable_synced d Hd) Hc (greachable_statuses d Hd) Hl Hn) as (_ & Hk & Hz).
  apply closed_status; [|by apply (none_left _ e Hz)]. unfold known_statuses in Hk. rewrite Forall_forall in Hk. by apply Hk.
Qed.

(** C7: and the index catches up.  From a reachable state in which goods have
    positive ids, events count their attempts and no dead event asks for what its
    goods is now (only a replay repairs those): when nothing fails, no other call
    runs and the search service takes what it is sent, as many late enough sweeps
    as the open events have attempts left leave the index equal to the catalogue
    of the goods they started from. *)
Theorem sweeps_restore_index `{!quiet_store S} `{!accepting S} `{!sql_order_laws O} times d :
  greachable d -> all_counted d -> ids_positive d -> dead_unwanted d -> late_sweeps times d ->
  (total_left (outbox_rows d) <= length times)%nat ->
  search_index (sweeps times d) = catalog_index d.
Proof.
  intros Hd Hc Hp Hu Hl Hn.
  destruct (sweeps_quiet times d (greachable_synced d Hd) Hc (greachable_statuses d Hd) Hl Hn) as ((Hs & Hg & _ & Hdead) & Hk & Hz).
  assert (catalog_index d = catalog_index (sweeps times d)) as -> by (unfold catalog_index; by rewrite Hg).
  apply synced_settled; [done|]. intros e He Hst. apply Hdead; [done..|]. unfold known_statuses in Hk. rewrite Forall_forall in Hk.
  destruct (closed_status e); [by apply Hk|by apply (none_left _ e Hz)|done|done].
Qed.
End Service.

(** ** A service to evaluate on *)
Definition plain_order : sql_order := {|
  order_goods := fun _ l => l; order_categories := fun _ l => l; order_brands := fun _ l => l;
  order_banners := fun _ l => l; order_relations := fun _ l => l |}.
Lemma plain_order_laws : sql_order_laws plain_order.
Proof. by split. Defined.
(** A search service that answers at once, and refuses when the fault list says so. *)
Definition memory_client : elastic_client := {|
  es_index := fun _ id doc => stmt (fun d => (Ret tt, put_doc id doc d));
  es_delete := fun _ id => stmt (fun d => (Ret tt, delete_doc id d));
  es_search := fun _ _ _ _ => query (fun d => MkSearchResult (Z.of_nat (size (search_index d))) (inl <$> (map_to_list (search_index d)).*2));
  IsNotFound := fun _ => false |}.
Lemma memory_client_laws (oth : goods_db -> goods_db -> Prop) : PreOrder oth -> elastic_laws memory_client oth.
Proof.
  intros Ho. split; intros id; [intros doc s|intros s]; exists (e_db s); (split; [reflexivity|]); cbn; unfold stmt;
    destruct s as [d [|[m|] f]]; cbn; (left + idtac); reflexivity.
Qed.
Definition memory_store : searchGoodsStore := searchGoods.store (E := memory_client).
Definition play (evs : list (gevent * list (option string))) (d : goods_db) : goods_db :=
  fold_left (fun d ev => e_db (run_gevent (O := plain_order) memory_store ev.1 (Env d ev.2)).2) evs d.

Definition pen (name : string) (id price : Z) : CreateGoodsInfo :=
  MkCreateGoodsInfo id name "P-1" 0 "" "" false [] [] "" false false true 1 1 price price "" "" "shop".
Definition opening : list (gevent * list (option string)) :=
  [(GCall (HCreateBrand (Some (MkBrandInfo 0 "Acme" ""))), []);
   (GCall (HCreateCategory (Some (MkCategoryInfo 0 "Pens" 0 1 false))), []);
   (GCall (HCreateGoods 100 (Some (pen " blue pen " 0 250))), [])].
(** The search service refuses the first write; the worker tries again later. *)
Definition recovered : list (gevent * list (option string)) :=
  opening ++ [(GSweep 200 (fun _ => 200), repeat None 9 ++ [Some "503"]); (GSweep 5000000000 (fun _ => 0), [])].
Definition later : Z * (t -> Z) := (5000000000, fun _ => 0).

Lemma memory_others : search_laws memory_store (others (H := plain_order)).
Proof.
  apply store_laws. apply memory_client_laws. unfold others. split; [by intros d|]. intros a b c. apply rtc_trans.
Qed.
Lemma memory_quiet : quiet_store memory_store.
Proof.
  split; [apply store_laws, memory_client_laws; exact _| |].
  - intros g d. cbn. unfold searchGoods.Update, searchGoods.Create, fail_if. by destruct (GoodsSearchDO.ID g <=? 0).
  - intros id d. cbn. unfold searchGoods.Delete, fail_if. by destruct (id =? 0).
Qed.
Lemma memory_accepting : accepting memory_store.
Proof.
  split.
  - intros g d Hg. cbn. unfold searchGoods.Update, searchGoods.Create, fail_if. by rewrite (proj2 (Z.leb_gt _ _) Hg).
  - intros id d Hid. cbn. unfold searchGoods.Delete, fail_if. by rewrite (proj2 (Z.eqb_neq _ _) Hid).
Qed.

Lemma play_reachable evs d : Forall (fun ev => typed_gevent ev.1) evs ->
  greachable (O := plain_order) memory_store d -> greachable (O := plain_order) memory_store (play evs d).
Proof.
  unfold play. revert d. induction evs as [|[ev f] evs IH]; intros d H Hd; [done|]. apply Forall_cons in H as [H1 H2].
  cbn [fold_left]. apply IH; [done|]. by apply gr_step.
Qed.
Definition opened : goods_db := play opening empty_goods_db.
Definition refused : goods_db := play (take 4 recovered) empty_goods_db.
Lemma opened_reachable : greachable (O := plain_order) memory_store opened.
Proof. apply play_reachable; [|constructor]. by repeat constructor. Qed.
Lemma refused_reachable : greachable (O := plain_order) memory_store refused.
Proof. apply play_reachable; [|constructor]. by repeat constructor. Qed.

Lemma index_follows_goods_witness :
  let d := play recovered empty_goods_db in
  (forall id, is_int32 id -> indexed d id = doc d id \/ open_event None d id) /\
  search_index d = catalog_index d /\ size (search_index d) = 1%nat.
Proof.
  intros d. assert (greachable (O := plain_order) memory_store d) as Hd.
  { apply play_reachable; [|constructor]. by repeat constructor. }
  destruct (index_follows_goods (O := plain_order) memory_store d Hd (search_laws0 := memory_others) (sql_order_laws0 := plain_order_laws))
    as [H1 H2].
  split; [exact H1|]. split; [|vm_compute; reflexivity]. apply H2. intros e He Hst. exfalso. apply Hst. clear Hst H1 H2 Hd. revert e He.
  apply Forall_forall. vm_compute. repeat constructor.
Defined.

(** Lateness decided. *)
Definition lateb (now : Z) (d : goods_db) : bool :=
  (0 <=? worker.Unix now) &&
  forallb (fun e => (negb (seqb (Status e) OutboxStatusPending) || (NextAttemptAt e <=? worker.Unix now)) &&
    (negb (seqb (Status e) OutboxStatusProcessing) ||
     ((0 <? ClaimedAt e) && (ClaimedAt e <=? worker.Unix (now - worker.outboxClaimTimeout))))) (outbox_rows d).
Lemma lateb_late now d : lateb now d = true -> late now d.
Proof.
  intros [H1 H2]%andb_true_iff. split; [by apply Z.leb_le|]. intros e He. rewrite forallb_forall in H2.
  specialize (H2 e ltac:(by apply list_elem_of_In)). apply andb_true_iff in H2 as [H3 H4].
  apply orb_true_iff in H3 as [H3|H3%Z.leb_le]; apply orb_true_iff in H4 as [H4|[H4%Z.ltb_lt H5%Z.leb_le]%andb_true_iff];
    (split; intros E; try rewrite E in H3; try rewrite E in H4; done).
Qed.
Fixpoint late_sweepsb (S : searchGoodsStore) (times : list (Z * (t -> Z))) (d : goods_db) : bool :=
  match times with
  | [] => true
  | (now, clock) :: times =>
    lateb now d && late_sweepsb S times (e_db (worker.runGoodsOutboxSweep S now clock (Env d [])).2)
  end.
Lemma late_sweepsb_late S times d : late_sweepsb S times d = true -> late_sweeps S times d.
Proof.
  revert d. induction times as [|[now clock] times IH]; intros d; [done|].
  intros [H1 H2]%andb_true_iff. split; [by apply lateb_late|by apply IH].
Qed.
Definition countedb (d : goods_db) : bool :=
  forallb (fun e => bool_decide (int32_min <= RetryCount e + 1 <= int32_max) && bool_decide (int32_min <= MaxRetryCount e <= int32_max))
    (outbox_rows d).
Lemma countedb_counted d : countedb d = true -> all_counted d.
Proof.
  intros H. apply Forall_forall. intros e He _. unfold countedb in H. rewrite forallb_forall in H.
  specialize (H e ltac:(by apply list_elem_of_In)). by apply andb_true_iff in H as [H1%bool_decide_eq_true H2%bool_decide_eq_true].
Qed.
Definition dead_unwantedb (d : goods_db) : bool :=
  forallb (fun e => negb (seqb (Status e) OutboxStatusDead)) (outbox_rows d).
Lemma dead_unwantedb_unwanted d : dead_unwantedb d = true -> dead_unwanted d.
Proof.
  intros H e He Hst. unfold dead_unwantedb in H. rewrite forallb_forall in H.
  specialize (H e ltac:(by apply list_elem_of_In)). by rewrite Hst in H.
Qed.
Lemma sweeps_settle_witness :
  Status <$> outbox_rows refused = [OutboxStatusPending] /\
  forall e, e ∈ outbox_rows (sweeps memory_store (repeat later 4) refused) ->
    Status e = OutboxStatusDone \/ Status e = OutboxStatusDead.
Proof.
  split; [vm_compute; reflexivity|].
  apply (sweeps_settle (O := plain_order) memory_store (quiet_store0 := memory_quiet) (sql_order_laws0 := plain_order_laws)).
  - exact refused_reachable.
  - apply countedb_counted. vm_compute. reflexivity.
  - apply late_sweepsb_late. vm_compute. reflexivity.
  - vm_compute. lia.
Defined.
Lemma sweeps_restore_index_witness :
  search_index refused = ∅ /\
  search_index (sweeps memory_store (repeat later 4) refused) = catalog_index refused.
Proof.
  split; [vm_compute; reflexivity|].
  apply (sweeps_restore_index (O := plain_order) memory_store (quiet_store0 := memory_quiet) (accepting0 := memory_accepting)
    (sql_order_laws0 := plain_order_laws)).
  - exact refused_reachable.
  - apply countedb_counted. vm_compute. reflexivity.
  - vm_compute. repeat constructor.
  - apply dead_unwantedb_unwanted. vm_compute. reflexivity.
  - apply late_sweepsb_late. vm_compute. reflexivity.
  - vm_compute. lia.
Defined.

(** ** Two writers of one document *)

(** A search store on which other code runs between the worker's read and its write. *)
Definition overtaken (during : M goods_db unit) : searchGoodsStore :=
  MkSearchStore (fun g => during ;;; Update memory_store g) (fun id => during ;;; Delete memory_store id).
Definition reprice_and_sweep : M goods_db unit :=
  discard (run_hcall (H := plain_order) (HUpdateGoods 150 (Some (pen "blue pen" 1 300)))) ;;;
  worker.runGoodsOutboxSweep memory_store 200 (fun _ => 200).
Definition all_done (d : goods_db) : bool := forallb (fun e => seqb (Status e) OutboxStatusDone) (outbox_rows d).

(** The limit of that: a write of a document does not say how old it is.  When a
    second worker, or the worker while an operator reindexes, applies a newer event
    between the other's read of the goods and its write, the older document stays,
    and every event is done: nothing will correct it. *)
Theorem stale_write_stays :
  greachable (O := plain_order) memory_store opened /\
  Forall (fun m : M goods_db unit =>
    let d := e_db (m (Env opened [])).2 in
    all_done d = true /\ GoodsDO.ShopPriceFen <$> goods_rows d = [300] /\
    GoodsSearchDO.ShopPriceFen <$> search_index d !! searchGoods.doc_id 1 = Some 250)
  [worker.runGoodsOutboxSweep (overtaken reprice_and_sweep) 200 (fun _ => 200);
   worker.runGoodsOutboxSweep memory_store 200 (fun _ => 200) ;;;
   discard (goodsServer.ReindexGoods (H := plain_order) (overtaken reprice_and_sweep) 2 (Some ([1], false)))].
Proof. split; [exact opened_reachable|]. repeat constructor; vm_compute; reflexivity. Qed.
