(* ===== verification/Redis.v ===== *)
(** * Redis: [pkg/storage] over keys that expire

    The commands the repository uses, as Redis documents them: [GET], [SET] with and
    without [NX], [INCR], [EXPIRE] and [DEL], on string keys with an optional expiry
    time; a key is there until its expiry has passed.  A command can fail before it
    reaches the server or lose its answer after it ran; the two Lua scripts run as
    one command.  Times are nanoseconds; [now] is the server's clock.
    [RedisCluster]'s key prefix is empty and its key hashing off for every store of
    the repository, so [fixKey] is the identity. *)
From S2P Require Import Prelude GoStrings Errors GoMonad ErrorTransport.
Open Scope go_scope.

(** A value and the time it expires at. *)
Notation entry := (string * option Z)%type.
Notation redis := (gmap string entry).

Definition alive (now : Z) (e : entry) : bool := match e.2 with Some t => now <=? t | None => true end.
(** The entry a command sees. *)
Definition present (now : Z) (k : string) (r : redis) : option entry :=
  match r !! k with Some e => if alive now e then Some e else None | None => None end.

(** ** Commands *)

(** One round trip. *)
Definition command {A} (f : redis -> outcome A * redis) : M redis A := fun s =>
  match next_fault s with
  | (Some msg, s1) => (Fail (Driver msg), s1)
  | (None, s1) =>
    let '(r, d) := f (e_db s1) in
    match next_fault (Env d (e_faults s1)) with
    | (Some msg, s2) => (Fail (Driver msg), s2)
    | (None, s2) => (r, s2)
    end
  end.

Definition deadline (now ttl : Z) : option Z := if 0 <? ttl then Some (now + ttl) else None.

Definition redis_get (now : Z) (k : string) (r : redis) : option string := fst <$> present now k r.
Definition redis_set (now : Z) (k v : string) (ttl : Z) (r : redis) : redis := <[k := (v, deadline now ttl)]> r.

(** [INCR]: a missing key counts from 0 without an expiry; a value that is no 64-bit
    integer in its shortest form, or that would overflow, is an error. *)
Definition parse_int (v : string) : option Z :=
  n ← Atoi v; if bool_decide (itoa n = v) then Some n else None.
Definition redis_incr (now : Z) (k : string) (r : redis) : option (Z * redis) :=
  match present now k r with
  | None => Some (1, <[k := ("1", None)]> r)
  | Some (v, t) =>
    n ← parse_int v;
    if n <? 2 ^ 63 - 1 then Some (n + 1, <[k := (itoa (n + 1), t)]> r) else None
  end.
Definition redis_expire (now : Z) (k : string) (seconds : Z) (r : redis) : redis :=
  match present now k r with
  | Some (v, _) => <[k := (v, Some (now + seconds * 1000000000))]> r
  | None => r
  end.

(** [incrementWithExpireScript] and [compareAndDeleteScript]. *)
Definition incrementWithExpireScript (now : Z) (k : string) (seconds : Z) (r : redis) : option (Z * redis) :=
  match redis_incr now k r with
  | Some (value, r) =>
    Some (value, if (value =? 1) && (0 <? seconds) then redis_expire now k seconds r else r)
  | None => None
  end.
Definition compareAndDeleteScript (now : Z) (k v : string) (r : redis) : Z * redis :=
  match redis_get now k r with
  | None => (0, r)
  | Some current => if bool_decide (current = v) then (1, delete k r) else (-1, r)
  end.

(** ** [RedisCluster] *)
Module RedisCluster.

(** [ErrKeyNotFound] is [None]. *)
Definition GetKey (now : Z) (keyName : string) : M redis (option string) :=
  wrap_err (fun err => Errorf "get redis key: %w" [] (Some err))
    (command (fun r => (Ret (redis_get now keyName r), r))).

Definition SetKey (now : Z) (keyName session : string) (timeout : Z) : M redis unit :=
  command (fun r => (Ret tt, redis_set now keyName session timeout r)).

Definition SetIfAbsent (now : Z) (keyName value : string) (ttl : Z) : M redis bool :=
  wrap_err (fun err => Errorf "set redis key if absent: %w" [] (Some err))
    (command (fun r => match present now keyName r with
                       | Some _ => (Ret false, r)
                       | None => (Ret true, redis_set now keyName value ttl r)
                       end)).

Definition not_integer : goerr := Driver "ERR value is not an integer or out of range".
Definition Increment (now : Z) (keyName : string) : M redis Z :=
  wrap_err (fun err => Errorf "increment redis key: %w" [] (Some err))
    (command (fun r => match redis_incr now keyName r with
                       | Some (n, r') => (Ret n, r')
                       | None => (Fail not_integer, r)
                       end)).
(** [int64(ttl.Seconds())] *)
Definition IncrementWithExpiry (now : Z) (keyName : string) (ttl : Z) : M redis Z :=
  wrap_err (fun err => Errorf "increment redis key with expiry: %w" [] (Some err))
    (command (fun r => match incrementWithExpireScript now keyName (Z.quot ttl 1000000000) r with
                       | Some (n, r') => (Ret n, r')
                       | None => (Fail not_integer, r)
                       end)).

(** The two errors of a consumption that found no matching value. *)
Inductive consumed := Consumed | KeyNotFound | KeyValueMismatch.
Definition ConsumeIfValue (now : Z) (keyName value : string) : M redis consumed :=
  wrap_err (fun err => Errorf "consume redis key: %w" [] (Some err))
    (command (fun r => let '(n, r') := compareAndDeleteScript now keyName value r in
       (Ret (if n =? 1 then Consumed else if n =? -1 then KeyValueMismatch else KeyNotFound), r'))).

Definition DeleteIfValue (now : Z) (keyName value : string) : M redis bool :=
  r <- ConsumeIfValue now keyName value ;;
  ret (match r with Consumed => true | _ => false end).

Definition Delete (now : Z) (keyName : string) : M redis bool :=
  wrap_err (fun err => Errorf "delete redis key: %w" [] (Some err))
    (command (fun r => (Ret (match present now keyName r with Some _ => true | None => false end), delete keyName r))).
End RedisCluster.

(** ** Reasoning *)
Section Commands.
Context {A : Type}.

Lemma command_cases (f : redis -> outcome A * redis) s :
  match command f s with
  | (Ret a, s') => f (e_db s) = (Ret a, e_db s')
  | (Fail _, s') => e_db s' = e_db s \/ e_db s' = (f (e_db s)).2
  | (Panic p, s') => f (e_db s) = (Panic p, e_db s')
  end.
Proof.
  unfold command. pose proof (next_fault_db s) as E. destruct (next_fault s) as [[m|] s1]; cbn in *; [by left|].
  rewrite <- E. destruct (f (e_db s1)) as [r d]. pose proof (next_fault_db (Env d (e_faults s1))) as E2.
  destruct (next_fault _) as [[m|] s2]; cbn in *; [by right|]. destruct r; rewrite E2; auto.
Qed.
Lemma command_Ret (f : redis -> outcome A * redis) s a s' :
  command f s = (Ret a, s') -> f (e_db s) = (Ret a, e_db s').
Proof. intros H. pose proof (command_cases f s) as C. by rewrite H in C. Qed.
Lemma command_run (f : redis -> outcome A * redis) d a d' :
  f d = (Ret a, d') -> command f (Env d []) = (Ret a, Env d' []).
Proof. intros H. unfold command. cbn. by rewrite H. Qed.
Lemma steps_command (R : redis -> redis -> Prop) `{!PreOrder R} (f : redis -> outcome A * redis) :
  (forall d, R d (f d).2) -> steps R (command f).
Proof.
  intros H s. pose proof (command_cases f s) as C. specialize (H (e_db s)).
  destruct (command f s) as [[a|e|p] s']; cbn in *; [by rewrite C in H| |by rewrite C in H].
  by destruct C as [->| ->].
Qed.
End Commands.

Lemma present_insert now k e r : present now k (<[k := e]> r) = if alive now e then Some e else None.
Proof. unfold present. by rewrite lookup_insert_eq. Qed.
Lemma present_insert_ne now k k' e r : k <> k' -> present now k (<[k' := e]> r) = present now k r.
Proof. intros H. unfold present. by rewrite lookup_insert_ne. Qed.
Lemma present_delete now k r : present now k (delete k r) = None.
Proof. unfold present. by rewrite lookup_delete_eq. Qed.
Lemma present_delete_ne now k k' r : k <> k' -> present now k (delete k' r) = present now k r.
Proof. intros H. unfold present. by rewrite lookup_delete_ne. Qed.
(** A key that is there now was there before. *)
Lemma present_earlier now now' k r e : now <= now' -> present now' k r = Some e -> present now k r = Some e.
Proof.
  unfold present. intros H. destruct (r !! k) as [[v [t|]]|]; [|done..]. unfold alive. cbn.
  destruct (Z.leb_spec now' t); [|done]. by rewrite (proj2 (Z.leb_le _ _)) by lia.
Qed.
Lemma parse_int_itoa n : 0 <= n < 2 ^ 63 -> parse_int (itoa n) = Some n.
Proof. intros H. unfold parse_int. rewrite Atoi_itoa by done. cbn. by rewrite bool_decide_eq_true_2. Qed.
