(* ===== verification/RedisStores.v ===== *)
(** * The Redis stores of the API gateway

    Failed attempts and locks ([loginattempt], [smsattempt]), the limit on sent codes
    ([smslimit]), the codes themselves ([smscode], [emailcode]), revoked tokens and
    token versions ([authsession], which [internal/tokenversion] and
    [internal/tokenrevocation] duplicate), and the nonces of payment callbacks
    ([payment/nonce.go]).  The digest under which identifiers are stored, SHA-256 in
    base64, is a parameter ([digest]).  An operation reads the clock once. *)
From S2P Require Import Prelude GoStrings Errors GoMonad ErrorTransport Redis.
Import RedisCluster.
Open Scope go_scope.

Definition Second : Z := 1000000000.
Definition Minute : Z := 60 * Second.
Definition Hour : Z := 60 * Minute.

(** ** Failed attempts *)

(** What [loginattempt] and [smsattempt] share, given the keys of the identifier. *)
Record attempt_options := MkAttemptOptions { maxFailures : Z; window : Z; lockTTL : Z }.
Section Attempts.
Context (s : attempt_options) (failK lockK : string).

Definition is_locked (now : Z) : M redis bool :=
  v <- GetKey now lockK ;; ret (match v with Some _ => true | None => false end).
Definition record_failure (now : Z) : M redis bool :=
  locked <- is_locked now ;;
  if locked then ret true
  else
    failures <- IncrementWithExpiry now failK (window s) ;;
    if maxFailures s <=? failures then
      SetKey now lockK "1" (lockTTL s) ;;;
      Delete now failK ;;;
      ret true
    else ret false.
Definition reset (now : Z) : M redis unit :=
  Delete now failK ;;; Delete now lockK ;;; ret tt.
End Attempts.

(** A store method on a key that may not be one. *)
Definition with_key {A B} (k : A + goerr) (m : A -> M redis B) : M redis B :=
  match k with inl k => m k | inr err => fail err end.

Module loginattempt.
Definition defaultMaxFailures : Z := 5.
Definition defaultWindow : Z := 15 * Minute.
Definition defaultLockTTL : Z := 15 * Minute.
Definition defaultIPFailures : Z := 20.
Definition failKeyPrefix : string := "login:fail:".
Definition lockKeyPrefix : string := "login:lock:".
Definition ErrEmptyIdentifier : goerr := Errorf "identifier is empty" [] None.

Definition NewRedisStoreWithOptions (max win ttl : Z) : attempt_options :=
  MkAttemptOptions (if max <=? 0 then defaultMaxFailures else max) (if win <=? 0 then defaultWindow else win)
    (if ttl <=? 0 then defaultLockTTL else ttl).
Definition NewRedisStore : attempt_options := NewRedisStoreWithOptions defaultMaxFailures defaultWindow defaultLockTTL.
Definition NewIPRedisStore : attempt_options := NewRedisStoreWithOptions defaultIPFailures defaultWindow defaultLockTTL.

Section Store.
Context (digest : string -> string) (s : attempt_options).
Definition keyedIdentifier (prefix identifier : string) : string + goerr :=
  let identifier := ToLower (TrimSpace identifier) in
  if bool_decide (identifier = "") then inr ErrEmptyIdentifier else inl (prefix +:+ digest identifier).
Definition failKey (identifier : string) : string + goerr := keyedIdentifier failKeyPrefix identifier.
Definition lockKey (identifier : string) : string + goerr := keyedIdentifier lockKeyPrefix identifier.

Definition IsLocked (now : Z) (identifier : string) : M redis bool :=
  with_key (lockKey identifier) (fun lock => is_locked lock now).
Definition RecordFailure (now : Z) (identifier : string) : M redis bool :=
  with_key (lockKey identifier) (fun lock => with_key (failKey identifier) (fun key => record_failure s key lock now)).
Definition Reset (now : Z) (identifier : string) : M redis unit :=
  with_key (failKey identifier) (fun key => with_key (lockKey identifier) (fun lock => reset key lock now)).
End Store.
End loginattempt.

Module smsattempt.
Definition defaultMaxFailures : Z := 5.
Definition defaultWindow : Z := 5 * Minute.
Definition defaultLockTTL : Z := 15 * Minute.
Definition failKeyPrefix : string := "sms:verify:fail:".
Definition lockKeyPrefix : string := "sms:verify:lock:".
Definition ErrEmptyMobile : goerr := Errorf "mobile is empty" [] None.
Definition NewRedisStore : attempt_options := MkAttemptOptions defaultMaxFailures defaultWindow defaultLockTTL.

Section Store.
Context (digest : string -> string) (s : attempt_options).
Definition keyedMobile (prefix mobile : string) (codeType : Z) : string + goerr :=
  let mobile := TrimSpace mobile in
  if bool_decide (mobile = "") then inr ErrEmptyMobile
  else inl (prefix +:+ digest (itoa codeType +:+ ":" +:+ mobile)).
Definition failKey (mobile : string) (codeType : Z) : string + goerr := keyedMobile failKeyPrefix mobile codeType.
Definition lockKey (mobile : string) (codeType : Z) : string + goerr := keyedMobile lockKeyPrefix mobile codeType.

Definition IsLocked (now : Z) (mobile : string) (codeType : Z) : M redis bool :=
  with_key (lockKey mobile codeType) (fun lock => is_locked lock now).
Definition RecordFailure (now : Z) (mobile : string) (codeType : Z) : M redis bool :=
  with_key (lockKey mobile codeType) (fun lock =>
    with_key (failKey mobile codeType) (fun key => record_failure s key lock now)).
Definition Reset (now : Z) (mobile : string) (codeType : Z) : M redis unit :=
  with_key (failKey mobile codeType) (fun key => with_key (lockKey mobile codeType) (fun lock => reset key lock now)).
End Store.
End smsattempt.

(** ** The limit on codes sent *)
Module smslimit.
Definition defaultCooldown : Z := Minute.
Definition defaultWindow : Z := 24 * Hour.
Definition defaultMaxSends : Z := 10.
Definition cooldownKeyPrefix : string := "sms:cooldown:".
Definition windowKeyPrefix : string := "sms:window:".
Record options := MkOptions { cooldown : Z; win : Z; maxSends : Z }.
Definition NewRedisStore : options := MkOptions defaultCooldown defaultWindow defaultMaxSends.

(** [Take], given the two keys; the two errors of a failed cleanup are joined. *)
Definition take (s : options) (cooldownK windowK : string) (now : Z) : M redis bool :=
  reserved <- SetIfAbsent now cooldownK "1" (cooldown s) ;;
  if negb reserved then ret false
  else
    r <- attempt (IncrementWithExpiry now windowK (win s)) ;;
    match r with
    | inr err =>
      c <- attempt (DeleteIfValue now cooldownK "1") ;;
      match c with
      | inr cleanupErr =>
        fail (aggregate [err; Errorf "clear sms cooldown after increment failure: %w" [] (Some cleanupErr)])
      | inl _ => fail err
      end
    | inl count =>
      if maxSends s <? count then DeleteIfValue now cooldownK "1" ;;; ret false
      else ret true
    end.

Section Store.
Context (digest : string -> string) (s : options).
Definition keyedMobile (prefix mobile : string) (codeType : Z) : string + goerr :=
  let mobile := TrimSpace mobile in
  if bool_decide (mobile = "") then inr smsattempt.ErrEmptyMobile
  else inl (prefix +:+ digest (itoa codeType +:+ ":" +:+ mobile)).
Definition cooldownKey (mobile : string) (codeType : Z) : string + goerr := keyedMobile cooldownKeyPrefix mobile codeType.
Definition windowKey (mobile : string) (codeType : Z) : string + goerr := keyedMobile windowKeyPrefix mobile codeType.
Definition Take (now : Z) (mobile : string) (codeType : Z) : M redis bool :=
  with_key (cooldownKey mobile codeType) (fun c => with_key (windowKey mobile codeType) (fun w => take s c w now)).
End Store.
End smslimit.

(** ** Codes *)
Module smscode.
Definition TypeRegister : Z := 1.
Definition TypeLogin : Z := 2.
Definition DefaultTTL : Z := 5 * Minute.
Definition Key (mobile : string) (codeType : Z) : string := "sms:" +:+ itoa codeType +:+ ":" +:+ mobile.
Definition RegisterKey (mobile : string) : string := Key mobile TypeRegister.
Definition LoginKey (mobile : string) : string := Key mobile TypeLogin.

Definition Get (now : Z) (key : string) : M redis (option string) := GetKey now key.
Definition Set_ (now : Z) (key value : string) (ttl : Z) : M redis unit := SetKey now key value ttl.
Definition Delete (now : Z) (key : string) : M redis bool := RedisCluster.Delete now key.
Definition DeleteIfValue (now : Z) (key value : string) : M redis bool := RedisCluster.DeleteIfValue now key value.
(** [ErrCodeMismatch] is [KeyValueMismatch], [ErrKeyNotFound] [KeyNotFound]. *)
Definition Consume (now : Z) (key value : string) : M redis consumed := ConsumeIfValue now key value.
End smscode.

Module emailcode.
Definition ErrNotFound : goerr := Errorf "email verification code not found" [] None.
Definition ErrInvalid : goerr := Errorf "email verification code invalid" [] None.
Definition ErrRateLimited : goerr := Errorf "email verification code rate limited" [] None.

Section Store.
Context (digest : string -> string).
Definition key (email purpose : string) : string :=
  "verify:email:" +:+ purpose +:+ ":" +:+ digest (ToLower (TrimSpace email)).
Definition nul : string := String.String (Ascii.ascii_of_N 0) "".
Definition codeHash (email purpose code : string) : string :=
  digest (ToLower (TrimSpace email) +:+ nul +:+ purpose +:+ nul +:+ code).

Definition Issue (now : Z) (email purpose code : string) (ttl interval : Z) : M redis unit :=
  let key := key email purpose in
  set <- wrap_err (fun err => Errorf "rate limit email code: %w" [] (Some err))
    (SetIfAbsent now (key +:+ ":rate") "1" interval) ;;
  fail_if (negb set) ErrRateLimited ;;;
  r <- attempt (SetKey now key (codeHash email purpose code) ttl) ;;
  match r with
  | inl _ => ret tt
  | inr err =>
    c <- attempt (Delete now (key +:+ ":rate")) ;;
    match c with
    | inr cleanupErr =>
      fail (Errorf "store email code: %w" []
              (Some (aggregate [err; Errorf "clear email code rate limit: %w" [] (Some cleanupErr)])))
    | inl _ => fail (Errorf "store email code: %w" [] (Some err))
    end
  end.

Definition Consume (now : Z) (email purpose code : string) : M redis unit :=
  r <- wrap_err (fun err => Errorf "consume email code: %w" [] (Some err))
    (ConsumeIfValue now (key email purpose) (codeHash email purpose code)) ;;
  match r with
  | Consumed => ret tt
  | KeyValueMismatch => fail ErrInvalid
  | KeyNotFound => fail ErrNotFound
  end.
End Store.
End emailcode.

(** ** Sessions *)
Module tokenversion.
Definition keyPrefix : string := "jwt:version:".
Definition ErrInvalidUserID : goerr := Errorf "user id is invalid" [] None.
Definition versionKey (userID : Z) : string + goerr :=
  if userID =? 0 then inr ErrInvalidUserID else inl (keyPrefix +:+ itoa userID).

Definition CurrentVersion (now userID : Z) : M redis Z :=
  with_key (versionKey userID) (fun key =>
    value <- GetKey now key ;;
    match value with
    | None => ret 0
    | Some value =>
      match ParseUint (explode (TrimSpace value)) with
      | Some version => ret version
      | None => fail (Errorf "parse token version: %w" [] (Some (Errorf "strconv.ParseUint: %q" [value] None)))
      end
    end).
(** [uint64(version)] *)
Definition Bump (now userID : Z) : M redis Z :=
  with_key (versionKey userID) (fun key => version <- Increment now key ;; ret (wrapu64 version)).
End tokenversion.

Module tokenrevocation.
Definition keyPrefix : string := "jwt:revoked:".
Definition ErrEmptyToken : goerr := Errorf "token is empty" [] None.
Section Store.
Context (digest : string -> string).
Definition key (token : string) : string + goerr :=
  let token := TrimSpace token in
  if bool_decide (token = "") then inr ErrEmptyToken else inl (keyPrefix +:+ digest token).

Definition Revoke (now : Z) (token : string) (expiresAt : Z) : M redis unit :=
  with_key (key token) (fun key =>
    let ttl := expiresAt - now in
    let ttl := if ttl <=? 0 then Second else ttl in
    SetKey now key "1" ttl).
Definition IsRevoked (now : Z) (token : string) : M redis bool :=
  with_key (key token) (fun key => v <- GetKey now key ;; ret (match v with Some _ => true | None => false end)).
End Store.
End tokenrevocation.

(** ** Nonces of payment callbacks *)
Module nonces.
Definition Reserve (now : Z) (nonce : string) (ttl : Z) : M redis bool :=
  fail_if (bool_decide (TrimSpace nonce = "") || (ttl <=? 0)) (Errorf "invalid payment callback nonce" [] None) ;;;
  wrap_err (fun err => Errorf "reserve payment callback nonce: %w" [] (Some err))
    (SetIfAbsent now ("payment:callback:nonce:" +:+ nonce) "1" ttl).
End nonces.
