(* ===== verification/RedisProperties.v ===== *)
(** * What the Redis stores guarantee

    Bounds on failed attempts and on codes sent, single use of codes, and the growth
    of token versions, under every fault of the commands. *)
From S2P Require Import Prelude GoStrings Errors GoMonad ErrorTransport Redis RedisStores.
Import RedisCluster.
Open Scope go_scope.

(** ** What a command can leave behind *)
Lemma GetKey_Ret now k s v s' :
  GetKey now k s = (Ret v, s') -> v = redis_get now k (e_db s) /\ e_db s' = e_db s.
Proof. intros H%wrap_err_Ret%command_Ret. by injection H as <- <-. Qed.
Lemma GetKey_reads now k : steps eq (GetKey now k).
Proof. apply steps_wrap_err, steps_command; [exact _|done]. Qed.

(** The counter a script left: grown by one, expiring when it did, or started. *)
Lemma incr_script now k seconds r n r' :
  0 < seconds -> incrementWithExpireScript now k seconds r = Some (n, r') ->
  match present now k r with
  | None => n = 1 /\ present now k r' = Some ("1", Some (now + seconds * 1000000000))
  | Some (v, t) => exists c, parse_int v = Some c /\ n = c + 1 /\ n < 2 ^ 63 /\
      r' = if n =? 1 then redis_expire now k seconds (<[k := (itoa n, t)]> r) else <[k := (itoa n, t)]> r
  end.
Proof.
  intros Hs. unfold incrementWithExpireScript, redis_incr. rewrite (proj2 (Z.ltb_lt _ _) Hs).
  destruct (present now k r) as [[v t]|] eqn:E.
  - destruct (parse_int v) as [c|]; [|done]. cbn [mbind option_bind]. destruct (Z.ltb_spec c (2 ^ 63 - 1)); [|done].
    intros [= <- <-]. exists c. split_and!; try done; [lia|]. by destruct (c + 1 =? 1).
  - intros [= <- <-]. split; [done|]. cbn. unfold redis_expire. rewrite present_insert. cbn.
    rewrite present_insert. cbn. by rewrite (proj2 (Z.leb_le _ _)) by lia.
Qed.

(** ** Commands on other keys *)
Definition same_at (k : string) (r r' : redis) : Prop := r' !! k = r !! k.
#[export] Instance same_at_preorder k : PreOrder (same_at k).
Proof. split; [by intros r|]. unfold same_at. intros r1 r2 r3 H1 H2. congruence. Qed.

Section Elsewhere.
Context (now : Z) (key k : string) (Hne : key <> k).
Lemma SetIfAbsent_elsewhere v ttl : steps (same_at k) (SetIfAbsent now key v ttl).
Proof.
  apply steps_wrap_err, steps_command; [exact _|]. intros d. unfold same_at.
  destruct (present now key d); [done|]. by apply lookup_insert_ne.
Qed.
Lemma ConsumeIfValue_elsewhere v : steps (same_at k) (ConsumeIfValue now key v).
Proof.
  apply steps_wrap_err, steps_command; [exact _|]. intros d. unfold same_at, compareAndDeleteScript.
  destruct (redis_get now key d); [|done]. case_bool_decide; [|done]. by apply lookup_delete_ne.
Qed.
Lemma DeleteIfValue_elsewhere v : steps (same_at k) (DeleteIfValue now key v).
Proof. apply steps_bind; [exact _|apply ConsumeIfValue_elsewhere|]. intros []; apply steps_ret; exact _. Qed.
Lemma incr_elsewhere r n r' : redis_incr now key r = Some (n, r') -> r' !! k = r !! k.
Proof.
  unfold redis_incr. destruct (present now key r) as [[v t]|].
  - destruct (parse_int v) as [c|]; [|done]. cbn. destruct (c <? _); [|done]. intros [= <- <-]. by apply lookup_insert_ne.
  - intros [= <- <-]. by apply lookup_insert_ne.
Qed.
Lemma IncrementWithExpiry_elsewhere ttl : steps (same_at k) (IncrementWithExpiry now key ttl).
Proof.
  apply steps_wrap_err, steps_command; [exact _|]. intros d. unfold same_at, incrementWithExpireScript.
  destruct (redis_incr now key d) as [[n r']|] eqn:E; [|done]. apply incr_elsewhere in E. cbn. rewrite <- E.
  destruct (_ && _); [|done]. unfold redis_expire. destruct (present now key r') as [[v t]|]; [|done].
  by apply lookup_insert_ne.
Qed.
End Elsewhere.

(** ** Sequences of calls *)

(** Calls of one operation, each at its time and with the faults it meets. *)
Fixpoint calls {A} (m : Z -> M redis A) (cs : list (Z * list (option string))) (r : redis) : list (outcome A) :=
  match cs with
  | [] => []
  | (now, faults) :: cs => let '(a, s) := m now (Env r faults) in a :: calls m cs (e_db s)
  end.
(** How often an answer was given. *)
Fixpoint answers (b : bool) (l : list (outcome bool)) : Z :=
  match l with
  | [] => 0
  | a :: l => (match a with Ret b' => if Bool.eqb b' b then 1 else 0 | _ => 0 end) + answers b l
  end.

Lemma answers_nonneg b l : 0 <= answers b l.
Proof. induction l as [|[b'| |] l IH]; cbn; [done| |lia..]. destruct (Bool.eqb b' b); lia. Qed.

(** After one call: an answer [b] is counted by the invariant and within the bound;
    after any other result the count stands. *)
Definition answered (b : bool) (I : Z -> redis -> Prop) (max k : Z) (x : outcome bool * env redis) : Prop :=
  match x.1 with
  | Ret b' => if Bool.eqb b' b then I (k + 1) (e_db x.2) /\ k + 1 <= max else I k (e_db x.2)
  | _ => I k (e_db x.2)
  end.
Lemma calls_bounded b (I : Z -> redis -> Prop) max (ok : Z -> Prop) m :
  (forall k r now faults, 0 <= k -> I k r -> ok now -> answered b I max k (m now (Env r faults))) ->
  forall cs k r, Forall (fun c => ok c.1) cs -> 0 <= k <= max -> I k r -> k + answers b (calls m cs r) <= max.
Proof.
  intros Hm. induction cs as [|[now faults] cs IH]; intros k r Hok Hk Hi; cbn; [lia|].
  apply Forall_cons in Hok as [Ho Hok]. cbn in Ho. specialize (Hm k r now faults ltac:(lia) Hi Ho).
  unfold answered in Hm. destruct (m now (Env r faults)) as [[b'|e|p] s]; cbn in *; [|by apply IH..].
  destruct (Bool.eqb b' b); [|by apply IH]. destruct Hm as [Hi' Hb]. specialize (IH (k + 1) (e_db s) Hok ltac:(lia) Hi'). lia.
Qed.

(** ** Counters in a window *)
Section Counter.
Context (key : string) (t0 seconds : Z) (Hwindow : 0 < seconds).
(** The end of the window that starts at [t0]. *)
Definition horizon : Z := t0 + seconds * 1000000000.

(** After [k] counted calls: none yet, or the counter is there for the rest of the
    window and has counted them. *)
Definition counter (k : Z) (r : redis) : Prop :=
  (k = 0 /\ present t0 key r = None) \/
  exists v c t, r !! key = Some (v, t) /\ alive horizon (v, t) = true /\ parse_int v = Some c /\ 0 < c /\ k <= c.

Lemma counter_present k r now v t :
  counter k r -> t0 <= now <= horizon -> present now key r = Some (v, t) ->
  exists c, parse_int v = Some c /\ 0 < c /\ k <= c /\ alive horizon (v, t) = true.
Proof.
  intros [[-> H]|(v' & c & t' & H & Ha & Hp & Hc)] Hn Hf.
  - by rewrite (present_earlier t0 now key r (v, t) ltac:(lia) Hf) in H.
  - unfold present in Hf. rewrite H in Hf. destruct (alive now (v', t')); [|done]. injection Hf as <- <-. exists c. tauto.
Qed.
Lemma counter_absent k r now : counter k r -> now <= horizon -> present now key r = None -> k = 0.
Proof.
  intros [[-> H]|(v & c & t & H & Ha & Hp & Hc)] Hn Hf; [done|].
  unfold present in Hf. rewrite H in Hf. assert (alive now (v, t) = true) as E; [|by rewrite E in Hf].
  destruct t as [t|]; [|done]. unfold alive in *. cbn in *. apply Z.leb_le in Ha. apply Z.leb_le. lia.
Qed.
Lemma counter_weaken n k r : counter n r -> 1 <= n -> k <= n -> counter k r.
Proof.
  intros [[-> _]|(v & c & t & H & Ha & Hp & Hc & Hn)] H1 Hk; [lia|].
  right. exists v, c, t. split_and!; try done. lia.
Qed.
(** Only the counter's own key matters. *)
Lemma counter_ext k r r' : r' !! key = r !! key -> counter k r -> counter k r'.
Proof. intros E. unfold counter, present. by rewrite E. Qed.

(** The script counts the call. *)
Lemma counter_incr k r now n r' :
  counter k r -> t0 <= now <= horizon ->
  incrementWithExpireScript now key seconds r = Some (n, r') -> k + 1 <= n /\ counter n r'.
Proof.
  intros Hc Hn H. apply incr_script in H; [|done].
  destruct (present now key r) as [[v t]|] eqn:Ef.
  - destruct (counter_present k r now v t Hc Hn Ef) as (c & Hp & Hpos & Hk & Ha).
    destruct H as (c' & Hp' & -> & Hb & ->). rewrite Hp in Hp'. injection Hp' as <-. split; [lia|].
    rewrite (proj2 (Z.eqb_neq _ _)) by lia. right. exists (itoa (c + 1)), (c + 1), t.
    rewrite lookup_insert_eq. split_and!; [done| |apply parse_int_itoa; lia|lia|lia].
    by destruct t.
  - destruct H as [-> H]. pose proof (counter_absent k r now Hc ltac:(lia) Ef) as ->. split; [lia|].
    right. unfold present in H. destruct (r' !! key) as [[v t]|]; [|done]. destruct (alive now (v, t)); [|done].
    injection H as -> ->. exists "1", 1, (Some (now + seconds * 1000000000)). split_and!; try done.
    unfold alive, horizon. cbn. apply Z.leb_le. lia.
Qed.
(** The command around it: a count returned has grown, a failure loses none. *)
Lemma IncrementWithExpiry_counter k s now ttl :
  0 <= k -> counter k (e_db s) -> t0 <= now <= horizon -> Z.quot ttl 1000000000 = seconds ->
  match IncrementWithExpiry now key ttl s with
  | (Ret n, s') => k + 1 <= n /\ counter n (e_db s')
  | (_, s') => counter k (e_db s')
  end.
Proof.
  intros H0 Hc Hn Hs. unfold IncrementWithExpiry, wrap_err. rewrite Hs.
  match goal with |- context [command ?f s] => pose proof (command_cases f s) as C;
    destruct (command f s) as [[n|err|p] s2] end.
  all: destruct (incrementWithExpireScript now key seconds (e_db s)) as [[n' r']|] eqn:Ei; try done.
  - injection C as -> <-. by apply (counter_incr k (e_db s) now).
  - destruct (counter_incr k (e_db s) now n' r' Hc Hn Ei) as [Hk Hc'].
    destruct C as [->| ->]; [done|]. by apply (counter_weaken n'); [|lia..].
  - by destruct C as [->| ->].
Qed.
End Counter.

(** ** Failed attempts *)
Section Attempts.
Context (s : attempt_options) (failK lockK : string) (Hkeys : failK <> lockK).
Context (t0 : Z).
Notation seconds := (Z.quot (window s) 1000000000).
Notation horizon := (horizon t0 seconds).
Context (Hwindow : 0 < seconds) (Hlock : seconds * 1000000000 <= lockTTL s) (Hmax : 0 < maxFailures s).

(** After [k] failures answered [false]: counted, or locked for the rest of the window. *)
Definition counted (k : Z) (r : redis) : Prop :=
  present horizon lockK r <> None \/ counter failK t0 seconds k r.
Lemma counted_unlocked k r now : counted k r -> now <= horizon -> present now lockK r = None -> counter failK t0 seconds k r.
Proof.
  intros [H|H] Hn Hl; [|done]. destruct (present horizon lockK r) as [e|] eqn:E; [|done].
  by rewrite (present_earlier now horizon lockK r e Hn E) in Hl.
Qed.
Lemma counted_locked k r e : r !! lockK = Some e -> alive horizon e = true -> counted k r.
Proof. intros H Ha. left. unfold present. by rewrite H, Ha. Qed.

Lemma lock_alive now : t0 <= now -> alive horizon ("1", deadline now (lockTTL s)) = true.
Proof.
  intros H. unfold alive, deadline. rewrite (proj2 (Z.ltb_lt _ _)) by lia. cbn. apply Z.leb_le. unfold horizon. lia.
Qed.
(** Setting the lock and deleting the counter. *)
Lemma lock_counted k s2 now :
  t0 <= now -> counted k (e_db s2) ->
  counted k (e_db ((SetKey now lockK "1" (lockTTL s) ;;; Delete now failK ;;; ret true) s2).2).
Proof.
  intros Hn Hc. pose proof (lock_alive now Hn) as Ha. unfold bind at 1, SetKey.
  match goal with |- context [command ?f s2] => pose proof (command_cases f s2) as C;
    destruct (command f s2) as [[u|err|p] s3] end; cbn [snd] in *; [| |done].
  - assert (redis_set now lockK "1" (lockTTL s) (e_db s2) = e_db s3) as C' by congruence. clear C.
    unfold bind, Delete, wrap_err.
    match goal with |- context [command ?f s3] => pose proof (command_cases f s3) as C3;
      destruct (command f s3) as [[b|err|p] s4] end; cbn [snd ret] in *; [| |done].
    + injection C3 as _ <-. eapply counted_locked; [|exact Ha]. rewrite <- C'.
      rewrite lookup_delete_ne by done. apply lookup_insert_eq.
    + eapply counted_locked; [|exact Ha]. destruct C3 as [->| ->]; rewrite <- C'; [apply lookup_insert_eq|].
      rewrite lookup_delete_ne by done. apply lookup_insert_eq.
  - destruct C as [->| ->]; [done|]. eapply counted_locked; [apply lookup_insert_eq|exact Ha].
Qed.

(** A call of [record_failure], whatever fails. *)
Lemma record_failure_counted k r faults now :
  0 <= k -> counted k r -> t0 <= now <= horizon ->
  answered false counted (maxFailures s - 1) k (record_failure s failK lockK now (Env r faults)).
Proof.
  intros H0 Hc Hn. unfold record_failure, is_locked. unfold bind at 1 2.
  pose proof (GetKey_reads now lockK (Env r faults)) as E. cbn [e_db] in E.
  destruct (GetKey now lockK (Env r faults)) as [[v|e|p] s1] eqn:Eg; cbn [snd] in E;
    [|unfold answered; cbn; by rewrite <- E..].
  apply GetKey_Ret in Eg as [-> _]. unfold redis_get. cbn [ret e_db].
  destruct (present now lockK r) as [e|] eqn:El; cbn; [unfold answered; cbn; by rewrite <- E|].
  apply (counted_unlocked k r now) in Hc; [|lia|done]. rewrite E in Hc. unfold bind at 1.
  pose proof (IncrementWithExpiry_counter failK t0 seconds Hwindow k s1 now (window s) H0 Hc Hn eq_refl) as C.
  destruct (IncrementWithExpiry now failK (window s) s1) as [[n|err|p] s2]; [|unfold answered; cbn; by right..].
  destruct C as [Hk Hc']. assert (counted k (e_db s2)) as Hd by (right; by apply (counter_weaken failK t0 seconds n); [|lia..]).
  destruct (Z.leb_spec (maxFailures s) n).
  - pose proof (lock_counted k s2 now ltac:(lia) Hd) as Hl.
    unfold answered. destruct ((SetKey _ _ _ _ ;;; _) s2) as [[[]|e|p] s3] eqn:Es; cbn in *; try done.
    exfalso. clear -Es. minv.
  - unfold answered. cbn. split; [|lia]. right. by apply (counter_weaken failK t0 seconds n); [|lia..].
Qed.

Lemma failures_bounded cs r :
  Forall (fun c => t0 <= c.1 <= horizon) cs -> present t0 failK r = None ->
  answers false (calls (record_failure s failK lockK) cs r) < maxFailures s.
Proof.
  intros Hok Hr. assert (0 + answers false (calls (record_failure s failK lockK) cs r) <= maxFailures s - 1); [|lia].
  eapply (calls_bounded false counted _ (fun now => t0 <= now <= horizon)); [|exact Hok|lia|right; by left].
  intros. by apply record_failure_counted.
Qed.
End Attempts.

(** A store method on an identifier that has no key answers nothing. *)
Lemma calls_refused b (m : Z -> M redis bool) err cs r : (forall now, m now = fail err) -> answers b (calls m cs r) = 0.
Proof. intros H. induction cs as [|[now f] cs IH]; cbn; [done|]. rewrite H. cbn. lia. Qed.

(** Whatever commands fail or lose their answers, an account (or address) is told that
    it may try again fewer than [max] times within the window of its first failure:
    every further failure is answered with a lock or an error. *)
Theorem login_failures_bounded digest max win ttl identifier t0 cs r :
  let s := loginattempt.NewRedisStoreWithOptions max win ttl in
  Second <= window s <= lockTTL s ->
  Forall (fun c => t0 <= c.1 <= t0 + Z.quot (window s) Second * Second) cs ->
  (forall key, loginattempt.failKey digest identifier = inl key -> present t0 key r = None) ->
  answers false (calls (fun now => loginattempt.RecordFailure digest s now identifier) cs r) < maxFailures s.
Proof.
  intros s Hw Hcs Hr. assert (0 < maxFailures s) as Hmax by (cbn; destruct (Z.leb_spec max 0); [done|lia]).
  unfold loginattempt.RecordFailure, loginattempt.failKey, loginattempt.lockKey in *.
  unfold loginattempt.keyedIdentifier in *. case_bool_decide as He.
  { erewrite calls_refused by done. lia. }
  cbn [with_key]. unfold Second in *. apply (failures_bounded s) with (t0 := t0); try done; [| |by apply Hr].
  - pose proof (Z.quot_le_mono 1000000000 (window s) 1000000000 ltac:(lia) ltac:(lia)) as Hq. rewrite Z.quot_same in Hq; lia.
  - pose proof (Z.mul_quot_le (window s) 1000000000 ltac:(lia) ltac:(lia)). lia.
Qed.

Lemma login_failures_bounded_witness :
  answers false (calls (fun now => loginattempt.RecordFailure (fun x => x) loginattempt.NewRedisStore now "bob")
    [(1, []); (2, [None; None; None; Some "lost"]); (3, []); (4, [Some "down"]); (5, []); (6, []); (7, [])] ∅) = 3 /\
  answers true (calls (fun now => loginattempt.RecordFailure (fun x => x) loginattempt.NewRedisStore now "bob")
    [(1, []); (2, [None; None; None; Some "lost"]); (3, []); (4, [Some "down"]); (5, []); (6, []); (7, [])] ∅) = 2 /\
  answers false (calls (fun now => loginattempt.RecordFailure (fun x => x) loginattempt.NewRedisStore now "bob")
    [(1, []); (2, [None; None; None; Some "lost"]); (3, []); (4, [Some "down"]); (5, []); (6, []); (7, [])] ∅) < 5.
Proof.
  split; [by vm_compute|]. split; [by vm_compute|].
  apply (login_failures_bounded (fun x => x) 5 (15 * Minute) (15 * Minute) "bob" 1).
  - vm_compute. split; discriminate.
  - repeat constructor; vm_compute; discriminate.
  - done.
Defined.

(** ** Codes sent *)
Section Sends.
Context (s : smslimit.options) (cK wK : string) (Hkeys : cK <> wK).
Notation seconds := (Z.quot (smslimit.win s) 1000000000).
Notation take := (smslimit.take s cK wK).

(** The rest of [take] once the cooldown is reserved. *)
Lemma release_elsewhere now : steps (same_at wK) (DeleteIfValue now cK "1").
Proof. by apply DeleteIfValue_elsewhere. Qed.

Lemma take_counted t0 k r faults now :
  0 < seconds -> 0 <= k -> counter wK t0 seconds k r -> t0 <= now <= horizon t0 seconds ->
  answered true (counter wK t0 seconds) (smslimit.maxSends s) k (take now (Env r faults)).
Proof.
  intros Hw H0 Hc Hn. unfold smslimit.take. unfold bind at 1.
  pose proof (SetIfAbsent_elsewhere now cK wK Hkeys "1" (smslimit.cooldown s) (Env r faults)) as E. cbn [e_db] in E.
  destruct (SetIfAbsent now cK "1" _ _) as [[[]|e|p] s1]; cbn [snd] in E;
    [|unfold answered; cbn; by apply (counter_ext _ _ _ _ r)..].
  apply (counter_ext _ _ _ _ _ _ E) in Hc. clear E. cbn [negb]. unfold bind at 1, attempt at 1.
  pose proof (IncrementWithExpiry_counter wK t0 seconds Hw k s1 now (smslimit.win s) H0 Hc Hn eq_refl) as C.
  destruct (IncrementWithExpiry now wK (smslimit.win s) s1) as [[n|err|p] s2]; cbn [answered fst snd] in *; [| |done].
  - destruct C as [Hk Hc']. destruct (Z.ltb_spec (smslimit.maxSends s) n); unfold bind.
    + pose proof (release_elsewhere now s2) as E. assert (counter wK t0 seconds k (e_db s2)) as Hd by (by apply (counter_weaken _ _ _ n); [|lia..]).
      destruct (DeleteIfValue now cK "1" s2) as [[b|e|p] s3]; cbn in *; unfold answered; cbn; by apply (counter_ext _ _ _ _ _ _ E).
    + unfold answered. cbn. split; [|lia]. by apply (counter_weaken _ _ _ n); [|lia..].
  - unfold bind, attempt. pose proof (release_elsewhere now s2) as E.
    destruct (DeleteIfValue now cK "1" s2) as [[b|e|p] s3]; cbn in *; unfold answered; cbn; by apply (counter_ext _ _ _ _ _ _ E).
Qed.

(** The cooldown a successful call leaves, and what it does to the next ones. *)
Definition cooling (until : Z) (k : Z) (r : redis) : Prop := k = 0 /\ r !! cK = Some ("1", Some until).
Lemma take_cools now r faults s' :
  0 < smslimit.cooldown s -> take now (Env r faults) = (Ret true, s') -> cooling (now + smslimit.cooldown s) 0 (e_db s').
Proof.
  intros Hc H. unfold smslimit.take in H. apply bind_Ret in H as (b & s1 & H1 & H).
  destruct b; [|done]. cbn [negb] in H. apply bind_Ret in H as (q & s2 & H2 & H).
  apply wrap_err_Ret, command_Ret in H1. cbn [e_db] in H1. destruct (present now cK r); [done|].
  assert (redis_set now cK "1" (smslimit.cooldown s) r = e_db s1) as E1 by congruence. clear H1.
  pose proof (steps_attempt (same_at cK) _ (IncrementWithExpiry_elsewhere now wK cK ltac:(done) (smslimit.win s)) s1) as E2.
  rewrite H2 in E2. cbn [snd] in E2. unfold same_at in E2.
  destruct q as [n|err]; [|apply bind_Ret in H as ([c|c] & s3 & _ & H); done].
  destruct (smslimit.maxSends s <? n).
  - exfalso. clear -H. minv.
  - injection H as <-. split; [done|]. rewrite E2, <- E1. unfold redis_set, deadline. rewrite (proj2 (Z.ltb_lt _ _)) by lia.
    apply lookup_insert_eq.
Qed.
Lemma take_cooling until k r faults now :
  cooling until k r -> now <= until -> answered true (cooling until) 0 k (take now (Env r faults)).
Proof.
  intros Hc Hn. unfold smslimit.take. unfold bind at 1.
  assert (present now cK r = Some ("1", Some until)) as Hp.
  { unfold present. destruct Hc as [_ ->]. unfold alive. cbn. by rewrite (proj2 (Z.leb_le _ _)). }
  unfold SetIfAbsent, wrap_err.
  match goal with |- context [command ?f ?e] => pose proof (command_cases f e) as C; destruct (command f e) as [[b|err|p] s1] end;
    cbn [e_db] in C; rewrite Hp in C; [| |done].
  - injection C as <- C. unfold answered. cbn. by rewrite <- C.
  - unfold answered. cbn. by destruct C as [->| ->].
Qed.
End Sends.

(** C15: for each mobile number and each kind of code (the kinds have counters of
    their own), with a window of at least a second, counted in whole seconds, and a
    positive cooldown, whatever commands fail or lose their answers: at most [maxSends]
    codes are allowed within the window from a time when no send is on record, and
    none within the cooldown of one that was allowed. *)
Theorem sms_sends_limited digest s mobile codeType t0 cs r :
  let Take := fun now => smslimit.Take digest s now mobile codeType in
  Second <= smslimit.win s -> 0 < smslimit.cooldown s -> 0 <= smslimit.maxSends s ->
  (Forall (fun c => t0 <= c.1 <= t0 + Z.quot (smslimit.win s) Second * Second) cs ->
   (forall key, smslimit.windowKey digest mobile codeType = inl key -> present t0 key r = None) ->
   answers true (calls Take cs r) <= smslimit.maxSends s) /\
  (forall faults s', Take t0 (Env r faults) = (Ret true, s') ->
   Forall (fun c => c.1 <= t0 + smslimit.cooldown s) cs -> answers true (calls Take cs (e_db s')) = 0).
Proof.
  intros Take Hw Hc Hm. unfold Take, smslimit.Take, smslimit.cooldownKey, smslimit.windowKey, smslimit.keyedMobile in *.
  case_bool_decide as He.
  { split; intros; [|done]. erewrite calls_refused by done. lia. }
  cbn [with_key]. set (d := digest _). set (cK := smslimit.cooldownKeyPrefix +:+ d). set (wK := smslimit.windowKeyPrefix +:+ d).
  assert (cK <> wK) as Hne by done. unfold Second in *. split.
  - intros Hcs Hr. set (sec := Z.quot (smslimit.win s) 1000000000) in *.
    assert (0 < sec) as Hs.
    { pose proof (Z.quot_le_mono 1000000000 (smslimit.win s) 1000000000 ltac:(lia) ltac:(lia)) as Hq. rewrite Z.quot_same in Hq; lia. }
    apply (calls_bounded true (counter wK t0 sec) (smslimit.maxSends s) (fun now => t0 <= now <= horizon t0 sec)
             (smslimit.take s cK wK) ltac:(intros; by apply take_counted) cs 0); [done|lia|left; split; [done|by apply Hr]].
  - intros faults s' H Hcs. apply take_cools in H; [|done..].
    pose proof (calls_bounded true (cooling cK (t0 + smslimit.cooldown s)) 0 (fun now => now <= t0 + smslimit.cooldown s) (smslimit.take s cK wK)
      ltac:(intros; by apply take_cooling) cs 0 (e_db s') Hcs ltac:(lia) H).
    pose proof (answers_nonneg true (calls (smslimit.take s cK wK) cs (e_db s'))).
    change (answers true (calls (smslimit.take s cK wK) cs (e_db s')) = 0). lia.
Qed.

Lemma sms_sends_limited_witness :
  let Take := fun now => smslimit.Take (fun x => x) smslimit.NewRedisStore now "13800000000" 1 in
  let cs := map (fun i => (i * 61 * Second, [])) (seqZ 0 12) in
  answers true (calls Take cs ∅) = 10 /\ answers true (calls Take cs ∅) <= 10 /\
  (Take 0 (Env ∅ [])).1 = Ret true /\ answers true (calls Take [(60 * Second, [])] (e_db (Take 0 (Env ∅ [])).2)) = 0.
Proof.
  intros Take cs. split_and!; [by vm_compute| |by vm_compute|].
  - apply (sms_sends_limited (fun x => x) smslimit.NewRedisStore "13800000000" 1 0); [done..| |done].
    apply Forall_forall. intros c [i [-> Hi%elem_of_seqZ]]%list_elem_of_fmap. change (Z.quot _ _) with 86400.
    unfold Second. cbn [fst]. lia.
  - destruct (Take 0 (Env ∅ [])) as [o s'] eqn:E. cbn [snd].
    assert (o = Ret true) as -> by (apply (f_equal fst) in E; vm_compute in E; by rewrite E).
    eapply (sms_sends_limited (fun x => x) smslimit.NewRedisStore "13800000000" 1 0 [(60 * Second, [])] ∅); [done..|exact E|].
    repeat constructor; done.
Defined.
