(* ===== verification/UserGateway.v ===== *)
(** * The accounts part of the API gateway

    [app/goshop/api/internal/data/rpc/user.go] (Module [rpc]), the client of the user
    service; [service/user/v1/user.go], [user_security.go] and [user_session.go]
    (Module [userGateway]): logins with their limits, registration, sessions and
    logout; and the check of a request's token in [app/goshop/api/auth.go] (Module
    [apiAuth]).  The operations run over the tables of the user service and the keys
    of Redis ([gate]).  An operation reads the clock once, and takes what it draws
    (a refresh token, a device id) as arguments.  Signing and parsing of JWTs and the
    two digests are parameters.  The receiver of a method is never nil, and [rpc]'s
    client implements the session and device interfaces; that a store is missing is
    kept.  Named specifications and their codes give the same error, so [NewSpec] is
    written [newCode]. *)
From S2P Require Import Prelude GoStrings Errors GoMonad ErrorTransport Authz Tables UserModel UserStore SessionStore.
From S2P Require Import UserSessions UserValidation UserAccounts OrderGateway Redis RedisStores.
Open Scope go_scope.

(** ** The client of the user service *)
Record CreateSessionRequest := MkCreateSessionRequest {
  CsUserId : Z; CsDeviceId : string; CsDeviceName : string; CsClientIp : string; CsLocation : string;
  CsRefreshTokenHash : string; CsExpiresAt : Z; CsPrincipalType : string
}.
Record SessionResponse := MkSessionResponse {
  SrId : string; SrUserId : Z; SrDeviceId : string; SrDeviceName : string; SrExpiresAt : Z
}.
Record UserSessionRecord := MkUserSessionRecord {
  UrId : string; UrDeviceId : string; UrDeviceName : string; UrClientIp : string; UrLocation : string;
  UrCreatedAt : Z; UrLastUsedAt : Z; UrExpiresAt : Z; UrRevokedAt : Z; UrActive : bool
}.
Record UserClient (D : Type) := MkUserClient {
  GetUserById : Z -> M D (option UserInfoResponse);
  GetUserByMobile : string -> M D (option UserInfoResponse);
  GetUserAuthById : Z -> M D (option UserAuthResponse);
  GetUserAuthByMobile : string -> M D (option UserAuthResponse);
  CreateUser : CreateUserInfo -> M D (option UserInfoResponse);
  UpdateUser : UpdateUserInfo -> M D unit;
  DeleteUser : Z -> M D unit;
  CheckPassWord : string * string -> M D (option bool);
  RecordLogin : Z -> Z -> M D unit;
  CreateSession : CreateSessionRequest -> M D (option SessionResponse);
  RefreshSession : string -> string -> string -> Z -> M D (option SessionResponse);
  RevokeSession : Z -> string -> M D unit;
  RevokeAllSessions : Z -> M D unit;
  ValidateSession : Z -> string -> M D bool;
  ListUserSessions : Z -> Z -> Z -> M D (Z * list UserSessionRecord);
  ListDeviceBlacklist : Z -> Z -> Z -> M D (Z * list DeviceBlacklistDO.t);
  AddDeviceBlacklist : Z -> string -> M D unit;
  DeleteDeviceBlacklist : Z -> string -> M D unit
}.
Arguments GetUserById {D}. Arguments GetUserByMobile {D}. Arguments GetUserAuthById {D}.
Arguments GetUserAuthByMobile {D}. Arguments CreateUser {D}. Arguments UpdateUser {D}. Arguments DeleteUser {D}.
Arguments CheckPassWord {D}. Arguments RecordLogin {D}. Arguments CreateSession {D}. Arguments RefreshSession {D}.
Arguments RevokeSession {D}. Arguments RevokeAllSessions {D}. Arguments ValidateSession {D}.
Arguments ListUserSessions {D}. Arguments ListDeviceBlacklist {D}. Arguments AddDeviceBlacklist {D}.
Arguments DeleteDeviceBlacklist {D}.

(** ** [data/user.go] *)
Module data.
Record Session := MkSession { SeID : string; SeUserID : Z; SeDeviceID : string; SeDeviceName : string; SeExpiresAt : Z }.
Definition no_session : Session := MkSession "" 0 "" "" 0.
(** A row of [SessionList]; [RevokedAt] is the optional time. *)
Record SessionItem := MkSessionItem {
  SiID : string; SiUserID : Z; SiDeviceID : string; SiDeviceName : string; SiClientIP : string; SiLocation : string;
  SiCreatedAt : Z; SiLastUsedAt : Z; SiExpiresAt : Z; SiRevokedAt : option Z; SiActive : bool
}.
Record User := MkUser {
  ID : Z; Username : string; Mobile : string; Email : string; NickName : string; Birthday : Z; Gender : string;
  LegacyRole : Z; Status : string; MobileVerified : bool; EmailVerified : bool; LastLoginAt : option Z
}.
Record UserAuth := MkUserAuth { AuthUser : User; PasswordHash : string; StaffRoles : list string; Permissions : list string }.
Record UserCreate := MkUserCreate {
  NewUsername : string; NewMobile : string; NewEmail : string; NewNickName : string; NewPassWord : string;
  NewMobileVerified : bool; NewEmailVerified : bool
}.
End data.
Import data.

(** What a handler's context offers: the headers of the request and its address. *)
Record ginContext := MkGinContext { GetHeader : string -> string; ClientIP : string }.

(** A string cut after [n] bytes. *)
Definition cut (n : nat) (s : string) : string := if Nat.ltb n (slength s) then implode (take n (explode s)) else s.

(** [uint32(x)] *)
Definition wrapu32 (x : Z) : Z := x mod 2 ^ 32.

(** ** [data/rpc/user.go] *)
Module rpc.
Section Users.
Context {D : Type} `{G : grpc_status} (sha256 : string -> string) (uc : UserClient D).

Definition user_not_found : goerr := newCode ErrUserNotFound "用户不存在".
Definition password_incorrect : goerr := newCode ErrUserPasswordIncorrect "密码错误".

(** [userRPCError]; [status.Code] of an error that is no status is [Unknown], and
    [status.Convert] gives a status its message. *)
Definition userRPCError (err : goerr) (invalidArgumentCode : Z) : goerr :=
  match httperror.SpecFromGRPC err with
  | Some spec =>
    if Code spec =? ErrValidation then NewValidationError (Message spec)
    else NewSpec app_codes spec "user service request failed"
  | None =>
    match FromError err with
    | Some (code, message, _) =>
      if code =? codes.NotFound then user_not_found
      else if (code =? codes.Aborted) || (code =? codes.AlreadyExists) then
        newCode ErrUserAlreadyExists "user service reported a duplicate user"
      else if code =? codes.InvalidArgument then
        if (invalidArgumentCode =? ErrValidation) && negb (seqb message "") then NewValidationError message
        else newCode invalidArgumentCode message
      else err
    | None => err
    end
  end.

Definition publicUserFromResponse (user : UserInfoResponse) : User :=
  MkUser (wrapu64 (RspId user)) (RspUsername user) (RspMobile user) (RspEmail user) (RspNickName user)
    (unix_time (RspBirthDay user)) (RspGender user) 0 (RspStatus user) (RspMobileVerified user) (RspEmailVerified user)
    (if 0 <? RspLastLoginAt user then Some (unix_time (RspLastLoginAt user)) else None).
Definition with_role (role : Z) (u : User) : User :=
  MkUser (ID u) (Username u) (Mobile u) (Email u) (NickName u) (Birthday u) (Gender u) role (Status u)
    (MobileVerified u) (EmailVerified u) (LastLoginAt u).
Definition authUserFromResponse (user : UserAuthResponse) : UserAuth :=
  MkUserAuth (with_role (RspLegacyRole user) (publicUserFromResponse (AuthInfo user))) (RspPasswordHash user)
    (RspStaffRoles user) (RspPermissions user).
Definition sessionFromResponse (resp : option SessionResponse) : Session :=
  match resp with
  | None => no_session
  | Some r => MkSession (SrId r) (wrapu64 (SrUserId r)) (SrDeviceId r) (SrDeviceName r) (unix_time (SrExpiresAt r))
  end.

(** [at.Unix()] *)
Definition unix (t : Z) : Z := t `div` 1000000000.

(** [strings.Split(forwarded, ",")[0]] *)
Definition first_part (s : string) : string := match Split s ","%char with p :: _ => p | [] => s end.
Definition sessionClientMetadata (ctx : ginContext) : string * string :=
  let clientIP := TrimSpace (GetHeader ctx "X-Real-IP") in
  let forwarded := TrimSpace (GetHeader ctx "X-Forwarded-For") in
  let clientIP := if negb (seqb forwarded "") then TrimSpace (first_part forwarded) else clientIP in
  let clientIP := if seqb clientIP "" then TrimSpace (ClientIP ctx) else clientIP in
  (cut 45 clientIP, cut 255 (TrimSpace (GetHeader ctx "X-Device-Location"))).

Definition RecordLogin (userID at_ : Z) : M D unit := UserGateway.RecordLogin uc (wrap32 userID) (wrapu64 (unix at_)).
Definition CreateSession (ctx : ginContext) (userID : Z) (deviceID deviceName refreshToken : string) (expiresAt : Z)
    : M D Session :=
  let '(clientIP, location) := sessionClientMetadata ctx in
  resp <- UserGateway.CreateSession uc (MkCreateSessionRequest (wrap32 userID) deviceID deviceName clientIP location
    (sha256 refreshToken) (wrapu64 (unix expiresAt)) PrincipalCustomer) ;;
  ret (sessionFromResponse resp).
Definition RefreshSession (sessionID currentToken nextToken : string) (expiresAt : Z) : M D Session :=
  resp <- UserGateway.RefreshSession uc sessionID (sha256 currentToken) (sha256 nextToken) (wrapu64 (unix expiresAt)) ;;
  ret (sessionFromResponse resp).
Definition RevokeSession (userID : Z) (sessionID : string) : M D unit :=
  UserGateway.RevokeSession uc (wrap32 userID) sessionID.
Definition RevokeAllSessions (userID : Z) : M D unit := UserGateway.RevokeAllSessions uc (wrap32 userID).
Definition ValidateSession (userID : Z) (sessionID : string) : M D bool :=
  UserGateway.ValidateSession uc (wrap32 userID) sessionID.

Definition session_item (userID : Z) (item : UserSessionRecord) : SessionItem :=
  MkSessionItem (UrId item) userID (UrDeviceId item) (UrDeviceName item) (UrClientIp item) (UrLocation item)
    (unix_time (UrCreatedAt item)) (unix_time (UrLastUsedAt item)) (unix_time (UrExpiresAt item))
    (if UrRevokedAt item =? 0 then None else Some (unix_time (UrRevokedAt item))) (UrActive item).
Definition ListUserSessions (userID page pageSize : Z) : M D (Z * list SessionItem) :=
  resp <- wrap_err (fun _ => newCode ErrDeviceSessionUnavailable "list user sessions")
    (UserGateway.ListUserSessions uc (wrap32 userID) (wrapu32 page) (wrapu32 pageSize)) ;;
  ret (resp.1, session_item userID <$> resp.2).
Definition ListDeviceBlacklist (userID page pageSize : Z) : M D (Z * list DeviceBlacklistDO.t) :=
  UserGateway.ListDeviceBlacklist uc (wrap32 userID) (wrapu32 page) (wrapu32 pageSize).
Definition AddDeviceBlacklist (userID : Z) (deviceID : string) : M D unit :=
  UserGateway.AddDeviceBlacklist uc (wrap32 userID) deviceID.
Definition DeleteDeviceBlacklist (userID : Z) (deviceID : string) : M D unit :=
  UserGateway.DeleteDeviceBlacklist uc (wrap32 userID) deviceID.

Definition CheckPassWord (password encryptedPwd : string) : M D unit :=
  fail_if (seqb (TrimSpace encryptedPwd) "") password_incorrect ;;;
  cres <- UserGateway.CheckPassWord uc (password, encryptedPwd) ;;
  match cres with
  | Some true => ret tt
  | _ => fail password_incorrect
  end.

(** An answer of the user service that must be there. *)
Definition answered_or {A} (missing : goerr) (code : Z) (m : M D (option A)) : M D A :=
  resp <- wrap_err (fun err => userRPCError err code) m ;;
  match resp with Some a => ret a | None => fail missing end.

Definition Create (user : UserCreate) : M D User :=
  rsp <- answered_or (newCode ErrConnectGRPC "用户服务未返回创建结果") ErrValidation
    (UserGateway.CreateUser uc (MkCreateUserInfo (NewUsername user) (NewMobile user) (NewEmail user) (NewNickName user)
      (NewPassWord user) (NewMobileVerified user) (NewEmailVerified user))) ;;
  ret (publicUserFromResponse rsp).
Definition Update (user : User) : M D unit :=
  fail_if (ID user =? 0) (NewValidationError "用户信息不能为空") ;;;
  UserGateway.UpdateUser uc (MkUpdateUserInfo (wrap32 (ID user)) (NickName user) (Username user) (Email user)
    (Gender user) (wrapu64 (unix (Birthday user)))).
Definition Delete (userID : Z) : M D unit :=
  fail_if (userID =? 0) user_not_found ;;;
  wrap_err (fun err => userRPCError err ErrUserNotFound) (UserGateway.DeleteUser uc (wrap32 userID)).
Definition Get (userID : Z) : M D User :=
  fail_if (userID =? 0) user_not_found ;;;
  user <- answered_or user_not_found ErrUserNotFound (UserGateway.GetUserById uc (wrap32 userID)) ;;
  ret (publicUserFromResponse user).
Definition GetByUsername (username : string) : M D User :=
  let username := ToLower (TrimSpace username) in
  fail_if (seqb username "") user_not_found ;;;
  user <- answered_or user_not_found ErrUserNotFound (UserGateway.GetUserByMobile uc username) ;;
  ret (publicUserFromResponse user).
Definition GetByMobile (mobile : string) : M D User := GetByUsername mobile.
Definition GetAuth (userID : Z) : M D UserAuth :=
  fail_if (userID =? 0) user_not_found ;;;
  user <- answered_or user_not_found ErrUserNotFound (UserGateway.GetUserAuthById uc (wrap32 userID)) ;;
  ret (authUserFromResponse user).
Definition GetAuthByUsername (username : string) : M D UserAuth :=
  let username := ToLower (TrimSpace username) in
  fail_if (seqb username "") user_not_found ;;;
  user <- answered_or user_not_found ErrUserNotFound (UserGateway.GetUserAuthByMobile uc username) ;;
  ret (authUserFromResponse user).
End Users.
End rpc.

(** ** Tokens *)

(** [authclaims.Claims] of a customer; times are Unix seconds. *)
Record Claims := MkClaims {
  ClID : Z; ClNickName : string; ClAuthorityID : Z; ClPrincipalType : string; ClAccountStatus : string;
  ClScope : list string; ClTokenVersion : Z; ClSessionID : string; ClAudience : list string; ClNotBefore : Z;
  ClExpiresAt : Z; ClIssuer : string
}.
(** [options.JwtOptions]; durations are nanoseconds. *)
Record JwtOptions := MkJwtOptions { Realm : string; Audience : string; Key : string; Timeout : Z; MaxRefresh : Z }.
Definition AudienceValues (o : JwtOptions) : list string := if seqb (Audience o) "" then [] else [Audience o].
(** [middlewares.NewJWT(key).CreateToken] and [ParseTokenWithClaims], which checks the
    signature and the times. *)
Class jwt := {
  CreateToken : string -> Claims -> string + goerr;
  ParseTokenWithClaims : string -> Z -> string -> option Claims
}.

(** ** The state behind the gateway *)
Record gate := Gate { user_tables : user_db; keys : redis }.
Definition on_users {A} (m : M user_db A) : M gate A := fun s =>
  let '(r, s') := m (Env (user_tables (e_db s)) (e_faults s)) in
  (r, Env (Gate (e_db s') (keys (e_db s))) (e_faults s')).
Definition on_keys {A} (m : M redis A) : M gate A := fun s =>
  let '(r, s') := m (Env (keys (e_db s)) (e_faults s)) in
  (r, Env (Gate (user_tables (e_db s)) (e_db s')) (e_faults s')).

(** ** [service/user/v1] *)
Module userGateway.
Record UserDTO := MkUserDTO {
  DUser : User; DToken : string; DExpiresAt : Z; DRefreshToken : string; DRefreshExpiresAt : Z; DSessionID : string;
  DLoginRequired : bool
}.
(** A missing store is [None] or [false]; [emailCodes] is always there. *)
Record userService := MkUserService {
  users : option (UserClient gate);
  jwtOpts : option JwtOptions;
  codeStore : bool;
  loginAttempts : option attempt_options;
  loginIPAttempts : option attempt_options;
  smsAttempts : option attempt_options;
  smsRegistrationVerificationEnabled : bool;
  tokenVersions : bool
}.

Section Service.
Context `{G : grpc_status} `{J : jwt} (digest sha256 : string -> string) (us : userService).

Definition connect (what : string) : goerr := newCode ErrConnectGRPC what.
Definition login_locked (what : string) : goerr := newCode ErrUserLoginLocked what.
Definition sms_locked (what : string) : goerr := newCode ErrSmsVerifyLocked what.

(** [usersData]: the client, or the error that it is missing. *)
Definition usersData {A} (k : UserClient gate -> M gate A) : M gate A :=
  match users us with
  | Some uc => k uc
  | None => fail (connect "user data client is not initialized")
  end.
Definition tokenVersionStore : M gate unit :=
  fail_if (negb (tokenVersions us)) (connect "token version store is not initialized").
Definition normalizeLoginIdentifier (username : string) : string := ToLower (TrimSpace username).

(** *** [user_security.go] *)

(** A store's answer whether a caller is locked out; a store that cannot be asked
    locks out. *)
Definition ensure_unlocked (m : M redis bool) (unchecked exceeded : goerr) : M gate unit :=
  locked <- wrap_err (fun _ => unchecked) (on_keys m) ;;
  fail_if locked exceeded.
Definition ensurePasswordLoginIPAllowed (now : Z) (clientIP : string) : M gate unit :=
  if seqb (TrimSpace clientIP) "" then ret tt
  else match loginIPAttempts us with
       | None => ret tt
       | Some _ =>
         ensure_unlocked (loginattempt.IsLocked digest now clientIP) (login_locked "check password login attempts by ip")
           (login_locked "password login attempts by ip exceeded")
       end.
Definition ensurePasswordLoginAllowed (now : Z) (username clientIP : string) : M gate unit :=
  match loginAttempts us with
  | None => ensurePasswordLoginIPAllowed now clientIP
  | Some _ =>
    ensure_unlocked (loginattempt.IsLocked digest now username) (login_locked "check password login attempts")
      (login_locked "password login attempts exceeded") ;;;
    ensurePasswordLoginIPAllowed now clientIP
  end.

Definition record_with (store : option attempt_options) (skip : bool) (now : Z) (identifier what : string) : M gate bool :=
  match store with
  | None => ret false
  | Some o =>
    if skip then ret false
    else wrap_err (fun _ => login_locked what) (on_keys (loginattempt.RecordFailure digest o now identifier))
  end.
Definition recordPasswordLoginFailure (now : Z) (username clientIP : string) : M gate unit :=
  accountLocked <- record_with (loginAttempts us) false now username "record password login failure" ;;
  ipLocked <- record_with (loginIPAttempts us) (seqb (TrimSpace clientIP) "") now clientIP
    "record password login failure by ip" ;;
  fail_if (accountLocked || ipLocked) (login_locked "password login attempts exceeded").

(** Errors of a reset are logged. *)
Definition ignore {A} (m : M gate A) : M gate unit := r <- attempt m ;; ret tt.
Definition resetPasswordLoginFailures (now : Z) (username clientIP : string) : M gate unit :=
  (if loginAttempts us then ignore (on_keys (loginattempt.Reset digest now username)) else ret tt) ;;;
  (if loginIPAttempts us then
     if seqb (TrimSpace clientIP) "" then ret tt else ignore (on_keys (loginattempt.Reset digest now clientIP))
   else ret tt).

Definition ensureSmsCodeAllowed (now : Z) (mobile : string) (codeType : Z) : M gate unit :=
  match smsAttempts us with
  | None => ret tt
  | Some _ =>
    ensure_unlocked (smsattempt.IsLocked digest now mobile codeType) (sms_locked "check sms verification attempts")
      (sms_locked "sms verification attempts exceeded")
  end.
Definition recordSmsCodeFailure (now : Z) (mobile : string) (codeType : Z) : M gate unit :=
  match smsAttempts us with
  | None => ret tt
  | Some o =>
    ensure_unlocked (smsattempt.RecordFailure digest o now mobile codeType) (sms_locked "record sms verification failure")
      (sms_locked "sms verification attempts exceeded")
  end.
Definition resetSmsCodeFailures (now : Z) (mobile : string) (codeType : Z) : M gate unit :=
  if smsAttempts us then ignore (on_keys (smsattempt.Reset digest now mobile codeType)) else ret tt.

(** *** [user_session.go] *)
Definition ListDevices (userID page pageSize : Z) : M gate (Z * list SessionItem) :=
  match users us with
  | None => fail (connect "session store is not configured")
  | Some uc => rpc.ListUserSessions uc userID page pageSize
  end.
Definition LogoutDevice (userID : Z) (sessionID : string) : M gate unit :=
  match users us with
  | None => fail (connect "session store is not configured")
  | Some uc =>
    fail_if (seqb (TrimSpace sessionID) "") (newCode ErrUserAccountInactive "session id is required") ;;;
    rpc.RevokeSession uc userID sessionID
  end.
Definition blacklist_data {A} (k : UserClient gate -> M gate A) : M gate A :=
  match users us with Some uc => k uc | None => fail (connect "device blacklist store is not configured") end.
Definition ListDeviceBlacklist (userID page pageSize : Z) : M gate (Z * list DeviceBlacklistDO.t) :=
  blacklist_data (fun uc => rpc.ListDeviceBlacklist uc userID page pageSize).
Definition AddDeviceBlacklist (userID : Z) (deviceID : string) : M gate unit :=
  blacklist_data (fun uc => rpc.AddDeviceBlacklist uc userID deviceID).
Definition DeleteDeviceBlacklist (userID : Z) (deviceID : string) : M gate unit :=
  blacklist_data (fun uc => rpc.DeleteDeviceBlacklist uc userID deviceID).
Definition Logout (userID : Z) (sessionID : string) : M gate unit :=
  match users us with
  | Some uc => if seqb sessionID "" then ret tt else rpc.RevokeSession uc userID sessionID
  | None => ret tt
  end.

Definition currentTokenVersion (now userID : Z) : M gate Z :=
  if negb (tokenVersions us) || (userID =? 0) then ret 0
  else
    r <- attempt (on_keys (tokenversion.CurrentVersion now userID)) ;;
    ret (match r with inl version => version | inr _ => 0 end).
Definition bumpTokenVersion (now userID : Z) : M gate unit :=
  tokenVersionStore ;;;
  on_keys (tokenversion.Bump now userID) ;;; ret tt.

Definition account_inactive : goerr := newCode ErrUserAccountInactive "user account is inactive".
Definition issueAccessToken (opts : JwtOptions) (user : UserAuth) (sessionID : string) (now : Z) : M gate (string * Z) :=
  let status := NormalizeAccountStatus (Status (AuthUser user)) in
  fail_if (negb (seqb status AccountStatusActive)) account_inactive ;;;
  version <- currentTokenVersion now (ID (AuthUser user)) ;;
  let claims := MkClaims (ID (AuthUser user)) (NickName (AuthUser user)) (wrapu64 (LegacyRole (AuthUser user)))
    PrincipalCustomer status CustomerScopes version sessionID (AudienceValues opts) (rpc.unix now)
    (rpc.unix (now + Timeout opts)) (Realm opts) in
  match CreateToken (Key opts) claims with
  | inl token => ret (token, rpc.unix (now + Timeout opts))
  | inr err => fail err
  end.

(** [uuid] is drawn when the request names no device. *)
Definition loginDevice (ctx : ginContext) (uuid : string) : string * string :=
  let deviceID := TrimSpace (GetHeader ctx "X-Device-Instance-ID") in
  let deviceName := TrimSpace (GetHeader ctx "X-Device-Name") in
  let deviceID := if seqb deviceID "" then uuid else deviceID in
  let deviceName := if seqb deviceName "" then TrimSpace (GetHeader ctx "User-Agent") else deviceName in
  (cut 128 deviceID, cut 128 deviceName).

(** What a login draws: [secureToken()], empty when no randomness could be read, and
    [uuid.NewString()]. *)
Record drawn := MkDrawn { secureToken : string; newUUID : string }.

Definition no_jwt : goerr := connect "jwt options are not initialized".
(** [createToken]: token, its expiry, refresh token, its expiry, session. *)
Definition createToken (ctx : ginContext) (d : drawn) (now : Z) (user : UserAuth) : M gate (string * Z * string * Z * string) :=
  match jwtOpts us with
  | None => fail no_jwt
  | Some opts =>
    fail_if (seqb (TrimSpace (Key opts)) "" || (Timeout opts <=? 0)) no_jwt ;;;
    fail_if (negb (seqb (NormalizeAccountStatus (Status (AuthUser user))) AccountStatusActive)) account_inactive ;;;
    session <-
      match users us with
      | None => ret None
      | Some uc =>
        fail_if (seqb (secureToken d) "") (newCode ErrUnknown "create refresh token failed") ;;;
        let refreshExpiresAt := now + MaxRefresh opts in
        let '(deviceID, deviceName) := loginDevice ctx (newUUID d) in
        session <- rpc.CreateSession sha256 uc ctx (ID (AuthUser user)) deviceID deviceName (secureToken d) refreshExpiresAt ;;
        rpc.RecordLogin uc (ID (AuthUser user)) now ;;;
        ret (Some (secureToken d, refreshExpiresAt, SeID session))
      end ;;
    let sessionID := match session with Some (_, _, id) => id | None => "" end in
    t <- issueAccessToken opts user sessionID now ;;
    ret (t.1, t.2,
         match session with Some (token, _, _) => token | None => "" end,
         match session with Some (_, at_, _) => rpc.unix at_ | None => 0 end, sessionID)
  end.
Definition token_dto (user : User) (t : string * Z * string * Z * string) : UserDTO :=
  let '(token, expiresAt, refreshToken, refreshExpiresAt, sessionID) := t in
  MkUserDTO user token expiresAt refreshToken refreshExpiresAt sessionID false.

(** A nil [jwtOpts] is dereferenced. *)
Definition Refresh (d : drawn) (now : Z) (sessionID refreshToken : string) : M gate UserDTO :=
  let invalid := newCode ErrTokenInvalid "refresh token invalid" in
  match users us with
  | None => fail invalid
  | Some uc =>
    fail_if (seqb (TrimSpace sessionID) "" || seqb (TrimSpace refreshToken) "") invalid ;;;
    gateway.deref (jwtOpts us) (fun opts =>
      let refreshExpiresAt := now + MaxRefresh opts in
      session <- wrap_err (fun _ => invalid)
        (rpc.RefreshSession sha256 uc sessionID refreshToken (secureToken d) refreshExpiresAt) ;;
      user <- rpc.GetAuth uc (SeUserID session) ;;
      t <- issueAccessToken opts user (SeID session) now ;;
      ret (MkUserDTO (AuthUser user) t.1 t.2 (secureToken d) (rpc.unix refreshExpiresAt) (SeID session) false))
  end.

Definition LogoutAll (now userID : Z) : M gate unit :=
  fail_if (userID =? 0) (newCode ErrUserNotFound "user id is required") ;;;
  wrap_err (fun _ => connect "bump token version") (bumpTokenVersion now userID) ;;;
  match users us with
  | Some uc => wrap_err (fun _ => connect "revoke all sessions") (rpc.RevokeAllSessions uc userID)
  | None => ret tt
  end.

(** *** [user.go] *)
Definition code_incorrect (what : string) : goerr := newCode ErrCodeInCorrect what.
Definition code_missing : goerr := newCode ErrCodeNotExist "sms verification code was not found".
Definition bad_password : goerr := newCode ErrUserPasswordIncorrect "mobile number or password was incorrect".

Definition EmailLogin (ctx : ginContext) (d : drawn) (now : Z) (email verificationCode : string) : M gate UserDTO :=
  let email := normalizeLoginIdentifier email in
  wrap_err (fun _ => code_incorrect "email verification code did not match")
    (on_keys (emailcode.Consume digest now email "login" verificationCode)) ;;;
  usersData (fun uc =>
    user <- rpc.GetAuthByUsername uc email ;;
    fail_if (negb (EmailVerified (AuthUser user))) (newCode ErrUserAccountInactive "email has not been verified") ;;;
    t <- createToken ctx d now user ;;
    ret (token_dto (AuthUser user) t)).

Definition EmailRegister (ctx : ginContext) (d : drawn) (now : Z) (mobile email username password nickName verificationCode : string)
    : M gate UserDTO :=
  let email := normalizeLoginIdentifier email in
  wrap_err (fun _ => code_incorrect "email verification code did not match")
    (on_keys (emailcode.Consume digest now email "register" verificationCode)) ;;;
  usersData (fun uc =>
    created <- rpc.Create uc (MkUserCreate username mobile email nickName password false true) ;;
    t <- createToken ctx d now (MkUserAuth created "" [] []) ;;
    ret (token_dto created t)).

(** A lookup or a password that failed: counted when it is the caller's. *)
Definition refused {A} (now : Z) (username clientIP : string) (code : Z) (err : goerr) : M gate A :=
  if IsCode err code then
    recordPasswordLoginFailure now username clientIP ;;; fail bad_password
  else fail err.

(** [clientIP] is [loginClientIP(ctx)], the normalised address of the request. *)
Definition PasswordLogin (ctx : ginContext) (clientIP : string) (d : drawn) (now : Z) (username password : string)
    : M gate UserDTO :=
  let username := normalizeLoginIdentifier username in
  usersData (fun uc =>
    ensurePasswordLoginAllowed now username clientIP ;;;
    r <- attempt (rpc.GetAuthByUsername uc username) ;;
    match r with
    | inr err => refused now username clientIP ErrUserNotFound err
    | inl user =>
      c <- attempt (rpc.CheckPassWord uc password (PasswordHash user)) ;;
      match c with
      | inr err => refused now username clientIP ErrUserPasswordIncorrect err
      | inl _ =>
        resetPasswordLoginFailures now username clientIP ;;;
        t <- createToken ctx d now user ;;
        ret (token_dto (AuthUser user) t)
      end
    end).

(** The errors of a cancelled request are returned like any other. *)
Definition SmsLogin (ctx : ginContext) (d : drawn) (now : Z) (mobile smsCode : string) : M gate UserDTO :=
  ensureSmsCodeAllowed now mobile smscode.TypeLogin ;;;
  fail_if (negb (codeStore us)) (connect "sms code store is not initialized") ;;;
  let key := smscode.LoginKey mobile in
  value <- on_keys (smscode.Get now key) ;;
  match value with
  | None => recordSmsCodeFailure now mobile smscode.TypeLogin ;;; fail code_missing
  | Some value =>
    if negb (seqb value smsCode) then
      recordSmsCodeFailure now mobile smscode.TypeLogin ;;; fail (code_incorrect "sms verification code did not match")
    else
      resetSmsCodeFailures now mobile smscode.TypeLogin ;;;
      usersData (fun uc =>
        user <- rpc.GetAuthByUsername uc mobile ;;
        deleted <- on_keys (smscode.Delete now key) ;;
        fail_if (negb deleted) code_missing ;;;
        t <- createToken ctx d now user ;;
        ret (token_dto (AuthUser user) t))
  end.

Definition consumeRegistrationSMSCode (now : Z) (mobile code : string) : M gate unit :=
  ensureSmsCodeAllowed now mobile smscode.TypeRegister ;;;
  fail_if (negb (codeStore us)) (connect "sms code store is not initialized") ;;;
  r <- on_keys (smscode.Consume now (smscode.RegisterKey mobile) code) ;;
  match r with
  | RedisCluster.KeyNotFound => recordSmsCodeFailure now mobile smscode.TypeRegister ;;; fail code_missing
  | RedisCluster.KeyValueMismatch =>
    recordSmsCodeFailure now mobile smscode.TypeRegister ;;; fail (code_incorrect "registration sms code did not match")
  | RedisCluster.Consumed => resetSmsCodeFailures now mobile smscode.TypeRegister
  end.

Definition Register (ctx : ginContext) (d : drawn) (now : Z) (mobile email username password nickName codes : string)
    : M gate UserDTO :=
  (if smsRegistrationVerificationEnabled us then consumeRegistrationSMSCode now mobile codes else ret tt) ;;;
  usersData (fun uc =>
    createdUser <- rpc.Create uc (MkUserCreate username mobile email nickName password
      (smsRegistrationVerificationEnabled us) false) ;;
    r <- attempt (createToken ctx d now (MkUserAuth createdUser "" [] [])) ;;
    ret (match r with
         | inl t => token_dto createdUser t
         | inr _ => MkUserDTO createdUser "" 0 "" 0 "" true
         end)).

Definition DeleteAccount (now userID : Z) (password : string) : M gate unit :=
  fail_if (userID =? 0) (newCode ErrUserNotFound "用户不存在") ;;;
  fail_if (seqb (TrimSpace password) "") (newCode ErrValidation "密码不能为空") ;;;
  tokenVersionStore ;;;
  usersData (fun uc =>
    user <- rpc.GetAuth uc userID ;;
    rpc.CheckPassWord uc password (PasswordHash user) ;;;
    rpc.Delete uc userID ;;;
    wrap_err (fun _ => connect "注销账号失败") (bumpTokenVersion now userID) ;;;
    ignore (rpc.RevokeAllSessions uc userID)).

Definition Update (userDTO : option UserDTO) : M gate unit :=
  match userDTO with
  | None => fail (newCode ErrValidation "用户信息不能为空")
  | Some dto =>
    fail_if (ID (DUser dto) =? 0) (newCode ErrValidation "用户信息不能为空") ;;;
    usersData (fun uc => rpc.Update uc (DUser dto))
  end.
Definition user_dto (user : User) : UserDTO := MkUserDTO user "" 0 "" 0 "" false.
Definition Get (userID : Z) : M gate UserDTO :=
  fail_if (userID =? 0) (newCode ErrUserNotFound "用户不存在") ;;;
  usersData (fun uc => userDO <- rpc.Get uc userID ;; ret (user_dto userDO)).
Definition GetByUsername (username : string) : M gate UserDTO :=
  let username := normalizeLoginIdentifier username in
  fail_if (seqb username "") (newCode ErrUserNotFound "用户不存在") ;;;
  usersData (fun uc => userDO <- rpc.GetByUsername uc username ;; ret (user_dto userDO)).
End Service.
End userGateway.

(** ** [app/goshop/api/auth.go] and the handlers that end a session *)
Module apiAuth.
Section Auth.
Context `{G : grpc_status} `{J : jwt} (digest : string -> string).
(** The options and stores the strategy is made with; a missing store is [false]. *)
Context (opts : JwtOptions) (revokedTokens tokenVersions : bool) (users : option (UserClient gate)).

(** An answer that cannot be had is a refusal. *)
Definition or_refuse {A} (m : M gate A) (k : A -> M gate bool) : M gate bool :=
  r <- attempt m ;; match r with inl a => k a | inr _ => ret false end.

(** The authorization callback of [newJWTAuth] on the token of a request. *)
Definition authorize (now : Z) (token : string) : M gate bool :=
  or_refuse (if revokedTokens then on_keys (tokenrevocation.IsRevoked digest now token) else ret false) (fun revoked =>
  if revoked then ret false
  else match ParseTokenWithClaims (Key opts) now token with
  | None => ret false
  | Some claims =>
    match users with
    | None => ret false
    | Some uc =>
      or_refuse (rpc.Get uc (ClID claims)) (fun user =>
      if negb (seqb (NormalizeAccountStatus (Status user)) AccountStatusActive) then ret false
      else
        or_refuse (if seqb (ClSessionID claims) "" then ret true
                   else rpc.ValidateSession uc (ClID claims) (ClSessionID claims)) (fun active =>
        if negb active then ret false
        else if negb tokenVersions then ret true
        else or_refuse (on_keys (tokenversion.CurrentVersion now (ClID claims))) (fun currentVersion =>
          ret (currentVersion =? ClTokenVersion claims))))
    end
  end).
End Auth.
End apiAuth.

(** ** The user service behind the client *)
Section Servers.
Context `{G : grpc_status} `{L : account_libs}.

Definition sessionResponse (s : SessionDTO) : SessionResponse :=
  MkSessionResponse (DtoID s) (DtoUserID s) (DtoDeviceID s) (DtoDeviceName s) (unix_seconds (DtoExpiresAt s)).
Definition session_record (now : Z) (item : UserSessionDO.t) : UserSessionRecord :=
  MkUserSessionRecord (UserSessionDO.ID item) (UserSessionDO.DeviceID item) (UserSessionDO.DeviceName item)
    (UserSessionDO.ClientIP item) (UserSessionDO.Location item) (unix_seconds (UserSessionDO.CreatedAt item))
    (unix_seconds (UserSessionDO.LastUsedAt item)) (unix_seconds (UserSessionDO.ExpiresAt item))
    (match UserSessionDO.RevokedAt item with Some t => unix_seconds t | None => 0 end)
    (bool_decide (UserSessionDO.RevokedAt item = None) && (now <? UserSessionDO.ExpiresAt item)).

(** What the server draws and reads: the salt of a password, identifiers, the clock,
    and the order MySQL returns rows in. *)
Context (salt uuid : string) (now : Z).
Context (by_last_use : list UserSessionDO.t -> list UserSessionDO.t).
Context (by_creation : list DeviceBlacklistDO.t -> list DeviceBlacklistDO.t).

Definition call_users {A} (m : M user_db A) : M gate A := invoke (on_users m).
Definition server_users : UserClient gate := {|
  GetUserById id := ptr (call_users (accountServer.GetUserById (Some id)));
  GetUserByMobile m := ptr (call_users (accountServer.GetUserByMobile (Some m)));
  GetUserAuthById id := ptr (call_users (accountServer.GetUserAuthById (Some id)));
  GetUserAuthByMobile m := ptr (call_users (accountServer.GetUserAuthByMobile (Some m)));
  CreateUser r := ptr (call_users (accountServer.CreateUser salt (Some r)));
  UpdateUser r := call_users (accountServer.UpdateUser (Some r));
  DeleteUser id := call_users (accountServer.DeleteUser uuid now (Some id));
  CheckPassWord r := ptr (call_users (accountServer.CheckPassWord (Some r)));
  RecordLogin id at_ := call_users (userServer.RecordLogin id at_);
  CreateSession r :=
    ptr (s <- call_users (userServer.CreateSession uuid now (CsUserId r) (CsPrincipalType r) (CsDeviceId r)
      (CsDeviceName r) (CsClientIp r) (CsLocation r) (CsRefreshTokenHash r) (CsExpiresAt r)) ;; ret (sessionResponse s));
  RefreshSession id current next expiresAt :=
    ptr (s <- call_users (userServer.RefreshSession now id current next expiresAt) ;; ret (sessionResponse s));
  RevokeSession id sessionID := call_users (userServer.RevokeSession now id sessionID);
  RevokeAllSessions id := call_users (userServer.RevokeAllSessions now id);
  ValidateSession id sessionID := call_users (userServer.ValidateSession now id sessionID);
  ListUserSessions id page pageSize :=
    r <- call_users (userService.ListUserSessions by_last_use (wrapu64 id) page pageSize) ;;
    ret (wrap32 r.2, session_record now <$> r.1);
  ListDeviceBlacklist id page pageSize :=
    r <- call_users (userService.ListDeviceBlacklist by_creation id page pageSize) ;; ret (wrap32 r.2, r.1);
  AddDeviceBlacklist id deviceID := call_users (userServer.AddDeviceBlacklist now id deviceID);
  DeleteDeviceBlacklist id deviceID := call_users (userServer.DeleteDeviceBlacklist id deviceID)
|}.
End Servers.
