(* ===== verification/UserGatewayLaws.v ===== *)
(** * What the gateway's account operations do to the keys of Redis

    The interface of the user client towards the gateway is that no call of it
    touches a key ([keyless]); the modelled user service satisfies it behind the
    network.  Against it, every operation of the gateway is shown to change a key of
    interest only through the few commands that may: a bump of a token version, and
    the deletion of a login code. *)
From S2P Require Import Prelude GoStrings Errors GoMonad ErrorTransport Authz Tables UserModel UserStore SessionStore.
From S2P Require Import UserSessions UserValidation UserAccounts OrderGateway GatewayLaws Redis RedisStores RedisProperties UserGateway.
Import RedisCluster data userGateway.
Open Scope go_scope.

Create HintDb gateway.

(** ** Commands on other keys, continued *)
Section Elsewhere.
Context (now : Z) (key k : string) (Hne : key <> k).
Lemma SetKey_elsewhere v ttl : steps (same_at k) (SetKey now key v ttl).
Proof. apply steps_command; [exact _|]. intros d. by apply lookup_insert_ne. Qed.
Lemma Delete_elsewhere : steps (same_at k) (RedisCluster.Delete now key).
Proof. apply steps_wrap_err, steps_command; [exact _|]. intros d. by apply lookup_delete_ne. Qed.
Lemma Increment_elsewhere : steps (same_at k) (Increment now key).
Proof.
  apply steps_wrap_err, steps_command; [exact _|]. intros d. unfold same_at.
  destruct (redis_incr now key d) as [[n r']|] eqn:E; [|done]. by apply (incr_elsewhere now key k Hne) in E.
Qed.
End Elsewhere.
Lemma GetKey_anywhere now key k : steps (same_at k) (GetKey now key).
Proof. eapply steps_weaken; [|apply GetKey_reads]. by intros d d' ->. Qed.

(** Discharge [steps (same_at _)] of store operations; the keys differ at sight. *)
Ltac elsewhere :=
  repeat (steps_step ||
    lazymatch goal with
    | |- steps _ (with_key (if ?b then _ else _) _) => destruct b; cbn [with_key]
    | |- steps _ (GetKey _ _) => apply GetKey_anywhere
    | |- steps _ (SetKey _ _ _ _) => apply SetKey_elsewhere; auto
    | |- steps _ (RedisCluster.Delete _ _) => apply Delete_elsewhere; auto
    | |- steps _ (Increment _ _) => apply Increment_elsewhere; auto
    | |- steps _ (IncrementWithExpiry _ _ _) => apply IncrementWithExpiry_elsewhere; auto
    | |- steps _ (SetIfAbsent _ _ _ _) => apply SetIfAbsent_elsewhere; auto
    | |- steps _ (ConsumeIfValue _ _ _) => apply ConsumeIfValue_elsewhere; auto
    | |- steps _ (RedisCluster.DeleteIfValue _ _ _) => apply DeleteIfValue_elsewhere; auto
    end).

Section Stores.
Context (digest : string -> string) (k : string).

Section Login.
Context (Hf : forall x, loginattempt.failKeyPrefix +:+ x <> k) (Hl : forall x, loginattempt.lockKeyPrefix +:+ x <> k).
Lemma login_IsLocked now i : steps (same_at k) (loginattempt.IsLocked digest now i).
Proof. unfold loginattempt.IsLocked, loginattempt.lockKey, loginattempt.keyedIdentifier, is_locked. elsewhere. Qed.
Lemma login_RecordFailure s now i : steps (same_at k) (loginattempt.RecordFailure digest s now i).
Proof.
  unfold loginattempt.RecordFailure, loginattempt.lockKey, loginattempt.failKey, loginattempt.keyedIdentifier.
  unfold record_failure, is_locked. elsewhere.
Qed.
Lemma login_Reset now i : steps (same_at k) (loginattempt.Reset digest now i).
Proof. unfold loginattempt.Reset, loginattempt.lockKey, loginattempt.failKey, loginattempt.keyedIdentifier, reset. elsewhere. Qed.
End Login.

Section Sms.
Context (Hf : forall x, smsattempt.failKeyPrefix +:+ x <> k) (Hl : forall x, smsattempt.lockKeyPrefix +:+ x <> k).
Lemma sms_IsLocked now m t : steps (same_at k) (smsattempt.IsLocked digest now m t).
Proof. unfold smsattempt.IsLocked, smsattempt.lockKey, smsattempt.keyedMobile, is_locked. elsewhere. Qed.
Lemma sms_RecordFailure s now m t : steps (same_at k) (smsattempt.RecordFailure digest s now m t).
Proof.
  unfold smsattempt.RecordFailure, smsattempt.lockKey, smsattempt.failKey, smsattempt.keyedMobile.
  unfold record_failure, is_locked. elsewhere.
Qed.
Lemma sms_Reset now m t : steps (same_at k) (smsattempt.Reset digest now m t).
Proof. unfold smsattempt.Reset, smsattempt.lockKey, smsattempt.failKey, smsattempt.keyedMobile, reset. elsewhere. Qed.
End Sms.

Lemma email_Consume now e p c :
  (forall x, "verify:email:" +:+ x <> k) -> steps (same_at k) (emailcode.Consume digest now e p c).
Proof. intros H. unfold emailcode.Consume, emailcode.key. elsewhere. Qed.
Lemma version_reads now u : steps (same_at k) (tokenversion.CurrentVersion now u).
Proof. unfold tokenversion.CurrentVersion, tokenversion.versionKey. elsewhere. Qed.
Lemma revoked_reads now t : steps (same_at k) (tokenrevocation.IsRevoked digest now t).
Proof. unfold tokenrevocation.IsRevoked, tokenrevocation.key. elsewhere. Qed.
End Stores.

(** ** The user client touches no key *)
Definition by_keys (R : redis -> redis -> Prop) (g g' : gate) : Prop := R (keys g) (keys g').
#[export] Instance by_keys_preorder R `{!PreOrder R} : PreOrder (by_keys R).
Proof. split; [intros g; unfold by_keys; reflexivity|]. intros g1 g2 g3 H1 H2. unfold by_keys in *. by etrans. Qed.
Definition same_keys : gate -> gate -> Prop := by_keys eq.

Class keyless (uc : UserClient gate) : Prop := {
  keyless_GetUserById i : steps same_keys (UserGateway.GetUserById uc i);
  keyless_GetUserByMobile m : steps same_keys (UserGateway.GetUserByMobile uc m);
  keyless_GetUserAuthById i : steps same_keys (UserGateway.GetUserAuthById uc i);
  keyless_GetUserAuthByMobile m : steps same_keys (UserGateway.GetUserAuthByMobile uc m);
  keyless_CreateUser r : steps same_keys (UserGateway.CreateUser uc r);
  keyless_UpdateUser r : steps same_keys (UserGateway.UpdateUser uc r);
  keyless_DeleteUser i : steps same_keys (UserGateway.DeleteUser uc i);
  keyless_CheckPassWord r : steps same_keys (UserGateway.CheckPassWord uc r);
  keyless_RecordLogin i t : steps same_keys (UserGateway.RecordLogin uc i t);
  keyless_CreateSession r : steps same_keys (UserGateway.CreateSession uc r);
  keyless_RefreshSession i c n e : steps same_keys (UserGateway.RefreshSession uc i c n e);
  keyless_RevokeSession i x : steps same_keys (UserGateway.RevokeSession uc i x);
  keyless_RevokeAllSessions i : steps same_keys (UserGateway.RevokeAllSessions uc i);
  keyless_ValidateSession i x : steps same_keys (UserGateway.ValidateSession uc i x);
  keyless_AddDeviceBlacklist i x : steps same_keys (UserGateway.AddDeviceBlacklist uc i x);
  keyless_DeleteDeviceBlacklist i x : steps same_keys (UserGateway.DeleteDeviceBlacklist uc i x)
}.

Lemma on_users_keys {A} (m : M user_db A) : steps same_keys (on_users m).
Proof. intros [[t r] f]. unfold on_users. by destruct (m _) as [o [d f']]. Qed.
Lemma on_keys_steps {A} (R : redis -> redis -> Prop) (m : M redis A) : steps R m -> steps (by_keys R) (on_keys m).
Proof.
  intros H [[t r] f]. specialize (H (Env r f)). unfold on_keys, by_keys. cbn in *.
  destruct (m _) as [o [d f']]. done.
Qed.

#[export] Instance server_users_keyless `{G : grpc_status} `{L : account_libs} salt uuid now by_last_use by_creation :
  keyless (server_users salt uuid now by_last_use by_creation).
Proof.
  split; intros; cbn; unfold ptr; steps_go; apply steps_invoke; first [apply on_users_keys | exact _].
Qed.

Section Ops.
Context `{G : grpc_status} (sha256 : string -> string) (uc : UserClient gate) `{!keyless uc}.

(** The operations of [rpc] touch no key either. *)
Ltac keyless := repeat (steps_step || (first [
    apply keyless_GetUserById | apply keyless_GetUserByMobile | apply keyless_GetUserAuthById
  | apply keyless_GetUserAuthByMobile | apply keyless_CreateUser | apply keyless_UpdateUser | apply keyless_DeleteUser
  | apply keyless_CheckPassWord | apply keyless_RecordLogin | apply keyless_CreateSession | apply keyless_RefreshSession
  | apply keyless_RevokeSession | apply keyless_RevokeAllSessions | apply keyless_ValidateSession
  | apply keyless_AddDeviceBlacklist | apply keyless_DeleteDeviceBlacklist ]; exact _)).
Lemma rpc_GetAuthByUsername n : steps same_keys (rpc.GetAuthByUsername uc n).
Proof. unfold rpc.GetAuthByUsername, rpc.answered_or. keyless. Qed.
Lemma rpc_GetAuth i : steps same_keys (rpc.GetAuth uc i).
Proof. unfold rpc.GetAuth, rpc.answered_or. keyless. Qed.
Lemma rpc_Get i : steps same_keys (rpc.Get uc i).
Proof. unfold rpc.Get, rpc.answered_or. keyless. Qed.
Lemma rpc_Create u : steps same_keys (rpc.Create uc u).
Proof. unfold rpc.Create, rpc.answered_or. keyless. Qed.
Lemma rpc_Update u : steps same_keys (rpc.Update uc u).
Proof. unfold rpc.Update. keyless. Qed.
Lemma rpc_Delete i : steps same_keys (rpc.Delete uc i).
Proof. unfold rpc.Delete. keyless. Qed.
Lemma rpc_CheckPassWord p h : steps same_keys (rpc.CheckPassWord uc p h).
Proof. unfold rpc.CheckPassWord. keyless. Qed.
Lemma rpc_RecordLogin i t : steps same_keys (rpc.RecordLogin uc i t).
Proof. unfold rpc.RecordLogin. keyless. Qed.
Lemma rpc_CreateSession ctx i a b t e : steps same_keys (rpc.CreateSession sha256 uc ctx i a b t e).
Proof. unfold rpc.CreateSession. keyless. Qed.
Lemma rpc_RefreshSession i c n e : steps same_keys (rpc.RefreshSession sha256 uc i c n e).
Proof. unfold rpc.RefreshSession. keyless. Qed.
Lemma rpc_RevokeSession i x : steps same_keys (rpc.RevokeSession uc i x).
Proof. unfold rpc.RevokeSession. keyless. Qed.
Lemma rpc_RevokeAllSessions i : steps same_keys (rpc.RevokeAllSessions uc i).
Proof. unfold rpc.RevokeAllSessions. keyless. Qed.
Lemma rpc_ValidateSession i x : steps same_keys (rpc.ValidateSession uc i x).
Proof. unfold rpc.ValidateSession. keyless. Qed.
Lemma rpc_AddDeviceBlacklist i x : steps same_keys (rpc.AddDeviceBlacklist uc i x).
Proof. unfold rpc.AddDeviceBlacklist. keyless. Qed.
Lemma rpc_DeleteDeviceBlacklist i x : steps same_keys (rpc.DeleteDeviceBlacklist uc i x).
Proof. unfold rpc.DeleteDeviceBlacklist. keyless. Qed.
End Ops.
#[export] Hint Resolve rpc_GetAuthByUsername rpc_GetAuth rpc_Get rpc_Create rpc_Update rpc_Delete rpc_CheckPassWord
  rpc_RecordLogin rpc_CreateSession rpc_RefreshSession rpc_RevokeSession rpc_RevokeAllSessions rpc_ValidateSession
  rpc_AddDeviceBlacklist rpc_DeleteDeviceBlacklist : gateway.

(** ** Relations every command of the gateway respects *)
Class respected (digest : string -> string) (R : redis -> redis -> Prop) : Prop := {
  respected_order :: PreOrder R;
  respected_IsLocked now i : steps R (loginattempt.IsLocked digest now i);
  respected_RecordFailure o now i : steps R (loginattempt.RecordFailure digest o now i);
  respected_Reset now i : steps R (loginattempt.Reset digest now i);
  respected_sms_IsLocked now m t : steps R (smsattempt.IsLocked digest now m t);
  respected_sms_RecordFailure o now m t : steps R (smsattempt.RecordFailure digest o now m t);
  respected_sms_Reset now m t : steps R (smsattempt.Reset digest now m t);
  respected_email now e p c : steps R (emailcode.Consume digest now e p c);
  respected_Get now m : steps R (smscode.Get now m);
  respected_Delete now m : steps R (smscode.Delete now (smscode.LoginKey m));
  respected_Consume now m c : steps R (smscode.Consume now (smscode.RegisterKey m) c);
  respected_CurrentVersion now u : steps R (tokenversion.CurrentVersion now u);
  respected_Bump now u : steps R (tokenversion.Bump now u);
  respected_IsRevoked now t : steps R (tokenrevocation.IsRevoked digest now t)
}.

(** What a relation on one key needs: only the commands that may touch the key. *)
Lemma respected_at digest k (R : redis -> redis -> Prop) `{!PreOrder R} :
  (forall r r', same_at k r r' -> R r r') ->
  (forall x, loginattempt.failKeyPrefix +:+ x <> k) -> (forall x, loginattempt.lockKeyPrefix +:+ x <> k) ->
  (forall x, smsattempt.failKeyPrefix +:+ x <> k) -> (forall x, smsattempt.lockKeyPrefix +:+ x <> k) ->
  (forall x, "verify:email:" +:+ x <> k) ->
  (forall now m, steps R (smscode.Delete now (smscode.LoginKey m))) ->
  (forall now m c, steps R (smscode.Consume now (smscode.RegisterKey m) c)) ->
  (forall now u, steps R (tokenversion.Bump now u)) -> respected digest R.
Proof.
  intros HR H1 H2 H3 H4 H5 Hd Hc Hb.
  split; [exact _|intros..|exact Hd|exact Hc|intros|exact Hb|intros].
  all: eapply steps_weaken; [exact HR|].
  all: first [by apply login_IsLocked | by apply login_RecordFailure | by apply login_Reset | by apply sms_IsLocked
    | by apply sms_RecordFailure | by apply sms_Reset | by apply email_Consume | apply GetKey_anywhere
    | apply version_reads | apply revoked_reads].
Qed.

Section Gateway.
Context `{G : grpc_status} `{J : jwt} (digest sha256 : string -> string) (us : userService).
Context (Hclient : forall uc, users us = Some uc -> keyless uc).
Context (R : redis -> redis -> Prop) `{!respected digest R}.
Notation held := (by_keys R).

Lemma rpc_held {A} (m : M gate A) : steps same_keys m -> steps held m.
Proof. apply steps_weaken. unfold same_keys, by_keys. by intros g g' ->. Qed.

(** Along the structure of an operation, down to the calls of the two sides. *)
Ltac held_step :=
  lazymatch goal with
  | |- steps _ (on_keys _) =>
    apply on_keys_steps; first [ apply respected_IsLocked | apply respected_RecordFailure | apply respected_Reset
      | apply respected_sms_IsLocked | apply respected_sms_RecordFailure | apply respected_sms_Reset
      | apply respected_email | apply respected_Get | apply respected_Delete | apply respected_Consume
      | apply respected_CurrentVersion | apply respected_Bump | apply respected_IsRevoked ]
  | |- _ => steps_step || (apply rpc_held; by auto with gateway)
  end.
Ltac held := repeat held_step.

Lemma held_allowed now n ip : steps held (ensurePasswordLoginAllowed digest us now n ip).
Proof. unfold ensurePasswordLoginAllowed, ensurePasswordLoginIPAllowed, ensure_unlocked. held. Qed.
Lemma held_recorded now n ip : steps held (recordPasswordLoginFailure digest us now n ip).
Proof. unfold recordPasswordLoginFailure, record_with. held. Qed.
Lemma held_reset now n ip : steps held (resetPasswordLoginFailures digest us now n ip).
Proof. unfold resetPasswordLoginFailures, ignore. held. Qed.
Lemma held_sms_allowed now m t : steps held (ensureSmsCodeAllowed digest us now m t).
Proof. unfold ensureSmsCodeAllowed, ensure_unlocked. held. Qed.
Lemma held_sms_recorded now m t : steps held (recordSmsCodeFailure digest us now m t).
Proof. unfold recordSmsCodeFailure, ensure_unlocked. held. Qed.
Lemma held_sms_reset now m t : steps held (resetSmsCodeFailures digest us now m t).
Proof. unfold resetSmsCodeFailures, ignore. held. Qed.
Lemma held_bump now u : steps held (bumpTokenVersion us now u).
Proof. unfold bumpTokenVersion, tokenVersionStore. held. Qed.
Lemma held_issue o u i now : steps held (issueAccessToken us o u i now).
Proof. unfold issueAccessToken, currentTokenVersion. held. Qed.
Lemma held_createToken ctx d now u : steps held (createToken sha256 us ctx d now u).
Proof.
  unfold createToken. destruct (jwtOpts us) as [o|]; [|held]. destruct (users us) as [uc|] eqn:E in |- *.
  - pose proof (Hclient uc E). destruct (loginDevice ctx (newUUID d)) as [a b]. held. apply held_issue.
  - held. apply held_issue.
Qed.

(** The operations. *)
Ltac use_client := unfold usersData; destruct (users us) as [uc|] eqn:E in |- *; [pose proof (Hclient uc E)|].
Ltac held_op := repeat
  lazymatch goal with
  | |- steps _ (ensurePasswordLoginAllowed _ _ _ _ _) => apply held_allowed
  | |- steps _ (recordPasswordLoginFailure _ _ _ _ _) => apply held_recorded
  | |- steps _ (resetPasswordLoginFailures _ _ _ _ _) => apply held_reset
  | |- steps _ (ensureSmsCodeAllowed _ _ _ _ _) => apply held_sms_allowed
  | |- steps _ (recordSmsCodeFailure _ _ _ _ _) => apply held_sms_recorded
  | |- steps _ (resetSmsCodeFailures _ _ _ _ _) => apply held_sms_reset
  | |- steps _ (bumpTokenVersion _ _ _) => apply held_bump
  | |- steps _ (issueAccessToken _ _ _ _ _) => apply held_issue
  | |- steps _ (createToken _ _ _ _ _ _) => apply held_createToken
  | |- _ => held_step
  end.
Lemma held_PasswordLogin ctx ip d now n p : steps held (PasswordLogin digest sha256 us ctx ip d now n p).
Proof. unfold PasswordLogin, refused. use_client; held_op. Qed.
Lemma held_SmsLogin ctx d now m c : steps held (SmsLogin digest sha256 us ctx d now m c).
Proof. unfold SmsLogin. use_client; held_op. Qed.
Lemma held_EmailLogin ctx d now e c : steps held (EmailLogin digest sha256 us ctx d now e c).
Proof. unfold EmailLogin. use_client; held_op. Qed.
Lemma held_EmailRegister ctx d now m e n p k c : steps held (EmailRegister digest sha256 us ctx d now m e n p k c).
Proof. unfold EmailRegister. use_client; held_op. Qed.
Lemma held_Register ctx d now m e n p k c : steps held (Register digest sha256 us ctx d now m e n p k c).
Proof. unfold Register, consumeRegistrationSMSCode. use_client; held_op. Qed.
Lemma held_Refresh d now i t : steps held (Refresh sha256 us d now i t).
Proof. unfold Refresh, gateway.deref. use_client; held_op. Qed.
Lemma held_Logout u i : steps held (Logout us u i).
Proof. unfold Logout. use_client; held_op. Qed.
Lemma held_LogoutDevice u i : steps held (LogoutDevice us u i).
Proof. unfold LogoutDevice. use_client; held_op. Qed.
Lemma held_LogoutAll now u : steps held (LogoutAll us now u).
Proof. unfold LogoutAll. use_client; held_op. Qed.
Lemma held_DeleteAccount now u p : steps held (DeleteAccount us now u p).
Proof. unfold DeleteAccount, tokenVersionStore, ignore. use_client; held_op. Qed.
Lemma held_AddDeviceBlacklist u i : steps held (AddDeviceBlacklist us u i).
Proof. unfold AddDeviceBlacklist, blacklist_data. use_client; held_op. Qed.
Lemma held_DeleteDeviceBlacklist u i : steps held (DeleteDeviceBlacklist us u i).
Proof. unfold DeleteDeviceBlacklist, blacklist_data. use_client; held_op. Qed.
Lemma held_Update dto : steps held (Update us dto).
Proof. unfold Update. use_client; held_op. Qed.
Lemma held_authorize o rv tv now t : steps held (apiAuth.authorize digest o rv tv (users us) now t).
Proof. unfold apiAuth.authorize, apiAuth.or_refuse. use_client; held_op. Qed.
End Gateway.
