(* ===== verification/UserGatewayProperties.v ===== *)
(** * What logins, logouts and tokens guarantee

    The account operations of the gateway as one transition system over the tables of
    the user service and the keys of Redis: tokens end with [LogoutAll], a login code
    is good for one login, and guesses of a password are limited. *)
From S2P Require Import Prelude GoStrings Errors GoMonad ErrorTransport Authz Tables UserModel UserStore SessionStore.
From S2P Require Import UserSessions UserValidation UserAccounts OrderGateway GatewayLaws Redis RedisStores RedisProperties UserGateway.
From S2P Require Import UserIdentity UserGatewayLaws.
Import RedisCluster data userGateway.
Open Scope go_scope.

(** ** The calls that change something *)
Inductive call :=
  | CPasswordLogin (ctx : ginContext) (clientIP : string) (d : drawn) (now : Z) (username password : string)
  | CSmsLogin (ctx : ginContext) (d : drawn) (now : Z) (mobile code : string)
  | CEmailLogin (ctx : ginContext) (d : drawn) (now : Z) (email code : string)
  | CRegister (ctx : ginContext) (d : drawn) (now : Z) (mobile email username password nickName code : string)
  | CEmailRegister (ctx : ginContext) (d : drawn) (now : Z) (mobile email username password nickName code : string)
  | CRefresh (d : drawn) (now : Z) (sessionID token : string)
  | CLogout (userID : Z) (sessionID : string)
  | CLogoutDevice (userID : Z) (sessionID : string)
  | CLogoutAll (now userID : Z)
  | CDeleteAccount (now userID : Z) (password : string)
  | CAddDeviceBlacklist (userID : Z) (deviceID : string)
  | CDeleteDeviceBlacklist (userID : Z) (deviceID : string)
  | CUpdate (dto : option UserDTO)
  | CAuthorize (now : Z) (token : string).

(** The first call of a run that returned, and the rest of the run. *)
Tactic Notation "answer" hyp(H) ident(a) :=
  let s := fresh "s" in let E := fresh "E" in apply bind_Ret in H as (a & s & E & H).

Section System.
Context `{G : grpc_status} `{J : jwt} (digest sha256 : string -> string) (us : userService) (opts : JwtOptions).
Notation authorize := (apiAuth.authorize digest opts true true (users us)).

Definition silent {A} (m : M gate A) : M gate (option UserDTO) := m ;;; ret None.
Definition loud (m : M gate UserDTO) : M gate (option UserDTO) := dto <- m ;; ret (Some dto).
Definition run (c : call) : M gate (option UserDTO) :=
  match c with
  | CPasswordLogin ctx ip d now n p => loud (PasswordLogin digest sha256 us ctx ip d now n p)
  | CSmsLogin ctx d now m c => loud (SmsLogin digest sha256 us ctx d now m c)
  | CEmailLogin ctx d now e c => loud (EmailLogin digest sha256 us ctx d now e c)
  | CRegister ctx d now m e n p k c => loud (Register digest sha256 us ctx d now m e n p k c)
  | CEmailRegister ctx d now m e n p k c => loud (EmailRegister digest sha256 us ctx d now m e n p k c)
  | CRefresh d now i t => loud (Refresh sha256 us d now i t)
  | CLogout u i => silent (Logout us u i)
  | CLogoutDevice u i => silent (LogoutDevice us u i)
  | CLogoutAll now u => silent (LogoutAll us now u)
  | CDeleteAccount now u p => silent (DeleteAccount us now u p)
  | CAddDeviceBlacklist u i => silent (AddDeviceBlacklist us u i)
  | CDeleteDeviceBlacklist u i => silent (DeleteDeviceBlacklist us u i)
  | CUpdate dto => silent (Update us dto)
  | CAuthorize now t => silent (authorize now t)
  end.
Context (Hclient : forall uc, users us = Some uc -> keyless uc).
Lemma run_held R `{!respected digest R} c : steps (by_keys R) (run c).
Proof.
  destruct c; cbn [run]; unfold silent, loud; (apply steps_bind; [exact _| |intros; apply steps_ret; exact _]).
  - by apply held_PasswordLogin.
  - by apply held_SmsLogin.
  - by apply held_EmailLogin.
  - by apply held_Register.
  - by apply held_EmailRegister.
  - by apply (held_Refresh digest).
  - by apply (held_Logout digest).
  - by apply (held_LogoutDevice digest).
  - by apply (held_LogoutAll digest).
  - by apply (held_DeleteAccount digest).
  - by apply (held_AddDeviceBlacklist digest).
  - by apply (held_DeleteDeviceBlacklist digest).
  - by apply (held_Update digest).
  - by apply held_authorize.
Qed.

(** ** Token versions *)
Definition vkey (u : Z) : string := tokenversion.keyPrefix +:+ itoa u.
(** The version of a user: no key is version 0, and a key has no expiry. *)
Definition version_is (u : Z) (r : redis) (v : Z) : Prop :=
  match r !! vkey u with
  | None => v = 0
  | Some e => e = (itoa v, None) /\ 0 < v < 2 ^ 63
  end.
Definition grows (u : Z) (r r' : redis) : Prop :=
  forall v, version_is u r v -> exists v', v <= v' /\ version_is u r' v'.
#[export] Instance grows_preorder u : PreOrder (grows u).
Proof.
  split; [intros r v H; by exists v|]. intros r1 r2 r3 H1 H2 v Hv.
  destruct (H1 v Hv) as (v2 & ? & Hv2). destruct (H2 v2 Hv2) as (v3 & ? & Hv3). exists v3. split; [lia|done].
Qed.
Lemma grows_same u r r' : same_at (vkey u) r r' -> grows u r r'.
Proof. unfold same_at, grows, version_is. intros -> v Hv. by exists v. Qed.

Lemma incr_version now u r v n r' :
  version_is u r v -> redis_incr now (vkey u) r = Some (n, r') -> n = v + 1 /\ version_is u r' n.
Proof.
  unfold version_is, redis_incr, present. destruct (r !! vkey u) as [e|].
  - intros [-> Hv]. cbn. rewrite parse_int_itoa by lia. cbn. destruct (Z.ltb_spec v (2 ^ 63 - 1)); [|done].
    intros [= <- <-]. rewrite lookup_insert_eq. split; [done|]. split; [done|lia].
  - intros -> [= <- <-]. rewrite lookup_insert_eq. done.
Qed.
Lemma Bump_grows u now w : steps (grows u) (tokenversion.Bump now w).
Proof.
  unfold tokenversion.Bump, tokenversion.versionKey. destruct (w =? 0); cbn [with_key]; [apply steps_fail; exact _|].
  apply steps_bind; [exact _| |intros; apply steps_ret; exact _].
  destruct (decide (tokenversion.keyPrefix +:+ itoa w = vkey u)) as [->|Hne].
  - apply steps_wrap_err, steps_command; [exact _|]. intros r v Hv.
    destruct (redis_incr now (vkey u) r) as [[n r']|] eqn:E; cbn; [|by exists v].
    destruct (incr_version now u r v n r' Hv E) as [-> Hn]. exists (v + 1). split; [lia|done].
  - eapply steps_weaken; [apply grows_same|]. by apply Increment_elsewhere.
Qed.
#[export] Instance grows_respected u : respected digest (grows u).
Proof.
  apply (respected_at digest (vkey u)); [exact _|apply grows_same|done..| | |intros; apply Bump_grows].
  all: intros; eapply steps_weaken; [apply grows_same|].
  - by apply Delete_elsewhere.
  - by apply ConsumeIfValue_elsewhere.
Qed.

(** Reading a version. *)
Lemma ParseUint_itoa v : 0 <= v < 2 ^ 63 -> ParseUint (explode (TrimSpace (itoa v))) = Some v.
Proof.
  intros Hv. unfold itoa. destruct (Z.ltb_spec v 0); [lia|].
  pose proof (uint_digits_digits v ltac:(lia)) as Hd. pose proof (uint_digits_value v ltac:(unfold_int; lia)) as Hx.
  rewrite TrimSpace_printable.
  2: { rewrite explode_implode. eapply Forall_impl; [exact Hd|]. apply digit_printable. }
  rewrite explode_implode. unfold ParseUint. pose proof (uint_digits_nonempty v).
  destruct (uint_digits v) as [|c l] eqn:E; [done|].
  rewrite parse_uint_loop_complete; [by rewrite Hx|done|lia|rewrite Hx; unfold_int; lia].
Qed.
Lemma CurrentVersion_is now u s n s' v :
  version_is u (e_db s) v -> tokenversion.CurrentVersion now u s = (Ret n, s') -> n = v.
Proof.
  unfold tokenversion.CurrentVersion, tokenversion.versionKey. destruct (u =? 0); [done|]. cbn [with_key].
  intros Hv (x & s1 & [-> _]%GetKey_Ret & H)%bind_Ret. fold (vkey u) in H. unfold version_is in Hv.
  unfold redis_get, present in H. destruct (e_db s !! vkey u) as [e|]; [|by injection H as <- _].
  destruct Hv as [-> Hv]. unfold alive in H. cbn [snd fst fmap option_fmap option_map] in H. rewrite ParseUint_itoa in H by lia. by injection H as <- _.
Qed.
Lemma on_keys_Ret {A} (m : M redis A) s a s' :
  on_keys m s = (Ret a, s') -> exists r, m (Env (keys (e_db s)) (e_faults s)) = (Ret a, r) /\ keys (e_db s') = e_db r.
Proof. unfold on_keys. destruct (m _) as [o r]. intros [= -> <-]. by exists r. Qed.

(** A request whose token is accepted: the token's claims carry the current version. *)
Lemma authorize_true now token s s' :
  authorize now token s = (Ret true, s') ->
  exists claims, ParseTokenWithClaims (Key opts) now token = Some claims /\
    forall v, version_is (ClID claims) (keys (e_db s)) v -> ClTokenVersion claims = v.
Proof.
  unfold apiAuth.authorize, apiAuth.or_refuse. intros (r1 & s1 & H1 & H)%bind_Ret.
  assert (keys (e_db s1) = keys (e_db s)) as E1.
  { symmetry. apply (f_equal snd) in H1. cbn [snd] in H1. rewrite <- H1.
    apply (steps_attempt same_keys), (on_keys_steps eq). unfold tokenrevocation.IsRevoked, tokenrevocation.key.
    destruct (bool_decide _); cbn [with_key]; steps_go. apply GetKey_reads. }
  destruct r1 as [[]|]; [done| |done].
  destruct (ParseTokenWithClaims (Key opts) now token) as [claims|]; [|done]. exists claims. split; [done|]. intros v Hv.
  destruct (users us) as [uc|] eqn:Eu; [|done]. pose proof (Hclient uc eq_refl) as Hk.
  apply bind_Ret in H as (r2 & s2 & H2 & H). assert (keys (e_db s2) = keys (e_db s1)) as E2.
  { symmetry. apply (f_equal snd) in H2. cbn [snd] in H2. rewrite <- H2. by apply (steps_attempt same_keys), rpc_Get. }
  destruct r2 as [user|]; [|done]. destruct (negb _); [done|].
  apply bind_Ret in H as (r3 & s3 & H3 & H). assert (keys (e_db s3) = keys (e_db s2)) as E3.
  { symmetry. apply (f_equal snd) in H3. cbn [snd] in H3. rewrite <- H3. apply (steps_attempt same_keys).
    destruct (seqb _ _); [apply steps_ret; exact _|by apply rpc_ValidateSession]. }
  destruct r3 as [[]|]; [|done..]. cbn [negb] in H.
  apply bind_Ret in H as (r4 & s4 & H4%attempt_Ret & H). destruct r4 as [n|]; [|done].
  apply on_keys_Ret in H4 as (r & H4 & _). assert (n = ClTokenVersion claims) as <-. { unfold ret in H. injection H as H _. by apply Z.eqb_eq. }
  eapply CurrentVersion_is; [|exact H4]. cbn [e_db]. by rewrite E3, E2, E1.
Qed.

(** ** Tokens handed out *)

(** The token names the user and the version that is current when it is handed out;
    version 0 when the current one could not be read. *)
Definition issued (u : Z) (token : string) (r : redis) : Prop :=
  exists o claims, jwtOpts us = Some o /\ CreateToken (Key o) claims = inl token /\ ClID claims = u /\
    forall v, version_is u r v -> ClTokenVersion claims <= v.
Lemma issue_issued o user i now s t s' :
  jwtOpts us = Some o -> issueAccessToken us o user i now s = (Ret t, s') ->
  issued (ID (AuthUser user)) t.1 (keys (e_db s')).
Proof.
  unfold issueAccessToken. intros Ho (u1 & s1 & [_ ->]%fail_if_Ret & H)%bind_Ret.
  apply bind_Ret in H as (n & s2 & H1 & H). destruct (CreateToken _ _) as [token|] eqn:Ec; [|done].
  unfold ret in H. injection H as <- <-. cbn [fst]. eexists o, _. split_and!; [done|exact Ec|done|].
  intros v Hv. cbn [ClTokenVersion]. assert (0 <= v) as H0.
  { unfold version_is in Hv. destruct (_ !! _); [destruct Hv as [_ Hv]|]; lia. }
  unfold currentTokenVersion in H1. destruct (_ || _); [injection H1 as <- _; done|].
  apply bind_Ret in H1 as (q & s3 & H1 & H). unfold ret in H. injection H as <- <-.
  assert (keys (e_db s3) = keys (e_db s)) as E.
  { symmetry. apply (f_equal snd) in H1. cbn [snd] in H1. rewrite <- H1. apply (steps_attempt same_keys), (on_keys_steps eq).
    unfold tokenversion.CurrentVersion, tokenversion.versionKey. destruct (_ =? 0); cbn [with_key]; steps_go. apply GetKey_reads. }
  rewrite E in Hv. apply attempt_Ret in H1. destruct q as [n|]; [|done].
  apply on_keys_Ret in H1 as (r & H1 & _). pose proof (CurrentVersion_is now (ID (AuthUser user)) (Env (keys (e_db s)) (e_faults s)) n r v Hv H1). lia.
Qed.
Lemma createToken_issued ctx d now user s t s' :
  createToken sha256 us ctx d now user s = (Ret t, s') -> issued (ID (AuthUser user)) t.1.1.1.1 (keys (e_db s')).
Proof.
  unfold createToken. destruct (jwtOpts us) as [o|] eqn:Eo; [|done].
  intros (u1 & s1 & _ & H)%bind_Ret. apply bind_Ret in H as (u2 & s2 & _ & H). apply bind_Ret in H as (x & s3 & _ & H).
  apply bind_Ret in H as (a & s4 & H1 & H). unfold ret in H. injection H as <- <-. by eapply issue_issued in H1.
Qed.
Lemma token_dto_issued user t u r : issued u t.1.1.1.1 r -> issued u (DToken (token_dto user t)) r.
Proof. by destruct t as [[[[a b] c] d] e]. Qed.
Lemma token_dto_user user t : DUser (token_dto user t) = user.
Proof. by destruct t as [[[[a b] c] d] e]. Qed.

(** Every token a call answers with is one of these. *)
Ltac dto_issued H :=
  unfold ret in H; injection H as <- <-; rewrite token_dto_user; apply token_dto_issued; by eapply createToken_issued.
Lemma PasswordLogin_issued ctx ip d now n p s dto s' :
  PasswordLogin digest sha256 us ctx ip d now n p s = (Ret dto, s') -> issued (ID (DUser dto)) (DToken dto) (keys (e_db s')).
Proof.
  unfold PasswordLogin, usersData, refused. destruct (users us) as [uc|]; [|done]. intros H. answer H a1. answer H a2.
  destruct a2 as [user|err]; [|destruct (IsCode _ _); [answer H a3|]; done]. answer H a3.
  destruct a3 as [?|err]; [|destruct (IsCode _ _); [answer H a4|]; done]. answer H a4. answer H t. dto_issued H.
Qed.
Lemma SmsLogin_issued ctx d now m c s dto s' :
  SmsLogin digest sha256 us ctx d now m c s = (Ret dto, s') -> issued (ID (DUser dto)) (DToken dto) (keys (e_db s')).
Proof.
  unfold SmsLogin, usersData. intros H. answer H a1. answer H a2. answer H a3. destruct a3 as [v|]; [|answer H a4; done].
  destruct (negb (seqb v c)); [answer H a4; done|]. answer H a4. destruct (users us) as [uc|]; [|done].
  answer H user. answer H a6. answer H a7. answer H t. dto_issued H.
Qed.
Lemma EmailLogin_issued ctx d now e c s dto s' :
  EmailLogin digest sha256 us ctx d now e c s = (Ret dto, s') -> issued (ID (DUser dto)) (DToken dto) (keys (e_db s')).
Proof.
  unfold EmailLogin, usersData. intros H. answer H a1. destruct (users us) as [uc|]; [|done].
  answer H user. answer H a3. answer H t. dto_issued H.
Qed.
Lemma EmailRegister_issued ctx d now m e n p k c s dto s' :
  EmailRegister digest sha256 us ctx d now m e n p k c s = (Ret dto, s') ->
  issued (ID (DUser dto)) (DToken dto) (keys (e_db s')).
Proof.
  unfold EmailRegister, usersData. intros H. answer H a1. destruct (users us) as [uc|]; [|done].
  answer H user. answer H t. unfold ret in H. injection H as <- <-. rewrite token_dto_user. apply token_dto_issued.
  by eapply createToken_issued in E1.
Qed.
Lemma Register_issued ctx d now m e n p k c s dto s' :
  Register digest sha256 us ctx d now m e n p k c s = (Ret dto, s') -> DToken dto <> "" ->
  issued (ID (DUser dto)) (DToken dto) (keys (e_db s')).
Proof.
  unfold Register, usersData. intros H Hne. answer H a1. destruct (users us) as [uc|]; [|done].
  answer H user. answer H r. unfold ret in H. injection H as <- <-. apply attempt_Ret in E1. destruct r as [t|]; [|done].
  rewrite token_dto_user. apply token_dto_issued. by eapply createToken_issued in E1.
Qed.
Lemma Refresh_issued d now i t s dto s' :
  Refresh sha256 us d now i t s = (Ret dto, s') -> issued (ID (DUser dto)) (DToken dto) (keys (e_db s')).
Proof.
  unfold Refresh, gateway.deref. destruct (users us) as [uc|]; [|done]. intros H. answer H a1.
  destruct (jwtOpts us) as [o|] eqn:Eo; [|done]. answer H session. answer H user. answer H x.
  unfold ret in H. injection H as <- <-. by eapply issue_issued in E2.
Qed.
Lemma run_issued c s dto s' :
  run c s = (Ret (Some dto), s') -> DToken dto <> "" -> issued (ID (DUser dto)) (DToken dto) (keys (e_db s')).
Proof.
  intros H Hne. destruct c; cbn [run] in H; unfold silent, loud in H; answer H x; unfold ret in H; try done; injection H as -> ->.
  - by eapply PasswordLogin_issued.
  - by eapply SmsLogin_issued.
  - by eapply EmailLogin_issued.
  - by eapply Register_issued.
  - by eapply EmailRegister_issued.
  - by eapply Refresh_issued.
Qed.

(** ** Logging out everywhere *)
Lemma Bump_Ret now u s n s' v :
  version_is u (e_db s) v -> tokenversion.Bump now u s = (Ret n, s') -> version_is u (e_db s') (v + 1).
Proof.
  unfold tokenversion.Bump, tokenversion.versionKey. destruct (u =? 0); [done|]. cbn [with_key].
  intros Hv (m & s1 & H1%wrap_err_Ret%command_Ret & H)%bind_Ret. unfold ret in H. injection H as _ <-.
  fold (vkey u) in H1. destruct (redis_incr now (vkey u) (e_db s)) as [[k r']|] eqn:E; [|done].
  injection H1 as -> <-. by destruct (incr_version now u _ v m r' Hv E) as [-> Hn].
Qed.
Lemma LogoutAll_grows now u s s' v :
  version_is u (keys (e_db s)) v -> LogoutAll us now u s = (Ret tt, s') ->
  exists v', v < v' /\ version_is u (keys (e_db s')) v'.
Proof.
  unfold LogoutAll, bumpTokenVersion, tokenVersionStore. intros Hv (u1 & s1 & [_ ->]%fail_if_Ret & H)%bind_Ret.
  apply bind_Ret in H as (u2 & s2 & H2%wrap_err_Ret & H). apply bind_Ret in H2 as (u3 & s3 & [_ ->]%fail_if_Ret & H2).
  apply bind_Ret in H2 as (n & s4 & (r & H2 & Ek)%on_keys_Ret & H3). unfold ret in H3. injection H3 as _ <-.
  apply (Bump_Ret now u _ n r v) in H2; [|done]. rewrite <- Ek in H2. exists (v + 1). split; [lia|].
  destruct (users us) as [uc|] eqn:Eu; [|unfold ret in H; by injection H as <-].
  apply wrap_err_Ret in H. pose proof (Hclient uc eq_refl).
  pose proof (rpc_RevokeAllSessions uc u s4) as E. rewrite H in E. unfold same_keys, by_keys in E. cbn [snd] in E. by rewrite <- E.
Qed.
End System.

(** A token says what was signed. *)
Class jwt_laws (J : jwt) : Prop :=
  parse_created key now claims token claims' :
    CreateToken key claims = inl token -> ParseTokenWithClaims key now token = Some claims' -> claims' = claims.

(** An instance of the service with the gateway's options; instances differ in the
    client, whose answers depend on the time. *)
Definition deployed (opts : JwtOptions) (us : userService) : Prop :=
  jwtOpts us = Some opts /\ forall uc, users us = Some uc -> keyless uc.

Section Later.
Context `{G : grpc_status} `{J : jwt} (digest sha256 : string -> string) (opts : JwtOptions).
(** Calls one after the other, each with the instance that serves it and the faults it
    meets. *)
Definition after (cs : list (userService * call * list (option string))) (g : gate) : gate :=
  fold_left (fun g c => e_db (run digest sha256 c.1.1 opts c.1.2 (Env g c.2)).2) cs g.
Lemma after_held R `{!respected digest R} cs g :
  Forall (fun c => deployed opts c.1.1) cs -> R (keys g) (keys (after cs g)).
Proof.
  intros H. revert g. induction H as [|c cs [_ Hc] _ IH]; intros g; [reflexivity|]. cbn. etrans; [|apply IH].
  exact (run_held digest sha256 c.1.1 opts Hc R c.1.2 (Env g c.2)).
Qed.
End Later.

(** C9: Logging out everywhere ends every session token: a token handed out before, by
    whichever login, is refused after [LogoutAll] returned, whatever calls and faults
    came between and come later. *)
Theorem logout_all_ends_tokens `{G : grpc_status} `{J : jwt} `{!jwt_laws J} digest sha256 opts us1 us2 us3
    g c f1 dto s1 before now f2 s2 later now' f3 :
  deployed opts us1 -> deployed opts us2 -> deployed opts us3 ->
  Forall (fun c => deployed opts c.1.1) before -> Forall (fun c => deployed opts c.1.1) later ->
  (exists v, version_is (ID (DUser dto)) (keys g) v) ->
  run digest sha256 us1 opts c (Env g f1) = (Ret (Some dto), s1) -> DToken dto <> "" ->
  LogoutAll us2 now (ID (DUser dto)) (Env (after digest sha256 opts before (e_db s1)) f2) = (Ret tt, s2) ->
  (apiAuth.authorize digest opts true true (users us3) now' (DToken dto)
    (Env (after digest sha256 opts later (e_db s2)) f3)).1 <> Ret true.
Proof.
  intros [Ho K1] [_ K2] [_ K3] Hb Hl (v0 & Hv0) H1 Hne H2. set (u := ID (DUser dto)) in *.
  destruct (run_held digest sha256 us1 opts K1 (grows u) c (Env g f1) v0 Hv0) as (v1 & _ & Hv1). rewrite H1 in Hv1. cbn [snd] in Hv1.
  destruct (run_issued digest sha256 us1 opts K1 c _ dto s1 H1 Hne) as (o & claims & Ho' & Hc & Hu & Hle).
  rewrite Ho in Ho'. injection Ho' as <-. specialize (Hle v1 Hv1).
  destruct (after_held digest sha256 opts (grows u) before (e_db s1) Hb v1 Hv1) as (v2 & L2 & Hv2).
  destruct (LogoutAll_grows us2 K2 now u (Env _ f2) s2 v2 Hv2 H2) as (v3 & L3 & Hv3).
  destruct (after_held digest sha256 opts (grows u) later (e_db s2) Hl v3 Hv3) as (v4 & L4 & Hv4).
  destruct (apiAuth.authorize _ _ _ _ _ _ _ _) as [o s3] eqn:E. cbn [fst]. intros ->.
  apply authorize_true in E as (claims' & Hp & Hv); [|done].
  pose proof (parse_created _ _ _ _ _ Hc Hp) as ->. rewrite Hu in Hv. specialize (Hv v4 Hv4). fold u in Hle. lia.
Qed.

(** ** Login codes *)
Definition absent (k : string) (r r' : redis) : Prop := r !! k = None -> r' !! k = None.
#[export] Instance absent_preorder k : PreOrder (absent k).
Proof. split; [by intros r H|]. intros r1 r2 r3 H1 H2 H. auto. Qed.
Lemma absent_same k r r' : same_at k r r' -> absent k r r'.
Proof. unfold same_at, absent. by intros ->. Qed.
#[export] Instance absent_respected digest m : respected digest (absent (smscode.LoginKey m)).
Proof.
  apply (respected_at digest (smscode.LoginKey m)); [exact _|apply absent_same|done..| | |].
  - intros. apply steps_wrap_err, steps_command; [exact _|]. intros d H. cbn. by rewrite lookup_delete_None; right.
  - intros. eapply steps_weaken; [apply absent_same|]. by apply ConsumeIfValue_elsewhere.
  - intros. eapply steps_weaken; [apply absent_same|]. unfold tokenversion.Bump, tokenversion.versionKey.
    destruct (_ =? 0); cbn [with_key]; steps_go. by apply Increment_elsewhere.
Qed.

(** C14: A code sent for a login is good for one login: after [SmsLogin] returned, no login
    with a code of that number returns, whatever calls and faults come between, until
    a new code is sent. *)
Theorem sms_code_logs_in_once `{G : grpc_status} `{J : jwt} digest sha256 opts us1 us2 mobile
    ctx d now code g f1 dto s1 cs ctx' d' now' code' f2 :
  deployed opts us1 -> Forall (fun c => deployed opts c.1.1) cs ->
  SmsLogin digest sha256 us1 ctx d now mobile code (Env g f1) = (Ret dto, s1) ->
  is_ret (SmsLogin digest sha256 us2 ctx' d' now' mobile code' (Env (after digest sha256 opts cs (e_db s1)) f2)).1 = false.
Proof.
  intros [Ho K1] Hcs H.
  assert (keys (e_db s1) !! smscode.LoginKey mobile = None) as Hn.
  { unfold SmsLogin, usersData in H. answer H a1. answer H a2. answer H a3. destruct a3 as [v|]; [|answer H a4; done].
    destruct (negb (seqb v code)); [answer H a4; done|]. answer H a4. destruct (users us1) as [uc|] eqn:Eu; [|done].
    answer H user. answer H del. answer H a5. answer H t. unfold ret in H. injection H as _ <-.
    pose proof (held_createToken digest sha256 us1 ltac:(by rewrite Eu) (absent (smscode.LoginKey mobile)) ctx d now user s6) as Hh.
    rewrite E6 in Hh. apply Hh. clear Hh E6. apply fail_if_Ret in E5 as [_ ->].
    apply on_keys_Ret in E4 as (r & E4 & ->). apply wrap_err_Ret, command_Ret in E4. cbn [e_db] in E4. injection E4 as _ <-.
    apply lookup_delete_eq. }
  apply (after_held digest sha256 opts (absent (smscode.LoginKey mobile)) cs (e_db s1) Hcs) in Hn. clear H.
  destruct (SmsLogin _ _ _ _ _ _ _ _ _) as [[dto'| |] s2] eqn:E; [|done..]. exfalso.
  unfold SmsLogin, usersData in E. answer E a1.
  pose proof (held_sms_allowed digest us2 (absent (smscode.LoginKey mobile)) now' mobile smscode.TypeLogin) as Hh.
  specialize (Hh (Env (after digest sha256 opts cs (e_db s1)) f2)). rewrite E0 in Hh. apply Hh in Hn. cbn [snd] in Hn. clear Hh E0.
  answer E a2. apply fail_if_Ret in E0 as [_ ->]. answer E a3. apply on_keys_Ret in E0 as (r & [-> _]%GetKey_Ret & _).
  unfold redis_get, present in E. cbn [e_db] in E. rewrite Hn in E. cbn in E. answer E a4. done.
Qed.

(** ** A concrete gateway *)
Definition demo_opts : JwtOptions := MkJwtOptions "shop" "goshop-api" "0123456789abcdef" (3600 * Second) (86400 * Second).
(** A signer for the tokens of one account: the token is its version. *)
Definition demo_claims (v : Z) : Claims :=
  MkClaims 1 "nick" 1 PrincipalCustomer "active" CustomerScopes v "uuid" ["goshop-api"] 200 3800 "shop".
#[global] Instance Claims_eq_dec : EqDecision Claims.
Proof. solve_decision. Defined.
Definition demo_jwt : jwt := {|
  CreateToken key claims :=
    if decide (claims = demo_claims (ClTokenVersion claims) /\ 0 <= ClTokenVersion claims < 2 ^ 63)
    then inl (itoa (ClTokenVersion claims)) else inr (Errorf "cannot sign" [] None);
  ParseTokenWithClaims key now token := if now / Second <? 3800 then demo_claims <$> Atoi token else None
|}.
#[global] Instance demo_jwt_laws : jwt_laws demo_jwt.
Proof.
  intros key now claims token claims'. cbn. destruct (decide _) as [[E Hv]|]; [|done]. intros [= <-].
  rewrite Atoi_itoa by done. destruct (_ <? _); [|done]. intros [= <-]. by rewrite <- E.
Qed.
Definition demo_client (now : Z) : UserClient gate :=
  server_users (G := demo_status) (L := demo_libs) "salt" "uuid" now id id.
Definition demo_service (now : Z) : userService :=
  MkUserService (Some (demo_client now)) (Some demo_opts) true (Some loginattempt.NewRedisStore)
    (Some loginattempt.NewIPRedisStore) (Some smsattempt.NewRedisStore) false true.
Lemma demo_deployed now : deployed demo_opts (demo_service now).
Proof.
  split; [done|]. intros uc H. assert (uc = demo_client now) as -> by (by injection H as <-).
  exact (server_users_keyless (G := demo_status) (L := demo_libs) "salt" "uuid" now id id).
Qed.
Definition demo_gate : gate := Gate demo_accounts ∅.
Definition demo_ctx : ginContext := MkGinContext (fun _ => "") "10.0.0.1".
Definition demo_login (password : string) : call :=
  CPasswordLogin demo_ctx "10.0.0.1" (MkDrawn "refresh" "device") (200 * Second) " ALICE " password.
Definition demo_hash (_ : string) : string := "0123456789abcdef0123456789abcdef".
Definition demo_run (c : call) (s : env gate) : outcome (option UserDTO) * env gate :=
  run (G := demo_status) (J := demo_jwt) (fun x => x) demo_hash (demo_service (200 * Second)) demo_opts c s.
Definition demo_accept (t : Z) (token : string) (s : env gate) : outcome bool * env gate :=
  apiAuth.authorize (G := demo_status) (J := demo_jwt) (fun x => x) demo_opts true true
    (users (demo_service (t * Second))) (t * Second) token s.
Definition demo_in : outcome (option UserDTO) * env gate := demo_run (demo_login "Secret-1") (Env demo_gate []).
Definition demo_dto : UserDTO :=
  token_dto (MkUser 1 "alice" "13800000000" "alice@shop.cn" "nick" 0 "unknown" 1 "active" false false None)
    ("0", 3800, "refresh", 86600, "uuid").
Definition demo_out : outcome unit * env gate :=
  LogoutAll (demo_service (400 * Second)) (400 * Second) 1 (Env (e_db demo_in.2) []).
Definition demo_relogin : list (userService * call * list (option string)) :=
  [(demo_service (450 * Second), demo_login "Secret-1", [])].
Lemma logout_all_ends_tokens_witness :
  demo_in.1 = Ret (Some demo_dto) /\ (demo_accept 300 "0" (Env (e_db demo_in.2) [])).1 = Ret true /\ demo_out.1 = Ret tt /\
  (demo_accept 500 "0"
    (Env (after (G := demo_status) (J := demo_jwt) (fun x => x) demo_hash demo_opts demo_relogin (e_db demo_out.2)) [])).1 <> Ret true.
Proof.
  split; [vm_compute; reflexivity|]. split; [vm_compute; reflexivity|]. split; [vm_compute; reflexivity|].
  eapply (logout_all_ends_tokens (G := demo_status) (J := demo_jwt) (fun x => x) demo_hash demo_opts
    (demo_service (200 * Second)) (demo_service (400 * Second)) (demo_service (500 * Second))
    demo_gate (demo_login "Secret-1") [] demo_dto demo_in.2 [] (400 * Second) [] demo_out.2 demo_relogin).
  - apply demo_deployed.
  - apply demo_deployed.
  - apply demo_deployed.
  - constructor.
  - constructor; [apply demo_deployed|constructor].
  - by exists 0.
  - rewrite (surjective_pairing (run _ _ _ _ _ _)). by f_equal.
  - discriminate.
  - rewrite (surjective_pairing (LogoutAll _ _ _ _)). by f_equal.
Defined.

Definition demo_sms : gate := Gate demo_accounts {[ smscode.LoginKey "13800000000" := ("123456", Some (500 * Second)) ]}.
Definition demo_sms_in (t : Z) (g : gate) : outcome UserDTO * env gate :=
  SmsLogin (G := demo_status) (J := demo_jwt) (fun x => x) demo_hash (demo_service (t * Second)) demo_ctx
    (MkDrawn "refresh" "device") (t * Second) "13800000000" "123456" (Env g []).
Lemma sms_code_logs_in_once_witness :
  (demo_sms_in 200 demo_sms).1 = Ret demo_dto /\
  is_ret (demo_sms_in 200 (after (G := demo_status) (J := demo_jwt) (fun x => x) demo_hash demo_opts demo_relogin
    (e_db (demo_sms_in 200 demo_sms).2))).1 = false.
Proof.
  split; [vm_compute; reflexivity|].
  eapply (sms_code_logs_in_once (G := demo_status) (J := demo_jwt) (fun x => x) demo_hash demo_opts
    (demo_service (200 * Second)) (demo_service (200 * Second)) "13800000000" demo_ctx (MkDrawn "refresh" "device")
    (200 * Second) "123456" demo_sms [] demo_dto).
  - apply demo_deployed.
  - constructor; [apply demo_deployed|constructor].
  - rewrite (surjective_pairing (SmsLogin _ _ _ _ _ _ _ _ _)). by f_equal.
Defined.
