(* ===== verification/PasswordGuesses.v ===== *)
(** * Guesses of a password are limited

    The limit on failed logins, composed from the counter in Redis, the gateway's
    login and the user service behind the network: within the window of the first
    failure, fewer than [maxFailures] wrong guesses are answered with "password
    incorrect", whatever commands, calls and statements fail. *)
From S2P Require Import Prelude GoStrings Errors GoMonad ErrorTransport Authz Tables UserModel UserStore SessionStore.
From S2P Require Import UserSessions UserValidation UserAccounts OrderGateway GatewayLaws Redis RedisStores RedisProperties UserGateway.
From S2P Require Import SessionProperties UserIdentity UserGatewayLaws UserGatewayProperties.
Import RedisCluster data userGateway.
Open Scope go_scope.

(** ** The answer that a guess was wrong *)
Definition told_wrong (e : goerr) : bool :=
  match e with
  | withSpec spec internal None => (Code spec =? ErrUserPasswordIncorrect) && seqb internal "mobile number or password was incorrect"
  | _ => false
  end.
Definition answered_wrong {A} (o : outcome A) : bool := match o with Fail e => told_wrong e | _ => false end.
Fixpoint wrong_answers {A} (l : list (outcome A)) : Z :=
  match l with [] => 0 | o :: l => (if answered_wrong o then 1 else 0) + wrong_answers l end.

Lemma told_newCode code internal :
  registered code = true -> (code =? ErrUserPasswordIncorrect) && seqb internal "mobile number or password was incorrect" = false ->
  told_wrong (newCode code internal) = false.
Proof. intros Hr H. destruct (newCode_spec code internal Hr) as (sp & -> & <-). exact H. Qed.
Lemma told_validation m : told_wrong (NewValidationError m) = false.
Proof.
  unfold NewValidationError, NewPublicSpec. cbn [Code SpecKind Message]. destruct (registeredSpecForCode _ _) as [reg|].
  - destruct (_ || _); [apply told_newCode; by vm_compute|]. unfold told_wrong, safeSpec.
    destruct (Validate _); cbn [Code]; by vm_compute.
  - apply told_newCode; by vm_compute.
Qed.
Section Rpc.
Context `{G : grpc_status}.
(** What the user client reports is never this answer. *)
Lemma told_userRPCError e : is_status e = true -> told_wrong (rpc.userRPCError e ErrUserNotFound) = false.
Proof.
  intros He. unfold rpc.userRPCError. destruct (httperror.SpecFromGRPC e) as [spec|].
  - destruct (_ =? _); [apply told_validation|]. unfold NewSpec. cbn [told_wrong]. by rewrite andb_false_r.
  - destruct (FromError e) as [[[c m] ds]|]; [|by destruct e].
    destruct (c =? codes.NotFound); [by apply told_newCode; vm_compute|].
    destruct ((c =? codes.Aborted) || (c =? codes.AlreadyExists)); [by apply told_newCode; vm_compute|].
    destruct (c =? codes.InvalidArgument); [|by destruct e].
    destruct ((ErrUserNotFound =? ErrValidation) && negb (seqb m "")); [apply told_validation|by apply told_newCode; vm_compute].
Qed.
Lemma invoke_status {D A} (m : M D A) s e s' : invoke m s = (Fail e, s') -> is_status e = true.
Proof.
  unfold invoke, served. destruct (next_fault s) as [[msg|] s1]; [intros [= <- _]; done|].
  destruct (m s1) as [[a|e'|p] s2]; [|intros [= <- _]; unfold on_wire; by destruct (FromError _) as [[[c t] ds]|]|intros [= <- _]; done].
  destruct (next_fault s2) as [[msg|] s3]; [intros [= <- _]; done|done].
Qed.
End Rpc.

(** ** Sequences of guesses *)
Record guess := MkGuess {
  g_service : userService; g_ctx : ginContext; g_ip : string; g_drawn : drawn; g_now : Z; g_password : string;
  g_faults : list (option string)
}.
Section Guesses.
Context `{G : grpc_status} `{J : jwt} `{L : account_libs} (digest sha256 : string -> string) (username : string).

Definition guess_run (x : guess) (g : gate) : outcome UserDTO * env gate :=
  PasswordLogin digest sha256 (g_service x) (g_ctx x) (g_ip x) (g_drawn x) (g_now x) username (g_password x) (Env g (g_faults x)).
Fixpoint guess_answers (xs : list guess) (g : gate) : list (outcome UserDTO) :=
  match xs with
  | [] => []
  | x :: xs => let '(o, s) := guess_run x g in o :: guess_answers xs (e_db s)
  end.

(** A guess the account's hash does not accept, or an account that is not there. *)
Definition wrong (T : user_db) (password : string) : Prop :=
  forall f a s s', accountServer.GetUserAuthByMobile (Some (ToLower (TrimSpace (normalizeLoginIdentifier username)))) (Env T f) = (Ret a, s) ->
    accountServer.CheckPassWord (Some (password, RspPasswordHash a)) s' = (Ret false, s').

Context (o : attempt_options) (t0 : Z) (T : user_db).
Notation key := (digest (ToLower (TrimSpace (normalizeLoginIdentifier username)))).
Notation failK := (loginattempt.failKeyPrefix +:+ key).
Notation lockK := (loginattempt.lockKeyPrefix +:+ key).
Notation seconds := (Z.quot (window o) Second).

(** An attempt of the window on the account, from an address that is no account's. *)
Definition attempted (x : guess) : Prop :=
  (exists salt uuid now b c, users (g_service x) = Some (server_users salt uuid now b c)) /\
  loginAttempts (g_service x) = Some o /\
  t0 <= g_now x <= t0 + seconds * Second /\
  digest (ToLower (TrimSpace (g_ip x))) <> key /\
  wrong T (g_password x).

Context (Hw : Second <= window o <= lockTTL o) (Hmax : 0 < maxFailures o).
Definition state (k : Z) (g : gate) : Prop := user_tables g = T /\ counted o failK lockK t0 k (keys g).

(** *** What keeps the count *)
Lemma seconds_pos : 0 < seconds.
Proof. pose proof (Z.quot_le_mono Second (window o) Second ltac:(done) ltac:(lia)) as Hq. rewrite Z.quot_same in Hq; [lia|done]. Qed.
Lemma lock_long : seconds * Second <= lockTTL o.
Proof. unfold Second in *. pose proof (Z.mul_quot_le (window o) 1000000000 ltac:(lia) ltac:(lia)). lia. Qed.
Lemma counted_ext k r r' : same_at failK r r' -> same_at lockK r r' -> counted o failK lockK t0 k r -> counted o failK lockK t0 k r'.
Proof.
  intros E1 E2 [H|H]; [left; unfold present in *; by rewrite E2|right]. by apply (counter_ext _ _ _ _ r).
Qed.
Definition quiet (g g' : gate) : Prop := user_tables g' = user_tables g /\ same_at failK (keys g) (keys g') /\ same_at lockK (keys g) (keys g').
#[local] Instance quiet_preorder : PreOrder quiet.
Proof.
  split; [by intros g|]. intros g1 g2 g3 (A1 & A2 & A3) (B1 & B2 & B3).
  split_and!; [congruence|etrans; eassumption|etrans; eassumption].
Qed.
Lemma state_quiet k g g' : quiet g g' -> state k g -> state k g'.
Proof. intros (E1 & E2 & E3) [H1 H2]. split; [congruence|by apply (counted_ext k (keys g))]. Qed.
Lemma quiet_eq {A} (m : M gate A) : steps eq m -> steps quiet m.
Proof. apply steps_weaken. by intros g g' ->. Qed.
Lemma on_keys_quiet {A} (m : M redis A) : steps (same_at failK) m -> steps (same_at lockK) m -> steps quiet (on_keys m).
Proof.
  intros H1 H2 [[t r] f]. specialize (H1 (Env r f)). specialize (H2 (Env r f)). unfold on_keys, quiet. cbn in *.
  by destruct (m _) as [x [d f']].
Qed.
Lemma on_users_eq {A} (m : M user_db A) : steps eq m -> steps eq (on_users m).
Proof. intros H [[t r] f]. specialize (H (Env t f)). unfold on_users. cbn in *. destruct (m _) as [x [d f']]. cbn in *. by subst. Qed.

(** *** The calls of a guess *)
Lemma lookup_reads name : steps eq (accountServer.GetUserAuthByMobile (Some name)).
Proof.
  unfold accountServer.GetUserAuthByMobile, accounts.GetAuthByUsername, UserStore.users.GetAuthByUsername,
    UserStore.users.GetByUsername, UserStore.users.buildAuthUser, UserStore.users.listStaffRoles, UserStore.users.listPermissions,
    UserStore.users.first_user, accounts.newUserAuthDTO, accounts.newUserPublicDTO, accounts.validateLegacyRole.
  repeat (steps_step || frame_step).
Qed.
Lemma check_reads p h : steps eq (accountServer.CheckPassWord (Some (p, h))).
Proof. unfold accountServer.CheckPassWord. steps_go. Qed.
Lemma allowed_reads x : steps eq (ensurePasswordLoginAllowed digest (g_service x) (g_now x) (normalizeLoginIdentifier username) (g_ip x)).
Proof.
  assert (forall now i, steps (by_keys eq) (on_keys (loginattempt.IsLocked digest now i))) as H.
  { intros. apply on_keys_steps. unfold loginattempt.IsLocked, is_locked. destruct (loginattempt.lockKey _ _); cbn [with_key]; steps_go.
    apply GetKey_reads. }
  assert (forall now i, steps eq (on_keys (loginattempt.IsLocked digest now i))) as H'.
  { intros now i [[t r] f]. specialize (H now i (Env (Gate t r) f)). unfold by_keys, on_keys in *. cbn in *.
    destruct (loginattempt.IsLocked _ _ _ _) as [q [d f']]. cbn in *. by subst. }
  unfold ensurePasswordLoginAllowed, ensurePasswordLoginIPAllowed, ensure_unlocked. steps_go; apply H'.
Qed.
(** Recording under another identifier leaves the account's keys alone. *)
Lemma other_RecordFailure p o' now i :
  digest (ToLower (TrimSpace i)) <> key ->
  loginattempt.failKeyPrefix +:+ digest (ToLower (TrimSpace i)) <> p +:+ key ->
  loginattempt.lockKeyPrefix +:+ digest (ToLower (TrimSpace i)) <> p +:+ key ->
  steps (same_at (p +:+ key)) (loginattempt.RecordFailure digest o' now i).
Proof.
  intros Hi H1 H2. unfold loginattempt.RecordFailure, loginattempt.lockKey, loginattempt.failKey, loginattempt.keyedIdentifier.
  unfold record_failure, is_locked. elsewhere.
Qed.

(** *** One guess *)
Definition fine (k : Z) (x : outcome UserDTO * env gate) : Prop :=
  if answered_wrong x.1 then state (k + 1) (e_db x.2) /\ k + 1 <= maxFailures o - 1 else state k (e_db x.2).
Lemma fine_bind {A} k (m : M gate A) (f : A -> M gate UserDTO) s :
  state k (e_db s) -> steps quiet m -> (forall e s1, m s = (Fail e, s1) -> told_wrong e = false) ->
  (forall a s1, m s = (Ret a, s1) -> state k (e_db s1) -> fine k (f a s1)) -> fine k (bind m f s).
Proof.
  intros Hs Hm He Hf. specialize (Hm s). pose proof (state_quiet k _ _ Hm Hs) as Hs1. unfold bind.
  destruct (m s) as [[a|e|p] s1]; cbn [snd] in *; [by apply Hf| |exact Hs1].
  unfold fine. cbn. by rewrite (He e s1 eq_refl).
Qed.
Lemma fine_fail k e s : state k (e_db s) -> told_wrong e = false -> fine k (fail e s).
Proof. intros Hs He. unfold fine. cbn. by rewrite He. Qed.
Lemma state_weaken k g : 0 <= k -> state (k + 1) g -> state k g.
Proof.
  intros H0 [H1 [H|H]]; split; try done; [by left|right]. by apply (counter_weaken _ _ _ (k + 1)); [|lia..].
Qed.
Lemma told_locked what : told_wrong (login_locked what) = false.
Proof. apply told_newCode; by vm_compute. Qed.
Lemma told_bad : told_wrong bad_password = true.
Proof. by vm_compute. Qed.

Lemma allowed_told x s e s1 :
  ensurePasswordLoginAllowed digest (g_service x) (g_now x) (normalizeLoginIdentifier username) (g_ip x) s = (Fail e, s1) ->
  told_wrong e = false.
Proof.
  unfold ensurePasswordLoginAllowed, ensurePasswordLoginIPAllowed.
  assert (forall m a b s2 e2 s3, ensure_unlocked m (login_locked a) (login_locked b) s2 = (Fail e2, s3) -> told_wrong e2 = false) as H.
  { intros m a b s2 e2 s3. unfold ensure_unlocked, bind, wrap_err. destruct (on_keys m s2) as [[lk|e'|p] s4].
    - destruct lk; unfold fail_if, fail, ret; intros H; [|discriminate H].
      assert (e2 = login_locked b) as -> by congruence. apply told_locked.
    - intros H. assert (e2 = login_locked a) as -> by congruence. apply told_locked.
    - intros H. discriminate H. }
  destruct (loginAttempts _).
  - unfold bind. destruct (ensure_unlocked _ _ _ s) as [[u|e'|p] s2] eqn:E; [|intros E2; apply H in E; congruence|done].
    destruct (seqb _ _); [done|]. destruct (loginIPAttempts _); [apply H|done].
  - destruct (seqb _ _); [done|]. destruct (loginIPAttempts _); [apply H|done].
Qed.

Lemma ip_quiet x : attempted x ->
  steps quiet (record_with digest (loginIPAttempts (g_service x)) (seqb (TrimSpace (g_ip x)) "") (g_now x) (g_ip x)
    "record password login failure by ip").
Proof.
  intros (_ & _ & _ & Hip & _). unfold record_with. steps_go. apply on_keys_quiet; apply other_RecordFailure; try done.
  all: intros E; apply Hip; unfold loginattempt.failKeyPrefix, loginattempt.lockKeyPrefix in E; cbn in E; by injection E.
Qed.
Lemma account_recorded x k s : attempted x -> 0 <= k -> state k (e_db s) ->
  match record_with digest (Some o) false (g_now x) (normalizeLoginIdentifier username) "record password login failure" s with
  | (Ret false, s') => state (k + 1) (e_db s') /\ k + 1 <= maxFailures o - 1
  | (Fail e, s') => told_wrong e = false /\ state k (e_db s')
  | (_, s') => state k (e_db s')
  end.
Proof.
  intros (_ & _ & Hn & _ & _) H0 [HT Hc]. unfold record_with, wrap_err, on_keys, loginattempt.RecordFailure,
    loginattempt.lockKey, loginattempt.failKey, loginattempt.keyedIdentifier.
  case_bool_decide as Hid; cbn [with_key].
  { cbn. split; [apply told_locked|]. by destruct s as [[t r] f]. }
  assert (failK <> lockK) as Hne by done.
  pose proof (record_failure_counted o failK lockK Hne t0 seconds_pos lock_long k (keys (e_db s)) (e_faults s) (g_now x) H0 Hc Hn) as H.
  destruct (record_failure o failK lockK (g_now x) _) as [[[]|e|p] r']; unfold answered in H; cbn in H |- *.
  - by split.
  - destruct H as [H Hb]. by split; [split|].
  - split; [apply told_locked|by split].
  - by split.
Qed.
Lemma failure_recorded x k s : attempted x -> 0 <= k -> state k (e_db s) ->
  match recordPasswordLoginFailure digest (g_service x) (g_now x) (normalizeLoginIdentifier username) (g_ip x) s with
  | (Ret _, s') => state (k + 1) (e_db s') /\ k + 1 <= maxFailures o - 1
  | (Fail e, s') => told_wrong e = false /\ state k (e_db s')
  | (Panic _, s') => state k (e_db s')
  end.
Proof.
  intros Hx H0 Hs. pose proof (ip_quiet x Hx) as Hq. pose proof (account_recorded x k s Hx H0 Hs) as Ha.
  destruct Hx as (_ & Ho & _). unfold recordPasswordLoginFailure. rewrite Ho. unfold bind at 1.
  destruct (record_with digest (Some o) false _ _ _ s) as [[lk|e|p] s1]; [|exact Ha|exact Ha]. unfold bind.
  specialize (Hq s1). destruct (record_with digest _ _ _ _ _ s1) as [[ip|e|p] s2] eqn:E2; cbn [snd] in Hq.
  - destruct lk; cbn [orb fail_if]; [split; [apply told_locked|by apply (state_quiet k (e_db s1))]|].
    destruct Ha as [Ha Hb]. apply (state_quiet _ _ _ Hq) in Ha. destruct ip; [split; [apply told_locked|by apply state_weaken]|done].
  - split.
    + clear -E2. unfold record_with, wrap_err in E2. destruct (loginIPAttempts _); [|done]. destruct (seqb _ _); [done|].
      match type of E2 with context [on_keys ?m s1] => destruct (on_keys m s1) as [[b|e'|p] s3] end; [discriminate E2| |discriminate E2].
      assert (e = login_locked "record password login failure by ip") as -> by congruence.
      apply told_locked.
    + destruct lk; [by apply (state_quiet k (e_db s1))|]. destruct Ha as [Ha _]. apply state_weaken; [done|by apply (state_quiet _ (e_db s1))].
  - destruct lk; [by apply (state_quiet k (e_db s1))|]. destruct Ha as [Ha _]. apply state_weaken; [done|by apply (state_quiet _ (e_db s1))].
Qed.
Lemma fine_refused x k s code e : attempted x -> 0 <= k -> state k (e_db s) ->
  (IsCode e code = false -> told_wrong e = false) ->
  fine k (@refused digest (g_service x) UserDTO (g_now x) (normalizeLoginIdentifier username) (g_ip x) code e s).
Proof.
  intros Hx H0 Hs He. unfold refused. destruct (IsCode e code) eqn:Ec; [|apply fine_fail; auto].
  pose proof (failure_recorded x k s Hx H0 Hs) as H. unfold bind, fine.
  destruct (recordPasswordLoginFailure _ _ _ _ _ s) as [[u|e'|p] s1]; cbn.
  - exact H.
  - destruct H as [-> H]. exact H.
  - exact H.
Qed.

Section Server.
Context (salt uuid : string) (now : Z) (b : list UserSessionDO.t -> list UserSessionDO.t)
  (c : list DeviceBlacklistDO.t -> list DeviceBlacklistDO.t).
Notation uc := (server_users salt uuid now b c).
Lemma GetAuthByUsername_quiet : steps quiet (rpc.GetAuthByUsername uc (normalizeLoginIdentifier username)).
Proof.
  apply quiet_eq. unfold rpc.GetAuthByUsername, rpc.answered_or. steps_go. cbn. unfold ptr, call_users. steps_go.
  apply steps_invoke; [exact _|]. apply on_users_eq, lookup_reads.
Qed.
Lemma CheckPassWord_quiet p h : steps quiet (rpc.CheckPassWord uc p h).
Proof.
  apply quiet_eq. unfold rpc.CheckPassWord. steps_go. cbn. unfold ptr, call_users. steps_go.
  apply steps_invoke; [exact _|]. apply on_users_eq, check_reads.
Qed.
(** An error of the lookup that is not told as a wrong password. *)
Lemma GetAuthByUsername_told s e s1 :
  rpc.GetAuthByUsername uc (normalizeLoginIdentifier username) s = (Fail e, s1) -> told_wrong e = false.
Proof.
  unfold rpc.GetAuthByUsername, rpc.answered_or, server_users. cbn [UserGateway.GetUserAuthByMobile]. cbv zeta.
  unfold ptr, bind, fail_if, wrap_err.
  assert (told_wrong rpc.user_not_found = false) as Hn by (apply told_newCode; by vm_compute).
  destruct (seqb _ _); [unfold fail; intros; congruence|]. unfold ret, call_users.
  match goal with |- context [invoke ?m ?s0] => destruct (invoke m s0) as [[a|e'|p] s2] eqn:E end.
  - intros H. discriminate H.
  - intros H. assert (e = rpc.userRPCError e' ErrUserNotFound) as -> by congruence.
    apply told_userRPCError. by apply invoke_status in E.
  - intros H. discriminate H.
Qed.
(** On the tables of the account a wrong guess is never accepted. *)
Lemma CheckPassWord_wrong p s a s1 s2 s3 :
  wrong T p -> user_tables (e_db s) = T ->
  rpc.GetAuthByUsername uc (normalizeLoginIdentifier username) s = (Ret a, s1) ->
  rpc.CheckPassWord uc p (PasswordHash a) s2 <> (Ret tt, s3).
Proof.
  intros Hp HT H H2. unfold rpc.GetAuthByUsername, rpc.answered_or, server_users in H. cbn [UserGateway.GetUserAuthByMobile] in H.
  answer H u. apply fail_if_Ret in E as [_ ->].
  answer H r. unfold ret in H. injection H as <- <-. answer E q. apply wrap_err_Ret in E0.
  unfold ptr, call_users in E0. answer E0 r'. apply invoke_Ret in E1 as (t1 & t2 & Et & E1 & _).
  unfold ret in E0. injection E0 as <- _. unfold ret in E. injection E as <- _.
  assert (exists f v, accountServer.GetUserAuthByMobile (Some (ToLower (TrimSpace (normalizeLoginIdentifier username)))) (Env T f) = (Ret r', v)) as (f & v & Hg).
  { unfold on_users in E1. rewrite Et, HT in E1. destruct (accountServer.GetUserAuthByMobile (Some _) _) as [o' v] eqn:Eg.
    injection E1 as -> _. eauto. }
  unfold rpc.CheckPassWord, server_users in H2. cbn [UserGateway.CheckPassWord] in H2. answer H2 u2. answer H2 cres.
  unfold ptr, call_users in E0. answer E0 cr.
  apply invoke_Ret in E2 as (t3 & t4 & _ & E2 & _). unfold on_users in E2. rewrite (Hp f r' v _ Hg) in E2. injection E2 as <- _.
  unfold ret in E0. injection E0 as <- _. done.
Qed.
End Server.

Lemma guess_fine x k g : attempted x -> 0 <= k -> state k g -> fine k (guess_run x g).
Proof.
  intros Hx H0 Hs. unfold guess_run, PasswordLogin, usersData. cbv zeta.
  pose proof Hx as ((salt & uuid & now & b & c & Hu) & _ & _ & _ & Hp). rewrite Hu.
  apply fine_bind; [done|apply quiet_eq, allowed_reads|apply allowed_told|]. intros u s1 _ Hs1.
  apply fine_bind; [done|apply steps_attempt, GetAuthByUsername_quiet|unfold attempt; intros e s2; by destruct (rpc.GetAuthByUsername _ _ s1) as [[]]|].
  intros r s2 Er Hs2. apply attempt_Ret in Er. destruct r as [a|e].
  - apply fine_bind; [done|apply steps_attempt, CheckPassWord_quiet|unfold attempt; intros e s3; by destruct (rpc.CheckPassWord _ _ _ s2) as [[]]|].
    intros q s3 Eq Hs3. apply attempt_Ret in Eq. destruct q as [[]|e].
    + exfalso. exact (CheckPassWord_wrong salt uuid now b c (g_password x) s1 a s2 s2 s3 Hp (proj1 Hs1) Er Eq).
    + apply fine_refused; [done..|]. intros Hc. destruct e as [?|sp m [e'|]|?|?|?]; try done.
      rewrite IsCode_leaf in Hc. cbn [told_wrong]. by rewrite Hc.
  - apply fine_refused; [done..|]. intros _. by apply GetAuthByUsername_told in Er.
Qed.

Lemma guesses_bounded xs : forall k g, Forall attempted xs -> 0 <= k <= maxFailures o - 1 -> state k g ->
  k + wrong_answers (guess_answers xs g) <= maxFailures o - 1.
Proof.
  induction xs as [|x xs IH]; intros k g Hxs Hk Hs; cbn; [lia|]. apply Forall_cons in Hxs as [Hx Hxs].
  pose proof (guess_fine x k g Hx ltac:(lia) Hs) as H. unfold fine in H.
  destruct (guess_run x g) as [r s1]. cbn [fst snd wrong_answers] in *. destruct (answered_wrong r).
  - destruct H as [H Hb]. specialize (IH (k + 1) (e_db s1) Hxs ltac:(lia) H). lia.
  - specialize (IH k (e_db s1) Hxs Hk H). lia.
Qed.
End Guesses.

(** C10: wrong guesses are limited for each login identifier (the name, the mobile
    number and the address of one account have counters of their own).  In a
    sequence of wrong guesses for one identifier, with no successful login and no
    change of the accounts in between, within the window from a time when no
    failure is on record: fewer than [max] of them are answered "password
    incorrect", and every other is answered with a lock or an error, whatever
    commands, calls and statements fail.  The window is at least a second and no
    longer than the lock, and no guess comes from a client address counted
    under the identifier's own key. *)
Theorem password_guesses_limited `{G : grpc_status} `{J : jwt} `{L : account_libs} digest sha256 username max win ttl t0 T r xs :
  let o := loginattempt.NewRedisStoreWithOptions max win ttl in
  Second <= window o <= lockTTL o -> Forall (attempted digest username o t0 T) xs ->
  present t0 (loginattempt.failKeyPrefix +:+ digest (normalizeLoginIdentifier username)) r = None ->
  wrong_answers (guess_answers digest sha256 username xs (Gate T r)) < maxFailures o.
Proof.
  intros o Hw Hxs Hr. assert (0 < maxFailures o) as Hmax by (cbn; destruct (Z.leb_spec max 0); [done|lia]).
  pose proof (guesses_bounded digest sha256 username o t0 T Hw xs 0 (Gate T r) Hxs ltac:(lia)) as H.
  cbn [Z.add] in H. enough (state digest username o t0 T 0 (Gate T r)) as Hs by (specialize (H Hs); lia).
  split; [done|]. right. left. split; [done|]. cbn [keys].
  change (ToLower (TrimSpace (normalizeLoginIdentifier username))) with (normalize (normalize username)).
  rewrite normalize_idem. exact Hr.
Qed.

(** ** Which guesses are wrong *)
Section Wrong.
Context `{L : account_libs}.
Lemma found_hash id s a s' :
  accountServer.GetUserAuthByMobile (Some id) s = (Ret a, s') ->
  exists n, n ∈ UserModel.users (e_db s) /\ RspPasswordHash a = UserDO.Password n.
Proof.
  unfold accountServer.GetUserAuthByMobile, accounts.GetAuthByUsername, UserStore.users.GetAuthByUsername,
    UserStore.users.GetByUsername. intros (dto & s1 & H & H1)%bind_Ret. unfold ret in H1. injection H1 as <- _.
  cbv zeta in H. answer H u. apply fail_if_Ret in E as [_ ->]. answer H x. answer E n. answer E0 u2. apply fail_if_Ret in E1 as [_ ->].
  unfold UserStore.users.first_user, first_or, user_dberr in E0. answer E0 q. apply wrap_err_Ret, select_first_Ret in E1 as [-> _].
  destruct (find _ _) as [n'|] eqn:Ef; [|done]. unfold ret in E0. injection E0 as <- _. exists n'. split.
  - apply list_elem_of_In. by apply find_some in Ef as [? _].
  - unfold UserStore.users.buildAuthUser in E. answer E r1. answer E r2. answer E r3. unfold ret in E. injection E as <- _.
    unfold accounts.newUserAuthDTO in H. answer H pd. unfold ret in H. by injection H as <- _.
Qed.
Definition rejected (T : user_db) (password : string) : bool :=
  forallb (fun n => negb (CompareHashAndPassword (UserDO.Password n) password) &&
    match Split (UserDO.Password n) "$"%char with
    | _ :: _ :: salt :: encoded :: _ => negb (VerifyPbkdf2 password salt encoded)
    | _ => true
    end) (UserModel.users T).
Lemma rejected_wrong username T password : rejected T password = true -> wrong username T password.
Proof.
  intros Hr f a s s' (n & Hin & Hh)%found_hash. cbn [e_db] in Hin. unfold rejected in Hr. rewrite forallb_forall in Hr.
  specialize (Hr n (proj1 (list_elem_of_In _ _) Hin)). rewrite Hh. apply andb_true_iff in Hr as [H1%negb_true_iff H2].
  unfold accountServer.CheckPassWord. rewrite H1. destruct (Split _ _) as [|x1 [|x2 [|x3 [|x4 l]]]]; try done.
  apply negb_true_iff in H2. by rewrite H2.
Qed.
End Wrong.

(** Eight guesses at one account: four are told wrong, the fifth locks it. *)
Definition demo_guess (t : Z) (f : list (option string)) : guess :=
  MkGuess (demo_service (t * Second)) demo_ctx "10.0.0.1" (MkDrawn "refresh" "device") (t * Second) ("guess" +:+ itoa t) f.
Definition demo_guesses : list guess := (fun t => demo_guess t []) <$> [200; 201; 202; 203; 204; 205; 206; 207].
Definition demo_answers : list (outcome UserDTO) :=
  guess_answers (G := demo_status) (J := demo_jwt) (fun x => x) demo_hash "Alice" demo_guesses demo_gate.
Lemma password_guesses_limited_witness :
  wrong_answers demo_answers = 4 /\ wrong_answers demo_answers < 5.
Proof.
  split; [vm_compute; reflexivity|].
  apply (password_guesses_limited (G := demo_status) (J := demo_jwt) (L := demo_libs) (fun x => x) demo_hash "Alice"
    5 (15 * Minute) (15 * Minute) (200 * Second) demo_accounts ∅ demo_guesses).
  - vm_compute. split; discriminate.
  - apply Forall_forall. intros x (t & -> & Ht)%list_elem_of_fmap. split_and!.
    + exists "salt", "uuid", (t * Second), id, id. reflexivity.
    + reflexivity.
    + cbn [demo_guess g_now]. repeat (apply elem_of_cons in Ht as [->|Ht]); [vm_compute; discriminate..|]. by apply not_elem_of_nil in Ht.
    + repeat (apply elem_of_cons in Ht as [->|Ht]); [vm_compute; discriminate..|]. by apply not_elem_of_nil in Ht.
    + discriminate.
    + apply rejected_wrong. repeat (apply elem_of_cons in Ht as [->|Ht]); [vm_compute; reflexivity..|]. by apply not_elem_of_nil in Ht.
  - reflexivity.
Defined.
