(* ===== verification/PaymentCallback.v ===== *)
(** * Payment callbacks: [app/goshop/api/internal/payment/callback.go]

    The HTTP handler in front of the gateway's [ProcessPayCallback]: it verifies the
    signature and its age, reserves the nonce in Redis, decodes the body and hands the
    event on.  The keyed digest and the JSON decoder are parameters.  A replay of a
    callback that was handed on is refused as long as its signature is young enough. *)
From S2P Require Import Prelude GoStrings Errors GoMonad ErrorTransport Tables OrderModel InventoryModel.
From S2P Require Import OrderService OrderServer OrderHandlers OrderGateway Redis RedisStores RedisProperties.
Import RedisCluster.
Open Scope go_scope.

(** [hex.DecodeString] *)
Definition hex_value (c : Ascii.ascii) : option Z :=
  let n := Z.of_N (Ascii.N_of_ascii c) in
  if (48 <=? n) && (n <=? 57) then Some (n - 48)
  else if (97 <=? n) && (n <=? 102) then Some (n - 87)
  else if (65 <=? n) && (n <=? 70) then Some (n - 55)
  else None.
Fixpoint hex_bytes (l : list Ascii.ascii) : option (list Ascii.ascii) :=
  match l with
  | [] => Some []
  | a :: b :: l =>
    x ← hex_value a; y ← hex_value b; rest ← hex_bytes l;
    Some (Ascii.ascii_of_N (Z.to_N (16 * x + y)) :: rest)
  | _ => None
  end.
Definition DecodeString (s : string) : option string := implode <$> hex_bytes (explode s).

(** [t.Sub(u)]: a duration that does not fit is the nearest that does. *)
Definition Sub (t u : Z) : Z := Z.max (- 2 ^ 63) (Z.min (2 ^ 63 - 1) (t - u)).

(** ** The handler *)
Record callbackPayload := MkCallbackPayload {
  CpEventID : string; CpEventType : string; CpOrderSN : string; CpTradeNo : string; CpAmountFen : Z
}.
(** A request: its path parameter, the three headers, and the body as far as it could
    be read. *)
Record callback_http := MkCallbackHttp {
  ParamProvider : string; XTimestamp : string; XNonce : string; XSignature : string; Body : option string
}.
(** The order side and the keys of Redis. *)
Record pay_world (D : Type) := PayWorld { pay_orders : D; pay_keys : redis }.
Arguments PayWorld {D}. Arguments pay_orders {D}. Arguments pay_keys {D}.

Section Callback.
Context {D : Type} (hmac : string -> string -> string) (Unmarshal : string -> option callbackPayload).
Definition on_pay_orders {A} (m : M D A) : M (pay_world D) A := fun s =>
  let '(r, s') := m (Env (pay_orders (e_db s)) (e_faults s)) in
  (r, Env (PayWorld (e_db s') (pay_keys (e_db s))) (e_faults s')).
Definition on_pay_keys {A} (m : M redis A) : M (pay_world D) A := fun s =>
  let '(r, s') := m (Env (pay_keys (e_db s)) (e_faults s)) in
  (r, Env (PayWorld (pay_orders (e_db s)) (e_db s')) (e_faults s')).

Record CallbackHandler := MkCallbackHandler {
  opts : option PaymentOptions;
  service : option (payment.CallbackRequest -> M D bool);
  nonces : bool
}.

Definition newline : string := String.String (Ascii.ascii_of_N 10) "".
Definition verify (o : PaymentOptions) (now : Z) (provider timestamp nonce signature body : string) : bool :=
  match Atoi timestamp with
  | None => false
  | Some unix =>
    let delta := Sub now (unix * 1000000000) in
    if (CallbackMaxSkew o <? delta) || (delta <? - CallbackMaxSkew o) then false
    else match DecodeString signature with
         | None => false
         | Some provided =>
           bool_decide (provided = hmac (CallbackSecret o)
             (timestamp +:+ newline +:+ provider +:+ newline +:+ nonce +:+ newline +:+ body))
         end
  end.

(** The answer: an error, or whether the event was a duplicate. *)
Definition Handle (h : option CallbackHandler) (now : Z) (c : callback_http) : M (pay_world D) bool :=
  let unavailable := newCode ErrServiceUnavailable "payment callback unavailable" in
  match h with
  | None => fail unavailable
  | Some h =>
    match opts h, service h with
    | Some o, Some service =>
      fail_if (negb (Enabled o)) unavailable ;;;
      match Body c with
      | None => fail (newCode ErrValidation "invalid callback body")
      | Some body =>
        let provider := ToLower (TrimSpace (ParamProvider c)) in
        let timestamp := XTimestamp c in
        let nonce := TrimSpace (XNonce c) in
        fail_if (seqb nonce "" || negb (verify o now provider timestamp nonce (XSignature c) body))
          (newCode ErrSignatureInvalid "invalid callback signature") ;;;
        fail_if (negb (nonces h)) (newCode ErrServiceUnavailable "callback replay protection unavailable") ;;;
        reserved <- wrap_err (fun _ => newCode ErrServiceUnavailable "callback replay protection unavailable")
          (on_pay_keys (RedisStores.nonces.Reserve now (provider +:+ ":" +:+ nonce) (wrap64 (2 * CallbackMaxSkew o)))) ;;
        fail_if (negb reserved) (newCode ErrConflict "callback nonce replayed") ;;;
        match Unmarshal body with
        | None => fail (newCode ErrValidation "invalid callback payload")
        | Some p =>
          fail_if (seqb (CpEventID p) "" || seqb (CpEventType p) "" || seqb (CpOrderSN p) "" || (CpAmountFen p <? 0))
            (newCode ErrValidation "invalid callback payload") ;;;
          wrap_err (fun err => WrapCode app_codes err ErrConflict "payment callback rejected")
            (on_pay_orders (service (payment.MkCallbackRequest provider (CpEventID p) (CpEventType p) (CpOrderSN p)
               (CpTradeNo p) (CpAmountFen p))))
        end
      end
    | _, _ => fail unavailable
    end
  end.
End Callback.

(** ** Replays *)
Definition nonce_key (c : callback_http) : string :=
  "payment:callback:nonce:" +:+ (ToLower (TrimSpace (ParamProvider c)) +:+ ":" +:+ TrimSpace (XNonce c)).
(** The nonce is reserved until [t] at least. *)
Definition reserved_until (k : string) (t : Z) (r : redis) : Prop := exists e, r !! k = Some ("1", Some e) /\ t <= e.

Section Reserve.
Context (k : string) (t : Z).
Lemma Reserve_keeps now n ttl :
  steps (fun r r' => reserved_until k t r -> reserved_until k t r') (nonces.Reserve now n ttl).
Proof.
  unfold nonces.Reserve. intros s. unfold bind, fail_if. destruct (_ || _) eqn:Eb; [done|]. cbn [ret].
  apply orb_false_iff in Eb as [_ Httl%Z.leb_gt].
  apply (steps_wrap_err (fun r r' => reserved_until k t r -> reserved_until k t r')), steps_wrap_err, steps_command.
  { split; [by intros r|]. intros r1 r2 r3 H1 H2 H. auto. }
  intros r (e & He & Ht). destruct (decide ("payment:callback:nonce:" +:+ n = k)) as [->|Hne].
  - destruct (present now k r) as [x|] eqn:Ep; cbn; [by exists e|]. unfold redis_set, deadline.
    rewrite (proj2 (Z.ltb_lt _ _)) by lia. exists (now + ttl). rewrite lookup_insert_eq. split; [done|].
    unfold present in Ep. rewrite He in Ep. unfold alive in Ep. cbn in Ep. destruct (Z.leb_spec now e); [done|lia].
  - destruct (present now _ r); cbn; [by exists e|]. exists e. unfold redis_set. by rewrite lookup_insert_ne.
Qed.
Lemma Reserve_true now n ttl s s' :
  "payment:callback:nonce:" +:+ n = k -> nonces.Reserve now n ttl s = (Ret true, s') -> reserved_until k (now + ttl) (e_db s').
Proof.
  unfold nonces.Reserve. intros Hk (u & s1 & [Hb ->]%fail_if_Ret & H)%bind_Ret. apply orb_false_iff in Hb as [_ Httl%Z.leb_gt].
  apply wrap_err_Ret, wrap_err_Ret, command_Ret in H. rewrite Hk in H. destruct (present now k (e_db s)); [done|].
  injection H as <-. unfold redis_set, deadline. rewrite (proj2 (Z.ltb_lt _ _)) by lia. exists (now + ttl). rewrite lookup_insert_eq. done.
Qed.
Lemma Reserve_again now n ttl s b s' :
  "payment:callback:nonce:" +:+ n = k -> reserved_until k t (e_db s) -> now <= t ->
  nonces.Reserve now n ttl s = (Ret b, s') -> b = false.
Proof.
  unfold nonces.Reserve. intros Hk (e & He & Ht) Hn (u & s1 & [_ ->]%fail_if_Ret & H)%bind_Ret.
  apply wrap_err_Ret, wrap_err_Ret, command_Ret in H. rewrite Hk in H. unfold present in H. rewrite He in H.
  unfold alive in H. cbn in H. rewrite (proj2 (Z.leb_le now e)) in H by lia. by injection H as <- _.
Qed.
End Reserve.

Section Replay.
Context {D : Type} (hmac : string -> string -> string) (Unmarshal : string -> option callbackPayload).
Notation Handle := (@Handle D hmac Unmarshal).
Definition callback := (CallbackHandler (D := D) * Z * callback_http * list (option string))%type.
Definition handled (cs : list callback) (w : pay_world D) : pay_world D :=
  fold_left (fun w c => e_db (Handle (Some c.1.1.1) c.1.1.2 c.1.2 (Env w c.2)).2) cs w.

Lemma verify_age o now p ts n sg b :
  verify hmac o now p ts n sg b = true -> 0 < CallbackMaxSkew o < 2 ^ 62 ->
  exists unix, Atoi ts = Some unix /\ Z.abs (now - unix * 1000000000) <= CallbackMaxSkew o.
Proof.
  unfold verify. destruct (Atoi ts) as [unix|]; [|done]. intros H Hs. exists unix. split; [done|].
  destruct (_ || _) eqn:E; [done|]. apply orb_false_iff in E as [E1%Z.ltb_ge E2%Z.ltb_ge]. unfold Sub in *. lia.
Qed.

Lemma on_pay_keys_steps {A} (R : redis -> redis -> Prop) (m : M redis A) :
  steps R m -> steps (fun w w' : pay_world D => pay_orders w' = pay_orders w /\ R (pay_keys w) (pay_keys w')) (on_pay_keys m).
Proof. intros H [[d r] f]. specialize (H (Env r f)). unfold on_pay_keys. cbn in *. by destruct (m _) as [o [x f']]. Qed.
Lemma on_pay_orders_keys {A} (m : M D A) : steps (fun w w' : pay_world D => pay_keys w' = pay_keys w) (on_pay_orders m).
Proof. intros [[d r] f]. unfold on_pay_orders. by destruct (m _) as [o [x f']]. Qed.
Lemma on_pay_keys_Ret {A} (m : M redis A) (s : env (pay_world D)) a s' :
  on_pay_keys m s = (Ret a, s') -> exists r, m (Env (pay_keys (e_db s)) (e_faults s)) = (Ret a, r) /\ pay_keys (e_db s') = e_db r.
Proof. unfold on_pay_keys. destruct (m _) as [o r]. intros [= -> <-]. by exists r. Qed.

(** A callback keeps every reservation. *)
Lemma Handle_keeps k t h now c :
  steps (fun w w' : pay_world D => reserved_until k t (pay_keys w) -> reserved_until k t (pay_keys w')) (Handle h now c).
Proof.
  assert (PreOrder (fun w w' : pay_world D => reserved_until k t (pay_keys w) -> reserved_until k t (pay_keys w'))) as Hp.
  { split; [by intros w|]. intros w1 w2 w3 H1 H2 H. auto. }
  unfold PaymentCallback.Handle. cbv zeta. steps_go.
  - eapply steps_weaken; [|apply on_pay_keys_steps, Reserve_keeps]. cbv beta. intros d d' [_ H]. exact H.
  - eapply steps_weaken; [|apply on_pay_orders_keys]. intros d d' H. cbv beta in H. by rewrite H.
Qed.
Lemma handled_keeps k t cs w : reserved_until k t (pay_keys w) -> reserved_until k t (pay_keys (handled cs w)).
Proof.
  revert w. induction cs as [|c cs IH]; intros w H; [done|]. cbn. apply IH.
  exact (Handle_keeps k t (Some c.1.1.1) c.1.1.2 c.1.2 (Env w c.2) H).
Qed.

(** A callback is refused before anything happens to the orders, or its signature was
    verified and its nonce reserved. *)
Definition refused_at (s : env (pay_world D)) (x : outcome bool * env (pay_world D)) : Prop :=
  is_ret x.1 = false /\ pay_orders (e_db x.2) = pay_orders (e_db s).
Definition handled_as (o : PaymentOptions) (now : Z) (c : callback_http) (s : env (pay_world D))
    (x : outcome bool * env (pay_world D)) : Prop :=
  refused_at s x \/
  exists body s1, verify hmac o now (ToLower (TrimSpace (ParamProvider c))) (XTimestamp c) (TrimSpace (XNonce c)) (XSignature c) body = true /\
    on_pay_keys (nonces.Reserve now (ToLower (TrimSpace (ParamProvider c)) +:+ ":" +:+ TrimSpace (XNonce c))
      (wrap64 (2 * CallbackMaxSkew o))) s = (Ret true, s1) /\
    pay_keys (e_db x.2) = pay_keys (e_db s1).
Lemma Handle_cases h o now c s : opts h = Some o -> handled_as o now c s (Handle (Some h) now c s).
Proof.
  intros Ho. unfold PaymentCallback.Handle. rewrite Ho. destruct (service h) as [svc|]; [|left; by split].
  unfold bind at 1. destruct (Enabled o); [|left; by split]. cbn [negb fail_if ret]. destruct (Body c) as [body|]; [|left; by split].
  cbv zeta. set (p := ToLower _). set (n := TrimSpace _).
  unfold bind at 1. destruct (seqb n "" || negb (verify hmac o now p (XTimestamp c) n (XSignature c) body)) eqn:Ev; [left; by split|].
  apply orb_false_iff in Ev as [_ Ev%negb_false_iff]. cbn [fail_if ret].
  unfold bind at 1. destruct (PaymentCallback.nonces h); [|left; by split]. cbn [negb fail_if ret].
  unfold bind at 1, wrap_err at 1.
  match goal with |- context [on_pay_keys ?m s] =>
    pose proof (on_pay_keys_steps (fun _ _ => True) m ltac:(by intros ?) s) as [Eo _]; destruct (on_pay_keys m s) as [[[]|e|q] s1] eqn:Er end;
    cbn [snd] in Eo; [|left; by split..].
  right. exists body, s1. split_and!; [done|done|]. unfold bind, fail_if, ret, wrap_err. cbn [negb].
  destruct (Unmarshal body) as [pl|]; [|reflexivity].
  match goal with |- context [if ?b then fail _ else _] => destruct b; [reflexivity|] end.
  match goal with |- context [on_pay_orders ?m s1] => pose proof (on_pay_orders_keys m s1) as Ek; destruct (on_pay_orders m s1) as [[b|e|q] s2] end.
  all: exact Ek.
Qed.
End Replay.

(** C11: a callback is handed on to the orders at most once: once it was, a
    callback with the same provider, timestamp and nonce is refused and changes no
    order, whatever body and signature it carries, at whatever time, and whatever
    callbacks and faults came between.  (The same nonce under a new signed
    timestamp is a different callback; the key of a nonce expires after twice the
    skew.) *)
Theorem callback_processed_once {D} hmac Unmarshal h1 h2 o now1 c1 (w : pay_world D) f1 cs now2 c2 f2 :
  opts h1 = Some o -> opts h2 = Some o -> 0 < CallbackMaxSkew o < 2 ^ 62 ->
  XTimestamp c2 = XTimestamp c1 -> nonce_key c2 = nonce_key c1 ->
  let first := Handle hmac Unmarshal (Some h1) now1 c1 (Env w f1) in
  is_ret first.1 = true \/ pay_orders (e_db first.2) <> pay_orders w ->
  let before := handled hmac Unmarshal cs (e_db first.2) in
  let second := Handle hmac Unmarshal (Some h2) now2 c2 (Env before f2) in
  is_ret second.1 = false /\ pay_orders (e_db second.2) = pay_orders before.
Proof.
  intros Ho1 Ho2 Hs Ht Hk first Hfirst before second.
  destruct (Handle_cases hmac Unmarshal h1 o now1 c1 (Env w f1) Ho1) as [[R1 R2]|(b1 & s1 & V1 & H1 & K1)].
  { exfalso. destruct Hfirst as [Hf|Hf]; [unfold first in Hf; congruence|by apply Hf]. }
  destruct (Handle_cases hmac Unmarshal h2 o now2 c2 (Env before f2) Ho2) as [R|(b2 & s2 & V2 & H2 & _)]; [exact R|]. exfalso.
  destruct (verify_age hmac o _ _ _ _ _ _ V1 Hs) as (u1 & U1 & A1). destruct (verify_age hmac o _ _ _ _ _ _ V2 Hs) as (u2 & U2 & A2).
  rewrite Ht, U1 in U2. injection U2 as <-.
  assert (wrap64 (2 * CallbackMaxSkew o) = 2 * CallbackMaxSkew o) as Ew by (apply wrap64_id; unfold_int; lia). rewrite Ew in H1, H2.
  apply on_pay_keys_Ret in H1 as (r1 & H1 & E1).
  apply (Reserve_true (nonce_key c1)) in H1; [|done]. rewrite <- E1, <- K1 in H1.
  apply (handled_keeps hmac Unmarshal _ _ cs) in H1. fold first before in H1.
  apply on_pay_keys_Ret in H2 as (r2 & H2 & _).
  apply (Reserve_again (nonce_key c1) (now1 + 2 * CallbackMaxSkew o)) in H2; [done|exact Hk|exact H1|lia].
Qed.

Definition demo_callback_opts : PaymentOptions :=
  MkPaymentOptions true "pay" "" "" "" "secret" (300 * Second) 0 0 0 0 0.
(** A service that keeps the events it is handed. *)
Definition demo_inbox : CallbackHandler (D := list payment.CallbackRequest) :=
  MkCallbackHandler (Some demo_callback_opts) (Some (fun r s => (Ret false, Env (r :: e_db s) (e_faults s)))) true.
Definition demo_mac (_ _ : string) : string := "A".
Definition demo_decode (_ : string) : option callbackPayload := Some (MkCallbackPayload "e1" "payment.succeeded" "sn1" "t1" 100).
Definition demo_http (nonce : string) : callback_http := MkCallbackHttp "Pay" "1000" nonce "41" (Some "{}").
Definition demo_handle (t : Z) (c : callback_http) (w : pay_world (list payment.CallbackRequest)) :=
  Handle demo_mac demo_decode (Some demo_inbox) (t * Second) c (Env w []).
Definition demo_first := demo_handle 900 (demo_http "n1") (PayWorld [] ∅).
Definition demo_between := handled demo_mac demo_decode [(demo_inbox, 1000 * Second, demo_http "n2", [])] (e_db demo_first.2).
Lemma callback_processed_once_witness :
  length (pay_orders (e_db demo_first.2)) = 1%nat /\ length (pay_orders demo_between) = 2%nat /\
  is_ret (demo_handle 1300 (demo_http " n1 ") demo_between).1 = false /\
  pay_orders (e_db (demo_handle 1300 (demo_http " n1 ") demo_between).2) = pay_orders demo_between.
Proof.
  split; [vm_compute; reflexivity|]. split; [vm_compute; reflexivity|].
  eapply (callback_processed_once demo_mac demo_decode demo_inbox demo_inbox demo_callback_opts (900 * Second) (demo_http "n1")
    (PayWorld [] ∅) [] [(demo_inbox, 1000 * Second, demo_http "n2", [])] (1300 * Second) (demo_http " n1 ") []).
  - reflexivity.
  - reflexivity.
  - done.
  - reflexivity.
  - vm_compute. reflexivity.
  - left. vm_compute. reflexivity.
Defined.
