(* ===== verification/ReviewModel.v ===== *)
(** * Reviews: rows, store, service and gRPC server ([app/review/srv])

    Modules [store] ([internal/data/store.go], [outbox_observability.go]), [reviews]
    ([internal/service/service.go]) and [reviewServer] ([internal/service/grpc.go]) over
    the six tables of the service.  The clock is an argument.  [Updates] through a
    loaded row sets the field of that row too, as GORM does.  The locks a transaction
    takes have no effect in a sequence of transactions; that a column is too short is
    one of the ways a statement can fail. *)
From S2P Require Import Prelude GoStrings Errors GoMonad ErrorTransport Tables OrderModel OrderService OrderHandlers OrderGateway.
Open Scope go_scope.

(** ** [internal/domain/models.go] *)
Definition StatusPending : string := "PENDING".
Definition StatusApproved : string := "APPROVED".
Definition StatusRejected : string := "REJECTED".
Module Review.
Record t := mk {
  ID : Z; UserID : Z; OrderSN : string; GoodsID : Z; Rating : Z; Content : string; Status : string;
  CreatedAt : Z; UpdatedAt : Z
}.
Definition set_Status (status : string) (now : Z) (r : t) : t :=
  mk (ID r) (UserID r) (OrderSN r) (GoodsID r) (Rating r) (Content r) status (CreatedAt r) now.
End Review.
Module ReviewAppend.
Record t := mk { ID : Z; ReviewID : Z; Content : string; CreatedAt : Z }.
End ReviewAppend.
Module ReviewReply.
Record t := mk { ID : Z; ReviewID : Z; ActorUserID : Z; Content : string; CreatedAt : Z }.
End ReviewReply.
Module Audit.
Record t := mk {
  ID : Z; ReviewID : Z; ActorUserID : Z; Action : string; FromStatus : string; ToStatus : string; RequestID : string;
  Reason : string; CreatedAt : Z
}.
End Audit.
Module OutboxEvent.
Record t := mk {
  ID : Z; EventKey : string; GoodsID : Z; EventType : string; Status : string; RetryCount : Z; NextAttemptAt : Z;
  LastError : string; CreatedAt : Z; CompletedAt : option Z
}.
Definition done_ (now : Z) (e : t) : t :=
  mk (ID e) (EventKey e) (GoodsID e) (EventType e) "DONE" (RetryCount e) (NextAttemptAt e) "" (CreatedAt e) (Some now).
End OutboxEvent.
Module Rating.
Record t := mk { GoodsID : Z; ApprovedCount : Z; RatingSum : Z; AverageMilli : Z; RebuiltAt : Z }.
End Rating.
(** A review with its preloaded addition and reply. *)
Record ReviewView := MkReviewView { VReview : Review.t; VAppend : option ReviewAppend.t; VReply : option ReviewReply.t }.

Record review_db := MkReviewDb {
  review_rows : list Review.t; append_rows : list ReviewAppend.t; reply_rows : list ReviewReply.t;
  audit_rows : list Audit.t; event_rows : list OutboxEvent.t; rating_rows : list Rating.t
}.
Definition empty_review_db : review_db := MkReviewDb [] [] [] [] [] [].
Definition t_reviews : table review_db Review.t := Table review_rows (fun l d =>
  MkReviewDb l (append_rows d) (reply_rows d) (audit_rows d) (event_rows d) (rating_rows d)).
Definition t_appends : table review_db ReviewAppend.t := Table append_rows (fun l d =>
  MkReviewDb (review_rows d) l (reply_rows d) (audit_rows d) (event_rows d) (rating_rows d)).
Definition t_replies : table review_db ReviewReply.t := Table reply_rows (fun l d =>
  MkReviewDb (review_rows d) (append_rows d) l (audit_rows d) (event_rows d) (rating_rows d)).
Definition t_audits : table review_db Audit.t := Table audit_rows (fun l d =>
  MkReviewDb (review_rows d) (append_rows d) (reply_rows d) l (event_rows d) (rating_rows d)).
Definition t_events : table review_db OutboxEvent.t := Table event_rows (fun l d =>
  MkReviewDb (review_rows d) (append_rows d) (reply_rows d) (audit_rows d) l (rating_rows d)).
Definition t_ratings : table review_db Rating.t := Table rating_rows (fun l d =>
  MkReviewDb (review_rows d) (append_rows d) (reply_rows d) (audit_rows d) (event_rows d) l).

(** ** [internal/data/store.go] *)
Module store.
Definition ErrConflict : goerr := Errorf "review conflict" [] None.
Definition ErrNotFound : goerr := Errorf "review not found" [] None.
Definition ErrInvalidState : goerr := Errorf "invalid review state" [] None.

(** [errors.Is] for an error of this package, by its text. *)
Definition is_err (text : string) (e : goerr) : bool :=
  any_node (fun e => match e with Errorf f [] None => seqb f text | _ => false end) e.
(** MySQL's error 1062. *)
Definition is_duplicate (e : goerr) : bool := any_node (fun e => match e with Driver m => seqb m "Duplicate entry" | _ => false end) e.
Definition translate (err : goerr) : goerr :=
  if is_err "record not found" err then ErrNotFound else if is_duplicate err then ErrConflict else err.

Definition by_id (id : Z) (r : Review.t) : bool := Review.ID r =? id.
(** [First]. *)
Definition first_review (id : Z) : M review_db Review.t :=
  wrap_err translate (first_or_fail (select_first t_reviews (by_id id))).

(** The id of the new review. *)
Definition Create (now : Z) (user : Z) (orderSN : string) (goods rating : Z) (content : string) : M review_db Z :=
  wrap_err translate
    (insert_row t_reviews Review.ID
       (fun r => (Review.UserID r =? user) && seqb (Review.OrderSN r) orderSN && (Review.GoodsID r =? goods))
       (fun n => Review.mk n user orderSN goods rating content StatusPending now now)).

Definition preload (r : Review.t) : M review_db ReviewView :=
  a <- select_first t_appends (fun a => ReviewAppend.ReviewID a =? Review.ID r) ;;
  p <- select_first t_replies (fun p => ReviewReply.ReviewID p =? Review.ID r) ;;
  ret (MkReviewView r a p).
Definition Get (id : Z) : M review_db ReviewView :=
  wrap_err translate (r <- first_or_fail (select_first t_reviews (by_id id)) ;; preload r).

Definition Append (now userID reviewID : Z) (content : string) : M review_db unit :=
  transaction (
    review <- first_review reviewID ;;
    fail_if (negb (Review.UserID review =? userID)) ErrNotFound ;;;
    wrap_err translate
      (insert_row t_appends ReviewAppend.ID (fun a => ReviewAppend.ReviewID a =? reviewID)
         (fun n => ReviewAppend.mk n reviewID content now)) ;;;
    ret tt).

Definition insert_audit (mk : Z -> Audit.t) : M review_db Z := insert_row t_audits Audit.ID (fun _ => false) mk.
Definition moderation_key (reviewID : Z) (decision : string) : string := "review:" +:+ itoa reviewID +:+ ":moderate:" +:+ decision.
Definition Moderate (now reviewID : Z) (decision : string) (actor : Z) (requestID reason : string) : M review_db unit :=
  transaction (
    review <- first_review reviewID ;;
    fail_if (negb (seqb (Review.Status review) StatusPending)) ErrInvalidState ;;;
    update_where t_reviews (by_id (Review.ID review)) (Review.set_Status decision now) ;;;
    let review := Review.set_Status decision now review in
    insert_audit (fun n => Audit.mk n reviewID actor "MODERATE" (Review.Status review) decision requestID reason now) ;;;
    let key := moderation_key reviewID decision in
    insert_row t_events OutboxEvent.ID (fun e => seqb (OutboxEvent.EventKey e) key)
      (fun n => OutboxEvent.mk n key (Review.GoodsID review) "RATING_REBUILD" "PENDING" 0 0 "" now None) ;;;
    ret tt).

Definition Reply (now reviewID actor : Z) (content requestID : string) : M review_db unit :=
  transaction (
    review <- first_review reviewID ;;
    fail_if (negb (seqb (Review.Status review) StatusApproved)) ErrInvalidState ;;;
    wrap_err translate
      (insert_row t_replies ReviewReply.ID (fun p => ReviewReply.ReviewID p =? reviewID)
         (fun n => ReviewReply.mk n reviewID actor content now)) ;;;
    insert_audit (fun n => Audit.mk n reviewID actor "REPLY" (Review.Status review) (Review.Status review) requestID "" now) ;;;
    ret tt).

Definition matches (goodsID userID : Z) (status : string) (r : Review.t) : bool :=
  ((goodsID <=? 0) || (Review.GoodsID r =? goodsID)) && ((userID <=? 0) || (Review.UserID r =? userID)) &&
  (seqb status "" || seqb (Review.Status r) status).
(** Newest first; the preloads are two queries for the whole page. *)
Definition List (goodsID userID : Z) (status : string) (offset limit : Z) : M review_db (list ReviewView * Z) :=
  total <- count_where t_reviews (matches goodsID userID status) ;;
  values <- select_where t_reviews (matches goodsID userID status) ;;
  let values := page offset limit (rev values) in
  appends <- select_where t_appends (fun a => existsb (fun r => ReviewAppend.ReviewID a =? Review.ID r) values) ;;
  replies <- select_where t_replies (fun p => existsb (fun r => ReviewReply.ReviewID p =? Review.ID r) values) ;;
  ret ((fun r => MkReviewView r (find (fun a => ReviewAppend.ReviewID a =? Review.ID r) appends)
                   (find (fun p => ReviewReply.ReviewID p =? Review.ID r) replies)) <$> values, total).

(** [SELECT COUNT( * ), COALESCE(SUM(rating), 0)] of the approved reviews of a goods, and
    the rating they make. *)
Definition approved (goodsID : Z) (r : Review.t) : bool :=
  (Review.GoodsID r =? goodsID) && seqb (Review.Status r) StatusApproved.
Definition aggregate (goodsID : Z) (d : review_db) : Z * Z :=
  let l := List.filter (approved goodsID) (review_rows d) in
  (Z.of_nat (length l), foldr Z.add 0 (Review.Rating <$> l)).
Definition rating_of (goodsID now : Z) (cs : Z * Z) : Rating.t :=
  Rating.mk goodsID cs.1 cs.2 (if 0 <? cs.1 then wrap32 (Z.quot (wrap64 (cs.2 * 1000)) cs.1) else 0) now.
(** [INSERT .. ON DUPLICATE KEY UPDATE] on [goods_id]. *)
Definition upsert_rating (v : Rating.t) : M review_db unit :=
  stmt (fun d =>
    (Ret tt, set_rows t_ratings
      (if existsb (fun r => Rating.GoodsID r =? Rating.GoodsID v) (rating_rows d)
       then (fun r => if Rating.GoodsID r =? Rating.GoodsID v then v else r) <$> rating_rows d
       else rating_rows d ++ [v]) d)).
(** What follows the read; each of the three statements is on its own. *)
Definition rebuild_with (now goodsID actor : Z) (requestID : string) (cs : Z * Z) : M review_db Rating.t :=
  let value := rating_of goodsID now cs in
  upsert_rating value ;;;
  insert_audit (fun n => Audit.mk n 0 actor "REBUILD_RATING" "" "" requestID ("goods:" +:+ itoa goodsID) now) ;;;
  ret value.
Definition RebuildRating (now goodsID actor : Z) (requestID : string) : M review_db Rating.t :=
  cs <- query (aggregate goodsID) ;; rebuild_with now goodsID actor requestID cs.
Definition GetRating (goodsID : Z) : M review_db Rating.t :=
  wrap_err translate (first_or_fail (select_first t_ratings (fun r => Rating.GoodsID r =? goodsID))).

(** The two counts of the backlog; the gauge they set is left out. *)
Definition observeReviewOutboxBacklog : M review_db unit :=
  for_each ["PENDING"; "DONE"] (fun status => count_where t_events (fun e => seqb (OutboxEvent.Status e) status) ;;; ret tt).
Definition due (now : Z) (e : OutboxEvent.t) : bool :=
  seqb (OutboxEvent.Status e) "PENDING" && (OutboxEvent.NextAttemptAt e <=? now `div` 1000000000).
Definition process_event (now : Z) (event : OutboxEvent.t) : M review_db unit :=
  cs <- query (aggregate (OutboxEvent.GoodsID event)) ;;
  upsert_rating (rating_of (OutboxEvent.GoodsID event) now cs) ;;;
  update_where t_events (fun e => OutboxEvent.ID e =? OutboxEvent.ID event) (OutboxEvent.done_ now) ;;;
  ret tt.
Definition ProcessOutbox (now limit : Z) : M review_db unit :=
  let limit := if limit <=? 0 then 50 else limit in
  observeReviewOutboxBacklog ;;;
  transaction (
    events <- select_where t_events (due now) ;;
    for_each (page 0 limit events) (process_event now)) ;;;
  observeReviewOutboxBacklog.
End store.

(** The review tables beside the rest of the shop, which the service calls. *)
Record shop := Shop { review_tables : review_db; shop_world : world }.
Definition on_reviews {A} (m : M review_db A) : M shop A := fun s =>
  let '(r, s') := m (Env (review_tables (e_db s)) (e_faults s)) in
  (r, Env (Shop (e_db s') (shop_world (e_db s))) (e_faults s')).
Definition on_world {A} (m : M world A) : M shop A := fun s =>
  let '(r, s') := m (Env (shop_world (e_db s)) (e_faults s)) in
  (r, Env (Shop (review_tables (e_db s)) (e_db s')) (e_faults s')).

(** ** [internal/service/service.go] *)
Module reviews.
Definition ErrInvalid : goerr := Errorf "invalid review request" [] None.
Definition ErrPurchaseRequired : goerr := Errorf "completed purchase required" [] None.

Definition too_long (content : string) : bool := 2000 <? Z.of_nat (slength content).

(** [verifier] is [VerifyCompleted]: [None] for no error. *)
Definition Create (verifier : Z -> string -> Z -> M shop (option goerr)) (now user : Z) (orderSN : string) (goods rating : Z)
    (content : string) : M shop ReviewView :=
  let orderSN := TrimSpace orderSN in
  let content := TrimSpace content in
  fail_if ((user <=? 0) || (goods <=? 0) || (rating <? 1) || (5 <? rating) || seqb orderSN "" || seqb content "" ||
           too_long content) ErrInvalid ;;;
  v <- verifier user orderSN goods ;;
  match v with
  | Some _ => fail ErrPurchaseRequired
  | None => id <- on_reviews (store.Create now user orderSN goods rating content) ;; on_reviews (store.Get id)
  end.
Definition Append (now user id : Z) (content : string) : M review_db ReviewView :=
  let content := TrimSpace content in
  fail_if ((user <=? 0) || (id =? 0) || seqb content "" || too_long content) ErrInvalid ;;;
  store.Append now user id content ;;;
  store.Get id.
Definition Moderate (now id : Z) (decision : string) (actor : Z) (requestID reason : string) : M review_db ReviewView :=
  let decision := ToUpper (TrimSpace decision) in
  fail_if ((id =? 0) || (actor <=? 0) || seqb (TrimSpace requestID) "" ||
           (negb (seqb decision StatusApproved) && negb (seqb decision StatusRejected))) ErrInvalid ;;;
  store.Moderate now id decision actor requestID reason ;;;
  store.Get id.
Definition Reply (now id actor : Z) (content requestID : string) : M review_db ReviewView :=
  let content := TrimSpace content in
  fail_if ((id =? 0) || (actor <=? 0) || seqb content "" || too_long content || seqb (TrimSpace requestID) "") ErrInvalid ;;;
  store.Reply now id actor content requestID ;;;
  store.Get id.
Definition List (goods user : Z) (status : string) (page size : Z) : M review_db (list ReviewView * Z) :=
  let page := if page <? 1 then 1 else page in
  let size := if (size <? 1) || (100 <? size) then 20 else size in
  store.List goods user (ToUpper (TrimSpace status)) ((page - 1) * size) size.
Definition GetRating (goods : Z) : M review_db Rating.t :=
  fail_if (goods <=? 0) ErrInvalid ;;; store.GetRating goods.
Definition RebuildRating (now goods actor : Z) (requestID : string) : M review_db Rating.t :=
  fail_if ((goods <=? 0) || (actor <=? 0) || seqb (TrimSpace requestID) "") ErrInvalid ;;;
  store.RebuildRating now goods actor requestID.

Record OutboxWorkerConfig := MkOutboxWorkerConfig { PollInterval : Z; SweepTimeout : Z; BatchSize : Z }.
Definition normalize (c : OutboxWorkerConfig) : OutboxWorkerConfig :=
  MkOutboxWorkerConfig (if PollInterval c <=? 0 then 2000000000 else PollInterval c)
    (if SweepTimeout c <=? 0 then 120000000000 else SweepTimeout c) (if BatchSize c <=? 0 then 50 else BatchSize c).
(** One round of [RunOutbox]. *)
Definition sweep (c : OutboxWorkerConfig) (now : Z) : M review_db unit := store.ProcessOutbox now (BatchSize (normalize c)).

(** [OrderVerifier], what the order service says of the purchase, and
    [DBOrderVerifier], a join over its tables; the SQL joins deleted rows too. *)
Module OrderVerifier.
Section Client.
Context {D : Type} (client : option (OrderClient D)).
Definition GetUserId (i : option pb.OrderInfoResponse) : Z := match i with Some i => pb.UserId i | None => 0 end.
Definition GetGoodsId (i : option pb.OrderItemResponse) : Z := match i with Some i => pb.GoodsId i | None => 0 end.
Definition VerifyCompleted (user : Z) (orderSN : string) (goods : Z) : M D (option goerr) :=
  match client with
  | None => ret (Some ErrPurchaseRequired)
  | Some client =>
    r <- attempt (GetOrderBySn client orderSN) ;;
    match r with
    | inr _ => ret (Some ErrPurchaseRequired)
    | inl detail =>
      let info := gateway.GetOrderInfo detail in
      if negb (GetUserId info =? user) || negb (seqb (gateway.GetStatus info) "TRADE_FINISHED")
      then ret (Some ErrPurchaseRequired)
      else if existsb (fun item => GetGoodsId item =? goods) (gateway.GetGoods detail) then ret None
      else ret (Some ErrPurchaseRequired)
    end
  end.
End Client.
End OrderVerifier.
Module DBOrderVerifier.
Definition joined (user : Z) (orderSN : string) (goods : Z) (d : order_db) : list (OrderInfoDO.t * OrderGoods.t) :=
  List.filter (fun og =>
      (OrderGoods.Order og.2 =? OrderInfoDO.ID og.1) && (OrderInfoDO.User og.1 =? user) &&
      seqb (OrderInfoDO.OrderSn og.1) orderSN && seqb (OrderInfoDO.Status og.1) "TRADE_FINISHED" &&
      (OrderGoods.Goods og.2 =? goods))
    (list_prod (orderinfo d) (ordergoods d)).
Definition VerifyCompleted (user : Z) (orderSN : string) (goods : Z) : M order_db (option goerr) :=
  r <- attempt (query (fun d => Z.of_nat (length (joined user orderSN goods d)))) ;;
  match r with
  | inr _ => ret (Some ErrPurchaseRequired)
  | inl count => ret (if count =? 0 then Some ErrPurchaseRequired else None)
  end.
End DBOrderVerifier.
End reviews.

(** ** [internal/service/grpc.go]

    [uint64(id)] makes a negative id one that no row has. *)
Module rpb.
Record ReviewResponse := MkReviewResponse {
  Id : Z; UserId : Z; OrderSn : string; GoodsId : Z; Rating : Z; Content : string; Status : string; AppendContent : string;
  MerchantReply : string; CreatedAt : Z
}.
Record ReviewListResponse := MkReviewListResponse { Total : Z; Data : list ReviewResponse }.
Record RatingResponse := MkRatingResponse {
  RGoodsId : Z; ApprovedCount : Z; RatingSum : Z; AverageMilli : Z; RebuiltAt : Z
}.
Record CreateReviewRequest := MkCreateReviewRequest { CUserId : Z; COrderSn : string; CGoodsId : Z; CRating : Z; CContent : string }.
Record AppendReviewRequest := MkAppendReviewRequest { AUserId : Z; AReviewId : Z; AContent : string }.
Record ModerateReviewRequest := MkModerateReviewRequest {
  MReviewId : Z; MDecision : string; MActorUserId : Z; MRequestId : string; MReason : string
}.
Record ReplyReviewRequest := MkReplyReviewRequest { PReviewId : Z; PActorUserId : Z; PContent : string; PRequestId : string }.
Record ListReviewsRequest := MkListReviewsRequest { LGoodsId : Z; LUserId : Z; LStatus : string; LPage : Z; LPageSize : Z }.
Record RebuildRatingRequest := MkRebuildRatingRequest { BGoodsId : Z; BActorUserId : Z; BRequestId : string }.
End rpb.

Module reviewServer.
Definition unix (t : Z) : Z := t `div` 1000000000.
Definition uint64 (id : Z) : Z := id mod 2 ^ 64.
Definition reviewResponse (v : ReviewView) : rpb.ReviewResponse :=
  let r := VReview v in
  rpb.MkReviewResponse (wrap64 (Review.ID r)) (Review.UserID r) (Review.OrderSN r) (Review.GoodsID r) (Review.Rating r)
    (Review.Content r) (Review.Status r) (match VAppend v with Some a => ReviewAppend.Content a | None => "" end)
    (match VReply v with Some p => ReviewReply.Content p | None => "" end) (unix (Review.CreatedAt r)).
Definition ratingResponse (v : Rating.t) : rpb.RatingResponse :=
  rpb.MkRatingResponse (Rating.GoodsID v) (Rating.ApprovedCount v) (Rating.RatingSum v) (Rating.AverageMilli v)
    (unix (Rating.RebuiltAt v)).
Definition grpcError (err : goerr) : goerr :=
  if store.is_err "invalid review request" err then Status codes.InvalidArgument "invalid review request" []
  else if store.is_err "completed purchase required" err then Status codes.FailedPrecondition "completed purchase required" []
  else if store.is_err "review conflict" err then Status codes.AlreadyExists "review operation already exists" []
  else if store.is_err "review not found" err then Status codes.NotFound "review not found" []
  else if store.is_err "invalid review state" err then Status codes.FailedPrecondition "invalid review state" []
  else Status codes.Internal "review operation failed" [].
Definition reply_with {D A B} (f : A -> B) (m : M D A) : M D B := wrap_err grpcError (v <- m ;; ret (f v)).

Definition CreateReview verifier (now : Z) (r : rpb.CreateReviewRequest) : M shop rpb.ReviewResponse :=
  reply_with reviewResponse
    (reviews.Create verifier now (rpb.CUserId r) (rpb.COrderSn r) (rpb.CGoodsId r) (rpb.CRating r) (rpb.CContent r)).
Definition AppendReview (now : Z) (r : rpb.AppendReviewRequest) : M review_db rpb.ReviewResponse :=
  reply_with reviewResponse (reviews.Append now (rpb.AUserId r) (uint64 (rpb.AReviewId r)) (rpb.AContent r)).
Definition GetReview (id : Z) : M review_db rpb.ReviewResponse := reply_with reviewResponse (store.Get (uint64 id)).
Definition ModerateReview (now : Z) (r : rpb.ModerateReviewRequest) : M review_db rpb.ReviewResponse :=
  reply_with reviewResponse
    (reviews.Moderate now (uint64 (rpb.MReviewId r)) (rpb.MDecision r) (rpb.MActorUserId r) (rpb.MRequestId r) (rpb.MReason r)).
Definition ReplyReview (now : Z) (r : rpb.ReplyReviewRequest) : M review_db rpb.ReviewResponse :=
  reply_with reviewResponse
    (reviews.Reply now (uint64 (rpb.PReviewId r)) (rpb.PActorUserId r) (rpb.PContent r) (rpb.PRequestId r)).
Definition ListReviews (r : rpb.ListReviewsRequest) : M review_db rpb.ReviewListResponse :=
  reply_with (fun vt => rpb.MkReviewListResponse (wrap32 vt.2) (reviewResponse <$> vt.1))
    (reviews.List (rpb.LGoodsId r) (rpb.LUserId r) (rpb.LStatus r) (rpb.LPage r) (rpb.LPageSize r)).
Definition GetRating (goods : Z) : M review_db rpb.RatingResponse := reply_with ratingResponse (reviews.GetRating goods).
Definition RebuildRating (now : Z) (r : rpb.RebuildRatingRequest) : M review_db rpb.RatingResponse :=
  reply_with ratingResponse (reviews.RebuildRating now (rpb.BGoodsId r) (rpb.BActorUserId r) (rpb.BRequestId r)).
End reviewServer.
