(* ===== verification/ReviewProperties.v ===== *)
(** * Reviews: what the ratings and the purchases behind them come to

    [serve] is a request to the review service or a round of its worker, [run] a
    history of them, each under faults of its own and with any purchase check that
    leaves the review tables alone.  [sound] is what every history keeps: a goods'
    rating is the sum over its approved reviews, or an event is waiting that will
    make it so.  The sweeps of a database that answers empty the queue. *)
From S2P Require Import Prelude GoStrings Errors GoMonad ErrorTransport Tables OrderModel OrderHandlers OrderGateway.
From S2P Require Import InventoryLedger OrderServer OrderHistory GatewayProperties ReviewModel.
Open Scope go_scope.

(** ** Histories *)
Inductive call :=
  | CreateReview (now : Z) (r : rpb.CreateReviewRequest)
  | AppendReview (now : Z) (r : rpb.AppendReviewRequest)
  | ModerateReview (now : Z) (r : rpb.ModerateReviewRequest)
  | ReplyReview (now : Z) (r : rpb.ReplyReviewRequest)
  | GetReview (id : Z)
  | ListReviews (r : rpb.ListReviewsRequest)
  | GetRating (goods : Z)
  | RebuildRating (now : Z) (r : rpb.RebuildRatingRequest)
  | Sweep (c : reviews.OutboxWorkerConfig) (now : Z).

Definition purchase_check : Type := Z -> string -> Z -> M shop (option goerr).
Definition serve (verifier : purchase_check) (c : call) : M shop unit :=
  match c with
  | CreateReview now r => reviewServer.CreateReview verifier now r ;;; ret tt
  | AppendReview now r => on_reviews (reviewServer.AppendReview now r) ;;; ret tt
  | ModerateReview now r => on_reviews (reviewServer.ModerateReview now r) ;;; ret tt
  | ReplyReview now r => on_reviews (reviewServer.ReplyReview now r) ;;; ret tt
  | GetReview id => on_reviews (reviewServer.GetReview id) ;;; ret tt
  | ListReviews r => on_reviews (reviewServer.ListReviews r) ;;; ret tt
  | GetRating goods => on_reviews (reviewServer.GetRating goods) ;;; ret tt
  | RebuildRating now r => on_reviews (reviewServer.RebuildRating now r) ;;; ret tt
  | Sweep c now => on_reviews (reviews.sweep c now)
  end.
Fixpoint run (verifier : purchase_check) (h : list (call * list (option string))) (x : shop) : shop :=
  match h with
  | [] => x
  | (c, faults) :: h => run verifier h (e_db (serve verifier c (Env x faults)).2)
  end.

(** ** Ratings *)
Definition purchase (r : Review.t) : Z * string * Z := (Review.UserID r, Review.OrderSN r, Review.GoodsID r).
Definition rating (goods : Z) (d : review_db) : option Rating.t := find (fun r => Rating.GoodsID r =? goods) (rating_rows d).
(** The rating on record is what the approved reviews make; without a record there is
    no approved review. *)
Definition exact (d : review_db) (goods : Z) : Prop :=
  match rating goods d with
  | Some r => r = store.rating_of goods (Rating.RebuiltAt r) (store.aggregate goods d)
  | None => store.aggregate goods d = (0, 0)
  end.
Definition waiting (e : OutboxEvent.t) : bool := seqb (OutboxEvent.Status e) "PENDING".
Definition queue (d : review_db) : list OutboxEvent.t := List.filter waiting (event_rows d).
Definition queued (d : review_db) (goods : Z) : Prop := goods ∈ OutboxEvent.GoodsID <$> queue d.

Record sound (d : review_db) : Prop := {
  review_ids : NoDup (Review.ID <$> review_rows d);
  purchases : NoDup (purchase <$> review_rows d);
  stars : Forall (fun r => 1 <= Review.Rating r <= 5) (review_rows d);
  event_ids : NoDup (OutboxEvent.ID <$> event_rows d);
  prompt : Forall (fun e => OutboxEvent.NextAttemptAt e = 0) (event_rows d);
  rated : forall goods, exact d goods \/ queued d goods
}.
Definition keeps_sound (d d' : review_db) : Prop := sound d -> sound d'.
#[local] Instance keeps_sound_preorder : PreOrder keeps_sound.
Proof. unfold keeps_sound. split; red; auto. Qed.

Lemma filter_update {A} (p q : A -> bool) (f : A -> A) l :
  (forall x, x ∈ l -> q x = true -> p x = false /\ p (f x) = false) ->
  List.filter p ((fun r => if q r then f r else r) <$> l) = List.filter p l.
Proof.
  induction l as [|x l IH]; intros H; [done|]. rewrite fmap_cons. cbn [List.filter].
  rewrite IH by (intros y Hy; apply H; by right). destruct (q x) eqn:Eq; [|done].
  destruct (H x ltac:(left) Eq) as [-> ->]. done.
Qed.
Lemma fmap_update {A B} (g : A -> B) (q : A -> bool) (f : A -> A) (l : list A) :
  (forall x, g (f x) = g x) -> g <$> ((fun r => if q r then f r else r) <$> l) = g <$> l.
Proof. intros H. induction l as [|x l IH]; [done|]. rewrite !fmap_cons, IH. destruct (q x); by rewrite ?H. Qed.
Lemma Forall_update {A} (P : A -> Prop) (q : A -> bool) (f : A -> A) (l : list A) :
  (forall x, P x -> P (f x)) -> Forall P l -> Forall P ((fun r => if q r then f r else r) <$> l).
Proof. intros H Hl. apply Forall_fmap. eapply Forall_impl; [exact Hl|]. cbn. intros x Hx. destruct (q x); auto. Qed.

(** What [sound] looks at. *)
Lemma sound_frame d d' :
  review_rows d' = review_rows d -> event_rows d' = event_rows d -> rating_rows d' = rating_rows d -> keeps_sound d d'.
Proof.
  destruct d, d'. cbn. intros -> -> -> [? ? ? ? ? ?]. constructor; done.
Qed.
Lemma exact_frame d d' goods :
  rating goods d' = rating goods d -> store.aggregate goods d' = store.aggregate goods d -> exact d goods -> exact d' goods.
Proof. unfold exact. intros -> ->. done. Qed.

Lemma insert_quiet {R} (t : table review_db R) id dup mk :
  (forall l d, review_rows (set_rows t l d) = review_rows d /\ event_rows (set_rows t l d) = event_rows d /\
               rating_rows (set_rows t l d) = rating_rows d) ->
  steps keeps_sound (insert_row t id dup mk).
Proof.
  intros H. apply steps_stmt; [exact _|]. intros d. destruct (existsb dup _); [done|]. cbv zeta.
  destruct (H (rows t d ++ [mk (1 + fold_right Z.max 0 (id <$> rows t d))]) d) as (?&?&?). by apply sound_frame.
Qed.
Lemma committed {A} (body : M review_db A) :
  (forall s a s', body s = (Ret a, s') -> keeps_sound (e_db s) (e_db s')) -> steps keeps_sound (transaction body).
Proof.
  intros H s. destruct (transaction body s) as [[a|e|p] s'] eqn:E.
  - apply transaction_Ret in E as (s0 & s1 & E0 & Eb & Ed). cbn [snd]. rewrite Ed, <- E0. by eapply H.
  - pose proof (atomic_transaction body s) as Ha. rewrite E in Ha. by rewrite (Ha eq_refl).
  - pose proof (atomic_transaction body s) as Ha. rewrite E in Ha. by rewrite (Ha eq_refl).
Qed.

(** ** The operations keep it *)
Lemma find_by_id {A} (id : A -> Z) (l : list A) n x :
  NoDup (id <$> l) -> find (fun y => id y =? n) l = Some x -> forall y, y ∈ l -> id y = n -> y = x.
Proof.
  intros Hl [Hx Hn]%find_some y Hy Hyn. apply list_elem_of_In in Hx. apply Z.eqb_eq in Hn.
  eapply (NoDup_fmap_eq id); [exact Hl|done|done|congruence].
Qed.

Lemma store_Create_sound now user sn goods stars content :
  1 <= stars <= 5 -> steps keeps_sound (store.Create now user sn goods stars content).
Proof.
  intros Hs. apply steps_wrap_err, steps_stmt; [exact _|]. intros d. cbn [t_reviews rows set_rows].
  destruct (existsb _ _) eqn:Ed; [done|]. cbv zeta. cbn [snd]. intros [Hi Hp Hf He Ht Hr].
  constructor; cbn [review_rows event_rows]; [| | |done|done|].
  - rewrite fmap_app. apply NoDup_snoc; [done|]. apply max_id_fresh.
  - rewrite fmap_app. apply NoDup_snoc; [done|]. intros (r & E & Hin)%list_elem_of_fmap.
    pose proof (existsb_false_elem _ _ _ Ed Hin) as Hno. unfold purchase in E. cbn in E. injection E as -> -> ->.
    unfold seqb in Hno. rewrite !Z.eqb_refl, bool_decide_eq_true_2 in Hno by done. done.
  - apply Forall_app. auto.
  - intros g. destruct (Hr g) as [Hx|Hx]; [left|by right]. apply (exact_frame d); [done| |done].
    unfold store.aggregate. cbn [review_rows]. rewrite List.filter_app. cbn [List.filter].
    unfold store.approved at 2 4. cbn [Review.Status]. rewrite Bool.andb_false_r, app_nil_r. done.
Qed.

Lemma store_Append_sound now user id content : steps keeps_sound (store.Append now user id content).
Proof.
  unfold store.Append, store.first_review. steps_go; try (apply steps_select_first; exact _). apply insert_quiet. done.
Qed.
Lemma store_Reply_sound now id actor content request : steps keeps_sound (store.Reply now id actor content request).
Proof.
  unfold store.Reply, store.first_review, store.insert_audit. steps_go; try (apply steps_select_first; exact _); by apply insert_quiet.
Qed.

(** The event queued for the review's goods covers the change of its aggregate. *)
Lemma moderated_sound d review decision now id key :
  find (store.by_id id) (review_rows d) = Some review ->
  existsb (fun e => seqb (OutboxEvent.EventKey e) key) (event_rows d) = false ->
  let n := 1 + fold_right Z.max 0 (OutboxEvent.ID <$> event_rows d) in
  keeps_sound d (MkReviewDb
    ((fun r => if store.by_id (Review.ID review) r then Review.set_Status decision now r else r) <$> review_rows d)
    (append_rows d) (reply_rows d) (audit_rows d)
    (event_rows d ++ [OutboxEvent.mk n key (Review.GoodsID review) "RATING_REBUILD" "PENDING" 0 0 "" now None])
    (rating_rows d)).
Proof.
  intros Hf _ n [Hi Hp Hs He Ht Hr]. pose proof (find_by_id Review.ID _ _ _ Hi Hf) as Huniq.
  apply find_some in Hf as [_ Hn%Z.eqb_eq].
  constructor; cbn [review_rows event_rows].
  - by rewrite fmap_update.
  - by rewrite fmap_update.
  - by apply Forall_update.
  - rewrite fmap_app. apply NoDup_snoc; [done|]. apply max_id_fresh.
  - apply Forall_app. auto.
  - intros g. unfold queued, queue. cbn [event_rows]. rewrite List.filter_app, fmap_app, elem_of_app.
    destruct (decide (g = Review.GoodsID review)) as [->|Hg]; [right; right; cbn; by left|].
    destruct (Hr g) as [Hx|Hx]; [left|right; by left]. apply (exact_frame d); [done| |done].
    unfold store.aggregate. cbn [review_rows]. rewrite filter_update; [done|]. unfold store.by_id.
    intros r Hr' Hid%Z.eqb_eq. rewrite (Huniq r Hr' ltac:(congruence)). unfold store.approved. cbn.
    destruct (Z.eqb_spec (Review.GoodsID review) g); [congruence|done].
Qed.
Lemma store_Moderate_sound now id decision actor request reason :
  steps keeps_sound (store.Moderate now id decision actor request reason).
Proof.
  apply committed. intros s [] s' H. unfold store.first_review, store.insert_audit in H.
  apply bind_Ret in H as (review & s1 & Hrev%wrap_err_Ret & H).
  apply bind_Ret in Hrev as (o & s1' & [-> E1]%select_first_Ret & Hrev).
  destruct (find _ _) as [review'|] eqn:Hf; [|done]. injection Hrev as <- <-.
  apply bind_Ret in H as (u & s2 & [_ ->]%fail_if_Ret & H).
  apply bind_Ret in H as (n1 & s3 & [_ E3]%update_where_Ret & H).
  apply bind_Ret in H as (n2 & s4 & (_ & _ & E4)%insert_row_Ret & H).
  apply bind_Ret in H as (n3 & s5 & (Hd & -> & E5)%insert_row_Ret & H). injection H as <-.
  rewrite E5, E4, E3, E1 in *. cbn [t_reviews t_events t_audits rows set_rows event_rows] in *.
  change (review_rows (e_db s)) with (rows t_reviews (e_db s)) in *.
  pose proof (moderated_sound (e_db s) _ decision now id (store.moderation_key id decision) Hf Hd) as Hm.
  intros Hs%Hm. revert Hs. by apply sound_frame.
Qed.

(** [upsert_rating]: the row of its goods is the new one, the others stay. *)
Definition upserted (v : Rating.t) (l : list Rating.t) : list Rating.t :=
  if existsb (fun r => Rating.GoodsID r =? Rating.GoodsID v) l
  then (fun r => if Rating.GoodsID r =? Rating.GoodsID v then v else r) <$> l
  else l ++ [v].
Lemma find_upserted v l goods :
  find (fun r => Rating.GoodsID r =? goods) (upserted v l) =
  if Rating.GoodsID v =? goods then Some v else find (fun r => Rating.GoodsID r =? goods) l.
Proof.
  unfold upserted. destruct (existsb _ l) eqn:E.
  - induction l as [|r l IH]; [done|]. rewrite fmap_cons. cbn [find existsb] in *.
    destruct (Z.eqb_spec (Rating.GoodsID r) (Rating.GoodsID v)) as [Er|Er].
    + rewrite Er. destruct (Z.eqb_spec (Rating.GoodsID v) goods) as [Ev|Ev]; [done|]. clear IH E.
      induction l as [|r' l IH]; [done|]. rewrite fmap_cons. cbn [find].
      destruct (Z.eqb_spec (Rating.GoodsID r') (Rating.GoodsID v)) as [Er'|Er']; [|by rewrite IH].
      rewrite Er'. destruct (Z.eqb_spec (Rating.GoodsID v) goods); [done|exact IH].
    + rewrite IH by done. destruct (Z.eqb_spec (Rating.GoodsID r) goods) as [<-|]; [|done].
      destruct (Z.eqb_spec (Rating.GoodsID v) (Rating.GoodsID r)); [congruence|done].
  - induction l as [|r l IH]; [done|]. cbn [find existsb app] in *. apply Bool.orb_false_iff in E as [Er E].
    rewrite IH by done. destruct (Z.eqb_spec (Rating.GoodsID r) goods) as [<-|]; [|done].
    rewrite Z.eqb_sym, Er. done.
Qed.
Definition put_rating (v : Rating.t) (d : review_db) : review_db := set_rows t_ratings (upserted v (rating_rows d)) d.
Lemma upsert_rating_Ret v s u s' : store.upsert_rating v s = (Ret u, s') -> e_db s' = put_rating v (e_db s).
Proof. intros H%stmt_Ret. by injection H as _ <-. Qed.

Definition rebuilt (goods now : Z) (d : review_db) : review_db :=
  put_rating (store.rating_of goods now (store.aggregate goods d)) d.
Lemma rebuilt_exact goods now d g : exact (rebuilt goods now d) g <-> g = goods \/ exact d g.
Proof.
  unfold exact, rebuilt, put_rating, rating. cbn [rating_rows set_rows t_ratings]. rewrite find_upserted. cbn [store.rating_of Rating.GoodsID].
  destruct (Z.eqb_spec goods g) as [<-|Hg]; [|split; [tauto|intros [->|]; done]].
  split; [by left|intros _]. done.
Qed.
Lemma rebuilt_sound goods now d : keeps_sound d (rebuilt goods now d).
Proof.
  intros [? ? ? ? ? Hr]. constructor; [done..|]. intros g. destruct (Hr g); [left|by right]. apply rebuilt_exact. by right.
Qed.

Lemma upsert_after_query goods now {A} (k : Z * Z -> M review_db A) :
  (forall cs, steps keeps_sound (k cs)) ->
  steps keeps_sound (cs <- query (store.aggregate goods) ;; store.upsert_rating (store.rating_of goods now cs) ;;; k cs).
Proof.
  intros Hk s. unfold bind, query, store.upsert_rating, stmt at 1. pose proof (next_fault_db s) as E.
  destruct (next_fault s) as [[m|] s1]; cbn [fst snd] in *; rewrite <- E; [done|]. unfold stmt.
  pose proof (next_fault_db (Env (e_db s1) (e_faults s1))) as E1. cbn [e_db] in E1.
  destruct (next_fault (Env (e_db s1) (e_faults s1))) as [[m|] s2]; cbn [fst snd] in *; rewrite <- E1; [done|].
  intros Hs. apply Hk. by apply rebuilt_sound.
Qed.
Lemma store_RebuildRating_sound now goods actor request : steps keeps_sound (store.RebuildRating now goods actor request).
Proof. apply (upsert_after_query goods now). intros cs. unfold store.insert_audit. steps_go. by apply insert_quiet. Qed.

(** An event done: its goods' rating is rebuilt and it leaves the queue. *)
Definition done_event (now : Z) (event : OutboxEvent.t) (d : review_db) : review_db :=
  let d := rebuilt (OutboxEvent.GoodsID event) now d in
  set_rows t_events ((fun e => if OutboxEvent.ID e =? OutboxEvent.ID event then OutboxEvent.done_ now e else e) <$> event_rows d) d.
Lemma process_event_Ret now event s u s' :
  store.process_event now event s = (Ret u, s') -> e_db s' = done_event now event (e_db s).
Proof.
  intros H. unfold store.process_event in H. apply bind_Ret in H as (cs & s1 & [-> E1]%query_Ret & H).
  apply bind_Ret in H as (u1 & s2 & E2%upsert_rating_Ret & H). apply bind_Ret in H as (n & s3 & [_ E3]%update_where_Ret & H).
  injection H as <- <-. rewrite E3, E2, E1. done.
Qed.
(** A row of the event, whatever its status. *)
Definition known (d : review_db) (event : OutboxEvent.t) : Prop :=
  (OutboxEvent.ID event, OutboxEvent.GoodsID event) ∈ (fun e => (OutboxEvent.ID e, OutboxEvent.GoodsID e)) <$> event_rows d.
Lemma done_event_known now event d e : known (done_event now event d) e <-> known d e.
Proof. unfold known, done_event. cbn [event_rows set_rows t_events]. by rewrite fmap_update. Qed.
Lemma queue_done now event d :
  queue (done_event now event d) = List.filter (fun e => negb (OutboxEvent.ID e =? OutboxEvent.ID event)) (queue d).
Proof.
  unfold queue, done_event. cbn [event_rows set_rows t_events rebuilt put_rating t_ratings].
  induction (event_rows d) as [|e l IH]; [done|]. rewrite fmap_cons. cbn [List.filter]. rewrite IH.
  destruct (OutboxEvent.ID e =? OutboxEvent.ID event) eqn:Ei; destruct (waiting e) eqn:Ew; cbn [List.filter]; rewrite ?Ei; done.
Qed.
Lemma done_event_exact now event d g : exact (done_event now event d) g <-> g = OutboxEvent.GoodsID event \/ exact d g.
Proof. rewrite <- (rebuilt_exact _ now). done. Qed.
Lemma done_event_sound now event d : known d event -> keeps_sound d (done_event now event d).
Proof.
  intros Hk Hs. pose proof Hs as [? ? ? He Ht Hr].
  constructor; [done..| | |].
  - unfold done_event. cbn [event_rows set_rows t_events]. by rewrite fmap_update.
  - unfold done_event. cbn [event_rows set_rows t_events]. by apply Forall_update.
  - intros g. rewrite done_event_exact. destruct (Hr g) as [|Hq]; [tauto|].
    destruct (decide (g = OutboxEvent.GoodsID event)) as [|Hg]; [tauto|]. right. unfold queued in *. rewrite queue_done.
    apply list_elem_of_fmap in Hq as (e & -> & Hin). apply list_elem_of_fmap_2.
    apply list_elem_of_In, filter_In. split; [by apply list_elem_of_In|].
    destruct (Z.eqb_spec (OutboxEvent.ID e) (OutboxEvent.ID event)) as [Ei|]; [|done]. destruct Hg.
    apply list_elem_of_fmap in Hk as (e' & E & Hin'). injection E as E1 E2. rewrite E2. f_equal.
    apply list_elem_of_In, filter_In in Hin as [Hin _]. apply list_elem_of_In in Hin.
    eapply (NoDup_fmap_eq OutboxEvent.ID); [exact He|done|done|congruence].
Qed.
Lemma events_sound now l s u s' :
  for_each l (store.process_event now) s = (Ret u, s') -> Forall (known (e_db s)) l -> keeps_sound (e_db s) (e_db s').
Proof.
  revert s. induction l as [|e l IH]; intros s; [intros H; by injection H as _ <-|]. cbn [for_each].
  intros (u1 & s1 & H1%process_event_Ret & H)%bind_Ret [He Hl]%Forall_cons Hs. eapply IH; [exact H| |].
  - rewrite H1. eapply Forall_impl; [exact Hl|]. cbn. intros e'. apply done_event_known.
  - rewrite H1. by apply done_event_sound.
Qed.

Lemma page_prefix {A} limit (l : list A) : 0 < limit -> page 0 limit l = take (Z.to_nat limit) l.
Proof. intros H. unfold page. destruct (Z.leb_spec 0 limit); [done|lia]. Qed.
Lemma observe_quiet : steps keeps_sound store.observeReviewOutboxBacklog.
Proof. unfold store.observeReviewOutboxBacklog. steps_go. apply steps_count_where. exact _. Qed.
Lemma sweep_sound c now : steps keeps_sound (reviews.sweep c now).
Proof.
  unfold reviews.sweep, store.ProcessOutbox. cbv zeta. apply steps_bind; [exact _|exact observe_quiet|intros _].
  apply steps_bind; [exact _| |intros _; exact observe_quiet]. apply committed. intros s u s' H.
  apply bind_Ret in H as (events & s1 & [-> E]%select_where_Ret & H). rewrite <- E. eapply events_sound; [exact H|].
  rewrite E. apply Forall_forall. intros e He. apply list_elem_of_fmap_2 with (f := fun e => (OutboxEvent.ID e, OutboxEvent.GoodsID e)).
  unfold page in He. cbn [Z.ltb Z.compare] in He.
  assert (e ∈ List.filter (store.due now) (rows t_events (e_db s))) as Hin by (case_match; [apply elem_of_take in He as (i & Hi & _); by eapply list_elem_of_lookup_2|done]).
  by apply list_elem_of_In, filter_In in Hin as [?%list_elem_of_In _].
Qed.

(** ** Every request *)
Definition shop_sound (x x' : shop) : Prop := keeps_sound (review_tables x) (review_tables x').
#[local] Instance shop_sound_preorder : PreOrder shop_sound.
Proof. unfold shop_sound. split; red; unfold keeps_sound; auto. Qed.
Definition same_reviews (x x' : shop) : Prop := review_tables x' = review_tables x.
#[local] Instance same_reviews_preorder : PreOrder same_reviews.
Proof. unfold same_reviews. split; red; congruence. Qed.
Lemma on_reviews_sound {A} (m : M review_db A) : steps keeps_sound m -> steps shop_sound (on_reviews m).
Proof.
  intros H [[d w] f]. specialize (H (Env d f)). unfold on_reviews. cbn in *. destruct (m (Env d f)) as [r s']. done.
Qed.
Lemma same_reviews_sound x x' : same_reviews x x' -> shop_sound x x'.
Proof. unfold same_reviews, shop_sound, keeps_sound. by intros ->. Qed.
Lemma Get_quiet id : steps keeps_sound (store.Get id).
Proof. unfold store.Get, store.preload. steps_go; apply steps_select_first; exact _. Qed.

Lemma serve_sound verifier c :
  (forall user sn goods, steps same_reviews (verifier user sn goods)) -> steps shop_sound (serve verifier c).
Proof.
  intros Hv. destruct c; cbn [serve];
    (try (apply steps_bind; [exact _| |intros _; steps_go]));
    try (apply on_reviews_sound; apply steps_wrap_err, steps_bind; [exact _| |intros ?; steps_go]).
  - apply steps_wrap_err, steps_bind; [exact _| |intros ?; steps_go]. unfold reviews.Create. cbv zeta.
    set (bad := (_ || _)). destruct bad eqn:Eb; [intros s; done|]. apply steps_bind; [exact _|steps_go|intros _].
    apply steps_bind; [exact _|apply steps_weaken with (R := same_reviews); [exact same_reviews_sound|apply Hv]|].
    intros [e|]; [steps_go|]. apply steps_bind; [exact _| |intros id; apply on_reviews_sound, Get_quiet].
    apply on_reviews_sound, store_Create_sound. unfold bad in Eb. bprop. lia.
  - unfold reviews.Append. cbv zeta. steps_go; [apply store_Append_sound|apply Get_quiet].
  - unfold reviews.Moderate. cbv zeta. steps_go; [apply store_Moderate_sound|apply Get_quiet].
  - unfold reviews.Reply. cbv zeta. steps_go; [apply store_Reply_sound|apply Get_quiet].
  - apply Get_quiet.
  - unfold reviews.List, store.List. cbv zeta. steps_go; first [apply steps_select_where|apply steps_count_where]; exact _.
  - unfold reviews.GetRating, store.GetRating. steps_go. apply steps_select_first. exact _.
  - unfold reviews.RebuildRating. steps_go. apply store_RebuildRating_sound.
  - apply on_reviews_sound, sweep_sound.
Qed.

Lemma run_sound verifier h x :
  (forall user sn goods, steps same_reviews (verifier user sn goods)) ->
  sound (review_tables x) -> sound (review_tables (run verifier h x)).
Proof.
  intros Hv. revert x. induction h as [|[c faults] h IH]; intros x Hx; [done|]. apply IH.
  by apply (serve_sound verifier c Hv (Env x faults)).
Qed.
Lemma empty_sound : sound empty_review_db.
Proof. constructor; try constructor. done. Qed.

(** C12: after every history of requests and sweeps that run one after another,
    whatever faults met them and for every purchase check that leaves the reviews
    alone, the rating on record of each goods is the number, the sum and the
    average of its approved reviews, or an event that will rebuild it is waiting;
    and nobody reviewed the same line of the same order twice.  (A [RebuildRating]
    that another request overtakes between its read and its write is excluded, see
    [rebuild_overtaken].) *)
Theorem ratings_follow_reviews verifier h w :
  (forall user sn goods, steps same_reviews (verifier user sn goods)) ->
  let d := review_tables (run verifier h (Shop empty_review_db w)) in
  (forall goods, exact d goods \/ queued d goods) /\ NoDup (purchase <$> review_rows d).
Proof. intros Hv d. destruct (run_sound verifier h (Shop empty_review_db w) Hv empty_sound). done. Qed.

(** ** The sweeps *)
Lemma process_event_run now event d :
  store.process_event now event (Env d []) = (Ret tt, Env (done_event now event d) []).
Proof. done. Qed.
Lemma NoDup_queue d : sound d -> NoDup (OutboxEvent.ID <$> queue d).
Proof. intros H. apply NoDup_fmap_filter. apply H. Qed.
Lemma queue_known d e : e ∈ queue d -> known d e.
Proof.
  intros [Hin _]%list_elem_of_In%filter_In. apply list_elem_of_fmap_2 with (f := fun e => (OutboxEvent.ID e, OutboxEvent.GoodsID e)).
  by apply list_elem_of_In.
Qed.
Lemma queue_tail now e l d : sound d -> queue d = e :: l -> queue (done_event now e d) = l.
Proof.
  intros Hs E. rewrite queue_done, E. pose proof (NoDup_queue d Hs) as Hn. rewrite E in Hn. cbn in Hn.
  apply NoDup_cons in Hn as [He _]. cbn [List.filter]. rewrite Z.eqb_refl. cbn [negb].
  apply forallb_filter_id, forallb_forall. intros e' Hin. destruct (Z.eqb_spec (OutboxEvent.ID e') (OutboxEvent.ID e)) as [Ei|]; [|done].
  destruct He. rewrite <- Ei. apply list_elem_of_fmap_2. by apply list_elem_of_In.
Qed.
Lemma events_run now l rest d : sound d -> queue d = l ++ rest ->
  exists d', for_each l (store.process_event now) (Env d []) = (Ret tt, Env d' []) /\ sound d' /\ queue d' = rest /\
    review_rows d' = review_rows d.
Proof.
  revert d. induction l as [|e l IH]; intros d Hs Hq; [by exists d|]. cbn [for_each].
  erewrite bind_run by apply process_event_run. apply (IH (done_event now e d)); [|by apply queue_tail].
  apply done_event_sound; [|done]. apply queue_known. rewrite Hq. by left.
Qed.
Lemma due_waiting now d : sound d -> 0 <= now -> List.filter (store.due now) (event_rows d) = queue d.
Proof.
  intros Hs Hn. unfold queue. destruct Hs as [_ _ _ _ Ht _]. induction (event_rows d) as [|e l IH]; [done|].
  apply Forall_cons in Ht as [He Hl]. cbn [List.filter]. rewrite (IH Hl).
  assert (store.due now e = waiting e) as ->; [|done]. unfold store.due, waiting. rewrite He.
  pose proof (Z.div_pos now 1000000000 Hn ltac:(lia)). destruct (Z.leb_spec 0 (now `div` 1000000000)); [|lia]. apply Bool.andb_true_r.
Qed.
Definition batch (c : reviews.OutboxWorkerConfig) : Z := reviews.BatchSize (reviews.normalize c).
Lemma batch_pos c : 0 < batch c.
Proof. unfold batch, reviews.normalize. cbn. destruct (Z.leb_spec (reviews.BatchSize c) 0); lia. Qed.
Lemma observe_run d : store.observeReviewOutboxBacklog (Env d []) = (Ret tt, Env d []).
Proof. done. Qed.
Lemma rating_sweep_run c now d : sound d -> 0 <= now ->
  exists d', reviews.sweep c now (Env d []) = (Ret tt, Env d' []) /\ sound d' /\
    queue d' = drop (Z.to_nat (batch c)) (queue d) /\ review_rows d' = review_rows d.
Proof.
  intros Hs Hn. pose proof (batch_pos c) as Hb. unfold reviews.sweep, store.ProcessOutbox. fold (batch c).
  destruct (Z.leb_spec (batch c) 0) as [|_]; [lia|]. cbv zeta. erewrite bind_run by apply observe_run.
  destruct (events_run now (take (Z.to_nat (batch c)) (queue d)) (drop (Z.to_nat (batch c)) (queue d)) d Hs) as (d' & E & ? & ? & ?);
    [by rewrite take_drop|].
  exists d'. split; [|done]. erewrite bind_run; [exact (observe_run d')|]. apply transaction_run.
  erewrite bind_run by apply query_run. cbn [rows t_events]. by rewrite due_waiting, page_prefix.
Qed.
Lemma sweeps_run verifier c now k x : sound (review_tables x) -> 0 <= now ->
  let x' := run verifier (replicate k (Sweep c now, [])) x in
  sound (review_tables x') /\ queue (review_tables x') = drop (k * Z.to_nat (batch c)) (queue (review_tables x)) /\
  review_rows (review_tables x') = review_rows (review_tables x).
Proof.
  intros Hs Hn. revert x Hs. induction k as [|k IH]; intros [d w] Hs; [by cbn; rewrite drop_0|].
  cbn [replicate run serve]. unfold on_reviews. cbn [e_db e_faults review_tables] in *.
  destruct (rating_sweep_run c now d Hs Hn) as (d' & -> & Hs' & Hq & Hr). cbn [snd e_db].
  destruct (IH (Shop d' (shop_world (Shop d w))) Hs') as (? & Hq' & Hr'). split; [done|].
  cbn [review_tables] in *. rewrite Hq', Hr', Hq, Hr, drop_drop. done.
Qed.

(** ** What a reader of the rating gets *)
Lemma sum_bounds (l : list Review.t) : Forall (fun r => 1 <= Review.Rating r <= 5) l ->
  Z.of_nat (length l) <= foldr Z.add 0 (Review.Rating <$> l) <= 5 * Z.of_nat (length l).
Proof. induction 1 as [|r l Hr Hl IH]; [done|]. cbn. unfold fmap in *. lia. Qed.
Lemma average_exact n sum : 0 < n < 2 ^ 31 -> n <= sum <= 5 * n ->
  wrap32 (Z.quot (wrap64 (sum * 1000)) n) = sum * 1000 / n /\ 1000 <= sum * 1000 / n <= 5000.
Proof.
  intros Hn Hs. assert (1000 <= sum * 1000 / n <= 5000) as Hb.
  { split; [apply Z.div_le_lower_bound; lia|apply Z.div_le_upper_bound; lia]. }
  split; [|done]. rewrite wrap64_id by (unfold is_int64, int64_min, int64_max; lia).
  rewrite Z.quot_div_nonneg by lia. apply wrap32_id. unfold is_int32, int32_min, int32_max. lia.
Qed.
Definition stars_of (goods : Z) (d : review_db) : list Z := Review.Rating <$> List.filter (store.approved goods) (review_rows d).

(** C13: after every history of requests and sweeps that ran one after another,
    once the database answers, enough sweeps to work off the queue make every
    rating right: the reader of a rating gets the number of approved reviews
    (fewer than 2^31), their sum and their average in thousandths, between 1000
    and 5000, and not-found only for a goods without approved reviews.  The
    reviews themselves stay as they were.  (As above, no request overtakes a
    [RebuildRating].) *)
Theorem ratings_converge verifier h w c now k goods :
  (forall user sn goods, steps same_reviews (verifier user sn goods)) ->
  let x := run verifier h (Shop empty_review_db w) in
  let d := review_tables x in
  let d' := review_tables (run verifier (replicate k (Sweep c now, [])) x) in
  let approved := stars_of goods d in
  let n := Z.of_nat (length approved) in
  let sum := foldr Z.add 0 approved in
  0 <= now -> 0 < goods -> Z.of_nat (length (queue d)) <= Z.of_nat k * batch c -> n < 2 ^ 31 ->
  review_rows d' = review_rows d /\
  match (reviewServer.GetRating goods (Env d' [])).1 with
  | Ret r => rpb.ApprovedCount r = n /\ rpb.RatingSum r = sum /\
             (0 < n -> rpb.AverageMilli r = sum * 1000 / n /\ 1000 <= rpb.AverageMilli r <= 5000)
  | Fail e => e = Status codes.NotFound "review not found" [] /\ n = 0
  | Panic _ => False
  end.
Proof.
  intros Hv x d d' approved n sum Hnow Hg Hk Hn.
  pose proof (run_sound verifier h (Shop empty_review_db w) Hv empty_sound) as Hs. fold x d in Hs.
  destruct (sweeps_run verifier c now k x Hs Hnow) as (Hs' & Hq & Hr). fold d d' in Hq, Hr, Hs'. split; [done|].
  pose proof (batch_pos c). rewrite drop_ge in Hq by nia.
  destruct (rated d' Hs' goods) as [Hx|Hx]; [|unfold queued in Hx; rewrite Hq in Hx; by apply elem_of_nil in Hx].
  assert (store.aggregate goods d' = (n, sum)) as Ha.
  { unfold store.aggregate. rewrite Hr. unfold n, sum, approved, stars_of. by rewrite length_fmap. }
  unfold exact in Hx. rewrite Ha in Hx. unfold reviewServer.GetRating, reviewServer.reply_with, reviews.GetRating, store.GetRating.
  assert ((goods <=? 0) = false) as -> by lia. cbv [wrap_err bind fail_if first_or_fail select_first query stmt next_fault ret fail].
  cbn [e_faults e_db rows t_ratings]. fold (rating goods d'). destruct (rating goods d') as [r|].
  - rewrite Hx. cbn. split; [done|]. split; [done|]. intros Hpos. destruct (Z.ltb_spec 0 n); [|lia].
    destruct (average_exact n sum ltac:(lia)) as [-> ?]; [|done]. unfold n, sum, approved, stars_of. rewrite length_fmap.
    apply sum_bounds. apply Forall_forall. intros r' [Hin _]%list_elem_of_In%filter_In. destruct Hs as [_ _ Hst _ _ _].
    rewrite Forall_forall in Hst. by apply Hst, list_elem_of_In.
  - cbn. split; [|by injection Hx]. done.
Qed.

(** ** Examples *)
Definition accepts : purchase_check := fun _ _ _ => ret None.
Definition second (n : Z) : Z := n * 1000000000.
Definition demo_create (user stars : Z) : call :=
  CreateReview (second 1) (rpb.MkCreateReviewRequest user " S1 " 7 stars "good").
Definition demo_approve (id : Z) : call := ModerateReview (second 2) (rpb.MkModerateReviewRequest id "approved" 9 "req" "").
Definition demo_sweep : call := Sweep (reviews.MkOutboxWorkerConfig 0 0 1) (second 3).
Definition calm (h : list call) : list (call * list (option string)) := (fun c => (c, [])) <$> h.
Definition empty_world : world := World empty_order_db empty_db.
Definition demo_shop : shop := Shop empty_review_db empty_world.
Definition demo_history : list (call * list (option string)) :=
  calm [demo_create 1 5; demo_create 2 2; demo_create 3 4; demo_create 2 3; demo_approve 1; demo_approve 2; demo_approve 2] ++
  [(demo_sweep, [None; None; None; Some "deadlock"])].

Lemma accepts_reads user sn goods : steps same_reviews (accepts user sn goods).
Proof. intros s. done. Qed.
Lemma ratings_follow_reviews_witness :
  let d := review_tables (run accepts demo_history demo_shop) in
  (forall goods, exact d goods \/ queued d goods) /\ NoDup (purchase <$> review_rows d).
Proof. exact (ratings_follow_reviews accepts demo_history empty_world accepts_reads). Defined.
Lemma ratings_converge_witness :
  let x := run accepts demo_history demo_shop in
  length (queue (review_tables x)) = 2%nat /\
  (reviewServer.GetRating 7 (Env (review_tables x) [])).1 = Fail (Status codes.NotFound "review not found" []) /\
  let d' := review_tables (run accepts (replicate 2 (demo_sweep, [])) x) in
  review_rows d' = review_rows (review_tables x) /\
  match (reviewServer.GetRating 7 (Env d' [])).1 with
  | Ret r => rpb.ApprovedCount r = 2 /\ rpb.RatingSum r = 7 /\ (0 < 2 -> rpb.AverageMilli r = 3500 /\ 1000 <= rpb.AverageMilli r <= 5000)
  | Fail e => e = Status codes.NotFound "review not found" [] /\ 2 = 0
  | Panic _ => False
  end.
Proof.
  split; [vm_compute; reflexivity|]. split; [vm_compute; reflexivity|].
  exact (ratings_converge accepts demo_history empty_world (reviews.MkOutboxWorkerConfig 0 0 1) (second 3) 2 7 accepts_reads
           ltac:(vm_compute; discriminate) ltac:(lia) ltac:(vm_compute; discriminate) ltac:(vm_compute; reflexivity)).
Defined.

(** ** A rebuild overtaken

    [RebuildRating] reads the sums and writes the rating in statements of their own. *)
Definition overtaken : review_db * review_db :=
  let x0 := run accepts (calm [demo_create 1 5; demo_create 2 2; demo_approve 1; demo_sweep]) demo_shop in
  let x1 := run accepts (calm [demo_approve 2; demo_sweep]) x0 in
  let '(read, _) := query (store.aggregate 7) (Env (review_tables x0) []) in
  match read with
  | Ret cs => (review_tables x1, e_db (store.rebuild_with (second 4) 7 9 "rebuild" cs (Env (review_tables x1) [])).2)
  | _ => (review_tables x1, review_tables x1)
  end.

(** A rebuild an operator asks for can leave a rating wrong for good: when a review is
    approved and swept between its read and its write, the sums it read before are
    written over the right ones, and no event is left to repair them. *)
Theorem rebuild_overtaken :
  exact overtaken.1 7 /\ queue overtaken.2 = [] /\ ~ exact overtaken.2 7 /\
  reviewServer.ratingResponse <$> rating 7 overtaken.2 = Some (rpb.MkRatingResponse 7 1 5 5000 4) /\ stars_of 7 overtaken.2 = [5; 2].
Proof.
  split; [vm_compute; reflexivity|]. split; [vm_compute; reflexivity|].
  split; [|split; vm_compute; reflexivity]. vm_compute. discriminate.
Qed.

(** ** The service as it is wired

    [rpc.go] hands the service an [OrderVerifier] on the order service's client. *)
Section Deployed.
Context `{G : grpc_status} (format_time : Z -> string).
Context (sql_carts : list (string * bool) -> list ShoppingCartDO.t -> list ShoppingCartDO.t).
Context (sql_orders : list (string * bool) -> list OrderInfoDO.t -> list OrderInfoDO.t).
Context (clock : string -> Z) (grpcServer : option string) (dtm : submit.saga -> M order_db unit).
Definition order_verifier : purchase_check := fun user sn goods =>
  on_world (reviews.OrderVerifier.VerifyCompleted (Some (server_orders format_time sql_carts sql_orders clock grpcServer dtm)) user sn goods).

Lemma order_verifier_refuses user sn goods s :
  exists s', order_verifier user sn goods s = (Ret (Some reviews.ErrPurchaseRequired), s') /\ e_db s' = e_db s.
Proof.
  unfold order_verifier, on_world, reviews.OrderVerifier.VerifyCompleted.
  destruct (GetOrderBySn_fails format_time sql_carts sql_orders clock grpcServer dtm sn (Env (shop_world (e_db s)) (e_faults s)))
    as (e & s' & E & Es).
  erewrite bind_run by (apply attempt_Fail; exact E). cbn. eexists. split; [reflexivity|]. cbn. rewrite Es. by destruct (e_db s).
Qed.

(** A request for a review that is in order: a user, a goods, one to five stars, an order
    number and a text of at most 2000 bytes, blanks around them aside. *)
Definition well_formed_request (r : rpb.CreateReviewRequest) : Prop :=
  0 < rpb.CUserId r /\ 0 < rpb.CGoodsId r /\ 1 <= rpb.CRating r <= 5 /\ TrimSpace (rpb.COrderSn r) <> "" /\
  0 < Z.of_nat (slength (TrimSpace (rpb.CContent r))) <= 2000.

Lemma request_checked r :
  let content := TrimSpace (rpb.CContent r) in
  ((rpb.CUserId r <=? 0) || (rpb.CGoodsId r <=? 0) || (rpb.CRating r <? 1) || (5 <? rpb.CRating r) ||
   seqb (TrimSpace (rpb.COrderSn r)) "" || seqb content "" || reviews.too_long content) = false <-> well_formed_request r.
Proof.
  intros content. unfold well_formed_request, reviews.too_long, seqb. fold content.
  rewrite !orb_false_iff, !Z.leb_gt, !Z.ltb_ge, !bool_decide_eq_false.
  assert (content <> "" <-> 0 < Z.of_nat (slength content)) as Hc; [|intuition lia].
  destruct content; cbn; [split; [done|lia]|split; [lia|done]].
Qed.

(** C39: In the system as it is wired no review is ever created: the check of the purchase
    asks the order service for the order by its number, which that service does not
    implement.  So a request that names a user, a goods and an order, gives one to five
    stars and a text of at most 2000 bytes is refused with "completed purchase
    required", every other request with "invalid review request", in every state of the
    shop and under every fault, and neither changes anything. *)
Theorem reviews_never_created now r x faults :
  let run := reviewServer.CreateReview order_verifier now r (Env x faults) in
  e_db run.2 = x /\
  (well_formed_request r -> run.1 = Fail (Status codes.FailedPrecondition "completed purchase required" [])) /\
  (~ well_formed_request r -> run.1 = Fail (Status codes.InvalidArgument "invalid review request" [])).
Proof.
  set (Q := fun y : outcome rpb.ReviewResponse * env shop => e_db y.2 = x /\
    (well_formed_request r -> y.1 = Fail (Status codes.FailedPrecondition "completed purchase required" [])) /\
    (~ well_formed_request r -> y.1 = Fail (Status codes.InvalidArgument "invalid review request" []))).
  change (Q (reviewServer.CreateReview order_verifier now r (Env x faults))).
  pose proof (request_checked r) as Hr. cbv zeta in Hr.
  unfold reviewServer.CreateReview, reviewServer.reply_with, wrap_err, reviews.Create. cbv zeta.
  set (bad := (_ || _)) in *. destruct bad.
  { split; [done|]. split; [intros H; by apply Hr in H|done]. }
  unfold bind at 1 2, fail_if, ret at 1.
  destruct (order_verifier_refuses (rpb.CUserId r) (TrimSpace (rpb.COrderSn r)) (rpb.CGoodsId r) (Env x faults)) as (s' & E & Es).
  erewrite bind_run by exact E. split; [done|]. split; [done|]. intros H. destruct H. by apply Hr.
Qed.
End Deployed.

Lemma reviews_never_created_witness :
  (reviewServer.CreateReview (order_verifier (G := demo_status) (fun _ => "") (fun _ l => l) (fun _ l => l) (fun _ => 1000)
     (Some "dtm") (fun _ => ret tt)) 5 (rpb.MkCreateReviewRequest 1 " S1 " 7 5 "good") (Env demo_shop [Some "lost"])).1
  = Fail (Status codes.FailedPrecondition "completed purchase required" []).
Proof.
  apply (reviews_never_created (G := demo_status) (fun _ => "") (fun _ l => l) (fun _ l => l) (fun _ => 1000)
    (Some "dtm") (fun _ => ret tt) 5 (rpb.MkCreateReviewRequest 1 " S1 " 7 5 "good") demo_shop [Some "lost"]).
  vm_compute. repeat split; try discriminate.
Defined.
